(** * Social metric dashboard: the ingestion, merge and aggregation core

    A shallow embedding of [src/lib/metrics.ts].  The conventions of the
    embedding:

    - a finite JavaScript number is a rational ([Q]); a number that may
      be [NaN] or an infinity (a result of [Number(...)], an argument of
      [Date.UTC]) is a [JsNumber.t], and the two zeros are one value.
      What [Number(...)] reads from a string and what [+] and [*] return
      on [JsNumber.t] is rounded to the nearest double ([Binary64.round]);
      the arithmetic on the counters of the records (their sums, rates
      and averages) is exact;
    - the [Date] held by a record (a day of a [DailyMetric], the creation
      time of a post) is represented by its time value, the number of
      milliseconds since 1970-01-01T00:00:00Z ([Z]).  The calendar fields
      come from the ECMAScript date algorithms ([JsDate]).  A [Date] that
      may be the [Invalid Date] is a [DateObject.t]; it is what the date
      parsers return and what a post holds when the row mapper pushes it
      ([RawPost.t]);
    - a JavaScript [Map] is an association list in insertion order
      ([JsMap]), because [Map.prototype.values] iterates in that order;
    - [Array.prototype.sort] is a stable sort ([sortBy]);
    - a string is a [string] of 8-bit characters: white space and letter
      case are those of ASCII;
    - what the module imports from elsewhere ([csv-parse], [Date.parse],
      the local time zone, [formatMonthLabel]) is a [Variable] of the
      section that uses it. *)

From Stdlib Require Import ZArith QArith Qminmax Qround Qabs Qpower Lia Lqa.
From Stdlib Require Import Qreduction Qcanon Bool List.
From Stdlib Require Import Ascii String DecimalString DecimalZ DecimalPos.
From Stdlib Require Import Sorted Permutation.
Import ListNotations.

Local Open Scope Z_scope.

(* ------------------------------------------------------------------ *)
(** ** Time values: the ECMAScript date algorithms                     *)
(* ------------------------------------------------------------------ *)

Module JsDate.

Definition msPerDay : Z := 86400000.
Definition msPerHour : Z := 3600000.
Definition msPerMinute : Z := 60000.
Definition msPerSecond : Z := 1000.

Definition Day (t : Z) : Z := t / msPerDay.
Definition TimeWithinDay (t : Z) : Z := t mod msPerDay.

Definition DayFromYear (y : Z) : Z :=
  365 * (y - 1970) + (y - 1969) / 4 - (y - 1901) / 100 + (y - 1601) / 400.

Definition isLeapYear (y : Z) : bool :=
  if negb (y mod 4 =? 0) then false
  else if negb (y mod 100 =? 0) then true
  else (y mod 400 =? 0).

Definition DaysInYear (y : Z) : Z := if isLeapYear y then 366 else 365.

(** [YearFromTime t] is the largest [y] with [DayFromYear y <= Day t]:
    an estimate from the mean year length, corrected by at most one. *)
Definition YearFromDay (d : Z) : Z :=
  let y0 := 1970 + (d * 400) / 146097 in
  if DayFromYear (y0 + 1) <=? d then y0 + 1
  else if DayFromYear y0 <=? d then y0
  else y0 - 1.

Definition YearFromTime (t : Z) : Z := YearFromDay (Day t).

Definition DayWithinYear (t : Z) : Z := Day t - DayFromYear (YearFromTime t).

Definition InLeapYear (t : Z) : Z :=
  if isLeapYear (YearFromTime t) then 1 else 0.

(** Number of days of the year before month [m] (0 = January). *)
Definition daysBeforeMonth (leap : Z) (m : Z) : Z :=
  match m with
  | 0 => 0
  | 1 => 31
  | 2 => 59 + leap
  | 3 => 90 + leap
  | 4 => 120 + leap
  | 5 => 151 + leap
  | 6 => 181 + leap
  | 7 => 212 + leap
  | 8 => 243 + leap
  | 9 => 273 + leap
  | 10 => 304 + leap
  | _ => 334 + leap
  end.

Definition MonthFromTime (t : Z) : Z :=
  let d := DayWithinYear t in
  let leap := InLeapYear t in
  if d <? 31 then 0
  else if d <? 59 + leap then 1
  else if d <? 90 + leap then 2
  else if d <? 120 + leap then 3
  else if d <? 151 + leap then 4
  else if d <? 181 + leap then 5
  else if d <? 212 + leap then 6
  else if d <? 243 + leap then 7
  else if d <? 273 + leap then 8
  else if d <? 304 + leap then 9
  else if d <? 334 + leap then 10
  else 11.

Definition DateFromTime (t : Z) : Z :=
  DayWithinYear t - daysBeforeMonth (InLeapYear t) (MonthFromTime t) + 1.

Definition WeekDay (t : Z) : Z := (Day t + 4) mod 7.
Definition HourFromTime (t : Z) : Z := (t / msPerHour) mod 24.
Definition MinFromTime (t : Z) : Z := (t / msPerMinute) mod 60.
Definition SecFromTime (t : Z) : Z := (t / msPerSecond) mod 60.
Definition msFromTime (t : Z) : Z := t mod msPerSecond.

Definition MakeTime (hour min sec ms : Z) : Z :=
  hour * msPerHour + min * msPerMinute + sec * msPerSecond + ms.

Definition MakeDay (year month date : Z) : Z :=
  let ym := year + month / 12 in
  let mn := month mod 12 in
  DayFromYear ym + daysBeforeMonth (if isLeapYear ym then 1 else 0) mn
  + date - 1.

Definition MakeDate (day time : Z) : Z := day * msPerDay + time.

(** [TimeClip]: [None] stands for [NaN], the time value of an
    [Invalid Date]. *)
Definition TimeClip (t : Z) : option Z :=
  if Z.abs t <=? 8640000000000000 then Some t else None.

End JsDate.

(* ------------------------------------------------------------------ *)
(** ** Strings                                                         *)
(* ------------------------------------------------------------------ *)

Module JsString.
Local Open Scope string_scope.

(** [String(n)] for an integer [n]. *)
Definition string_of_Z (z : Z) : string := NilZero.string_of_int (Z.to_int z).

Fixpoint repeat_char (c : ascii) (n : nat) : string :=
  match n with
  | O => EmptyString
  | S n' => String c (repeat_char c n')
  end.

(** [s.padStart(n, c)] for a one-character filler. *)
Definition padStart (n : nat) (c : ascii) (s : string) : string :=
  repeat_char c (n - String.length s) ++ s.

Definition pad2 (z : Z) : string := padStart 2 "0" (string_of_Z z).

(** [a.localeCompare(b)]: on the characters of a month key (digits and
    the hyphen) the collation order is the order of the character codes,
    compared left to right. *)
Definition localeCompare (a b : string) : Z :=
  match String.compare a b with
  | Lt => -1
  | Eq => 0
  | Gt => 1
  end.

(** White space of [trim] and of [\s] (the 8-bit part of it). *)
Definition isWhiteSpace (c : ascii) : bool :=
  match nat_of_ascii c with
  | 9%nat | 10%nat | 11%nat | 12%nat | 13%nat | 32%nat => true
  | _ => false
  end.

Fixpoint trimStart (s : string) : string :=
  match s with
  | String c s' => if isWhiteSpace c then trimStart s' else s
  | EmptyString => EmptyString
  end.

Fixpoint trimEnd (s : string) : string :=
  match s with
  | EmptyString => EmptyString
  | String c s' =>
      match trimEnd s' with
      | EmptyString => if isWhiteSpace c then EmptyString else String c EmptyString
      | rest => String c rest
      end
  end.

Definition trim (s : string) : string := trimEnd (trimStart s).

(** [s.split(c)] for a one-character separator: at least one piece. *)
Fixpoint split (sep : ascii) (s : string) : list string :=
  match s with
  | EmptyString => [EmptyString]
  | String c s' =>
      if Ascii.eqb c sep then EmptyString :: split sep s'
      else match split sep s' with
           | piece :: pieces => String c piece :: pieces
           | [] => [String c EmptyString]
           end
  end.

(** [s.split(/\s+/)]: the pieces between runs of white space;
    [inRun] tells that the previous character was white space. *)
Fixpoint splitRuns (inRun : bool) (s : string) : list string :=
  match s with
  | EmptyString => [EmptyString]
  | String c s' =>
      if isWhiteSpace c then
        if inRun then splitRuns true s' else EmptyString :: splitRuns true s'
      else match splitRuns false s' with
           | piece :: pieces => String c piece :: pieces
           | [] => [String c EmptyString]
           end
  end.

Definition splitWhiteSpace (s : string) : list string := splitRuns false s.

(** [s.includes(c)] for a one-character needle. *)
Fixpoint includes (c : ascii) (s : string) : bool :=
  match s with
  | EmptyString => false
  | String c' s' => Ascii.eqb c' c || includes c s'
  end.

(** [s.replace(/c/g, "")] for one character. *)
Fixpoint removeAll (c : ascii) (s : string) : string :=
  match s with
  | EmptyString => EmptyString
  | String c' s' =>
      if Ascii.eqb c' c then removeAll c s' else String c' (removeAll c s')
  end.

Definition mapChars (f : ascii -> ascii) : string -> string :=
  fix go (s : string) : string :=
    match s with
    | EmptyString => EmptyString
    | String c s' => String (f c) (go s')
    end.

Definition upperChar (c : ascii) : ascii :=
  let n := nat_of_ascii c in
  if (97 <=? n)%nat && (n <=? 122)%nat then ascii_of_nat (n - 32) else c.

Definition lowerChar (c : ascii) : ascii :=
  let n := nat_of_ascii c in
  if (65 <=? n)%nat && (n <=? 90)%nat then ascii_of_nat (n + 32) else c.

(** [toUpperCase] and [toLowerCase] on the letters A to Z. *)
Definition toUpperCase : string -> string := mapChars upperChar.
Definition toLowerCase : string -> string := mapChars lowerChar.

End JsString.

(** [toMonthKey] and [toDayKey] of the source, on a time value. *)
Definition toMonthKey (date : Z) : string :=
  let year := JsDate.YearFromTime date in
  let month := JsString.pad2 (JsDate.MonthFromTime date + 1) in
  (JsString.string_of_Z year ++ "-" ++ month)%string.

Definition toDayKey (date : Z) : string :=
  let year := JsDate.YearFromTime date in
  let month := JsString.pad2 (JsDate.MonthFromTime date + 1) in
  let day := JsString.pad2 (JsDate.DateFromTime date) in
  (JsString.string_of_Z year ++ "-" ++ month ++ "-" ++ day)%string.

(* ------------------------------------------------------------------ *)
(** ** Numbers and their parsing                                       *)
(* ------------------------------------------------------------------ *)

(** [a > b] on finite numbers. *)
Definition Qgtb (a b : Q) : bool := negb (Qle_bool a b).

(** The doubles (IEEE 754 binary64) among the rationals, and the rounding
    of a rational to the nearest of them, a tie going to the one with an
    even significand.  Around [q] the doubles are the multiples of
    [2^ulpExponent q]: 53 significant bits, and no spacing finer than
    [2^-1074]. *)
Module Binary64.
Local Open Scope Q_scope.

(** The integer part of the binary logarithm of [|q|], for [q] not 0. *)
Definition exponentOf (q : Q) : Z :=
  let e := (Z.log2 (Z.abs (Qnum q)) - Z.log2 (Z.pos (Qden q)))%Z in
  if Qle_bool (2 ^ e) (Qabs q) then e else (e - 1)%Z.

(** The integer nearest to [q]; of two that are as near, the even one. *)
Definition nearestEven (q : Q) : Z :=
  let f := Qfloor q in
  match Qcompare (q - inject_Z f) (1 # 2) with
  | Lt => f
  | Gt => (f + 1)%Z
  | Eq => if Z.even f then f else (f + 1)%Z
  end.

Definition ulpExponent (q : Q) : Z := Z.max (exponentOf q - 52) (-1074).

(** The double nearest to [q]; [None] when that is beyond the greatest
    double, where the engine gives an infinity. *)
Definition round (q : Q) : option Q :=
  if Qeq_bool q 0 then Some 0
  else
    let k := ulpExponent q in
    let v := Qred (inject_Z (nearestEven (q / 2 ^ k)) * 2 ^ k) in
    if Qle_bool (2 ^ 1024) (Qabs v) then None else Some v.
End Binary64.

(** A JavaScript number: [NaN], an infinity, or a finite value. *)
Module JsNumber.
Inductive t :=
| NaN
| Infinity (negative : bool)
| Fin (q : Q).

Definition isNaN (n : t) : bool :=
  match n with NaN => true | _ => false end.

Definition isFinite (n : t) : bool :=
  match n with Fin _ => true | _ => false end.

Definition Qsign_neg (q : Q) : bool := Qgtb 0 q.

(** The number that the engine makes of the exact value [q]. *)
Definition ofQ (q : Q) : t :=
  match Binary64.round q with
  | Some v => Fin v
  | None => Infinity (Qsign_neg q)
  end.

(** [a + b] *)
Definition add (a b : t) : t :=
  match a, b with
  | NaN, _ | _, NaN => NaN
  | Infinity s, Infinity s' => if Bool.eqb s s' then Infinity s else NaN
  | Infinity s, Fin _ | Fin _, Infinity s => Infinity s
  | Fin x, Fin y => ofQ (x + y)
  end.

(** [a * b] *)
Definition mul (a b : t) : t :=
  match a, b with
  | NaN, _ | _, NaN => NaN
  | Infinity s, Infinity s' => Infinity (xorb s s')
  | Infinity s, Fin q | Fin q, Infinity s =>
      if Qeq_bool q 0 then NaN else Infinity (xorb s (Qsign_neg q))
  | Fin x, Fin y => ofQ (x * y)
  end.

(** [a < b] *)
Definition ltb (a b : t) : bool :=
  match a, b with
  | NaN, _ | _, NaN => false
  | Infinity s, Infinity s' => s && negb s'
  | Infinity s, Fin _ => s
  | Fin _, Infinity s => negb s
  | Fin x, Fin y => Qgtb y x
  end.

(** [a === b] *)
Definition eqb (a b : t) : bool :=
  match a, b with
  | Infinity s, Infinity s' => Bool.eqb s s'
  | Fin x, Fin y => Qeq_bool x y
  | _, _ => false
  end.

(** [!n] *)
Definition falsy (n : t) : bool :=
  match n with
  | NaN => true
  | Infinity _ => false
  | Fin q => Qeq_bool q 0
  end.

(** The integer part of a finite number, towards zero. *)
Definition truncate (q : Q) : Z := Z.quot (Qnum q) (Z.pos (Qden q)).

Definition of_Z (z : Z) : t := Fin (inject_Z z).
End JsNumber.

Module NumberParser.

Definition digitValue (base : Z) (c : ascii) : option Z :=
  let n := Z.of_nat (nat_of_ascii c) in
  let v :=
    if (48 <=? n) && (n <=? 57) then n - 48
    else if (97 <=? n) && (n <=? 102) then n - 87
    else if (65 <=? n) && (n <=? 70) then n - 55
    else 99 in
  if v <? base then Some v else None.

(** The longest prefix of decimal digits ([DecimalDigits]), as the
    number it denotes and its length, and the rest of the string. *)
Fixpoint takeDigits (acc : Z) (len : Z) (s : string) : Z * Z * string :=
  match s with
  | EmptyString => (acc, len, s)
  | String c s' =>
      match digitValue 10 c with
      | Some d => takeDigits (10 * acc + d) (len + 1) s'
      | None => (acc, len, s)
      end
  end.

(** A whole string of digits in [base], at least one. *)
Fixpoint allDigits (base : Z) (acc : option Z) (s : string) : option Z :=
  match s with
  | EmptyString => acc
  | String c s' =>
      match digitValue base c with
      | Some d =>
          allDigits base
            (Some (base * match acc with Some a => a | None => 0 end + d)) s'
      | None => None
      end
  end.

Definition splitSign (s : string) : bool * string :=
  match s with
  | String "+" r => (false, r)
  | String "-" r => (true, r)
  | _ => (false, s)
  end.

(** [ExponentPart], which must end the literal; none is exponent 0. *)
Definition exponentPart (s : string) : option Z :=
  match s with
  | EmptyString => Some 0
  | String c r =>
      if Ascii.eqb c "e" || Ascii.eqb c "E" then
        let '(neg, digits) := splitSign r in
        match takeDigits 0 0 digits with
        | (e, len, EmptyString) =>
            if 0 <? len then Some (if neg then - e else e) else None
        | _ => None
        end
      else None
  end.

(** [m * 10^e] as a reduced fraction. *)
Definition scale10 (m e : Z) : Q :=
  Qred (if 0 <=? e then inject_Z (m * 10 ^ e)
        else m # Z.to_pos (10 ^ (- e))).

Definition StrDecimalLiteral (s : string) : JsNumber.t :=
  let '(neg, body) := splitSign s in
  if String.eqb body "Infinity" then JsNumber.Infinity neg
  else
    let '(ip, ilen, r1) := takeDigits 0 0 body in
    let '(m, flen, r2) :=
      match r1 with
      | String "." r =>
          let '(m, len, r2) := takeDigits ip ilen r in (m, len - ilen, r2)
      | _ => (ip, 0, r1)
      end in
    if (ilen + flen =? 0) then JsNumber.NaN
    else match exponentPart r2 with
         | Some e => JsNumber.ofQ (scale10 (if neg then - m else m) (e - flen))
         | None => JsNumber.NaN
         end.

Definition NonDecimalIntegerLiteral (s : string) : option JsNumber.t :=
  match s with
  | String "0" (String p r) =>
      let based base :=
        Some (match allDigits base None r with
              | Some v => JsNumber.ofQ (inject_Z v)
              | None => JsNumber.NaN
              end) in
      if Ascii.eqb p "x" || Ascii.eqb p "X" then based 16
      else if Ascii.eqb p "o" || Ascii.eqb p "O" then based 8
      else if Ascii.eqb p "b" || Ascii.eqb p "B" then based 2
      else None
  | _ => None
  end.
End NumberParser.

(** [Number(s)] for a string: white space around the literal is dropped,
    the empty string is 0, what is no numeric literal is [NaN], and the
    value of a literal is rounded to the nearest double, every digit of
    the literal counting, as in V8. *)
Definition Number_ (s : string) : JsNumber.t :=
  let t := JsString.trim s in
  if String.eqb t "" then JsNumber.of_Z 0
  else match NumberParser.NonDecimalIntegerLiteral t with
       | Some n => n
       | None => NumberParser.StrDecimalLiteral t
       end.

(* ------------------------------------------------------------------ *)
(** ** [Date] objects and the date parsers                             *)
(* ------------------------------------------------------------------ *)

Module DateObject.
(** A [Date] is a time value or the [Invalid Date]. *)
Inductive t :=
| at_ (time : Z)
| Invalid.

Definition getTime (d : t) : JsNumber.t :=
  match d with
  | at_ time => JsNumber.of_Z time
  | Invalid => JsNumber.NaN
  end.

(** [new Date(value)] for a number: [TimeClip], which refuses what is
    not finite or beyond 8.64e15 ms and drops the fraction. *)
Definition ofNumber (value : JsNumber.t) : t :=
  match value with
  | JsNumber.Fin q =>
      if Qle_bool (Qabs q) (inject_Z 8640000000000000)
      then at_ (JsNumber.truncate q)
      else Invalid
  | _ => Invalid
  end.
End DateObject.

(** [Date.UTC(year, month, date, hours, minutes)]: every argument is
    cut to an integer, a year in 0..99 counts from 1900, and the result is
    [NaN] when an argument is not finite or the time is out of range. *)
Definition Date_UTC (year month date hours minutes : JsNumber.t) : JsNumber.t :=
  match year, month, date, hours, minutes with
  | JsNumber.Fin y, JsNumber.Fin m, JsNumber.Fin d,
    JsNumber.Fin h, JsNumber.Fin mi =>
      let yi := JsNumber.truncate y in
      let yr := if (0 <=? yi) && (yi <=? 99) then 1900 + yi else yi in
      let day := JsDate.MakeDay yr (JsNumber.truncate m) (JsNumber.truncate d) in
      let time :=
        JsDate.MakeTime (JsNumber.truncate h) (JsNumber.truncate mi) 0 0 in
      match JsDate.TimeClip (JsDate.MakeDate day time) with
      | Some tv => JsNumber.of_Z tv
      | None => JsNumber.NaN
      end
  | _, _, _, _, _ => JsNumber.NaN
  end.

(** A value of type [unknown], as far as the parsers tell values apart. *)
Inductive unknown :=
| U_null
| U_undefined
| U_boolean (b : bool)
| U_number (n : JsNumber.t)
| U_string (s : string)
| U_Date (d : DateObject.t).

(** [!value] *)
Definition falsy (value : unknown) : bool :=
  match value with
  | U_null | U_undefined => true
  | U_boolean b => negb b
  | U_number n => JsNumber.falsy n
  | U_string s => String.eqb s ""
  | U_Date _ => false
  end.

Inductive DateFormat := MDY | DMY.

(** LinkedIn export uses MM/DD/YYYY in most locales. *)
Definition LINKEDIN_DATE_FORMAT : DateFormat := MDY.

Section DateParsers.
(** [new Date(s).getTime()] for a string [s]: the time value that the
    engine's [Date.parse] reads from [s], [NaN] when it reads none. *)
Variable Date_parse : string -> JsNumber.t.

Definition parseLinkedInDateTime (raw : unknown) : option DateObject.t :=
  if falsy raw then None
  else
    match raw with
    | U_Date d => Some d
    | U_number n =>
(* Excel date serial number (days since 1899-12-30). *)
let epoch :=
  DateObject.ofNumber
    (Date_UTC (JsNumber.of_Z 1899) (JsNumber.of_Z 11)
       (JsNumber.of_Z 30) (JsNumber.of_Z 0) (JsNumber.of_Z 0)) in
let millis :=
  JsNumber.mul
    (JsNumber.mul
       (JsNumber.mul (JsNumber.mul n (JsNumber.of_Z 24))
          (JsNumber.of_Z 60))
       (JsNumber.of_Z 60))
    (JsNumber.of_Z 1000) in
Some (DateObject.ofNumber
        (JsNumber.add (DateObject.getTime epoch) millis))
      | U_string s =>
let trimmed := JsString.trim s in
let parts := JsString.splitWhiteSpace trimmed in
let datePart := nth 0 parts EmptyString in
let timePart := nth_error parts 1 in
let ampmPart := nth_error parts 2 in
let datePieces := JsString.split "/" datePart in
let slashDate :=
  match map Number_ datePieces with
  | [p1; p2; p3] =>
      let month :=
        match LINKEDIN_DATE_FORMAT with MDY => p1 | DMY => p2 end in
      let day :=
        match LINKEDIN_DATE_FORMAT with MDY => p2 | DMY => p1 end in
      let year := p3 in
      if negb (JsNumber.isNaN month) && negb (JsNumber.isNaN day)
         && negb (JsNumber.isNaN year)
      then
        let '(hour, minute) :=
          match timePart with
          | Some tp =>
              if negb (String.eqb tp "") && JsString.includes ":" tp
              then
                let numbers := map Number_ (JsString.split ":" tp) in
                let rawHour := nth 0 numbers JsNumber.NaN in
                let rawMinute := nth 1 numbers JsNumber.NaN in
                let hour :=
                  if negb (JsNumber.isNaN rawHour) then rawHour
                  else JsNumber.of_Z 0 in
                let minute :=
                  if negb (JsNumber.isNaN rawMinute) then rawMinute
                  else JsNumber.of_Z 0 in
                let ampm := option_map JsString.toUpperCase ampmPart in
                let isAmPm (label : string) :=
                  match ampm with
                  | Some a => String.eqb a label
                  | None => false
                  end in
                let hour :=
                  if isAmPm "PM"%string && JsNumber.ltb hour (JsNumber.of_Z 12)
                  then JsNumber.add hour (JsNumber.of_Z 12)
                  else hour in
                let hour :=
                  if isAmPm "AM"%string && JsNumber.eqb hour (JsNumber.of_Z 12)
                  then JsNumber.of_Z 0
                  else hour in
                (hour, minute)
              else (JsNumber.of_Z 0, JsNumber.of_Z 0)
          | None => (JsNumber.of_Z 0, JsNumber.of_Z 0)
          end in
        Some (DateObject.ofNumber
                (Date_UTC year (JsNumber.add month (JsNumber.of_Z (-1)))
                   day hour minute))
      else None
  | _ => None
  end in
match slashDate with
| Some date => Some date
| None =>
    let fallback := DateObject.ofNumber (Date_parse trimmed) in
    if JsNumber.isNaN (DateObject.getTime fallback) then None
    else Some fallback
end
      | _ => None
      end.
End DateParsers.

(* ------------------------------------------------------------------ *)
(** ** [Map]: an association list in insertion order                   *)
(* ------------------------------------------------------------------ *)

Module JsMap.
Section Defs.
Context {V : Type}.

Definition t := list (string * V).

Definition empty : t := [].

Fixpoint get (k : string) (m : t) : option V :=
  match m with
  | [] => None
  | (k', v) :: m' => if String.eqb k' k then Some v else get k m'
  end.

(** [m.set(k, v)]: an existing key keeps its position, a new key goes
    last. *)
Fixpoint set (k : string) (v : V) (m : t) : t :=
  match m with
  | [] => [(k, v)]
  | (k', v') :: m' =>
      if String.eqb k' k then (k, v) :: m' else (k', v') :: set k v m'
  end.

Definition keys (m : t) : list string := map fst m.
Definition values (m : t) : list V := map snd m.
End Defs.
Arguments t : clear implicits.
End JsMap.

(** [Array.prototype.sort(cmp)], a stable sort: an element moves past
    another one only when the comparator is positive. *)
Section Sort.
Context {A : Type} (cmp : A -> A -> Z).

Fixpoint sortInsert (x : A) (l : list A) : list A :=
  match l with
  | [] => [x]
  | y :: l' => if 0 <? cmp x y then y :: sortInsert x l' else x :: l
  end.

Definition sortBy (l : list A) : list A := fold_right sortInsert [] l.

(** [a] may stand before [b]. *)
Definition cmp_le (a b : A) : Prop := cmp a b <= 0.
End Sort.


(* ------------------------------------------------------------------ *)
(** ** Types                                                           *)
(* ------------------------------------------------------------------ *)

Module Platform.
Inductive t := x | linkedin.

Definition eqb (a b : t) : bool :=
  match a, b with
  | x, x | linkedin, linkedin => true
  | _, _ => false
  end.

Definition to_string (p : t) : string :=
  match p with
  | x => "x"
  | linkedin => "linkedin"
  end.
End Platform.

(** [MetricKey]: the keys of a [DailyMetric] other than [source] and
    [date]. *)
Module MetricKey.
Inductive t :=
| views
| likes
| comments
| reposts
| clicks
| shares
| bookmarks
| profileVisits
| engagements
| videoViews
| videoWatchViews
| videoWatchTimeMs
| videoCompletionRateSum
| posts
| newFollows
| unfollows.
End MetricKey.

Definition METRIC_KEYS : list MetricKey.t :=
  [ MetricKey.views;
    MetricKey.likes;
    MetricKey.comments;
    MetricKey.reposts;
    MetricKey.clicks;
    MetricKey.shares;
    MetricKey.bookmarks;
    MetricKey.profileVisits;
    MetricKey.engagements;
    MetricKey.videoViews;
    MetricKey.videoWatchViews;
    MetricKey.videoWatchTimeMs;
    MetricKey.videoCompletionRateSum;
    MetricKey.posts;
    MetricKey.newFollows;
    MetricKey.unfollows ].

(** [DailyMetric]: [date] is the time value of the day of the record, a
    valid [Date]. *)
Module DailyMetric.
Record t := mk {
  source : Platform.t;
  date : Z;
  views : Q;
  likes : Q;
  comments : Q;
  reposts : Q;
  clicks : Q;
  shares : Q;
  bookmarks : Q;
  profileVisits : Q;
  engagements : Q;
  videoViews : Q;
  videoWatchViews : Q;
  videoWatchTimeMs : Q;
  videoCompletionRateSum : Q;
  posts : Q;
  newFollows : Q;
  unfollows : Q
}.

(** [m[field]] *)
Definition get (field : MetricKey.t) (m : t) : Q :=
  match field with
  | MetricKey.views => views m
  | MetricKey.likes => likes m
  | MetricKey.comments => comments m
  | MetricKey.reposts => reposts m
  | MetricKey.clicks => clicks m
  | MetricKey.shares => shares m
  | MetricKey.bookmarks => bookmarks m
  | MetricKey.profileVisits => profileVisits m
  | MetricKey.engagements => engagements m
  | MetricKey.videoViews => videoViews m
  | MetricKey.videoWatchViews => videoWatchViews m
  | MetricKey.videoWatchTimeMs => videoWatchTimeMs m
  | MetricKey.videoCompletionRateSum => videoCompletionRateSum m
  | MetricKey.posts => posts m
  | MetricKey.newFollows => newFollows m
  | MetricKey.unfollows => unfollows m
  end.

(** [{ ...m, [field]: v }] *)
Definition set (field : MetricKey.t) (v : Q) (m : t) : t :=
  match field with
  | MetricKey.views =>
      mk (source m) (date m) v (likes m) (comments m) (reposts m) (clicks m) (shares m) (bookmarks m) (profileVisits m) (engagements m) (videoViews m) (videoWatchViews m) (videoWatchTimeMs m) (videoCompletionRateSum m) (posts m) (newFollows m) (unfollows m)
  | MetricKey.likes =>
      mk (source m) (date m) (views m) v (comments m) (reposts m) (clicks m) (shares m) (bookmarks m) (profileVisits m) (engagements m) (videoViews m) (videoWatchViews m) (videoWatchTimeMs m) (videoCompletionRateSum m) (posts m) (newFollows m) (unfollows m)
  | MetricKey.comments =>
      mk (source m) (date m) (views m) (likes m) v (reposts m) (clicks m) (shares m) (bookmarks m) (profileVisits m) (engagements m) (videoViews m) (videoWatchViews m) (videoWatchTimeMs m) (videoCompletionRateSum m) (posts m) (newFollows m) (unfollows m)
  | MetricKey.reposts =>
      mk (source m) (date m) (views m) (likes m) (comments m) v (clicks m) (shares m) (bookmarks m) (profileVisits m) (engagements m) (videoViews m) (videoWatchViews m) (videoWatchTimeMs m) (videoCompletionRateSum m) (posts m) (newFollows m) (unfollows m)
  | MetricKey.clicks =>
      mk (source m) (date m) (views m) (likes m) (comments m) (reposts m) v (shares m) (bookmarks m) (profileVisits m) (engagements m) (videoViews m) (videoWatchViews m) (videoWatchTimeMs m) (videoCompletionRateSum m) (posts m) (newFollows m) (unfollows m)
  | MetricKey.shares =>
      mk (source m) (date m) (views m) (likes m) (comments m) (reposts m) (clicks m) v (bookmarks m) (profileVisits m) (engagements m) (videoViews m) (videoWatchViews m) (videoWatchTimeMs m) (videoCompletionRateSum m) (posts m) (newFollows m) (unfollows m)
  | MetricKey.bookmarks =>
      mk (source m) (date m) (views m) (likes m) (comments m) (reposts m) (clicks m) (shares m) v (profileVisits m) (engagements m) (videoViews m) (videoWatchViews m) (videoWatchTimeMs m) (videoCompletionRateSum m) (posts m) (newFollows m) (unfollows m)
  | MetricKey.profileVisits =>
      mk (source m) (date m) (views m) (likes m) (comments m) (reposts m) (clicks m) (shares m) (bookmarks m) v (engagements m) (videoViews m) (videoWatchViews m) (videoWatchTimeMs m) (videoCompletionRateSum m) (posts m) (newFollows m) (unfollows m)
  | MetricKey.engagements =>
      mk (source m) (date m) (views m) (likes m) (comments m) (reposts m) (clicks m) (shares m) (bookmarks m) (profileVisits m) v (videoViews m) (videoWatchViews m) (videoWatchTimeMs m) (videoCompletionRateSum m) (posts m) (newFollows m) (unfollows m)
  | MetricKey.videoViews =>
      mk (source m) (date m) (views m) (likes m) (comments m) (reposts m) (clicks m) (shares m) (bookmarks m) (profileVisits m) (engagements m) v (videoWatchViews m) (videoWatchTimeMs m) (videoCompletionRateSum m) (posts m) (newFollows m) (unfollows m)
  | MetricKey.videoWatchViews =>
      mk (source m) (date m) (views m) (likes m) (comments m) (reposts m) (clicks m) (shares m) (bookmarks m) (profileVisits m) (engagements m) (videoViews m) v (videoWatchTimeMs m) (videoCompletionRateSum m) (posts m) (newFollows m) (unfollows m)
  | MetricKey.videoWatchTimeMs =>
      mk (source m) (date m) (views m) (likes m) (comments m) (reposts m) (clicks m) (shares m) (bookmarks m) (profileVisits m) (engagements m) (videoViews m) (videoWatchViews m) v (videoCompletionRateSum m) (posts m) (newFollows m) (unfollows m)
  | MetricKey.videoCompletionRateSum =>
      mk (source m) (date m) (views m) (likes m) (comments m) (reposts m) (clicks m) (shares m) (bookmarks m) (profileVisits m) (engagements m) (videoViews m) (videoWatchViews m) (videoWatchTimeMs m) v (posts m) (newFollows m) (unfollows m)
  | MetricKey.posts =>
      mk (source m) (date m) (views m) (likes m) (comments m) (reposts m) (clicks m) (shares m) (bookmarks m) (profileVisits m) (engagements m) (videoViews m) (videoWatchViews m) (videoWatchTimeMs m) (videoCompletionRateSum m) v (newFollows m) (unfollows m)
  | MetricKey.newFollows =>
      mk (source m) (date m) (views m) (likes m) (comments m) (reposts m) (clicks m) (shares m) (bookmarks m) (profileVisits m) (engagements m) (videoViews m) (videoWatchViews m) (videoWatchTimeMs m) (videoCompletionRateSum m) (posts m) v (unfollows m)
  | MetricKey.unfollows =>
      mk (source m) (date m) (views m) (likes m) (comments m) (reposts m) (clicks m) (shares m) (bookmarks m) (profileVisits m) (engagements m) (videoViews m) (videoWatchViews m) (videoWatchTimeMs m) (videoCompletionRateSum m) (posts m) (newFollows m) v
  end.
End DailyMetric.

Module MonthSummary.
Record t := mk {
  monthKey : string;
  label : string;
  views : Q;
  likes : Q;
  comments : Q;
  reposts : Q;
  clicks : Q;
  shares : Q;
  bookmarks : Q;
  profileVisits : Q;
  engagements : Q;
  videoViews : Q;
  videoWatchViews : Q;
  videoWatchTimeMs : Q;
  videoCompletionRateSum : Q;
  posts : Q;
  newFollows : Q;
  unfollows : Q;
  days : Z
}.

Definition get (field : MetricKey.t) (s : t) : Q :=
  match field with
  | MetricKey.views => views s
  | MetricKey.likes => likes s
  | MetricKey.comments => comments s
  | MetricKey.reposts => reposts s
  | MetricKey.clicks => clicks s
  | MetricKey.shares => shares s
  | MetricKey.bookmarks => bookmarks s
  | MetricKey.profileVisits => profileVisits s
  | MetricKey.engagements => engagements s
  | MetricKey.videoViews => videoViews s
  | MetricKey.videoWatchViews => videoWatchViews s
  | MetricKey.videoWatchTimeMs => videoWatchTimeMs s
  | MetricKey.videoCompletionRateSum => videoCompletionRateSum s
  | MetricKey.posts => posts s
  | MetricKey.newFollows => newFollows s
  | MetricKey.unfollows => unfollows s
  end.
End MonthSummary.

(* ------------------------------------------------------------------ *)
(** ** Aggregation helpers                                             *)
(* ------------------------------------------------------------------ *)

(** [Math.max] on finite numbers. *)
Definition Math_max (a b : Q) : Q := Qmax a b.

(** The key [`${metric.source}-${toDayKey(metric.date)}`]. *)
Definition mergeKey (metric : DailyMetric.t) : string :=
  (Platform.to_string (DailyMetric.source metric) ++ "-"
   ++ toDayKey (DailyMetric.date metric))%string.

(** The record [merged] built for a day that is already in the map. *)
Definition mergeFields (existing metric : DailyMetric.t) : DailyMetric.t :=
  fold_left
    (fun merged field =>
       DailyMetric.set field
         (Math_max (DailyMetric.get field existing)
                   (DailyMetric.get field metric))
         merged)
    METRIC_KEYS existing.

(** One iteration of [metrics.forEach] in [mergeDailyMetrics]. *)
Definition mergeStep (byDay : JsMap.t DailyMetric.t) (metric : DailyMetric.t)
  : JsMap.t DailyMetric.t :=
  let key := mergeKey metric in
  match JsMap.get key byDay with
  | None => JsMap.set key metric byDay
  | Some existing => JsMap.set key (mergeFields existing metric) byDay
  end.

Definition byDate (a b : DailyMetric.t) : Z :=
  DailyMetric.date a - DailyMetric.date b.

Definition mergeDailyMetrics (metrics : list DailyMetric.t)
  : list DailyMetric.t :=
  let byDay := fold_left mergeStep metrics JsMap.empty in
  sortBy byDate (JsMap.values byDay).

(** [aggregateByMonth].  [formatMonthLabel] comes from [lib/format]
    ([Date.prototype.toLocaleString]); the aggregation only stores its
    result. *)
Section AggregateByMonth.
Variable formatMonthLabel : string -> string.

(** The bucket created for the first record of a month. *)
Definition newBucket (monthKey : string) (metric : DailyMetric.t)
  : MonthSummary.t :=
  MonthSummary.mk monthKey (formatMonthLabel monthKey)
    (DailyMetric.views metric)
    (DailyMetric.likes metric)
    (DailyMetric.comments metric)
    (DailyMetric.reposts metric)
    (DailyMetric.clicks metric)
    (DailyMetric.shares metric)
    (DailyMetric.bookmarks metric)
    (DailyMetric.profileVisits metric)
    (DailyMetric.engagements metric)
    (DailyMetric.videoViews metric)
    (DailyMetric.videoWatchViews metric)
    (DailyMetric.videoWatchTimeMs metric)
    (DailyMetric.videoCompletionRateSum metric)
    (DailyMetric.posts metric)
    (DailyMetric.newFollows metric)
    (DailyMetric.unfollows metric)
    1.

(** The effect of the [+=] assignments on the bucket of the month. *)
Definition addToBucket (existing : MonthSummary.t) (metric : DailyMetric.t)
  : MonthSummary.t :=
  MonthSummary.mk (MonthSummary.monthKey existing)
    (MonthSummary.label existing)
    (MonthSummary.views existing + DailyMetric.views metric)%Q
    (MonthSummary.likes existing + DailyMetric.likes metric)%Q
    (MonthSummary.comments existing + DailyMetric.comments metric)%Q
    (MonthSummary.reposts existing + DailyMetric.reposts metric)%Q
    (MonthSummary.clicks existing + DailyMetric.clicks metric)%Q
    (MonthSummary.shares existing + DailyMetric.shares metric)%Q
    (MonthSummary.bookmarks existing + DailyMetric.bookmarks metric)%Q
    (MonthSummary.profileVisits existing + DailyMetric.profileVisits metric)%Q
    (MonthSummary.engagements existing + DailyMetric.engagements metric)%Q
    (MonthSummary.videoViews existing + DailyMetric.videoViews metric)%Q
    (MonthSummary.videoWatchViews existing + DailyMetric.videoWatchViews metric)%Q
    (MonthSummary.videoWatchTimeMs existing + DailyMetric.videoWatchTimeMs metric)%Q
    (MonthSummary.videoCompletionRateSum existing + DailyMetric.videoCompletionRateSum metric)%Q
    (MonthSummary.posts existing + DailyMetric.posts metric)%Q
    (MonthSummary.newFollows existing + DailyMetric.newFollows metric)%Q
    (MonthSummary.unfollows existing + DailyMetric.unfollows metric)%Q
    (MonthSummary.days existing + 1).

(** One iteration of [daily.forEach]; the bucket is an object held by
    the map, so updating it leaves its position in the map unchanged. *)
Definition aggregateStep (buckets : JsMap.t MonthSummary.t)
  (metric : DailyMetric.t) : JsMap.t MonthSummary.t :=
  let monthKey := toMonthKey (DailyMetric.date metric) in
  match JsMap.get monthKey buckets with
  | None => JsMap.set monthKey (newBucket monthKey metric) buckets
  | Some existing => JsMap.set monthKey (addToBucket existing metric) buckets
  end.

Definition byMonthKey (a b : MonthSummary.t) : Z :=
  JsString.localeCompare (MonthSummary.monthKey a) (MonthSummary.monthKey b).

Definition aggregateByMonth (daily : list DailyMetric.t)
  : list MonthSummary.t :=
  let buckets := fold_left aggregateStep daily JsMap.empty in
  sortBy byMonthKey (JsMap.values buckets).
End AggregateByMonth.

Module Coverage.
(** [start] and [end] are [null] ([None]) for an empty series. *)
Record t := mk {
  start : option Z;
  end_ : option Z;
  days : Z
}.
End Coverage.

Module DataQualitySummary.
Record t := mk {
  label : string;
  coverage : Coverage.t;
  expectedDays : option Z;
  missingDays : option Z;
  zeroViewDays : Z
}.
End DataQualitySummary.

(** [Math.round]: the nearest integer, a tie going up. *)
Definition Math_round (q : Q) : Z := Qfloor (q + (1 # 2))%Q.

Definition buildCoverage (daily : list DailyMetric.t) : Coverage.t :=
  match daily with
  | [] => Coverage.mk None None 0
  | d :: _ =>
      let sorted := sortBy byDate daily in
      Coverage.mk
        (Some (DailyMetric.date (nth 0 sorted d)))
        (Some (DailyMetric.date (nth (List.length sorted - 1) sorted d)))
        (Z.of_nat (List.length sorted))
  end.

Definition buildDataQuality (label : string) (daily : list DailyMetric.t)
  : DataQualitySummary.t :=
  let coverage := buildCoverage daily in
  match Coverage.start coverage, Coverage.end_ coverage with
  | Some start, Some end_ =>
      let dayMs := 24 * 60 * 60 * 1000 in
      let expectedDays :=
        Math_round (inject_Z (end_ - start) / inject_Z dayMs)%Q + 1 in
      let missingDays := Z.max (expectedDays - Coverage.days coverage) 0 in
      let zeroViewDays :=
        Z.of_nat (List.length
          (filter (fun metric => Qeq_bool (DailyMetric.views metric) 0) daily)) in
      DataQualitySummary.mk label coverage (Some expectedDays)
        (Some missingDays) zeroViewDays
  | _, _ => DataQualitySummary.mk label coverage None None 0
  end.

(* ------------------------------------------------------------------ *)
(** ** Loading + parsing helpers                                       *)
(* ------------------------------------------------------------------ *)

(** A row of a table: the object built by [parseCsvWithHeader], a map
    from header names to cells (all of them strings), in the order in
    which the headers were first assigned.  (An object lists keys that
    are array indices first; two such keys never agree after lowering
    the case, so the order of the other keys is all that [pickField]
    depends on.) *)
Definition Row : Type := JsMap.t string.

(** The first of [candidates] that is a key of [row], with its cell. *)
Fixpoint firstIn (row : Row) (candidates : list string) : option string :=
  match candidates with
  | [] => None
  | key :: rest =>
      match JsMap.get key row with
      | Some value => Some value
      | None => firstIn row rest
      end
  end.

(** [new Map(Object.entries(row).map(([k, v]) => [k.toLowerCase(), v]))] *)
Definition lowerKeys (row : Row) : Row :=
  fold_left (fun lower entry =>
               JsMap.set (JsString.toLowerCase (fst entry)) (snd entry) lower)
    row JsMap.empty.

(** [pickField] on candidates none of which is a name that a row
    inherits from [Object.prototype], as is every list of candidates of
    the loaders: [key in row] is then membership among the keys of the
    row, and the result is a string.  [pickFieldAny] below is the
    function on any candidates. *)
Definition pickField (row : Row) (candidates : list string) : string :=
  match firstIn row candidates with
  | Some value => value
  | None =>
(* Case-insensitive fallback for slightly different exports. *)
match firstIn (lowerKeys row) (map JsString.toLowerCase candidates) with
| Some value => value
| None => EmptyString
end
  end.

(** [toNumber]; [String(value)] of a boolean or of a [Date] is no
    numeric literal. *)
Definition toNumber (value : unknown) : Q :=
  match value with
  | U_null | U_undefined => 0
  | U_number n =>
      match n with JsNumber.Fin q => q | _ => 0 end
  | U_string s =>
      if String.eqb s "" then 0
      else
        let cleaned := JsString.trim (JsString.removeAll "," s) in
        match Number_ cleaned with JsNumber.Fin q => q | _ => 0 end
  | U_boolean _ | U_Date _ => 0
  end%Q.

Fixpoint findIndex {A : Type} (p : A -> bool) (l : list A) : option nat :=
  match l with
  | [] => None
  | a :: l' => if p a then Some O else option_map S (findIndex p l')
  end.

(** The object that [headers.reduce] builds for one line of cells:
    [acc[header] = row[index] ?? ""].  Assigning a string to
    [__proto__] adds no key. *)
Definition rowObject (headers : list string) (cells : list string) : Row :=
  fold_left
    (fun acc entry =>
       let '(header, index) := entry in
       if String.eqb header "__proto__" then acc
       else JsMap.set header (nth index cells EmptyString) acc)
    (combine headers (seq 0 (List.length headers))) JsMap.empty.

Section Table.
(** [parse] of [csv-parse/sync] with [columns: false]: the lines of
    cells, or [None] when it throws. *)
Variable parseCsv : string -> option (list (list string)).

(** The body of the [try] block; [None] when it throws, which only the
    parse can do. *)
Definition parseCsvWithHeader_try (csvText headerLabel : string)
  : option (list string * list Row) :=
  match parseCsv csvText with
  | None => None
  | Some rawRows =>
      let target := JsString.toLowerCase (JsString.trim headerLabel) in
      let headerRowIndex :=
        findIndex
          (fun row =>
             existsb (fun cell =>
                        String.eqb
                          (JsString.toLowerCase (JsString.trim cell)) target)
               row)
          rawRows in
      match headerRowIndex with
      | None => Some ([], [])
      | Some headerRowIndex =>
          let headers := map JsString.trim (nth headerRowIndex rawRows []) in
          let rows :=
            map (rowObject headers)
              (filter
                 (fun row =>
                    existsb (fun cell =>
                               negb (String.eqb (JsString.trim cell) ""))
                      row)
                 (skipn (headerRowIndex + 1) rawRows)) in
          Some (headers, rows)
      end
  end.

(** [try { ... } catch (error) { return { headers: [], rows: [] } }] *)
Definition parseCsvWithHeader (csvText headerLabel : string)
  : list string * list Row :=
  match parseCsvWithHeader_try csvText headerLabel with
  | Some table => table
  | None => ([], [])
  end.
End Table.

Module VideoStat.
Record t := mk {
  views : Q;
  watchTimeMs : Q;
  completionRate : Q
}.
End VideoStat.

Section XDaily.
Variable Date_parse : string -> JsNumber.t.
(** The offset of local time at a time value, in milliseconds. *)
Variable LocalTZA : Z -> Z.

(** [parseXDate]: the UTC midnight of the local calendar day of the
    parsed date. *)
Definition parseXDate (raw : string) : option DateObject.t :=
  if String.eqb raw "" then None
  else
    match DateObject.ofNumber (Date_parse raw) with
    | DateObject.Invalid => None
    | DateObject.at_ time =>
        let local := time + LocalTZA time in
        Some (DateObject.ofNumber
                (Date_UTC (JsNumber.of_Z (JsDate.YearFromTime local))
                   (JsNumber.of_Z (JsDate.MonthFromTime local))
                   (JsNumber.of_Z (JsDate.DateFromTime local))
                   (JsNumber.of_Z 0) (JsNumber.of_Z 0)))
    end.

(** The callback of [rows.map] in [loadXDailyMetrics]; [None] is the
    [null] that [filter(Boolean)] drops.  Within a day of the least
    time value [parseXDate] can give an [Invalid Date]; a record with
    such a date has no day and is not represented. *)
Definition xDailyRow (videoMap : JsMap.t VideoStat.t) (row : Row)
  : option DailyMetric.t :=
  match parseXDate (pickField row ["Date"%string]) with
  | None | Some DateObject.Invalid => None
  | Some (DateObject.at_ date) =>
      let video := JsMap.get (toDayKey date) videoMap in
      let videoWatchViews :=
        match video with Some v => VideoStat.views v | None => 0 end in
      let videoWatchTimeMs :=
        match video with Some v => VideoStat.watchTimeMs v | None => 0 end in
      let videoCompletionRateSum :=
        match video with
        | Some v => VideoStat.completionRate v * VideoStat.views v
        | None => 0
        end in
      let field candidates := toNumber (U_string (pickField row candidates)) in
      let baseVideoViews := field ["Video views"%string] in
      Some {|
        DailyMetric.source := Platform.x;
        DailyMetric.date := date;
        DailyMetric.views := field ["Impressions"%string];
        DailyMetric.likes := field ["Likes"%string];
        DailyMetric.comments := field ["Replies"%string];
        DailyMetric.reposts :=
          field ["Reposts"%string; "Retweets"%string]
          + field ["Shares"%string];
        DailyMetric.clicks := 0;
        DailyMetric.shares := field ["Shares"%string];
        DailyMetric.bookmarks := field ["Bookmarks"%string];
        DailyMetric.profileVisits := field ["Profile visits"%string];
        DailyMetric.engagements := field ["Engagements"%string];
        DailyMetric.videoViews :=
          if Qeq_bool baseVideoViews 0 then videoWatchViews
          else baseVideoViews;
        DailyMetric.videoWatchViews := videoWatchViews;
        DailyMetric.videoWatchTimeMs := videoWatchTimeMs;
        DailyMetric.videoCompletionRateSum := videoCompletionRateSum;
        DailyMetric.posts := field ["Create Post"%string];
        DailyMetric.newFollows := field ["New follows"%string];
        DailyMetric.unfollows := field ["Unfollows"%string]
      |}
  end%Q.

(** The [metrics] of [loadXDailyMetrics] for the rows of all files. *)
Definition xDailyMetrics (videoMap : JsMap.t VideoStat.t) (rows : list Row)
  : list DailyMetric.t :=
  mergeDailyMetrics
    (flat_map (fun row => match xDailyRow videoMap row with
                          | Some m => [m]
                          | None => []
                          end) rows).
End XDaily.

(* ------------------------------------------------------------------ *)
(** ** Posts                                                           *)
(* ------------------------------------------------------------------ *)

(** [Date.prototype.toISOString] of a valid date:
    [YYYY-MM-DDTHH:mm:ss.sssZ], with a sign and six digits for a year
    outside 0..9999. *)
Definition toISOString (t : Z) : string :=
  let y := JsDate.YearFromTime t in
  let padZ n z := JsString.padStart n "0" (JsString.string_of_Z z) in
  let sign : string := if y <? 0 then "-"%string else "+"%string in
  let year :=
    if (0 <=? y) && (y <=? 9999) then padZ 4%nat y
    else (sign ++ padZ 6%nat (Z.abs y))%string in
  (year ++ "-" ++ JsString.pad2 (JsDate.MonthFromTime t + 1)
   ++ "-" ++ JsString.pad2 (JsDate.DateFromTime t)
   ++ "T" ++ JsString.pad2 (JsDate.HourFromTime t)
   ++ ":" ++ JsString.pad2 (JsDate.MinFromTime t)
   ++ ":" ++ JsString.pad2 (JsDate.SecFromTime t)
   ++ "." ++ padZ 3%nat (JsDate.msFromTime t) ++ "Z")%string.

(** [calculateEngagementRate]; [!impressions] holds of zero. *)
Definition calculateEngagementRate (impressions likes comments reposts : Q)
  : option Q :=
  if Qeq_bool impressions 0 then None
  else Some ((likes + comments + reposts) / impressions)%Q.

(** [LinkedInPostSummary & { hasTime: boolean }] with a valid [Date]:
    [createdAt] is its time value.  [RawPost.t] below is the record with
    any [Date], as the row mapper pushes it. *)
Module LinkedInPostRecord.
Record t := mk {
  title : string;
  link : string;
  createdAt : Z;
  impressions : Q;
  views : Q;
  clicks : Q;
  likes : Q;
  comments : Q;
  reposts : Q;
  engagementRate : option Q;
  contentType : string;
  hasTime : bool
}.
End LinkedInPostRecord.

Module XPostSummary.
(** [createdAt] is [null] ([None]) when the row carries no date. *)
Record t := mk {
  text : string;
  link : string;
  createdAt : option Z;
  impressions : Q;
  likes : Q;
  replies : Q;
  reposts : Q;
  engagements : Q;
  engagementRate : option Q
}.
End XPostSummary.

(** [post.link || `${post.title}-${post.createdAt.toISOString()}`] for
    a post with a valid date; [rawPostKey] below is the key of any post. *)
Definition linkedInPostKey (post : LinkedInPostRecord.t) : string :=
  if String.eqb (LinkedInPostRecord.link post) "" then
    (LinkedInPostRecord.title post ++ "-"
     ++ toISOString (LinkedInPostRecord.createdAt post))%string
  else LinkedInPostRecord.link post.

(** One iteration of [rawPosts.forEach] in [loadLinkedInPostsData]. *)
Definition linkedInDedupStep (dedupedPosts : JsMap.t LinkedInPostRecord.t)
  (post : LinkedInPostRecord.t) : JsMap.t LinkedInPostRecord.t :=
  let key := linkedInPostKey post in
  match JsMap.get key dedupedPosts with
  | None => JsMap.set key post dedupedPosts
  | Some existing =>
      if Qgtb (LinkedInPostRecord.impressions post)
              (LinkedInPostRecord.impressions existing)
         || (Qeq_bool (LinkedInPostRecord.impressions post)
                      (LinkedInPostRecord.impressions existing)
             && LinkedInPostRecord.hasTime post
             && negb (LinkedInPostRecord.hasTime existing))
      then JsMap.set key post dedupedPosts
      else dedupedPosts
  end.

(** [uniquePosts] of [loadLinkedInPostsData]. *)
Definition linkedInUniquePosts (rawPosts : list LinkedInPostRecord.t)
  : list LinkedInPostRecord.t :=
  JsMap.values (fold_left linkedInDedupStep rawPosts JsMap.empty).

(** [post.link || `${post.text}-${post.createdAt?.toISOString() ?? ""}`] *)
Definition xPostKey (post : XPostSummary.t) : string :=
  if String.eqb (XPostSummary.link post) "" then
    (XPostSummary.text post ++ "-"
     ++ match XPostSummary.createdAt post with
        | Some t => toISOString t
        | None => ""
        end)%string
  else XPostSummary.link post.

(** One iteration of [posts.forEach] in [loadXPostsData]. *)
Definition xDedupStep (deduped : JsMap.t XPostSummary.t)
  (post : XPostSummary.t) : JsMap.t XPostSummary.t :=
  let key := xPostKey post in
  match JsMap.get key deduped with
  | None => JsMap.set key post deduped
  | Some existing =>
      if Qgtb (XPostSummary.impressions post) (XPostSummary.impressions existing)
      then JsMap.set key post deduped
      else deduped
  end.

(** [Array.from(deduped.values())] of [loadXPostsData]. *)
Definition xUniquePosts (posts : list XPostSummary.t) : list XPostSummary.t :=
  JsMap.values (fold_left xDedupStep posts JsMap.empty).

(* ------------------------------------------------------------------ *)
(** ** Vocabulary of the statements                                    *)
(* ------------------------------------------------------------------ *)

(** The loops over the input that fill a [Map] all have one shape: look
    the key of the element up, store a first value when it is absent and
    an updated value when it is present.  [upsert] is that shape;
    it is only used to reason about the loops below, each of which is
    written out as in the source. *)
Section GroupFold.
Context {A V : Type}.
Variable kf : A -> string.
Variable init : A -> V.
Variable step : V -> A -> V.

Definition upsert (m : JsMap.t V) (x : A) : JsMap.t V :=
  match JsMap.get (kf x) m with
  | None => JsMap.set (kf x) (init x) m
  | Some e => JsMap.set (kf x) (step e x) m
  end.

(** The elements of [l] with key [k], in the order of [l]. *)
Definition groupOf (k : string) (l : list A) : list A :=
  filter (fun x => String.eqb (kf x) k) l.

Definition foldGroup (g : list A) : option V :=
  match g with
  | [] => None
  | x :: xs => Some (fold_left step xs (init x))
  end.
End GroupFold.

(** [v] is the greatest element of [l]. *)
Definition is_maximum (v : Q) (l : list Q) : Prop :=
  In v l /\ Forall (fun q => (q <= v)%Q) l.

(** Same platform and same UTC calendar day. *)
Definition sameDay (a b : DailyMetric.t) : bool :=
  Platform.eqb (DailyMetric.source a) (DailyMetric.source b)
  && (JsDate.Day (DailyMetric.date a) =? JsDate.Day (DailyMetric.date b)).

(** The arithmetic sum of a list of numbers. *)
Definition Qsum (l : list Q) : Q := fold_right Qplus 0%Q l.

(** Same UTC calendar month: same UTC year and same UTC month. *)
Definition sameMonth (a b : DailyMetric.t) : bool :=
  (JsDate.YearFromTime (DailyMetric.date a)
   =? JsDate.YearFromTime (DailyMetric.date b))
  && (JsDate.MonthFromTime (DailyMetric.date a)
      =? JsDate.MonthFromTime (DailyMetric.date b)).

(** The time value of [Date.UTC(1899, 11, 30)], day 0 of the
    spreadsheet serial numbers. *)
Definition excelEpoch : Z := -2209161600000.

(** [epoch.getTime() + raw * 24 * 60 * 60 * 1000] for the serial [raw]:
    four products and a sum, each one rounded to a double. *)
Definition serialTime (raw : JsNumber.t) : JsNumber.t :=
  JsNumber.add (JsNumber.of_Z excelEpoch)
    (JsNumber.mul
       (JsNumber.mul
          (JsNumber.mul (JsNumber.mul raw (JsNumber.of_Z 24))
             (JsNumber.of_Z 60))
          (JsNumber.of_Z 60))
       (JsNumber.of_Z 1000)).

(** The hour of the day for the hour [hour] of a clock time with the
    suffix [ampm], as the two conditionals of [parseLinkedInDateTime]
    compute it. *)
Definition hourOfDay (ampm : string) (hour : JsNumber.t) : JsNumber.t :=
  let hour :=
    if String.eqb ampm "PM" && JsNumber.ltb hour (JsNumber.of_Z 12)
    then JsNumber.add hour (JsNumber.of_Z 12)
    else hour in
  if String.eqb ampm "AM" && JsNumber.eqb hour (JsNumber.of_Z 12)
  then JsNumber.of_Z 0
  else hour.

(** Strictly ascending month keys. *)
Definition monthKey_lt (a b : MonthSummary.t) : Prop :=
  String.compare (MonthSummary.monthKey a) (MonthSummary.monthKey b) = Lt.

(** [t] is the earliest (resp. latest) date of the series. *)
Definition earliest (t : Z) (daily : list DailyMetric.t) : Prop :=
  In t (map DailyMetric.date daily)
  /\ Forall (fun m => t <= DailyMetric.date m) daily.

Definition latest (t : Z) (daily : list DailyMetric.t) : Prop :=
  In t (map DailyMetric.date daily)
  /\ Forall (fun m => DailyMetric.date m <= t) daily.

(** The date of the record is a UTC midnight: a calendar day with no
    time component, as the loaders build it with [Date.UTC(y, m, d)]. *)
Definition wholeDay (m : DailyMetric.t) : Prop :=
  DailyMetric.date m mod JsDate.msPerDay = 0.

(** The record kept by each loop, as a choice between two records. *)
Definition linkedInChoose (existing post : LinkedInPostRecord.t)
  : LinkedInPostRecord.t :=
  if Qgtb (LinkedInPostRecord.impressions post)
          (LinkedInPostRecord.impressions existing)
     || (Qeq_bool (LinkedInPostRecord.impressions post)
                  (LinkedInPostRecord.impressions existing)
         && LinkedInPostRecord.hasTime post
         && negb (LinkedInPostRecord.hasTime existing))
  then post else existing.

Definition xChoose (existing post : XPostSummary.t) : XPostSummary.t :=
  if Qgtb (XPostSummary.impressions post) (XPostSummary.impressions existing)
  then post else existing.

(** [r] is a best record of the group: no record has more impressions,
    and a record with as many impressions and a known time of day is only
    beaten by a record with a known time of day. *)
Definition linkedInBest (r : LinkedInPostRecord.t)
  (group : list LinkedInPostRecord.t) : Prop :=
  In r group
  /\ forall q, In q group ->
       (LinkedInPostRecord.impressions q <= LinkedInPostRecord.impressions r)%Q
       /\ ((LinkedInPostRecord.impressions q
            == LinkedInPostRecord.impressions r)%Q ->
           LinkedInPostRecord.hasTime q = true ->
           LinkedInPostRecord.hasTime r = true).

Definition xBest (r : XPostSummary.t) (group : list XPostSummary.t) : Prop :=
  In r group
  /\ forall q, In q group ->
       (XPostSummary.impressions q <= XPostSummary.impressions r)%Q.

(* ------------------------------------------------------------------ *)
(** ** Sample records for the worked examples                          *)
(* ------------------------------------------------------------------ *)

Module Sample.
(** A record of platform [p] on [date] with [views] set and every other
    counter zero. *)
Definition daily (p : Platform.t) (date : Z) (views : Q) : DailyMetric.t :=
  DailyMetric.mk p date views 0 0 0 0 0 0 0 0 0 0 0 0 0 0 0.

(** 2024-01-15T00:00:00Z *)
Definition jan15 : Z := 1705276800000.
(** 2024-01-16T00:00:00Z *)
Definition jan16 : Z := 1705363200000.
(** 2024-02-01T00:00:00Z *)
Definition feb01 : Z := 1706745600000.

(** Ten consecutive days from 2024-01-15 with the fifth one left out. *)
Definition nineOfTen : list DailyMetric.t :=
  map (fun i => daily Platform.x (jan15 + i * JsDate.msPerDay) 1)
    [0; 1; 2; 3; 5; 6; 7; 8; 9].

Definition linkedInPost (title link : string) (createdAt : Z)
  (impressions : Q) (hasTime : bool) : LinkedInPostRecord.t :=
  LinkedInPostRecord.mk title link createdAt impressions 0 0 0 0 0 None
    "" hasTime.

Definition xPost (text link : string) (createdAt : option Z)
  (impressions : Q) : XPostSummary.t :=
  XPostSummary.mk text link createdAt impressions 0 0 0 0 None.

(** A parser that reads every text as the same three lines. *)
Definition threeLines (_ : string) : option (list (list string)) :=
  Some [ ["Export of the account"%string];
         [" Date "%string; "Impressions"%string; "Video views"%string];
         ["2024-01-15"%string; "1,200"%string; "0"%string] ].

(** A row of platform A whose [Video views] cell is an explicit zero,
    and a video overview with 50 views on that day. *)
Definition zeroVideoRow : Row :=
  [ ("Date", "2024-01-15"); ("Impressions", "1,200");
    ("Video views", "0"); ("Reposts", "4"); ("Shares", "3") ]%string.

Definition videoOverview : JsMap.t VideoStat.t :=
  [ ("2024-01-15"%string, VideoStat.mk 50 90000 (1 # 2)) ].

(** The record that the mapper builds from [zeroVideoRow]. *)
Definition zeroVideoMetric : DailyMetric.t :=
  DailyMetric.mk Platform.x jan15 1200 0 0 7 0 3 0 0 0 50 50 90000 (50 # 2)
    0 0 0.

(** An engine whose [Date.parse] reads every text as 2024-01-15, in the
    UTC time zone. *)
Definition parseAsJan15 (_ : string) : JsNumber.t := JsNumber.of_Z jan15.
Definition utc (_ : Z) : Z := 0.
Definition parseNothing (_ : string) : JsNumber.t := JsNumber.NaN.

(** The double nearest to the serial of 2023-01-01T01:00:00Z, which is
    44927 and a twenty-fourth: 44927.041666666664. *)
Definition serialOneOClock : Q := 6174725589259605 # 137438953472.

(** A double near the end of the range of time values:
    99890771.81624207. *)
Definition serialFarFuture : Q := 3351778110335611 # 33554432.

(** Clock times [h:mm] with [h] from 1 to 12, their text on
    2024-01-15 with a suffix, and the instant they denote. *)
Definition clockTimes : list (Z * Z) :=
  flat_map (fun h => map (fun mi => (h, mi)) [0; 5; 30; 59])
    (map Z.of_nat (seq 1 12)).

Definition clockText (h mi : Z) (suffix : string) : string :=
  ("1/15/2024 " ++ JsString.string_of_Z h ++ ":" ++ JsString.pad2 mi
   ++ " " ++ suffix)%string.

Definition clockInstant (h mi : Z) (pm : bool) : Z :=
  jan15 + ((h mod 12) + (if pm then 12 else 0)) * JsDate.msPerHour
  + mi * JsDate.msPerMinute.

(** Three days in two months. *)
Definition threeDays : list DailyMetric.t :=
  [ daily Platform.x feb01 7; daily Platform.x jan15 100;
    daily Platform.linkedin jan16 20 ].
End Sample.


(* ------------------------------------------------------------------ *)
(** ** Further aggregation helpers                                     *)
(* ------------------------------------------------------------------ *)

(** The initial accumulator of [summarizeTotals]. *)
Definition totalsStart : MonthSummary.t :=
  MonthSummary.mk "total" "Total" 0 0 0 0 0 0 0 0 0 0 0 0 0 0 0 0 0.

(** The callback of [monthly.reduce] in [summarizeTotals]. *)
Definition addMonth (acc month : MonthSummary.t) : MonthSummary.t :=
  MonthSummary.mk (MonthSummary.monthKey acc) (MonthSummary.label acc)
    (MonthSummary.views acc + MonthSummary.views month)%Q
    (MonthSummary.likes acc + MonthSummary.likes month)%Q
    (MonthSummary.comments acc + MonthSummary.comments month)%Q
    (MonthSummary.reposts acc + MonthSummary.reposts month)%Q
    (MonthSummary.clicks acc + MonthSummary.clicks month)%Q
    (MonthSummary.shares acc + MonthSummary.shares month)%Q
    (MonthSummary.bookmarks acc + MonthSummary.bookmarks month)%Q
    (MonthSummary.profileVisits acc + MonthSummary.profileVisits month)%Q
    (MonthSummary.engagements acc + MonthSummary.engagements month)%Q
    (MonthSummary.videoViews acc + MonthSummary.videoViews month)%Q
    (MonthSummary.videoWatchViews acc + MonthSummary.videoWatchViews month)%Q
    (MonthSummary.videoWatchTimeMs acc + MonthSummary.videoWatchTimeMs month)%Q
    (MonthSummary.videoCompletionRateSum acc + MonthSummary.videoCompletionRateSum month)%Q
    (MonthSummary.posts acc + MonthSummary.posts month)%Q
    (MonthSummary.newFollows acc + MonthSummary.newFollows month)%Q
    (MonthSummary.unfollows acc + MonthSummary.unfollows month)%Q
    (MonthSummary.days acc + MonthSummary.days month).

Definition summarizeTotals (monthly : list MonthSummary.t) : MonthSummary.t :=
  fold_left addMonth monthly totalsStart.

(* ------------------------------------------------------------------ *)
(** ** Column validation                                               *)
(* ------------------------------------------------------------------ *)

(** [ColumnGroup]: a requirement met by any one of the [fields]. *)
Module ColumnGroup.
Record t := mk {
  label : string;
  fields : list string
}.
End ColumnGroup.

(** The provenance ["raw" | "sample" | "missing"]. *)
Module CsvSource.
Inductive t := raw | sample | missing.
End CsvSource.

Module CsvValidation.
Record t := mk {
  id : string;
  label : string;
  filePath : string;
  source : CsvSource.t;
  rowCount : Z;
  missingRequired : list string;
  missingOptional : list string
}.
End CsvValidation.

(** [headersLower.has(name)], [headersLower] a [Set] of strings. *)
Definition setHas (headersLower : list string) (name : string) : bool :=
  existsb (String.eqb name) headersLower.

Definition findMissingGroups (headersLower : list string)
  (groups : list ColumnGroup.t) : list string :=
  map ColumnGroup.label
    (filter
       (fun group =>
          forallb
            (fun field => negb (setHas headersLower (JsString.toLowerCase field)))
            (ColumnGroup.fields group))
       groups).

Section Validation.
(** [formatFilePathLabel] works on paths ([node:path]); the validation
    only stores its result. *)
Variable formatFilePathLabel : list string -> string.

Definition buildCsvValidation (id label : string) (filePaths : list string)
  (source : CsvSource.t) (rowCount : Z) (headers : list string)
  (requiredGroups optionalGroups : list ColumnGroup.t) : CsvValidation.t :=
  let headersLower := map JsString.toLowerCase headers in
  let missingRequired := findMissingGroups headersLower requiredGroups in
  let missingOptional := findMissingGroups headersLower optionalGroups in
  CsvValidation.mk id label (formatFilePathLabel filePaths) source rowCount
    missingRequired missingOptional.
End Validation.

(* ------------------------------------------------------------------ *)
(** ** Month-over-month growth                                         *)
(* ------------------------------------------------------------------ *)

(** [percentDelta]; [!previous] holds of zero. *)
Definition percentDelta (previous current : Q) : option Q :=
  if Qeq_bool previous 0 then None
  else Some ((current - previous) / previous)%Q.

(** The result of [calculateMomGrowth]; [mom] has the five keys
    [views], [likes], [comments], [reposts] and [posts]. *)
Module MomGrowth.
Record t := mk {
  views : option Q;
  likes : option Q;
  comments : option Q;
  reposts : option Q;
  posts : option Q;
  lastMonthLabel : string;
  previousMonthLabel : string
}.
End MomGrowth.

Definition calculateMomGrowth (monthly : list MonthSummary.t) : MomGrowth.t :=
  if (List.length monthly <? 2)%nat then
    MomGrowth.mk None None None None None
      match nth_error monthly 0 with
      | Some first => MonthSummary.label first
      | None => "n/a"%string
      end
      "n/a"
  else
    let last := nth (List.length monthly - 1) monthly totalsStart in
    let prev := nth (List.length monthly - 2) monthly totalsStart in
    MomGrowth.mk
      (percentDelta (MonthSummary.views prev) (MonthSummary.views last))
      (percentDelta (MonthSummary.likes prev) (MonthSummary.likes last))
      (percentDelta (MonthSummary.comments prev) (MonthSummary.comments last))
      (percentDelta (MonthSummary.reposts prev) (MonthSummary.reposts last))
      (percentDelta (MonthSummary.posts prev) (MonthSummary.posts last))
      (MonthSummary.label last) (MonthSummary.label prev).

(* ------------------------------------------------------------------ *)
(** ** The video overview of platform A                                *)
(* ------------------------------------------------------------------ *)

(** [toDayKey] of a date object; the getters of an [Invalid Date] give
    [NaN], which prints as [NaN] and is not padded. *)
Definition dayKeyOf (date : DateObject.t) : string :=
  match date with
  | DateObject.at_ time => toDayKey time
  | DateObject.Invalid => "NaN-NaN-NaN"
  end.

Section XVideoOverview.
Variable Date_parse : string -> JsNumber.t.
Variable LocalTZA : Z -> Z.

(** What a row of the overview gives: its day key and its figures, or
    nothing when its date does not parse. *)
Definition videoEntry (row : Row) : option (string * VideoStat.t) :=
  match parseXDate Date_parse LocalTZA (pickField row ["Date"%string]) with
  | None => None
  | Some date =>
      let views := toNumber (U_string (pickField row ["Views"%string])) in
      let watchTimeMs :=
        toNumber (U_string (pickField row ["Watch Time (ms)"%string])) in
      let completionRate :=
        (toNumber (U_string (pickField row ["Completion Rate"%string])) / 100)%Q in
      Some (dayKeyOf date, VideoStat.mk views watchTimeMs completionRate)
  end.

(** The callback of [rows.forEach] in [loadXVideoOverviewByDate]. *)
Definition videoStep (videoMap : JsMap.t VideoStat.t) (row : Row)
  : JsMap.t VideoStat.t :=
  match videoEntry row with
  | None => videoMap
  | Some (key, stat) =>
      match JsMap.get key videoMap with
      | None => JsMap.set key stat videoMap
      | Some existing =>
          if Qgtb (VideoStat.views stat) (VideoStat.views existing)
             || (Qeq_bool (VideoStat.views stat) (VideoStat.views existing)
                 && Qgtb (VideoStat.watchTimeMs stat)
                      (VideoStat.watchTimeMs existing))
          then JsMap.set key stat videoMap
          else videoMap
      end
  end.

(** The [videoMap] of [loadXVideoOverviewByDate] for the rows of all
    files. *)
Definition videoOverviewByDate (rows : list Row) : JsMap.t VideoStat.t :=
  fold_left videoStep rows JsMap.empty.
End XVideoOverview.

(* ------------------------------------------------------------------ *)
(** ** The calendar day of platform B                                  *)
(* ------------------------------------------------------------------ *)

(** A UTC getter ([getUTCFullYear], [getUTCMonth], [getUTCDate]) of a
    date object: [NaN] for an [Invalid Date]. *)
Definition utcField (field : Z -> Z) (date : DateObject.t) : JsNumber.t :=
  match date with
  | DateObject.at_ time => JsNumber.of_Z (field time)
  | DateObject.Invalid => JsNumber.NaN
  end.

Section LinkedInDate.
Variable Date_parse : string -> JsNumber.t.

Definition parseLinkedInDate (raw : unknown) : option DateObject.t :=
  match parseLinkedInDateTime Date_parse raw with
  | None => None
  | Some dateTime =>
      Some (DateObject.ofNumber
              (Date_UTC (utcField JsDate.YearFromTime dateTime)
                 (utcField JsDate.MonthFromTime dateTime)
                 (utcField JsDate.DateFromTime dateTime)
                 (JsNumber.of_Z 0) (JsNumber.of_Z 0)))
  end.
End LinkedInDate.

(* ------------------------------------------------------------------ *)
(** ** Rankings of posts                                               *)
(* ------------------------------------------------------------------ *)

(** The sign of the number that a comparator returns, which is all that
    [Array.prototype.sort] uses of it. *)
Definition Qsign (q : Q) : Z := Z.sgn (Qnum q).

(** [(a, b) => b.impressions - a.impressions] *)
Definition byImpressions (a b : XPostSummary.t) : Z :=
  Qsign (XPostSummary.impressions b - XPostSummary.impressions a).

(** [topPosts] of [loadXPostsData]. *)
Definition xTopPosts (posts : list XPostSummary.t) : list XPostSummary.t :=
  firstn 5 (sortBy byImpressions (xUniquePosts posts)).

(** The comparator of [sortedTopPosts]: impressions first, then views. *)
Definition byImpressionsThenViews (a b : LinkedInPostRecord.t) : Z :=
  if negb (Qeq_bool (LinkedInPostRecord.impressions b)
             (LinkedInPostRecord.impressions a))
  then Qsign (LinkedInPostRecord.impressions b
              - LinkedInPostRecord.impressions a)
  else Qsign (LinkedInPostRecord.views b - LinkedInPostRecord.views a).

(** [post.title || post.link] as a condition. *)
Definition titleOrLink (post : LinkedInPostRecord.t) : bool :=
  negb (String.eqb (LinkedInPostRecord.title post) "")
  || negb (String.eqb (LinkedInPostRecord.link post) "").

(** [sortedTopPosts] of [loadLinkedInPostsData]; the summaries are the
    records without [hasTime], which no comparator reads. *)
Definition linkedInTopPosts (rawPosts : list LinkedInPostRecord.t)
  : list LinkedInPostRecord.t :=
  firstn 5
    (sortBy byImpressionsThenViews
       (filter titleOrLink (linkedInUniquePosts rawPosts))).

(** [b.engagementRate ?? 0] *)
Definition rateOrZero (post : LinkedInPostRecord.t) : Q :=
  match LinkedInPostRecord.engagementRate post with
  | Some rate => rate
  | None => 0
  end.

Definition byEngagementRate (a b : LinkedInPostRecord.t) : Z :=
  Qsign (rateOrZero b - rateOrZero a).

Definition hasRate (post : LinkedInPostRecord.t) : bool :=
  match LinkedInPostRecord.engagementRate post with
  | Some _ => true
  | None => false
  end.

(** [sortedTopPostsByRate] of [loadLinkedInPostsData]. *)
Definition linkedInTopPostsByRate (rawPosts : list LinkedInPostRecord.t)
  : list LinkedInPostRecord.t :=
  firstn 5
    (sortBy byEngagementRate (filter hasRate (linkedInUniquePosts rawPosts))).

(* ------------------------------------------------------------------ *)
(** ** The daily series of platform B                                  *)
(* ------------------------------------------------------------------ *)

(** [postsByDate.set(key, (postsByDate.get(key) ?? 0) + 1)] in the loop
    over [uniquePosts]; the counts are whole numbers. *)
Definition postsByDateStep (postsByDate : JsMap.t Z)
  (post : LinkedInPostRecord.t) : JsMap.t Z :=
  let key := toDayKey (LinkedInPostRecord.createdAt post) in
  JsMap.set key
    (match JsMap.get key postsByDate with Some n => n | None => 0 end + 1)
    postsByDate.

(** [postsByDate] of [loadLinkedInPostsData]. *)
Definition linkedInPostsByDate (rawPosts : list LinkedInPostRecord.t)
  : JsMap.t Z :=
  fold_left postsByDateStep (linkedInUniquePosts rawPosts) JsMap.empty.

Section LinkedInDaily.
Variable Date_parse : string -> JsNumber.t.

(** The callback of [rows.map] in [loadLinkedInDailyMetrics]; [None] is
    the [null] that [filter(Boolean)] drops.  As for platform A, a record
    with an [Invalid Date] has no day and is not represented. *)
Definition linkedInDailyRow (postsByDate : JsMap.t Z) (row : Row)
  : option DailyMetric.t :=
  match parseLinkedInDate Date_parse (U_string (pickField row ["Date"%string])) with
  | None | Some DateObject.Invalid => None
  | Some (DateObject.at_ date) =>
      let field candidates := toNumber (U_string (pickField row candidates)) in
      Some {|
        DailyMetric.source := Platform.linkedin;
        DailyMetric.date := date;
        DailyMetric.views :=
          field ["Impressions (total)"; "Impressions";
                 "Impressions (organic)"]%string;
        DailyMetric.clicks :=
          field ["Clicks (total)"; "Clicks"; "Clicks (organic)"]%string;
        DailyMetric.shares := 0;
        DailyMetric.bookmarks := 0;
        DailyMetric.profileVisits := 0;
        DailyMetric.likes :=
          field ["Reactions (total)"; "Reactions";
                 "Reactions (organic)"]%string;
        DailyMetric.comments :=
          field ["Comments (total)"; "Comments"; "Comments (organic)"]%string;
        DailyMetric.reposts :=
          field ["Reposts (total)"; "Reposts"; "Reposts (organic)";
                 "Shares"]%string;
        DailyMetric.engagements := 0;
        DailyMetric.videoViews := 0;
        DailyMetric.videoWatchViews := 0;
        DailyMetric.videoWatchTimeMs := 0;
        DailyMetric.videoCompletionRateSum := 0;
        DailyMetric.posts :=
          inject_Z (match JsMap.get (toDayKey date) postsByDate with
                    | Some n => n
                    | None => 0
                    end);
        DailyMetric.newFollows := 0;
        DailyMetric.unfollows := 0
      |}
  end%Q.

(** The [metrics] of [loadLinkedInDailyMetrics] for the rows of all
    files. *)
Definition linkedInDailyMetrics (postsByDate : JsMap.t Z) (rows : list Row)
  : list DailyMetric.t :=
  mergeDailyMetrics
    (flat_map (fun row => match linkedInDailyRow postsByDate row with
                          | Some m => [m]
                          | None => []
                          end) rows).
End LinkedInDaily.

(* ------------------------------------------------------------------ *)
(** ** The content types of platform B                                 *)
(* ------------------------------------------------------------------ *)

(** [LinkedInContentTypeSummary]; [posts] is a whole number. *)
Module ContentTypeSummary.
Record t := mk {
  type : string;
  posts : Z;
  impressions : Q;
  views : Q;
  engagements : Q
}.
End ContentTypeSummary.

(** [post.contentType || "Unknown"] *)
Definition contentTypeOf (post : LinkedInPostRecord.t) : string :=
  if String.eqb (LinkedInPostRecord.contentType post) "" then "Unknown"
  else LinkedInPostRecord.contentType post.

(** [post.likes + post.comments + post.reposts] *)
Definition postEngagements (post : LinkedInPostRecord.t) : Q :=
  LinkedInPostRecord.likes post + LinkedInPostRecord.comments post
  + LinkedInPostRecord.reposts post.

(** The part of the loop over [uniquePosts] that fills
    [contentTypeMap]. *)
Definition contentTypeStep (contentTypeMap : JsMap.t ContentTypeSummary.t)
  (post : LinkedInPostRecord.t) : JsMap.t ContentTypeSummary.t :=
  let contentType := contentTypeOf post in
  let current :=
    match JsMap.get contentType contentTypeMap with
    | Some current => current
    | None => ContentTypeSummary.mk contentType 0 0 0 0
    end in
  JsMap.set contentType
    (ContentTypeSummary.mk (ContentTypeSummary.type current)
       (ContentTypeSummary.posts current + 1)
       (ContentTypeSummary.impressions current
        + LinkedInPostRecord.impressions post)
       (ContentTypeSummary.views current + LinkedInPostRecord.views post)
       (ContentTypeSummary.engagements current + postEngagements post))
    contentTypeMap.

(** [Array.from(contentTypeMap.values())] *)
Definition contentTypeRollup (rawPosts : list LinkedInPostRecord.t)
  : list ContentTypeSummary.t :=
  JsMap.values
    (fold_left contentTypeStep (linkedInUniquePosts rawPosts) JsMap.empty).

Definition byTypeImpressions (a b : ContentTypeSummary.t) : Z :=
  Qsign (ContentTypeSummary.impressions b - ContentTypeSummary.impressions a).

(** [contentTypes] of [loadLinkedInPostsData]. *)
Definition linkedInContentTypes (rawPosts : list LinkedInPostRecord.t)
  : list ContentTypeSummary.t :=
  firstn 6 (sortBy byTypeImpressions (contentTypeRollup rawPosts)).

(* ------------------------------------------------------------------ *)
(** ** HTML entities                                                   *)
(* ------------------------------------------------------------------ *)

(** [s.replace(/needle/g, replacement)] for a literal needle that is not
    empty: the matches are taken from left to right and do not overlap;
    [skip] is the number of characters of a match still to pass over. *)
Fixpoint replaceFrom (needle replacement : string) (skip : nat) (s : string)
  : string :=
  match s with
  | EmptyString => EmptyString
  | String c s' =>
      match skip with
      | S k => replaceFrom needle replacement k s'
      | O =>
          if String.prefix needle s
          then (replacement
                ++ replaceFrom needle replacement (String.length needle - 1) s')%string
          else String c (replaceFrom needle replacement 0 s')
      end
  end.

Definition replaceAll (needle replacement s : string) : string :=
  replaceFrom needle replacement 0 s.

(** The double quote, character 34. *)
Definition doubleQuote : ascii := "034"%char.

Definition decodeHtmlEntities (value : string) : string :=
  replaceAll "&#39;" "'"
    (replaceAll "&quot;" (String doubleQuote EmptyString)
       (replaceAll "&amp;" "&"
          (replaceAll "&lt;" "<"
             (replaceAll "&gt;" ">" value)))).

(* ------------------------------------------------------------------ *)
(** ** Titles                                                          *)
(* ------------------------------------------------------------------ *)

(** [s.replace(/\s+/g, " ")]: every run of white space becomes one
    space; [inRun] tells that the previous character was white space. *)
Fixpoint collapseRuns (inRun : bool) (s : string) : string :=
  match s with
  | EmptyString => EmptyString
  | String c s' =>
      if JsString.isWhiteSpace c then
        if inRun then collapseRuns true s'
        else String " " (collapseRuns true s')
      else String c (collapseRuns false s')
  end.

(** [title.replace(/\s+/g, " ").slice(0, 140)] *)
Definition sanitizeTitle (title : string) : string :=
  String.substring 0 140 (collapseRuns false title).

(* ------------------------------------------------------------------ *)
(** ** Days of the week                                                *)
(* ------------------------------------------------------------------ *)

Module DayOfWeekSummary.
Record t := mk {
  day : string;
  averageViews : Q;
  totalViews : Q;
  days : Z
}.
End DayOfWeekSummary.

(** The entries [{ date, views }] of the map [byDate] of
    [buildDayOfWeekSummary]. *)
Module DayViews.
Record t := mk {
  date : Z;
  views : Q
}.
End DayViews.

Definition dayNames : list string :=
  ["Sun"; "Mon"; "Tue"; "Wed"; "Thu"; "Fri"; "Sat"]%string.

(** The callback of [daily.forEach]. *)
Definition dayViewsStep (byDate : JsMap.t DayViews.t) (metric : DailyMetric.t)
  : JsMap.t DayViews.t :=
  let key := toDayKey (DailyMetric.date metric) in
  let existing :=
    match JsMap.get key byDate with
    | Some existing => existing
    | None => DayViews.mk (DailyMetric.date metric) 0
    end in
  JsMap.set key
    (DayViews.mk (DayViews.date existing)
       (DayViews.views existing + DailyMetric.views metric))
    byDate.

(** [l[index] = f(l[index])] for an index of the array. *)
Fixpoint updateAt {A : Type} (index : nat) (f : A -> A) (l : list A)
  : list A :=
  match l, index with
  | [], _ => []
  | x :: l', O => f x :: l'
  | x :: l', S n => x :: updateAt n f l'
  end.

(** The callback of [byDate.forEach]; [getUTCDay] is [WeekDay]. *)
Definition addDay (summary : list DayOfWeekSummary.t) (entry : DayViews.t)
  : list DayOfWeekSummary.t :=
  let index := Z.to_nat (JsDate.WeekDay (DayViews.date entry)) in
  updateAt index
    (fun bucket =>
       DayOfWeekSummary.mk (DayOfWeekSummary.day bucket)
         (DayOfWeekSummary.averageViews bucket)
         (DayOfWeekSummary.totalViews bucket + DayViews.views entry)
         (DayOfWeekSummary.days bucket + 1))
    summary.

(** The callback of [summary.forEach]. *)
Definition setAverage (bucket : DayOfWeekSummary.t) : DayOfWeekSummary.t :=
  DayOfWeekSummary.mk (DayOfWeekSummary.day bucket)
    (if DayOfWeekSummary.days bucket =? 0 then 0
     else DayOfWeekSummary.totalViews bucket
          / inject_Z (DayOfWeekSummary.days bucket))
    (DayOfWeekSummary.totalViews bucket)
    (DayOfWeekSummary.days bucket).

Definition buildDayOfWeekSummary (daily : list DailyMetric.t)
  : list DayOfWeekSummary.t :=
  let byDate := fold_left dayViewsStep daily JsMap.empty in
  let summary := map (fun day => DayOfWeekSummary.mk day 0 0 0) dayNames in
  map setAverage (fold_left addDay (JsMap.values byDate) summary).

(* ------------------------------------------------------------------ *)
(** ** The best times to post on platform B                            *)
(* ------------------------------------------------------------------ *)

Module BestTimeSlot.
Record t := mk {
  label : string;
  day : string;
  hour : option Z;
  posts : Z;
  impressions : Q;
  engagements : Q;
  engagementRate : option Q
}.
End BestTimeSlot.

(** [dayNames[date.getUTCDay()]] *)
Definition dayNameOf (time : Z) : string :=
  nth (Z.to_nat (JsDate.WeekDay time)) dayNames EmptyString.

(** [post.hasTime ? post.createdAt.getUTCHours() : null] *)
Definition slotHour (post : LinkedInPostRecord.t) : option Z :=
  if LinkedInPostRecord.hasTime post
  then Some (JsDate.HourFromTime (LinkedInPostRecord.createdAt post))
  else None.

Definition slotKeyOf (dayName : string) (hour : option Z) : string :=
  match hour with
  | None => dayName
  | Some h => (dayName ++ "-" ++ JsString.string_of_Z h)%string
  end.

Definition slotLabelOf (dayName : string) (hour : option Z) : string :=
  match hour with
  | None => dayName
  | Some h => (dayName ++ " " ++ JsString.pad2 h ++ ":00")%string
  end.

(** The part of the loop over [uniquePosts] that fills [timeSlotMap]. *)
Definition timeSlotStep (timeSlotMap : JsMap.t BestTimeSlot.t)
  (post : LinkedInPostRecord.t) : JsMap.t BestTimeSlot.t :=
  let dayName := dayNameOf (LinkedInPostRecord.createdAt post) in
  let hour := slotHour post in
  let slotKey := slotKeyOf dayName hour in
  let slot :=
    match JsMap.get slotKey timeSlotMap with
    | Some slot => slot
    | None =>
        BestTimeSlot.mk (slotLabelOf dayName hour) dayName hour 0 0 0 None
    end in
  let impressions :=
    (BestTimeSlot.impressions slot + LinkedInPostRecord.impressions post)%Q in
  let engagements :=
    (BestTimeSlot.engagements slot + postEngagements post)%Q in
  JsMap.set slotKey
    (BestTimeSlot.mk (BestTimeSlot.label slot) (BestTimeSlot.day slot)
       (BestTimeSlot.hour slot) (BestTimeSlot.posts slot + 1)
       impressions engagements
       (if Qeq_bool impressions 0 then None
        else Some (engagements / impressions)%Q))
    timeSlotMap.

(** [Array.from(timeSlotMap.values())] *)
Definition timeSlots (rawPosts : list LinkedInPostRecord.t)
  : list BestTimeSlot.t :=
  JsMap.values
    (fold_left timeSlotStep (linkedInUniquePosts rawPosts) JsMap.empty).

(** [b.engagementRate ?? 0] *)
Definition slotRate (slot : BestTimeSlot.t) : Q :=
  match BestTimeSlot.engagementRate slot with
  | Some rate => rate
  | None => 0
  end.

Definition bySlotRate (a b : BestTimeSlot.t) : Z :=
  Qsign (slotRate b - slotRate a).

(** [bestTimes] of [loadLinkedInPostsData]. *)
Definition linkedInBestTimes (rawPosts : list LinkedInPostRecord.t)
  : list BestTimeSlot.t :=
  firstn 5
    (sortBy bySlotRate
       (filter (fun slot => 0 <? BestTimeSlot.posts slot) (timeSlots rawPosts))).

(* ------------------------------------------------------------------ *)
(** ** The data of a platform                                          *)
(* ------------------------------------------------------------------ *)

Module PlatformData.
Record t := mk {
  daily : list DailyMetric.t;
  monthly : list MonthSummary.t;
  totals : MonthSummary.t;
  coverage : Coverage.t
}.
End PlatformData.

Section PlatformData.
Variable formatMonthLabel : string -> string.

Definition buildPlatformData (daily : list DailyMetric.t) : PlatformData.t :=
  let monthly := aggregateByMonth formatMonthLabel daily in
  let totals := summarizeTotals monthly in
  let coverage := buildCoverage daily in
  PlatformData.mk daily monthly totals coverage.

(** [combinedData] of [getDashboardData], from the series of the two
    platforms. *)
Definition combinedData (xMetrics linkedInMetrics : list DailyMetric.t)
  : PlatformData.t :=
  buildPlatformData (xMetrics ++ linkedInMetrics).
End PlatformData.

(* ------------------------------------------------------------------ *)
(** ** The page: [app/page.tsx]                                        *)
(* ------------------------------------------------------------------ *)

(** [getMonthKey] of the page. *)
Definition getMonthKey (date : Z) : string :=
  let year := JsDate.YearFromTime date in
  let month := JsString.pad2 (JsDate.MonthFromTime date + 1) in
  (JsString.string_of_Z year ++ "-" ++ month)%string.

(** [countDaysForMonth]: how many daily rows fall into the month. *)
Definition countDaysForMonth (daily : list DailyMetric.t) (monthKey : string)
  : Z :=
  Z.of_nat (List.length
              (filter (fun entry =>
                         String.eqb (getMonthKey (DailyMetric.date entry))
                           monthKey) daily)).

(** [averageWatchTimeSeconds] and [averageCompletionRate] of the page,
    from the data of platform A. *)
Definition averageWatchTimeSeconds (x : PlatformData.t) : option Q :=
  let totalWatchTimeMs :=
    MonthSummary.videoWatchTimeMs (PlatformData.totals x) in
  let totalWatchViews :=
    MonthSummary.videoWatchViews (PlatformData.totals x) in
  if Qgtb totalWatchViews 0
  then Some (totalWatchTimeMs / totalWatchViews / 1000)%Q
  else None.

Definition averageCompletionRate (x : PlatformData.t) : option Q :=
  let totalWatchViews :=
    MonthSummary.videoWatchViews (PlatformData.totals x) in
  if Qgtb totalWatchViews 0
  then Some (MonthSummary.videoCompletionRateSum (PlatformData.totals x)
             / totalWatchViews)%Q
  else None.

Module ValidationStatus.
Record t := mk {
  label : string;
  tone : string
}.
End ValidationStatus.

(** [getValidationStatus] of the page. *)
Definition getValidationStatus (item : CsvValidation.t) : ValidationStatus.t :=
  match CsvValidation.source item with
  | CsvSource.missing =>
      ValidationStatus.mk "Missing file" "bg-rose-50 text-rose-700"
  | _ =>
      if (0 <? List.length (CsvValidation.missingRequired item))%nat then
        ValidationStatus.mk "Needs attention" "bg-amber-50 text-amber-700"
      else if (0 <? List.length (CsvValidation.missingOptional item))%nat then
        ValidationStatus.mk "Partial" "bg-slate-100 text-slate-700"
      else ValidationStatus.mk "OK" "bg-emerald-50 text-emerald-700"
  end.

(* ------------------------------------------------------------------ *)
(** ** The charts: [components/DashboardCharts.tsx]                    *)
(* ------------------------------------------------------------------ *)

(** A point of the engagement rate chart. *)
Module RatePoint.
Record t := mk {
  monthKey : string;
  label : string;
  xRate : option Q;
  linkedinRate : option Q
}.
End RatePoint.

(** [calculateRate] of the charts. *)
Definition calculateRate (month : MonthSummary.t) : option Q :=
  if Qeq_bool (MonthSummary.views month) 0 then None
  else
    let engagements :=
      (MonthSummary.likes month + MonthSummary.comments month
       + MonthSummary.reposts month)%Q in
    Some (engagements / MonthSummary.views month)%Q.

(** The callback of [xMonthly.forEach] in [buildEngagementRateData]. *)
Definition xRateStep (map : JsMap.t RatePoint.t) (month : MonthSummary.t)
  : JsMap.t RatePoint.t :=
  JsMap.set (MonthSummary.monthKey month)
    (RatePoint.mk (MonthSummary.monthKey month) (MonthSummary.label month)
       (calculateRate month) None)
    map.

(** The callback of [linkedinMonthly.forEach]; the point found is
    changed in place, which leaves it where it is in the map. *)
Definition linkedinRateStep (map : JsMap.t RatePoint.t)
  (month : MonthSummary.t) : JsMap.t RatePoint.t :=
  match JsMap.get (MonthSummary.monthKey month) map with
  | Some existing =>
      JsMap.set (MonthSummary.monthKey month)
        (RatePoint.mk (RatePoint.monthKey existing) (RatePoint.label existing)
           (RatePoint.xRate existing) (calculateRate month))
        map
  | None =>
      JsMap.set (MonthSummary.monthKey month)
        (RatePoint.mk (MonthSummary.monthKey month) (MonthSummary.label month)
           None (calculateRate month))
        map
  end.

Definition byPointKey (a b : RatePoint.t) : Z :=
  JsString.localeCompare (RatePoint.monthKey a) (RatePoint.monthKey b).

Definition buildEngagementRateData (xMonthly linkedinMonthly : list MonthSummary.t)
  : list RatePoint.t :=
  let map :=
    fold_left linkedinRateStep linkedinMonthly
      (fold_left xRateStep xMonthly JsMap.empty) in
  sortBy byPointKey (JsMap.values map).

(* ------------------------------------------------------------------ *)
(** ** [pickField] for any list of candidates                          *)
(* ------------------------------------------------------------------ *)

(** The names that a row inherits from [Object.prototype], as every
    object made by [{}] does: [key in row] holds of them too, whatever
    the headers of the row are. *)
Definition objectPrototypeKeys : list string :=
  [ "constructor"; "hasOwnProperty"; "isPrototypeOf";
    "propertyIsEnumerable"; "toLocaleString"; "toString"; "valueOf";
    "__proto__"; "__defineGetter__"; "__defineSetter__";
    "__lookupGetter__"; "__lookupSetter__" ]%string.

Definition inherited (key : string) : bool :=
  existsb (String.eqb key) objectPrototypeKeys.

(** What [pickField] returns: a string (a cell of the row, or the empty
    string), or the member of [Object.prototype] that [row[name]] is
    when the row has no header [name]: a function, and the prototype
    itself for [__proto__]. *)
Inductive Picked :=
| cell (value : string)
| member (name : string).

(** The first loop of [pickField]: [if (key in row) return row[key]].
    A header of the row hides the inherited member of that name. *)
Fixpoint firstHas (row : Row) (candidates : list string) : option Picked :=
  match candidates with
  | [] => None
  | key :: rest =>
      match JsMap.get key row with
      | Some value => Some (cell value)
      | None => if inherited key then Some (member key) else firstHas row rest
      end
  end.

(** [pickField] as the engine runs it on any candidates.  [pickField]
    above is this function on candidates none of which is inherited,
    the only ones that the loaders pass. *)
Definition pickFieldAny (row : Row) (candidates : list string) : Picked :=
  match firstHas row candidates with
  | Some value => value
  | None =>
(* Case-insensitive fallback for slightly different exports. *)
match firstIn (lowerKeys row) (map JsString.toLowerCase candidates) with
| Some value => cell value
| None => cell EmptyString
end
  end.

(** Every list of candidates that a loader or a row mapper of
    [metrics.ts] passes to [pickField]. *)
Definition loaderCandidates : list (list string) :=
  [ ["Date"]; ["Impressions"]; ["Likes"]; ["Replies"];
    ["Reposts"; "Retweets"]; ["Shares"]; ["Bookmarks"];
    ["Profile visits"]; ["Engagements"]; ["Video views"];
    ["Create Post"]; ["New follows"]; ["Unfollows"];
    ["Impressions (total)"; "Impressions"; "Impressions (organic)"];
    ["Clicks (total)"; "Clicks"; "Clicks (organic)"];
    ["Reactions (total)"; "Reactions"; "Reactions (organic)"];
    ["Comments (total)"; "Comments"; "Comments (organic)"];
    ["Reposts (total)"; "Reposts"; "Reposts (organic)"; "Shares"];
    ["Views"]; ["Watch Time (ms)"]; ["Completion Rate"];
    ["Reposts"; "Retweets"; "Retweets (organic)"]; ["Engagement rate"];
    ["Tweet text"; "Text"; "Post text"; "Tweet"; "Post"];
    ["Post Link"; "Tweet permalink"; "URL"; "Tweet URL"; "Permalink"];
    ["time"; "Time"; "Created at"; "Date"];
    ["Created date"; "Created Date"]; ["Clicks"]; ["Comments"];
    ["Reposts"]; ["Engagement rate"; "Engagement rate (total)"];
    ["Post title"]; ["Post link"]; ["Content Type"; "Post type"] ]%string.

(* ------------------------------------------------------------------ *)
(** ** The posts of platform B as the row mapper pushes them           *)
(* ------------------------------------------------------------------ *)

(** [parseRate] *)
Definition parseRate (value : unknown) : option Q :=
  match value with
  | U_null | U_undefined => None
  | U_number n => match n with JsNumber.Fin q => Some q | _ => None end
  | U_string s =>
      if String.eqb s "" then None
      else match Number_ (JsString.trim s) with
           | JsNumber.Fin q => Some q
           | _ => None
           end
  | U_boolean _ | U_Date _ => None
  end.

(** [LinkedInPostSummary & { hasTime: boolean }] with the [Date] that
    [parseLinkedInDateTime] returned, which may be the [Invalid Date].
    [LinkedInPostRecord.t] is this record with a valid date. *)
Module RawPost.
Record t := mk {
  title : string;
  link : string;
  createdAt : DateObject.t;
  impressions : Q;
  views : Q;
  clicks : Q;
  likes : Q;
  comments : Q;
  reposts : Q;
  engagementRate : option Q;
  contentType : string;
  hasTime : bool
}.

Definition ofRecord (post : LinkedInPostRecord.t) : t :=
  {| title := LinkedInPostRecord.title post;
     link := LinkedInPostRecord.link post;
     createdAt := DateObject.at_ (LinkedInPostRecord.createdAt post);
     impressions := LinkedInPostRecord.impressions post;
     views := LinkedInPostRecord.views post;
     clicks := LinkedInPostRecord.clicks post;
     likes := LinkedInPostRecord.likes post;
     comments := LinkedInPostRecord.comments post;
     reposts := LinkedInPostRecord.reposts post;
     engagementRate := LinkedInPostRecord.engagementRate post;
     contentType := LinkedInPostRecord.contentType post;
     hasTime := LinkedInPostRecord.hasTime post |}.
End RawPost.

Section LinkedInPosts.
Variable Date_parse : string -> JsNumber.t.

(** The callback of [rows.forEach] in [loadLinkedInPostsData]: the post
    that it pushes, [None] when it returns early.  The test [!createdAt]
    holds of [null] only: an [Invalid Date] is an object. *)
Definition linkedInPostRow (row : Row) : option RawPost.t :=
  let dateValue := pickField row ["Created date"; "Created Date"]%string in
  let rawDate := JsString.trim dateValue in
  let hasTime := JsString.includes ":" rawDate in
  match parseLinkedInDateTime Date_parse (U_string dateValue) with
  | None => None
  | Some createdAt =>
      let field candidates := toNumber (U_string (pickField row candidates)) in
      let impressions := field ["Impressions"%string] in
      let views := field ["Views"%string] in
      let clicks := field ["Clicks"%string] in
      let likes := field ["Likes"%string] in
      let comments := field ["Comments"%string] in
      let reposts := field ["Reposts"%string] in
      let engagementRateRaw :=
        pickField row ["Engagement rate"; "Engagement rate (total)"]%string in
      let engagementRate :=
        match parseRate (U_string engagementRateRaw) with
        | Some rate => Some rate
        | None => calculateEngagementRate impressions likes comments reposts
        end in
      Some {|
        RawPost.title :=
          sanitizeTitle (JsString.trim (pickField row ["Post title"%string]));
        RawPost.link := JsString.trim (pickField row ["Post link"%string]);
        RawPost.createdAt := createdAt;
        RawPost.impressions := impressions;
        RawPost.views := views;
        RawPost.clicks := clicks;
        RawPost.likes := likes;
        RawPost.comments := comments;
        RawPost.reposts := reposts;
        RawPost.engagementRate := engagementRate;
        RawPost.contentType :=
          JsString.trim (pickField row ["Content Type"; "Post type"]%string);
        RawPost.hasTime := hasTime
      |}
  end.

(** [rawPosts] of [loadLinkedInPostsData] for the rows of all files. *)
Definition linkedInRawPosts (rows : list Row) : list RawPost.t :=
  flat_map (fun row => match linkedInPostRow row with
                       | Some post => [post]
                       | None => []
                       end) rows.
End LinkedInPosts.

(** [post.link || `${post.title}-${post.createdAt.toISOString()}`]:
    the template is only evaluated for an empty link, and
    [toISOString] throws [RangeError] on the [Invalid Date] ([None]). *)
Definition rawPostKey (post : RawPost.t) : option string :=
  if String.eqb (RawPost.link post) "" then
    match RawPost.createdAt post with
    | DateObject.at_ time =>
        Some (RawPost.title post ++ "-" ++ toISOString time)%string
    | DateObject.Invalid => None
    end
  else Some (RawPost.link post).

(** One iteration of [rawPosts.forEach] in [loadLinkedInPostsData];
    [None] when it throws. *)
Definition rawDedupStep (dedupedPosts : JsMap.t RawPost.t) (post : RawPost.t)
  : option (JsMap.t RawPost.t) :=
  match rawPostKey post with
  | None => None
  | Some key =>
      Some
        match JsMap.get key dedupedPosts with
        | None => JsMap.set key post dedupedPosts
        | Some existing =>
            if Qgtb (RawPost.impressions post) (RawPost.impressions existing)
               || (Qeq_bool (RawPost.impressions post)
                            (RawPost.impressions existing)
                   && RawPost.hasTime post
                   && negb (RawPost.hasTime existing))
            then JsMap.set key post dedupedPosts
            else dedupedPosts
        end
  end.

(** The loop over [rawPosts]: an iteration that throws ends it, and
    with it [loadLinkedInPostsData] and [getDashboardData], which catch
    nothing. *)
Definition rawDedup (rawPosts : list RawPost.t) : option (JsMap.t RawPost.t) :=
  fold_left (fun dedupedPosts post =>
               match dedupedPosts with
               | Some m => rawDedupStep m post
               | None => None
               end)
    rawPosts (Some JsMap.empty).

(** [uniquePosts] of [loadLinkedInPostsData]; [None] when the loop
    before it throws. *)
Definition rawUniquePosts (rawPosts : list RawPost.t)
  : option (list RawPost.t) :=
  option_map JsMap.values (rawDedup rawPosts).

(* ------------------------------------------------------------------ *)
(** ** Vocabulary of the further statements                            *)
(* ------------------------------------------------------------------ *)

(** No header is one of the accepted names of the group, letter case
    apart. *)
Definition groupUnmet (headers : list string) (group : ColumnGroup.t) : Prop :=
  forall field header,
    In field (ColumnGroup.fields group) -> In header headers ->
    JsString.toLowerCase header <> JsString.toLowerCase field.

(** [a] does not beat [b]: it has fewer views, or as many views and no
    more watch time. *)
Definition videoNoBetter (a b : VideoStat.t) : Prop :=
  (VideoStat.views a < VideoStat.views b)%Q
  \/ ((VideoStat.views a == VideoStat.views b)%Q
      /\ (VideoStat.watchTimeMs a <= VideoStat.watchTimeMs b)%Q).

(** [count] consecutive day numbers from [first], and the day numbers
    from [first] to [last]. *)
Fixpoint daysFrom (first : Z) (count : nat) : list Z :=
  match count with
  | O => []
  | S n => first :: daysFrom (first + 1) n
  end.

Definition daysFromTo (first last : Z) : list Z :=
  daysFrom first (Z.to_nat (last - first + 1)).

(** The day numbers of the records of a series. *)
Definition recordDays (daily : list DailyMetric.t) : list Z :=
  map (fun m => JsDate.Day (DailyMetric.date m)) daily.

(** [day] is not the day of a record of the series. *)
Definition notCovered (days : list Z) (day : Z) : bool :=
  negb (existsb (Z.eqb day) days).

(** The UTC days from the day of [start] to the day of [end_] on which
    the series has no record. *)
Definition uncoveredDays (start end_ : Z) (daily : list DailyMetric.t)
  : list Z :=
  filter (notCovered (recordDays daily))
    (daysFromTo (JsDate.Day start) (JsDate.Day end_)).

(** [a] ranks no lower than [b] among the posts of platform B: more
    impressions, or as many impressions and no fewer views. *)
Definition ranksNoLower (a b : LinkedInPostRecord.t) : Prop :=
  (LinkedInPostRecord.impressions b < LinkedInPostRecord.impressions a)%Q
  \/ ((LinkedInPostRecord.impressions b == LinkedInPostRecord.impressions a)%Q
      /\ (LinkedInPostRecord.views b <= LinkedInPostRecord.views a)%Q).

(** The deduplicated posts of platform B created on the UTC day of the
    instant [date]. *)
Definition postsOfDay (date : Z) (rawPosts : list LinkedInPostRecord.t)
  : list LinkedInPostRecord.t :=
  filter (fun post =>
            JsDate.Day (LinkedInPostRecord.createdAt post) =? JsDate.Day date)
    (linkedInUniquePosts rawPosts).

(** The deduplicated posts of platform B of one content type. *)
Definition postsOfType (type : string) (rawPosts : list LinkedInPostRecord.t)
  : list LinkedInPostRecord.t :=
  filter (fun post => String.eqb (contentTypeOf post) type)
    (linkedInUniquePosts rawPosts).

(** [summary] counts and adds up the posts of [group]. *)
Definition summarizes (summary : ContentTypeSummary.t)
  (group : list LinkedInPostRecord.t) : Prop :=
  ContentTypeSummary.posts summary = Z.of_nat (List.length group)
  /\ (ContentTypeSummary.impressions summary
       == Qsum (map LinkedInPostRecord.impressions group))%Q
  /\ (ContentTypeSummary.views summary
       == Qsum (map LinkedInPostRecord.views group))%Q
  /\ (ContentTypeSummary.engagements summary
       == Qsum (map postEngagements group))%Q.

(** The white space of [s] is single spaces: every white-space character
    is a space and follows a character that is not white space;
    [afterSpace] tells that the character before [s] was white space. *)
Fixpoint spacedFrom (afterSpace : bool) (s : string) : Prop :=
  match s with
  | EmptyString => True
  | String c s' =>
      if JsString.isWhiteSpace c
      then c = " "%char /\ afterSpace = false /\ spacedFrom true s'
      else spacedFrom false s'
  end.

Definition singleSpaced (s : string) : Prop := spacedFrom false s.

(** The characters of [s] that are not white space. *)
Fixpoint inkOf (s : string) : string :=
  match s with
  | EmptyString => EmptyString
  | String c s' =>
      if JsString.isWhiteSpace c then inkOf s' else String c (inkOf s')
  end.

(** The records of a series that fall on the day of the week [index]
    (0 is Sunday), and the distinct UTC days of a list of records. *)
Definition recordsOfWeekDay (index : nat) (daily : list DailyMetric.t)
  : list DailyMetric.t :=
  filter (fun m => JsDate.WeekDay (DailyMetric.date m) =? Z.of_nat index) daily.

Definition distinctDays (records : list DailyMetric.t) : list Z :=
  nodup Z.eq_dec (recordDays records).

Definition sameHour (a b : option Z) : bool :=
  match a, b with
  | Some x, Some y => x =? y
  | None, None => true
  | _, _ => false
  end.

(** The deduplicated posts of platform B of one slot: the posts of the
    day of the week of the slot at its hour, or, for a slot without an
    hour, the posts of that day of the week whose time is not known. *)
Definition postsOfSlot (slot : BestTimeSlot.t)
  (rawPosts : list LinkedInPostRecord.t) : list LinkedInPostRecord.t :=
  filter (fun post =>
            String.eqb (dayNameOf (LinkedInPostRecord.createdAt post))
              (BestTimeSlot.day slot)
            && sameHour (slotHour post) (BestTimeSlot.hour slot))
    (linkedInUniquePosts rawPosts).

(** [slot] counts and adds up the posts of [group], and its rate is
    their engagements over their impressions. *)
Definition slotSummarizes (slot : BestTimeSlot.t)
  (group : list LinkedInPostRecord.t) : Prop :=
  BestTimeSlot.posts slot = Z.of_nat (List.length group)
  /\ (BestTimeSlot.impressions slot
       == Qsum (map LinkedInPostRecord.impressions group))%Q
  /\ (BestTimeSlot.engagements slot == Qsum (map postEngagements group))%Q
  /\ match BestTimeSlot.engagementRate slot with
      | None => (Qsum (map LinkedInPostRecord.impressions group) == 0)%Q
      | Some rate =>
          ~ (Qsum (map LinkedInPostRecord.impressions group) == 0)%Q
          /\ (rate == Qsum (map postEngagements group)
                       / Qsum (map LinkedInPostRecord.impressions group))%Q
      end
  /\ BestTimeSlot.label slot
      = slotLabelOf (BestTimeSlot.day slot) (BestTimeSlot.hour slot).

(** The rate of a slot is what its own sums give. *)
Definition rateOfSums (slot : BestTimeSlot.t) : Prop :=
  BestTimeSlot.engagementRate slot
  = if Qeq_bool (BestTimeSlot.impressions slot) 0 then None
    else Some (BestTimeSlot.engagements slot / BestTimeSlot.impressions slot)%Q.

(** The value of a decimal digit, and the whole number that a string of
    decimal digits and thousands separators denotes, read after the
    digits of [acc]. *)
Definition decimalDigit (c : ascii) : option Z :=
  let n := Z.of_nat (nat_of_ascii c) in
  if (48 <=? n) && (n <=? 57) then Some (n - 48) else None.

Fixpoint groupedValue (acc : Z) (s : string) : option Z :=
  match s with
  | EmptyString => Some acc
  | String c s' =>
      if Ascii.eqb c "," then groupedValue acc s'
      else match decimalDigit c with
           | Some d => groupedValue (10 * acc + d) s'
           | None => None
           end
  end.

(** [s] is made of decimal digits only. *)
Fixpoint digitsOnly (s : string) : bool :=
  match s with
  | EmptyString => true
  | String c s' =>
      match decimalDigit c with
      | Some _ => digitsOnly s'
      | None => false
      end
  end.

(** The entity that stands for a character in HTML text, and the text
    in which the characters of [special] are written as entities. *)
Definition entityOf (c : ascii) : string :=
  if Ascii.eqb c "<" then "&lt;"
  else if Ascii.eqb c ">" then "&gt;"
  else if Ascii.eqb c "&" then "&amp;"
  else if Ascii.eqb c doubleQuote then "&quot;"
  else if Ascii.eqb c "'" then "&#39;"
  else String c EmptyString.

Fixpoint escapeWith (special : list ascii) (s : string) : string :=
  match s with
  | EmptyString => EmptyString
  | String c s' =>
      ((if existsb (Ascii.eqb c) special then entityOf c
        else String c EmptyString)
       ++ escapeWith special s')%string
  end.

Definition escapeHtml (s : string) : string :=
  escapeWith [">"; "<"; "&"; doubleQuote; "'"]%char s.

(** The first and the last month summary with a month key; in the
    output of [aggregateByMonth], where the keys are distinct, both are
    the summary of the month. *)
Definition firstWith (key : string) (months : list MonthSummary.t)
  : option MonthSummary.t :=
  find (fun m => String.eqb (MonthSummary.monthKey m) key) months.

Definition lastWith (key : string) (months : list MonthSummary.t)
  : option MonthSummary.t :=
  firstWith key (rev months).

(** The rate of a month that has a summary. *)
Definition rateOf (month : option MonthSummary.t) : option Q :=
  match month with
  | Some m => calculateRate m
  | None => None
  end.

(** The figures of the video overview for the day of a record, zero
    when the overview has no entry for the day. *)
Definition overviewOf (videoMap : JsMap.t VideoStat.t) (r : DailyMetric.t)
  : VideoStat.t :=
  match JsMap.get (toDayKey (DailyMetric.date r)) videoMap with
  | Some video => video
  | None => VideoStat.mk 0 0 0
  end.

(** The key of a post whose key can be made. *)
Definition rawKeyOr (post : RawPost.t) : string :=
  match rawPostKey post with
  | Some key => key
  | None => EmptyString
  end.

(** Both posts have a key, and it is the same one. *)
Definition sameRawKey (a b : RawPost.t) : bool :=
  match rawPostKey a, rawPostKey b with
  | Some x, Some y => String.eqb x y
  | _, _ => false
  end.

(** The record kept by an iteration of the loop over [rawPosts]. *)
Definition rawChoose (existing post : RawPost.t) : RawPost.t :=
  if Qgtb (RawPost.impressions post) (RawPost.impressions existing)
     || (Qeq_bool (RawPost.impressions post) (RawPost.impressions existing)
         && RawPost.hasTime post
         && negb (RawPost.hasTime existing))
  then post else existing.

(** [r] is a best record of the group: no record has more impressions,
    and a record with as many impressions and a known time of day is
    only beaten by a record with a known time of day. *)
Definition rawBest (r : RawPost.t) (group : list RawPost.t) : Prop :=
  In r group
  /\ forall q, In q group ->
       (RawPost.impressions q <= RawPost.impressions r)%Q
       /\ ((RawPost.impressions q == RawPost.impressions r)%Q ->
           RawPost.hasTime q = true -> RawPost.hasTime r = true).

(** The post has no link and no valid date: no key can be made of it. *)
Definition unkeyed (post : RawPost.t) : Prop :=
  RawPost.link post = EmptyString
  /\ RawPost.createdAt post = DateObject.Invalid.

(* ------------------------------------------------------------------ *)
(** ** Further sample records                                          *)
(* ------------------------------------------------------------------ *)

Module MoreSamples.
(** A row of the video overview for 2024-01-15, and the daily record
    that the mapper builds from [Sample.zeroVideoRow] with it. *)
Definition overviewRow : Row :=
  [ ("Date", "2024-01-15"); ("Views", "50");
    ("Watch Time (ms)", "90,000"); ("Completion Rate", "50") ]%string.

Definition overviewStat : VideoStat.t := VideoStat.mk 50 90000 (50 / 100).

Definition joinedMetric : DailyMetric.t :=
  DailyMetric.mk Platform.x Sample.jan15 1200 0 0 7 0 3 0 0 0 50 50 90000
    ((50 / 100) * 50) 0 0 0.

(** A row of the post export of platform B with a title, no link, and a
    creation date in the year 300000, beyond the range of time values;
    and the post that the row mapper pushes for it. *)
Definition farFutureRow : Row :=
  [ ("Post title", "Launch"); ("Created date", "1/1/300000");
    ("Impressions", "500") ]%string.

Definition farFuturePost : RawPost.t :=
  RawPost.mk "Launch" "" DateObject.Invalid 500 0 0 0 0 0
    (Some ((0 + 0 + 0) / 500)%Q) "" false.

(** The same row with a link. *)
Definition farFutureLinkedRow : Row :=
  [ ("Post title", "Launch"); ("Post link", "https://l.example/1");
    ("Created date", "1/1/300000"); ("Impressions", "500") ]%string.
End MoreSamples.

(* ================================================================== *)
(** * Theorems                                                        *)
(* ================================================================== *)

Module JsDateFacts.
Import JsDate.

Lemma YearFromDay_spec (d : Z) :
  DayFromYear (YearFromDay d) <= d < DayFromYear (YearFromDay d + 1).
Proof.
  unfold YearFromDay.
  set (y0 := 1970 + d * 400 / 146097).
  assert (B : DayFromYear (y0 - 1) <= d < DayFromYear (y0 + 1 + 1)).
  { unfold DayFromYear, y0. Z.div_mod_to_equations. lia. }
  destruct (Z.leb_spec (DayFromYear (y0 + 1)) d); [lia|].
  destruct (Z.leb_spec (DayFromYear y0) d); [lia|].
  replace (y0 - 1 + 1) with y0 by lia. lia.
Qed.

Lemma DayFromYear_succ (y : Z) :
  DayFromYear (y + 1) = DayFromYear y + DaysInYear y.
Proof.
  unfold DayFromYear, DaysInYear, isLeapYear.
  repeat match goal with
  | |- context [ ?a =? ?b ] => destruct (Z.eqb_spec a b); cbn [negb]
  end; Z.div_mod_to_equations; lia.
Qed.

Lemma DayWithinYear_range (t : Z) :
  0 <= DayWithinYear t < 365 + InLeapYear t.
Proof.
  unfold DayWithinYear, InLeapYear, YearFromTime.
  pose proof (YearFromDay_spec (Day t)) as H.
  rewrite DayFromYear_succ in H. unfold DaysInYear in H.
  destruct (isLeapYear (YearFromDay (Day t))); lia.
Qed.

Lemma InLeapYear_range (t : Z) : 0 <= InLeapYear t <= 1.
Proof. unfold InLeapYear. destruct (isLeapYear _); lia. Qed.

Lemma MonthFromTime_range (t : Z) : 0 <= MonthFromTime t <= 11.
Proof.
  unfold MonthFromTime.
  repeat match goal with
  | |- context [ ?a <? ?b ] => destruct (Z.ltb_spec a b)
  end; lia.
Qed.

Lemma DateFromTime_range (t : Z) : 1 <= DateFromTime t <= 31.
Proof.
  unfold DateFromTime, MonthFromTime.
  pose proof (DayWithinYear_range t). pose proof (InLeapYear_range t).
  repeat match goal with
  | |- context [ ?a <? ?b ] => destruct (Z.ltb_spec a b)
  end; cbn [daysBeforeMonth]; lia.
Qed.

(** The calendar fields of a time value determine its day number. *)
Lemma Day_of_fields (t : Z) :
  Day t = DayFromYear (YearFromTime t)
          + daysBeforeMonth (InLeapYear t) (MonthFromTime t)
          + DateFromTime t - 1.
Proof. unfold DateFromTime, DayWithinYear. lia. Qed.

Lemma Day_fields_inj (t u : Z) :
  YearFromTime t = YearFromTime u ->
  MonthFromTime t = MonthFromTime u ->
  DateFromTime t = DateFromTime u ->
  Day t = Day u.
Proof.
  intros Hy Hm Hd. rewrite (Day_of_fields t), (Day_of_fields u).
  unfold InLeapYear. rewrite Hy, Hm, Hd. reflexivity.
Qed.

(** [Date.UTC(y, m, d)] of the fields of [t] is the midnight that
    starts the day of [t]. *)
Lemma MakeDay_fields (t : Z) :
  MakeDay (YearFromTime t) (MonthFromTime t) (DateFromTime t) = Day t.
Proof.
  unfold MakeDay. pose proof (MonthFromTime_range t) as Hm.
  rewrite Z.div_small, Z.mod_small, Z.add_0_r by lia.
  symmetry. apply Day_of_fields.
Qed.

Lemma Day_mono (t u : Z) : t <= u -> Day t <= Day u.
Proof. intros H. unfold Day, msPerDay. apply Z.div_le_mono; lia. Qed.

(** Known instants: the epoch, the millisecond before it, leap days of
    2000 and 2024, the first of March of 1900 (no leap year), and the
    bounds of the range of time values. *)
Example toISOString_samples :
  map toISOString
    [ 0; -1; 951782400000; 1709164800000; -2203891200000;
      8640000000000000; -8640000000000000 ]
  = [ "1970-01-01T00:00:00.000Z"; "1969-12-31T23:59:59.999Z";
      "2000-02-29T00:00:00.000Z"; "2024-02-29T00:00:00.000Z";
      "1900-03-01T00:00:00.000Z"; "+275760-09-13T00:00:00.000Z";
      "-271821-04-20T00:00:00.000Z" ]%string.
Proof. vm_compute. reflexivity. Qed.

End JsDateFacts.

Module JsMapFacts.
Import JsMap.
Section Facts.
Context {V : Type}.
Implicit Types (m : JsMap.t V) (k : string) (v : V).

Lemma get_set_same m k v : get k (set k v m) = Some v.
Proof.
  induction m as [|[k' v'] m IH]; cbn.
  - now rewrite String.eqb_refl.
  - destruct (String.eqb_spec k' k) as [->|Hne]; cbn.
    + now rewrite String.eqb_refl.
    + destruct (String.eqb_spec k' k); [contradiction|exact IH].
Qed.

Lemma get_set_other m k k' v : k <> k' -> get k' (set k v m) = get k' m.
Proof.
  intros Hne. induction m as [|[k0 v0] m IH]; cbn.
  - destruct (String.eqb_spec k k'); [contradiction|reflexivity].
  - destruct (String.eqb_spec k0 k) as [->|Hk]; cbn.
    + destruct (String.eqb_spec k k'); [contradiction|reflexivity].
    + destruct (String.eqb_spec k0 k'); [reflexivity|exact IH].
Qed.

Lemma get_None_notin m k : get k m = None <-> ~ In k (keys m).
Proof.
  induction m as [|[k' v'] m IH]; cbn.
  - tauto.
  - destruct (String.eqb_spec k' k) as [->|Hne].
    + split; [discriminate|intros H; exfalso; apply H; now left].
    + rewrite IH. tauto.
Qed.

Lemma get_Some_in m k v : get k m = Some v -> In (k, v) m.
Proof.
  induction m as [|[k' v'] m IH]; cbn; [discriminate|].
  destruct (String.eqb_spec k' k) as [->|Hne].
  - intros [= ->]. now left.
  - intros H. right. now apply IH.
Qed.

Lemma in_get_Some m k v : NoDup (keys m) -> In (k, v) m -> get k m = Some v.
Proof.
  induction m as [|[k' v'] m IH]; cbn; [tauto|].
  intros Hnd [[= -> ->]|Hin].
  - now rewrite String.eqb_refl.
  - inversion Hnd as [|? ? Hnotin Hnd']; subst.
    destruct (String.eqb_spec k' k) as [->|Hne].
    + exfalso. apply Hnotin. change k with (fst (k, v)). now apply in_map.
    + now apply IH.
Qed.

Lemma set_absent m k v : get k m = None -> set k v m = m ++ [(k, v)].
Proof.
  induction m as [|[k' v'] m IH]; cbn; [reflexivity|].
  destruct (String.eqb_spec k' k); [discriminate|].
  intros H. now rewrite IH.
Qed.

Lemma keys_set_present m k v e : get k m = Some e -> keys (set k v m) = keys m.
Proof.
  induction m as [|[k' v'] m IH]; cbn; [discriminate|].
  destruct (String.eqb_spec k' k) as [->|Hne]; cbn; [reflexivity|].
  intros H. f_equal. now apply IH.
Qed.

Lemma keys_set_absent m k v : get k m = None -> keys (set k v m) = keys m ++ [k].
Proof.
  intros H. rewrite set_absent by exact H. unfold keys. now rewrite map_app.
Qed.

Lemma NoDup_keys_set m k v : NoDup (keys m) -> NoDup (keys (set k v m)).
Proof.
  intros Hnd. destruct (get k m) as [e|] eqn:E.
  - now rewrite (keys_set_present _ _ _ _ E).
  - rewrite keys_set_absent by exact E.
    apply NoDup_app; [exact Hnd|repeat constructor; cbn; tauto|].
    intros x Hx [<-|[]]. now apply get_None_notin in E.
Qed.

Lemma in_keys_get m k : In k (keys m) -> exists v, get k m = Some v.
Proof.
  intros H. destruct (get k m) as [v|] eqn:E; [now exists v|].
  now apply get_None_notin in E.
Qed.
End Facts.
End JsMapFacts.

Module GroupFoldFacts.
Import JsMap JsMapFacts.
Section Facts.
Context {A V : Type}.
Variable kf : A -> string.
Variable init : A -> V.
Variable step : V -> A -> V.

Local Abbreviation ups := (upsert kf init step).
Local Abbreviation grp := (groupOf kf).
Local Abbreviation fgrp := (foldGroup init step).

Lemma get_upsert_same m x :
  get (kf x) (ups m x)
  = Some (match get (kf x) m with Some e => step e x | None => init x end).
Proof.
  unfold upsert. destruct (get (kf x) m); apply get_set_same.
Qed.

Lemma get_upsert_other m x k : kf x <> k -> get k (ups m x) = get k m.
Proof.
  intros H. unfold upsert. destruct (get (kf x) m); now apply get_set_other.
Qed.

Lemma get_fold_upsert l : forall m k,
  get k (fold_left ups l m)
  = match get k m with
    | Some e => Some (fold_left step (grp k l) e)
    | None => fgrp (grp k l)
    end.
Proof.
  induction l as [|x l IH]; intros m k; cbn.
  - now destruct (get k m).
  - rewrite IH. destruct (String.eqb_spec (kf x) k) as [<-|Hne].
    + rewrite get_upsert_same. now destruct (get (kf x) m).
    + now rewrite get_upsert_other.
Qed.

Lemma NoDup_keys_upsert m x : NoDup (keys m) -> NoDup (keys (ups m x)).
Proof. unfold upsert. destruct (get (kf x) m); apply NoDup_keys_set. Qed.

Lemma NoDup_keys_fold l : forall m,
  NoDup (keys m) -> NoDup (keys (fold_left ups l m)).
Proof.
  induction l as [|x l IH]; intros m H; cbn; [exact H|].
  apply IH. now apply NoDup_keys_upsert.
Qed.

(** On distinct new keys the loop appends one entry per element. *)
Lemma fold_upsert_fresh l : forall m,
  NoDup (map kf l) ->
  (forall x, In x l -> get (kf x) m = None) ->
  fold_left ups l m = m ++ map (fun x => (kf x, init x)) l.
Proof.
  induction l as [|x l IH]; intros m Hnd Hfresh; cbn.
  - now rewrite app_nil_r.
  - inversion Hnd as [|? ? Hx Hnd']; subst.
    assert (E : ups m x = m ++ [(kf x, init x)]).
    { unfold upsert. rewrite (Hfresh x) by now left.
      apply set_absent. apply Hfresh. now left. }
    rewrite E, IH, <- app_assoc; [reflexivity|exact Hnd'|].
    intros y Hy. rewrite <- E, get_upsert_other.
    + apply Hfresh. now right.
    + intros Heq. apply Hx. rewrite Heq. now apply in_map.
Qed.

(** The value stored under a key is the fold of the group of the key. *)
Lemma get_groupFold l k :
  get k (fold_left ups l empty) = fgrp (grp k l).
Proof. now rewrite get_fold_upsert. Qed.

Lemma groupOf_nonempty l x : In x l -> grp (kf x) l <> [].
Proof.
  intros Hin Hnil.
  assert (H : In x (grp (kf x) l)).
  { apply filter_In. split; [exact Hin|apply String.eqb_refl]. }
  rewrite Hnil in H. exact H.
Qed.

Lemma entry_origin l k v :
  In (k, v) (fold_left ups l empty) -> exists x, In x l /\ kf x = k.
Proof.
  intros Hin. apply in_get_Some in Hin.
  2:{ apply NoDup_keys_fold. constructor. }
  rewrite get_groupFold in Hin.
  destruct (grp k l) as [|x xs] eqn:E; cbn in Hin; [discriminate|].
  assert (Hx : In x (grp k l)) by (rewrite E; now left).
  apply filter_In in Hx. exists x. split; [tauto|].
  now apply String.eqb_eq.
Qed.

Section Keyed.
Variable keyV : V -> string.
Hypothesis key_init : forall x, keyV (init x) = kf x.
Hypothesis key_step :
  forall e x, kf x = keyV e -> keyV (step e x) = keyV e.

Lemma key_fold_step xs : forall e,
  Forall (fun x => kf x = keyV e) xs -> keyV (fold_left step xs e) = keyV e.
Proof.
  induction xs as [|x xs IH]; intros e Hall; cbn; [reflexivity|].
  inversion Hall as [|? ? Hx Hxs]; subst.
  rewrite IH; [now apply key_step|].
  eapply Forall_impl; [|exact Hxs]. cbn. intros y Hy.
  now rewrite key_step.
Qed.

Lemma key_of_entry l k v :
  In (k, v) (fold_left ups l empty) -> keyV v = k.
Proof.
  intros Hin. apply in_get_Some in Hin.
  2:{ apply NoDup_keys_fold. constructor. }
  rewrite get_groupFold in Hin.
  assert (Hall : Forall (fun x => kf x = k) (grp k l)).
  { apply Forall_forall. intros x Hx. apply filter_In in Hx.
    now apply String.eqb_eq. }
  destruct (grp k l) as [|x xs] eqn:E; cbn in Hin; [discriminate|].
  injection Hin as <-. inversion Hall as [|? ? Hx Hxs]; subst.
  rewrite key_fold_step; rewrite key_init; [reflexivity|exact Hxs].
Qed.

Lemma filter_values_unique (m : JsMap.t V) k v :
  (forall k' v', In (k', v') m -> keyV v' = k') ->
  NoDup (keys m) ->
  get k m = Some v ->
  filter (fun o => String.eqb (keyV o) k) (values m) = [v].
Proof.
  induction m as [|[k0 v0] m IH]; cbn; [discriminate|].
  intros Hkey Hnd Hget. inversion Hnd as [|? ? Hnotin Hnd']; subst.
  assert (Hk0 : keyV v0 = k0) by (apply Hkey; now left).
  assert (Hrest : forall k' v', In (k', v') m -> keyV v' = k')
    by (intros; apply Hkey; now right).
  rewrite Hk0. destruct (String.eqb_spec k0 k) as [->|Hne].
  - injection Hget as ->. f_equal.
    clear IH Hkey Hnd. induction m as [|[k1 v1] m IHm]; cbn; [reflexivity|].
    assert (keyV v1 = k1) as -> by (apply Hrest; now left).
    destruct (String.eqb_spec k1 k) as [->|_].
    + exfalso. apply Hnotin. now left.
    + apply IHm.
      * intros H. apply Hnotin. now right.
      * now inversion Hnd'.
      * intros; apply Hrest; now right.
  - now apply IH.
Qed.

Lemma filter_values_groupFold l x :
  In x l ->
  exists v,
    fgrp (grp (kf x) l) = Some v
    /\ filter (fun o => String.eqb (keyV o) (kf x))
         (values (fold_left ups l empty)) = [v].
Proof.
  intros Hin. pose proof (groupOf_nonempty l x Hin) as Hne.
  destruct (fgrp (grp (kf x) l)) as [v|] eqn:E.
  2:{ destruct (grp (kf x) l); [contradiction|discriminate]. }
  exists v. split; [reflexivity|].
  apply filter_values_unique.
  - intros k' v'. apply key_of_entry.
  - apply NoDup_keys_fold. constructor.
  - now rewrite get_groupFold.
Qed.
End Keyed.
End Facts.
End GroupFoldFacts.

Module SortFacts.
Section Facts.
Context {A : Type} (cmp : A -> A -> Z).

Lemma sortInsert_perm x l : Permutation (sortInsert cmp x l) (x :: l).
Proof.
  induction l as [|y l IH]; cbn; [reflexivity|].
  destruct (0 <? cmp x y); [|reflexivity].
  rewrite IH. apply perm_swap.
Qed.

Lemma sortBy_cons x l : sortBy cmp (x :: l) = sortInsert cmp x (sortBy cmp l).
Proof. reflexivity. Qed.

Lemma sortBy_perm l : Permutation (sortBy cmp l) l.
Proof.
  induction l as [|x l IH]; [reflexivity|].
  rewrite sortBy_cons, sortInsert_perm. now constructor.
Qed.

Lemma sortInsert_sorted x l :
  (forall a b, 0 < cmp a b -> cmp b a <= 0) ->
  Sorted (cmp_le cmp) l -> Sorted (cmp_le cmp) (sortInsert cmp x l).
Proof.
  intros Hanti Hs. induction Hs as [|y l Hs IH Hhd]; cbn.
  - repeat constructor.
  - destruct (Z.ltb_spec 0 (cmp x y)) as [Hlt|Hle].
    + constructor; [exact IH|].
      destruct l as [|z l]; cbn.
      * constructor. now apply Hanti.
      * destruct (0 <? cmp x z); constructor.
        -- now inversion Hhd.
        -- now apply Hanti.
    + constructor; [now constructor|]. constructor. exact Hle.
Qed.

Lemma sortBy_sorted l :
  (forall a b, 0 < cmp a b -> cmp b a <= 0) ->
  Sorted (cmp_le cmp) (sortBy cmp l).
Proof.
  intros Hanti. induction l as [|x l IH]; [constructor|].
  rewrite sortBy_cons. now apply sortInsert_sorted.
Qed.

(** A stable sort leaves a sorted array as it is. *)
Lemma sortBy_sorted_id l : Sorted (cmp_le cmp) l -> sortBy cmp l = l.
Proof.
  induction 1 as [|x l Hs IH Hhd]; [reflexivity|].
  rewrite sortBy_cons, IH. destruct Hhd as [|y l Hxy]; cbn; [reflexivity|].
  unfold cmp_le in Hxy. destruct (Z.ltb_spec 0 (cmp x y)); [lia|reflexivity].
Qed.

Lemma filter_perm (p : A -> bool) l l' :
  Permutation l l' -> Permutation (filter p l) (filter p l').
Proof.
  induction 1 as [|x l l' _ IH|x y l|l l' l'' _ IH1 _ IH2]; cbn.
  - constructor.
  - destruct (p x); [now constructor|exact IH].
  - destruct (p x), (p y); try reflexivity. apply perm_swap.
  - now transitivity (filter p l').
Qed.

Lemma filter_sortBy_singleton (p : A -> bool) l v :
  filter p l = [v] -> filter p (sortBy cmp l) = [v].
Proof.
  intros H. apply Permutation_length_1_inv. rewrite <- H.
  apply filter_perm. symmetry. apply sortBy_perm.
Qed.
End Facts.
End SortFacts.

Module JsStringFacts.
Import JsString.
Local Open Scope string_scope.

Lemma string_of_Z_inj (a b : Z) : string_of_Z a = string_of_Z b -> a = b.
Proof.
  unfold string_of_Z. intros H.
  assert (Hn : forall z, NilZero.int_of_string (NilZero.string_of_int (Z.to_int z))
                         = Some (Z.to_int z)).
  { intros z. apply NilZero.isi; destruct z; cbn; try discriminate;
      intros [= E]; now apply DecimalPos.Unsigned.to_uint_nonnil in E. }
  apply DecimalZ.to_int_inj.
  assert (E : Some (Z.to_int a) = Some (Z.to_int b))
    by (rewrite <- !Hn; now rewrite H).
  now injection E.
Qed.

Lemma length_append (a b : string) :
  String.length (a ++ b) = (String.length a + String.length b)%nat.
Proof. induction a as [|c a IH]; cbn; [reflexivity|now rewrite IH]. Qed.

(** Two concatenations with suffixes of one length agree part by part. *)
Lemma append_inj_suffix (a a' b b' : string) :
  a ++ b = a' ++ b' -> String.length b = String.length b' ->
  a = a' /\ b = b'.
Proof.
  revert a'. induction a as [|c a IH]; intros [|c' a'] H Hlen; cbn in H.
  - now split.
  - exfalso. apply (f_equal String.length) in H. cbn in H.
    rewrite length_append in H. lia.
  - exfalso. apply (f_equal String.length) in H. cbn in H.
    rewrite length_append in H. lia.
  - injection H as -> H. destruct (IH a' H Hlen) as [-> ->]. now split.
Qed.

Local Abbreviation small_numbers := (map Z.of_nat (seq 0 100)).

Lemma small_numbers_complete (z : Z) : 0 <= z < 100 -> In z small_numbers.
Proof.
  intros H. rewrite <- (Z2Nat.id z) by lia.
  apply in_map, in_seq. lia.
Qed.

Lemma pad2_length (z : Z) : 0 <= z < 100 -> String.length (pad2 z) = 2%nat.
Proof.
  intros H. apply small_numbers_complete in H. revert z H.
  apply Forall_forall.
  assert (E : forallb (fun z => Nat.eqb (String.length (pad2 z)) 2) small_numbers
              = true) by (vm_compute; reflexivity).
  rewrite forallb_forall in E. apply Forall_forall. intros z Hz.
  now apply Nat.eqb_eq, E.
Qed.

Lemma pad2_inj (a b : Z) :
  0 <= a < 100 -> 0 <= b < 100 -> pad2 a = pad2 b -> a = b.
Proof.
  intros Ha Hb. apply small_numbers_complete in Ha, Hb.
  assert (E : forallb (fun x => forallb (fun y =>
                implb (String.eqb (pad2 x) (pad2 y)) (Z.eqb x y)) small_numbers)
                small_numbers = true) by (vm_compute; reflexivity).
  rewrite forallb_forall in E. specialize (E a Ha).
  rewrite forallb_forall in E. specialize (E b Hb).
  intros H. rewrite H, String.eqb_refl in E. cbn in E. now apply Z.eqb_eq.
Qed.

End JsStringFacts.

Module KeyFacts.
Import JsDate JsDateFacts JsString JsStringFacts.
Local Open Scope string_scope.

(** The keys are functions of the day number. *)
Lemma fields_of_Day (t u : Z) :
  Day t = Day u ->
  YearFromTime t = YearFromTime u
  /\ MonthFromTime t = MonthFromTime u
  /\ DateFromTime t = DateFromTime u.
Proof.
  intros H.
  assert (Hy : YearFromTime t = YearFromTime u)
    by (unfold YearFromTime; now rewrite H).
  assert (Hl : InLeapYear t = InLeapYear u)
    by (unfold InLeapYear; now rewrite Hy).
  assert (Hd : DayWithinYear t = DayWithinYear u)
    by (unfold DayWithinYear; now rewrite H, Hy).
  assert (Hm : MonthFromTime t = MonthFromTime u)
    by (unfold MonthFromTime; now rewrite Hd, Hl).
  repeat split; try assumption.
  unfold DateFromTime. now rewrite Hd, Hl, Hm.
Qed.

Lemma toDayKey_Day (t u : Z) : toDayKey t = toDayKey u <-> Day t = Day u.
Proof.
  split.
  - unfold toDayKey. intros H.
    pose proof (MonthFromTime_range t). pose proof (MonthFromTime_range u).
    pose proof (DateFromTime_range t). pose proof (DateFromTime_range u).
    apply append_inj_suffix in H as [Hy H].
    2:{ rewrite !length_append, !pad2_length by lia. reflexivity. }
    apply string_of_Z_inj in Hy.
    injection H as H.
    apply append_inj_suffix in H as [Hm H].
    2:{ cbn -[pad2]. now rewrite !pad2_length by lia. }
    injection H as Hd.
    apply pad2_inj in Hm, Hd; try lia.
    apply Day_fields_inj; [exact Hy|lia|exact Hd].
  - intros H. destruct (fields_of_Day t u H) as (Hy & Hm & Hd).
    unfold toDayKey. now rewrite Hy, Hm, Hd.
Qed.

Lemma toMonthKey_fields (t u : Z) :
  toMonthKey t = toMonthKey u
  <-> YearFromTime t = YearFromTime u /\ MonthFromTime t = MonthFromTime u.
Proof.
  split.
  - unfold toMonthKey. intros H.
    pose proof (MonthFromTime_range t). pose proof (MonthFromTime_range u).
    apply append_inj_suffix in H as [Hy H].
    2:{ cbn -[pad2]. now rewrite !pad2_length by lia. }
    apply string_of_Z_inj in Hy. injection H as Hm.
    apply pad2_inj in Hm; lia.
  - intros [Hy Hm]. unfold toMonthKey. now rewrite Hy, Hm.
Qed.

Lemma mergeKey_sameDay (a b : DailyMetric.t) :
  mergeKey a = mergeKey b <-> sameDay a b = true.
Proof.
  unfold mergeKey, sameDay. rewrite andb_true_iff, Z.eqb_eq, <- toDayKey_Day.
  destruct (DailyMetric.source a), (DailyMetric.source b); cbn;
    (split; [intros H|intros [Hs H]]); try discriminate.
  - injection H as H. now split.
  - now rewrite H.
  - injection H as H. now split.
  - now rewrite H.
Qed.

End KeyFacts.

(* ------------------------------------------------------------------ *)
(** ** [mergeDailyMetrics]                                             *)
(* ------------------------------------------------------------------ *)

Module MergeFacts.
Import JsMap JsMapFacts GroupFoldFacts SortFacts KeyFacts.

Lemma Math_max_cases (a b : Q) :
  ((a < b)%Q /\ Math_max a b = b) \/ ((b <= a)%Q /\ Math_max a b = a).
Proof.
  unfold Math_max, Qmax, GenericMinMax.gmax.
  destruct (Qcompare_spec a b) as [H|H|H].
  - right. split; [|reflexivity]. rewrite H. apply Qle_refl.
  - left. now split.
  - right. split; [|reflexivity]. now apply Qlt_le_weak.
Qed.

Lemma Math_max_ub (a b : Q) : (a <= Math_max a b)%Q /\ (b <= Math_max a b)%Q.
Proof.
  destruct (Math_max_cases a b) as [[H ->]|[H ->]]; split;
    auto using Qle_refl, Qlt_le_weak.
Qed.

Lemma fold_max_is_maximum (qs : list Q) : forall q0,
  is_maximum (fold_left Math_max qs q0) (q0 :: qs).
Proof.
  induction qs as [|q qs IH]; intros q0; cbn.
  - split; [now left|]. repeat constructor. apply Qle_refl.
  - destruct (IH (Math_max q0 q)) as [Hin Hall].
    inversion Hall as [|? ? Hm Hqs]; subst.
    destruct (Math_max_ub q0 q) as [H0 H1].
    split.
    + destruct Hin as [<-|Hin].
      * destruct (Math_max_cases q0 q) as [[_ ->]|[_ ->]]; cbn; tauto.
      * right. now right.
    + repeat constructor; try assumption; eapply Qle_trans; eassumption.
Qed.

Lemma get_mergeFields (field : MetricKey.t) (existing metric : DailyMetric.t) :
  DailyMetric.get field (mergeFields existing metric)
  = Math_max (DailyMetric.get field existing) (DailyMetric.get field metric).
Proof. destruct field; reflexivity. Qed.

Lemma mergeKey_mergeFields (existing metric : DailyMetric.t) :
  mergeKey (mergeFields existing metric) = mergeKey existing.
Proof. reflexivity. Qed.

Lemma get_fold_mergeFields (field : MetricKey.t) (xs : list DailyMetric.t) :
  forall e,
    DailyMetric.get field (fold_left mergeFields xs e)
    = fold_left Math_max (map (DailyMetric.get field) xs)
        (DailyMetric.get field e).
Proof.
  induction xs as [|x xs IH]; intros e; cbn [fold_left map]; [reflexivity|].
  now rewrite IH, get_mergeFields.
Qed.

Lemma mergeStep_upsert (byDay : JsMap.t DailyMetric.t) (metric : DailyMetric.t) :
  mergeStep byDay metric = upsert mergeKey (fun x => x) mergeFields byDay metric.
Proof. reflexivity. Qed.

Lemma byDay_fold (metrics : list DailyMetric.t) :
  fold_left mergeStep metrics JsMap.empty
  = fold_left (upsert mergeKey (fun x => x) mergeFields) metrics JsMap.empty.
Proof. reflexivity. Qed.

Lemma groupOf_sameDay (m : DailyMetric.t) (l : list DailyMetric.t) :
  groupOf mergeKey (mergeKey m) l = filter (sameDay m) l.
Proof.
  apply filter_ext. intros o.
  destruct (String.eqb_spec (mergeKey o) (mergeKey m)) as [E|E];
    destruct (sameDay m o) eqn:S; try reflexivity.
  - symmetry in E. apply mergeKey_sameDay in E. congruence.
  - apply mergeKey_sameDay in S. congruence.
Qed.

Lemma values_keys {V : Type} (keyV : V -> string) (m : JsMap.t V) :
  (forall k v, In (k, v) m -> keyV v = k) ->
  map keyV (values m) = keys m.
Proof.
  induction m as [|[k v] m IH]; intros H; cbn; [reflexivity|].
  rewrite (H k v) by now left. f_equal. apply IH.
  intros; apply H; now right.
Qed.

Lemma byDate_antisym (a b : DailyMetric.t) : 0 < byDate a b -> byDate b a <= 0.
Proof. unfold byDate. lia. Qed.

(** The merged records have pairwise distinct keys. *)
Lemma mergeDailyMetrics_NoDup (metrics : list DailyMetric.t) :
  NoDup (map mergeKey (mergeDailyMetrics metrics)).
Proof.
  unfold mergeDailyMetrics.
  eapply Permutation_NoDup.
  - apply Permutation_map. symmetry. apply sortBy_perm.
  - rewrite byDay_fold, (values_keys mergeKey).
    + apply NoDup_keys_fold. constructor.
    + intros k v. now apply key_of_entry.
Qed.

Lemma mergeDailyMetrics_sorted (metrics : list DailyMetric.t) :
  Sorted (cmp_le byDate) (mergeDailyMetrics metrics).
Proof. apply sortBy_sorted, byDate_antisym. Qed.

(** A list with distinct keys that is sorted by date is left as it is. *)
Lemma mergeDailyMetrics_fixpoint (l : list DailyMetric.t) :
  NoDup (map mergeKey l) -> Sorted (cmp_le byDate) l ->
  mergeDailyMetrics l = l.
Proof.
  intros Hnd Hs. unfold mergeDailyMetrics.
  rewrite byDay_fold, fold_upsert_fresh; [|exact Hnd|reflexivity].
  unfold values, empty. cbn [app]. rewrite map_map. cbn [snd]. rewrite map_id.
  now apply sortBy_sorted_id.
Qed.

(** C1. For every input list and every record [m] in it, the output of
    [mergeDailyMetrics] holds exactly one record of the platform and UTC
    day of [m], and each of the 16 counters of that record is the
    maximum of the counter over the input records of that platform and
    day. *)
Theorem mergeDailyMetrics_max (metrics : list DailyMetric.t) (m : DailyMetric.t) :
  In m metrics ->
  exists r,
    filter (sameDay m) (mergeDailyMetrics metrics) = [r]
    /\ forall field,
         is_maximum (DailyMetric.get field r)
           (map (DailyMetric.get field) (filter (sameDay m) metrics)).
Proof.
  intros Hin.
  destruct (filter_values_groupFold mergeKey (fun x => x) mergeFields mergeKey
              (fun x => eq_refl) (fun e x _ => mergeKey_mergeFields e x) metrics m Hin)
    as (r & Hfold & Hone).
  exists r. split.
  - rewrite <- groupOf_sameDay. unfold mergeDailyMetrics.
    apply filter_sortBy_singleton. rewrite byDay_fold. exact Hone.
  - intros field. rewrite <- groupOf_sameDay.
    destruct (groupOf mergeKey (mergeKey m) metrics) as [|x xs];
      cbn in Hfold; [discriminate|].
    injection Hfold as <-. rewrite get_fold_mergeFields. cbn [map].
    apply fold_max_is_maximum.
Qed.

(** Two exports report the same day of platform A with 100 and with 80
    views: one record is left, with 100 views and not their sum. *)
Example mergeDailyMetrics_overlap :
  mergeDailyMetrics
    [ Sample.daily Platform.x Sample.jan15 100;
      Sample.daily Platform.x Sample.jan15 80 ]
  = [ Sample.daily Platform.x Sample.jan15 100 ].
Proof. vm_compute. reflexivity. Qed.

Lemma mergeDailyMetrics_max_witness :
  let a := Sample.daily Platform.x Sample.jan15 100 in
  let b := Sample.daily Platform.x Sample.jan15 80 in
  In a [a; b]
  /\ exists r,
       filter (sameDay a) (mergeDailyMetrics [a; b]) = [r]
       /\ forall field,
            is_maximum (DailyMetric.get field r)
              (map (DailyMetric.get field) (filter (sameDay a) [a; b])).
Proof.
  intros a b. split; [now left|].
  apply (mergeDailyMetrics_max [a; b] a). now left.
Defined.

Lemma Day_le_trans : Relations_1.Transitive
  (fun a b : DailyMetric.t =>
     JsDate.Day (DailyMetric.date a) <= JsDate.Day (DailyMetric.date b)).
Proof. intros a b c. lia. Qed.

(** C4. The output of [mergeDailyMetrics] is sorted by day ascending (by
    time value, hence by UTC day number), and merging an already merged
    list gives the list back. *)
Theorem mergeDailyMetrics_idempotent (metrics : list DailyMetric.t) :
  let merged := mergeDailyMetrics metrics in
  Sorted (fun a b => DailyMetric.date a <= DailyMetric.date b) merged
  /\ StronglySorted
       (fun a b =>
          JsDate.Day (DailyMetric.date a) <= JsDate.Day (DailyMetric.date b))
       merged
  /\ mergeDailyMetrics merged = merged.
Proof.
  intros merged.
  pose proof (mergeDailyMetrics_sorted metrics) as Hs. fold merged in Hs.
  assert (Ht : Sorted (fun a b => DailyMetric.date a <= DailyMetric.date b) merged).
  { eapply Sorted_ind with (P := fun l => Sorted _ l); [constructor| |exact Hs].
    intros a l _ IH Hhd. constructor; [exact IH|].
    destruct Hhd as [|b l Hab]; constructor.
    unfold cmp_le, byDate in Hab. lia. }
  split; [exact Ht|split].
  - apply Sorted_StronglySorted; [exact Day_le_trans|].
    eapply Sorted_ind with (P := fun l => Sorted _ l); [constructor| |exact Ht].
    intros a l _ IH Hhd. constructor; [exact IH|].
    destruct Hhd as [|b l Hab]; constructor.
    now apply JsDateFacts.Day_mono.
  - apply mergeDailyMetrics_fixpoint; [apply mergeDailyMetrics_NoDup|exact Hs].
Qed.

End MergeFacts.

(* ------------------------------------------------------------------ *)
(** ** [aggregateByMonth]                                              *)
(* ------------------------------------------------------------------ *)

Module AggregateFacts.
Import JsMap JsMapFacts GroupFoldFacts SortFacts KeyFacts.

Lemma ascii_compare_lt_trans (a b c : ascii) :
  Ascii.compare a b = Lt -> Ascii.compare b c = Lt -> Ascii.compare a c = Lt.
Proof.
  unfold Ascii.compare. rewrite !N.compare_lt_iff. apply N.lt_trans.
Qed.

Lemma string_compare_lt_trans (a : string) : forall b c,
  String.compare a b = Lt -> String.compare b c = Lt -> String.compare a c = Lt.
Proof.
  induction a as [|x a IH]; intros [|y b] [|z c]; cbn; try discriminate; auto.
  destruct (Ascii.compare x y) eqn:Exy; try discriminate.
  - apply Ascii.compare_eq_iff in Exy. subst y.
    destruct (Ascii.compare x z); auto. apply IH.
  - intros _. destruct (Ascii.compare y z) eqn:Eyz; try discriminate.
    + apply Ascii.compare_eq_iff in Eyz. subst z. now rewrite Exy.
    + intros _. now rewrite (ascii_compare_lt_trans _ _ _ Exy Eyz).
Qed.

Lemma monthKey_lt_trans : Relations_1.Transitive monthKey_lt.
Proof. intros a b c. apply string_compare_lt_trans. Qed.

Lemma byMonthKey_antisym (a b : MonthSummary.t) :
  0 < byMonthKey a b -> byMonthKey b a <= 0.
Proof.
  unfold byMonthKey, JsString.localeCompare.
  rewrite (String.compare_antisym (MonthSummary.monthKey a)).
  destruct (String.compare (MonthSummary.monthKey b) (MonthSummary.monthKey a));
    cbn; lia.
Qed.

(** Sorted with distinct keys is strictly sorted. *)
Lemma sorted_distinct_strict (l : list MonthSummary.t) :
  Sorted (cmp_le byMonthKey) l -> NoDup (map MonthSummary.monthKey l) ->
  StronglySorted monthKey_lt l.
Proof.
  intros Hs Hnd. apply Sorted_StronglySorted; [exact monthKey_lt_trans|].
  induction Hs as [|a l Hs IH Hhd]; [constructor|].
  inversion Hnd as [|? ? Hnotin Hnd']; subst.
  constructor; [now apply IH|].
  destruct Hhd as [|b l Hab]; constructor.
  unfold cmp_le, byMonthKey, JsString.localeCompare in Hab. unfold monthKey_lt.
  destruct (String.compare (MonthSummary.monthKey a) (MonthSummary.monthKey b))
    eqn:E; [|reflexivity|lia].
  apply String.compare_eq_iff in E. exfalso. apply Hnotin. left. now symmetry.
Qed.

Section Facts.
Variable formatMonthLabel : string -> string.

Local Abbreviation monthOf := (fun m => toMonthKey (DailyMetric.date m)).
Local Abbreviation firstBucket :=
  (fun m => newBucket formatMonthLabel (toMonthKey (DailyMetric.date m)) m).
Local Abbreviation buckets_of :=
  (fold_left (upsert monthOf firstBucket addToBucket)).

Lemma buckets_fold (daily : list DailyMetric.t) :
  fold_left (aggregateStep formatMonthLabel) daily JsMap.empty
  = buckets_of daily JsMap.empty.
Proof. reflexivity. Qed.

Lemma get_addToBucket field existing metric :
  MonthSummary.get field (addToBucket existing metric)
  = (MonthSummary.get field existing + DailyMetric.get field metric)%Q.
Proof. destruct field; reflexivity. Qed.

Lemma get_fold_addToBucket field xs : forall e,
  (MonthSummary.get field (fold_left addToBucket xs e)
   == MonthSummary.get field e + Qsum (map (DailyMetric.get field) xs))%Q.
Proof.
  induction xs as [|x xs IH]; intros e; cbn [fold_left map Qsum fold_right].
  - now rewrite Qplus_0_r.
  - rewrite IH, get_addToBucket. fold (Qsum (map (DailyMetric.get field) xs)).
    now rewrite Qplus_assoc.
Qed.

Lemma days_fold_addToBucket xs : forall e,
  MonthSummary.days (fold_left addToBucket xs e)
  = MonthSummary.days e + Z.of_nat (List.length xs).
Proof.
  induction xs as [|x xs IH]; intros e; cbn [fold_left List.length]; [lia|].
  rewrite IH. cbn [addToBucket MonthSummary.days]. lia.
Qed.

Lemma groupOf_sameMonth (m : DailyMetric.t) (l : list DailyMetric.t) :
  groupOf monthOf (monthOf m) l = filter (sameMonth m) l.
Proof.
  apply filter_ext. intros o. unfold sameMonth.
  destruct (String.eqb_spec (monthOf o) (monthOf m)) as [E|E].
  - apply toMonthKey_fields in E as [-> ->]. now rewrite !Z.eqb_refl.
  - symmetry. apply not_true_iff_false. rewrite andb_true_iff, !Z.eqb_eq.
    intros [Hy Hm]. apply E. apply toMonthKey_fields. now split.
Qed.

Lemma aggregateByMonth_NoDup (daily : list DailyMetric.t) :
  NoDup (map MonthSummary.monthKey (aggregateByMonth formatMonthLabel daily)).
Proof.
  unfold aggregateByMonth. eapply Permutation_NoDup.
  - apply Permutation_map. symmetry. apply sortBy_perm.
  - rewrite buckets_fold, (MergeFacts.values_keys MonthSummary.monthKey).
    + apply NoDup_keys_fold. constructor.
    + intros k v. now apply key_of_entry.
Qed.

(** C2. [aggregateByMonth] returns the buckets in strictly ascending
    order of the month key; every bucket is the month of some input
    record; and for every input record [m] there is exactly one bucket
    with the month key of [m], whose [days] is the number of input
    records of the UTC calendar month of [m] and whose 16 counters are
    the sums of the counters of those records. *)
Theorem aggregateByMonth_sums (daily : list DailyMetric.t) :
  StronglySorted monthKey_lt (aggregateByMonth formatMonthLabel daily)
  /\ (forall s, In s (aggregateByMonth formatMonthLabel daily) ->
        exists m, In m daily
                  /\ MonthSummary.monthKey s = toMonthKey (DailyMetric.date m))
  /\ (forall m, In m daily ->
        exists s,
          filter (fun s => String.eqb (MonthSummary.monthKey s)
                             (toMonthKey (DailyMetric.date m)))
            (aggregateByMonth formatMonthLabel daily) = [s]
          /\ MonthSummary.days s
             = Z.of_nat (List.length (filter (sameMonth m) daily))
          /\ forall field,
               (MonthSummary.get field s
                == Qsum (map (DailyMetric.get field)
                           (filter (sameMonth m) daily)))%Q).
Proof.
  split; [|split].
  - apply sorted_distinct_strict; [|apply aggregateByMonth_NoDup].
    apply sortBy_sorted, byMonthKey_antisym.
  - intros s Hs. unfold aggregateByMonth in Hs.
    apply (Permutation_in _ (sortBy_perm _ _)) in Hs.
    rewrite buckets_fold in Hs. apply in_map_iff in Hs as ([k v] & <- & Hin).
    pose proof (key_of_entry monthOf firstBucket addToBucket
                  MonthSummary.monthKey (fun x => eq_refl) (fun e x _ => eq_refl)
                  daily k v Hin) as Hk.
    apply entry_origin in Hin as (x & Hx & Hkx).
    exists x. split; [exact Hx|]. cbn [snd]. now rewrite Hk.
  - intros m Hin.
    destruct (filter_values_groupFold monthOf firstBucket addToBucket
                MonthSummary.monthKey (fun x => eq_refl) (fun e x _ => eq_refl)
                daily m Hin) as (s & Hfold & Hone).
    exists s. split; [|split].
    + unfold aggregateByMonth. apply filter_sortBy_singleton.
      rewrite buckets_fold. exact Hone.
    + rewrite <- groupOf_sameMonth.
      destruct (groupOf monthOf (monthOf m) daily) as [|x xs];
        cbn in Hfold; [discriminate|].
      injection Hfold as <-. rewrite days_fold_addToBucket.
      cbn [newBucket MonthSummary.days List.length]. lia.
    + intros field. rewrite <- groupOf_sameMonth.
      destruct (groupOf monthOf (monthOf m) daily) as [|x xs];
        cbn in Hfold; [discriminate|].
      injection Hfold as <-. rewrite get_fold_addToBucket.
      cbn [map Qsum fold_right]. destruct field; reflexivity.
Qed.
End Facts.

Lemma aggregateByMonth_sums_witness :
  In (Sample.daily Platform.x Sample.jan15 100) Sample.threeDays
  /\ exists s,
       filter (fun s => String.eqb (MonthSummary.monthKey s)
                          (toMonthKey Sample.jan15))
         (aggregateByMonth (fun k => k) Sample.threeDays) = [s]
       /\ MonthSummary.days s
          = Z.of_nat (List.length
              (filter (sameMonth (Sample.daily Platform.x Sample.jan15 100))
                 Sample.threeDays))
       /\ forall field,
            (MonthSummary.get field s
             == Qsum (map (DailyMetric.get field)
                        (filter (sameMonth (Sample.daily Platform.x Sample.jan15 100))
                           Sample.threeDays)))%Q.
Proof.
  assert (Hin : In (Sample.daily Platform.x Sample.jan15 100) Sample.threeDays)
    by (right; now left).
  split; [exact Hin|].
  exact (proj2 (proj2 (aggregateByMonth_sums (fun k => k) Sample.threeDays))
           _ Hin).
Defined.

(** Two days of January and one of February: two buckets in order, the
    January one with [days = 2] and the views added up. *)
Example aggregateByMonth_two_months :
  map (fun s => (MonthSummary.monthKey s, MonthSummary.views s,
                 MonthSummary.days s))
    (aggregateByMonth (fun k => k) Sample.threeDays)
  = [ ("2024-01"%string, (100 + 20)%Q, 2); ("2024-02"%string, 7%Q, 1) ].
Proof. vm_compute. reflexivity. Qed.

End AggregateFacts.

(* ------------------------------------------------------------------ *)
(** ** [buildCoverage] and [buildDataQuality]                          *)
(* ------------------------------------------------------------------ *)

Module DataQualityFacts.
Import SortFacts.

Lemma byDate_le_trans : Relations_1.Transitive (cmp_le byDate).
Proof. intros a b c. unfold cmp_le, byDate. lia. Qed.

Lemma sortBy_byDate_strongly (l : list DailyMetric.t) :
  StronglySorted (cmp_le byDate) (sortBy byDate l).
Proof.
  apply Sorted_StronglySorted; [exact byDate_le_trans|].
  apply sortBy_sorted, MergeFacts.byDate_antisym.
Qed.

Lemma strongly_sorted_first (s : list DailyMetric.t) (d : DailyMetric.t) :
  StronglySorted (cmp_le byDate) s ->
  Forall (fun m => DailyMetric.date (nth 0 s d) <= DailyMetric.date m) s.
Proof.
  intros Hs. destruct Hs as [|a s Hs Ha]; [constructor|]. cbn [nth].
  constructor; [lia|].
  eapply Forall_impl; [|exact Ha]. unfold cmp_le, byDate. intros; lia.
Qed.

Lemma strongly_sorted_last (s : list DailyMetric.t) (d : DailyMetric.t) :
  StronglySorted (cmp_le byDate) s ->
  Forall (fun m => DailyMetric.date m
                   <= DailyMetric.date (nth (List.length s - 1) s d)) s.
Proof.
  induction 1 as [|a s Hs IH Ha]; [constructor|].
  destruct s as [|b s]; [repeat constructor; cbn; lia|].
  replace (List.length (a :: b :: s) - 1)%nat with (S (List.length (b :: s) - 1))
    by (cbn; lia).
  cbn [nth]. constructor; [|exact IH].
  inversion Ha as [|? ? Hab _]; subst.
  inversion IH as [|? ? Hb _]; subst.
  unfold cmp_le, byDate in Hab. cbn [nth] in Hb. lia.
Qed.

Lemma nth_In_nonempty (s : list DailyMetric.t) (d : DailyMetric.t) (n : nat) :
  s <> [] -> (n <= List.length s - 1)%nat -> In (nth n s d) s.
Proof.
  intros Hne Hn. apply nth_In. destruct s; [contradiction|cbn in *; lia].
Qed.

Lemma buildCoverage_nonempty (daily : list DailyMetric.t) :
  daily <> [] ->
  exists start end_,
    earliest start daily /\ latest end_ daily
    /\ buildCoverage daily
       = Coverage.mk (Some start) (Some end_) (Z.of_nat (List.length daily)).
Proof.
  intros Hne. destruct daily as [|d rest] eqn:E; [contradiction|].
  rewrite <- E in *. clear Hne.
  assert (Hperm : Permutation (sortBy byDate daily) daily) by apply sortBy_perm.
  assert (Hlen : List.length (sortBy byDate daily) = List.length daily)
    by now apply Permutation_length.
  assert (Hsne : sortBy byDate daily <> []).
  { intros H. rewrite H in Hlen. subst daily. discriminate. }
  pose proof (sortBy_byDate_strongly daily) as Hs.
  exists (DailyMetric.date (nth 0 (sortBy byDate daily) d)).
  exists (DailyMetric.date
            (nth (List.length (sortBy byDate daily) - 1) (sortBy byDate daily) d)).
  split; [|split].
  - split.
    + apply in_map. apply (Permutation_in _ Hperm).
      apply nth_In_nonempty; [exact Hsne|lia].
    + apply (Permutation_Forall Hperm). now apply strongly_sorted_first.
  - split.
    + apply in_map. apply (Permutation_in _ Hperm).
      apply nth_In_nonempty; [exact Hsne|lia].
    + apply (Permutation_Forall Hperm). now apply strongly_sorted_last.
  - rewrite <- Hlen. subst daily. reflexivity.
Qed.

Lemma Math_round_exact (k d : Z) :
  0 < d -> Math_round (inject_Z (k * d) / inject_Z d) = k.
Proof.
  intros Hd. unfold Math_round.
  assert (E : (inject_Z (k * d) / inject_Z d + (1 # 2) == (2 * k + 1) # 2)%Q).
  { destruct d as [|p|p]; try lia.
    unfold Qeq, Qplus, Qdiv, Qmult, Qinv, inject_Z. cbn -[Z.mul Z.add].
    rewrite ?Pos2Z.inj_mul. lia. }
  rewrite E. unfold Qfloor. change (Z.pos 2) with 2.
  Z.div_mod_to_equations. lia.
Qed.

Lemma wholeDay_span (s e : Z) (daily : list DailyMetric.t) :
  Forall wholeDay daily -> earliest s daily -> latest e daily ->
  e - s = ((e - s) / JsDate.msPerDay) * JsDate.msPerDay.
Proof.
  intros Hall [Hs _] [He _].
  assert (H : forall t, In t (map DailyMetric.date daily) ->
                        t mod JsDate.msPerDay = 0).
  { intros t Ht. apply in_map_iff in Ht as (m & <- & Hm).
    rewrite Forall_forall in Hall. now apply Hall. }
  apply H in Hs, He. unfold JsDate.msPerDay in *.
  Z.div_mod_to_equations. lia.
Qed.

(** For any non-empty series the expected day count is the rounded
    quotient of the span by the day length, plus one. *)
Lemma buildDataQuality_expected_rounded (label : string)
  (daily : list DailyMetric.t) :
  daily <> [] ->
  exists start end_,
    earliest start daily /\ latest end_ daily
    /\ DataQualitySummary.expectedDays (buildDataQuality label daily)
       = Some (Math_round (inject_Z (end_ - start)
                           / inject_Z JsDate.msPerDay) + 1).
Proof.
  intros Hne.
  destruct (buildCoverage_nonempty daily Hne) as (s & e & Hs & He & Hcov).
  exists s, e. split; [exact Hs|split; [exact He|]].
  unfold buildDataQuality. rewrite Hcov. reflexivity.
Qed.

(** C5. For an empty series the expected and the missing day counts are
    [null] and the coverage has no start and no end.  For a non-empty
    series of calendar days, the coverage spans the earliest to the latest
    day, the expected day count is the inclusive span
    [(end - start) / 1 day + 1], and the missing day count is
    [max(expected - observed, 0)] with [observed] the number of records. *)
Theorem buildDataQuality_spec (label : string) (daily : list DailyMetric.t) :
  (daily = [] ->
   buildDataQuality label daily
   = DataQualitySummary.mk label (Coverage.mk None None 0) None None 0)
  /\ (daily <> [] -> Forall wholeDay daily ->
      exists start end_,
        earliest start daily /\ latest end_ daily
        /\ DataQualitySummary.coverage (buildDataQuality label daily)
           = Coverage.mk (Some start) (Some end_) (Z.of_nat (List.length daily))
        /\ DataQualitySummary.expectedDays (buildDataQuality label daily)
           = Some ((end_ - start) / JsDate.msPerDay + 1)
        /\ DataQualitySummary.missingDays (buildDataQuality label daily)
           = Some (Z.max ((end_ - start) / JsDate.msPerDay + 1
                          - Z.of_nat (List.length daily)) 0)).
Proof.
  split.
  - intros ->. reflexivity.
  - intros Hne Hall.
    destruct (buildCoverage_nonempty daily Hne) as (s & e & Hs & He & Hcov).
    exists s, e. split; [exact Hs|split; [exact He|]].
    pose proof (wholeDay_span s e daily Hall Hs He) as Hspan.
    unfold buildDataQuality. rewrite Hcov.
    cbn [Coverage.start Coverage.end_ Coverage.days
         DataQualitySummary.coverage DataQualitySummary.expectedDays
         DataQualitySummary.missingDays].
    change (24 * 60 * 60 * 1000) with JsDate.msPerDay.
    rewrite Hspan at 1 3.
    rewrite Math_round_exact by (unfold JsDate.msPerDay; lia).
    repeat split.
Qed.

Lemma buildDataQuality_spec_witness :
  Sample.nineOfTen <> []
  /\ Forall wholeDay Sample.nineOfTen
  /\ exists start end_,
       earliest start Sample.nineOfTen /\ latest end_ Sample.nineOfTen
       /\ DataQualitySummary.coverage (buildDataQuality "X" Sample.nineOfTen)
          = Coverage.mk (Some start) (Some end_)
              (Z.of_nat (List.length Sample.nineOfTen))
       /\ DataQualitySummary.expectedDays (buildDataQuality "X" Sample.nineOfTen)
          = Some ((end_ - start) / JsDate.msPerDay + 1)
       /\ DataQualitySummary.missingDays (buildDataQuality "X" Sample.nineOfTen)
          = Some (Z.max ((end_ - start) / JsDate.msPerDay + 1
                         - Z.of_nat (List.length Sample.nineOfTen)) 0).
Proof.
  assert (Hne : Sample.nineOfTen <> []) by discriminate.
  assert (Hall : Forall wholeDay Sample.nineOfTen)
    by (repeat constructor).
  split; [exact Hne|split; [exact Hall|]].
  exact (proj2 (buildDataQuality_spec "X" Sample.nineOfTen) Hne Hall).
Defined.

(** A series over ten days with the fifth day missing: 10 expected days,
    9 observed, 1 missing. *)
Example buildDataQuality_gap :
  let q := buildDataQuality "X" Sample.nineOfTen in
  (DataQualitySummary.expectedDays q,
   Coverage.days (DataQualitySummary.coverage q),
   DataQualitySummary.missingDays q)
  = (Some 10, 9, Some 1).
Proof. vm_compute. reflexivity. Qed.

End DataQualityFacts.

(* ------------------------------------------------------------------ *)
(** ** Engagement rate and post deduplication                          *)
(* ------------------------------------------------------------------ *)

Module PostFacts.
Import JsMap JsMapFacts GroupFoldFacts.

(** C6. [calculateEngagementRate] returns
    [(likes + comments + reposts) / impressions] when [impressions > 0]
    and [null] when [impressions = 0]; for 200 impressions, 10 likes,
    5 comments and 5 reposts the rate is 0.10. *)
Theorem calculateEngagementRate_spec (impressions likes comments reposts : Q) :
  ((0 < impressions)%Q ->
   calculateEngagementRate impressions likes comments reposts
   = Some ((likes + comments + reposts) / impressions)%Q)
  /\ ((impressions == 0)%Q ->
      calculateEngagementRate impressions likes comments reposts = None)
  /\ exists rate,
       calculateEngagementRate 200 10 5 5 = Some rate /\ (rate == 1 # 10)%Q.
Proof.
  unfold calculateEngagementRate. split; [|split].
  - intros H. destruct (Qeq_bool impressions 0) eqn:E; [|reflexivity].
    apply Qeq_bool_iff in E. rewrite E in H. now apply Qlt_irrefl in H.
  - intros H. apply Qeq_bool_iff in H. now rewrite H.
  - eexists. split; [reflexivity|]. reflexivity.
Qed.

Lemma calculateEngagementRate_spec_witness :
  (0 < 200)%Q
  /\ calculateEngagementRate 200 10 5 5 = Some ((10 + 5 + 5) / 200)%Q.
Proof.
  split; [reflexivity|].
  exact (proj1 (calculateEngagementRate_spec 200 10 5 5) eq_refl).
Defined.

Lemma Qgtb_lt (a b : Q) : Qgtb a b = true <-> (b < a)%Q.
Proof.
  unfold Qgtb. rewrite negb_true_iff, <- not_true_iff_false, Qle_bool_iff.
  split; [apply Qnot_le_lt|apply Qlt_not_le].
Qed.

Lemma Qgtb_false_le (a b : Q) : Qgtb a b = false -> (a <= b)%Q.
Proof.
  unfold Qgtb. rewrite negb_false_iff. apply Qle_bool_iff.
Qed.

Lemma set_same_value {V : Type} (m : JsMap.t V) k v :
  get k m = Some v -> set k v m = m.
Proof.
  induction m as [|[k' v'] m IH]; cbn; [discriminate|].
  destruct (String.eqb_spec k' k) as [->|Hne].
  - now intros [= ->].
  - intros H. now rewrite IH.
Qed.

Lemma linkedInDedupStep_upsert m post :
  linkedInDedupStep m post
  = upsert linkedInPostKey (fun p => p) linkedInChoose m post.
Proof.
  unfold linkedInDedupStep, upsert, linkedInChoose.
  destruct (get (linkedInPostKey post) m) as [existing|] eqn:E; [|reflexivity].
  destruct (_ || _); [reflexivity|]. symmetry. now apply set_same_value.
Qed.

Lemma xDedupStep_upsert m post :
  xDedupStep m post = upsert xPostKey (fun p => p) xChoose m post.
Proof.
  unfold xDedupStep, upsert, xChoose.
  destruct (get (xPostKey post) m) as [existing|] eqn:E; [|reflexivity].
  destruct (Qgtb _ _); [reflexivity|]. symmetry. now apply set_same_value.
Qed.

Lemma fold_left_ext_eq {A B : Type} (f g : A -> B -> A) (l : list B) :
  (forall a b, f a b = g a b) -> forall a, fold_left f l a = fold_left g l a.
Proof.
  intros H. induction l as [|b l IH]; intros a; cbn; [reflexivity|].
  now rewrite H, IH.
Qed.

Lemma in_snoc {A : Type} (q x : A) xs y :
  In q (x :: xs ++ [y]) <-> In q (x :: xs) \/ q = y.
Proof.
  rewrite app_comm_cons, in_app_iff. cbn. intuition congruence.
Qed.

Lemma linkedIn_fold_best xs : forall x,
  linkedInBest (fold_left linkedInChoose xs x) (x :: xs).
Proof.
  induction xs as [|y xs IH] using rev_ind; intros x.
  - split; [now left|]. intros q [<-|[]]. split; [apply Qle_refl|auto].
  - rewrite fold_left_app. cbn [fold_left].
    destruct (IH x) as [Hin Hbest]. set (r := fold_left linkedInChoose xs x) in *.
    unfold linkedInChoose.
    destruct (Qgtb _ _) eqn:Egt; cbn [orb].
    { apply Qgtb_lt in Egt. split; [apply in_snoc; now right|].
      intros q Hq. apply in_snoc in Hq as [Hq| ->].
      - destruct (Hbest q Hq) as [Hle _]. split.
        + eapply Qle_trans; [exact Hle|now apply Qlt_le_weak].
        + intros Heq. exfalso. rewrite Heq in Hle.
          exact (Qlt_not_le _ _ Egt Hle).
      - split; [apply Qle_refl|auto]. }
    apply Qgtb_false_le in Egt.
    destruct (Qeq_bool _ _ && _ && _) eqn:Etie.
    { apply andb_true_iff in Etie as [Etie Hr].
      apply andb_true_iff in Etie as [Heq Hy].
      apply Qeq_bool_iff in Heq. split; [apply in_snoc; now right|].
      intros q Hq. apply in_snoc in Hq as [Hq| ->].
      - destruct (Hbest q Hq) as [Hle _]. split; [now rewrite Heq|auto].
      - split; [apply Qle_refl|auto]. }
    split; [apply in_snoc; now left|].
    intros q Hq. apply in_snoc in Hq as [Hq| ->]; [now apply Hbest|].
    split; [exact Egt|]. intros Heq Hy.
    apply Qeq_bool_iff in Heq. rewrite Heq, Hy in Etie. cbn in Etie.
    now apply negb_false_iff in Etie.
Qed.

Lemma x_fold_best xs : forall x, xBest (fold_left xChoose xs x) (x :: xs).
Proof.
  induction xs as [|y xs IH] using rev_ind; intros x.
  - split; [now left|]. intros q [<-|[]]. apply Qle_refl.
  - rewrite fold_left_app. cbn [fold_left].
    destruct (IH x) as [Hin Hbest]. set (r := fold_left xChoose xs x) in *.
    unfold xChoose. destruct (Qgtb _ _) eqn:Egt.
    + apply Qgtb_lt in Egt. split; [apply in_snoc; now right|].
      intros q Hq. apply in_snoc in Hq as [Hq| ->]; [|apply Qle_refl].
      eapply Qle_trans; [now apply Hbest|now apply Qlt_le_weak].
    + apply Qgtb_false_le in Egt. split; [apply in_snoc; now left|].
      intros q Hq. apply in_snoc in Hq as [Hq| ->]; [now apply Hbest|exact Egt].
Qed.

Lemma linkedInChoose_key e p :
  linkedInPostKey p = linkedInPostKey e ->
  linkedInPostKey (linkedInChoose e p) = linkedInPostKey e.
Proof. unfold linkedInChoose. destruct (_ || _); congruence. Qed.

Lemma xChoose_key e p :
  xPostKey p = xPostKey e -> xPostKey (xChoose e p) = xPostKey e.
Proof. unfold xChoose. destruct (Qgtb _ _); congruence. Qed.

Lemma linkedInUniquePosts_fold rawPosts :
  linkedInUniquePosts rawPosts
  = values (fold_left (upsert linkedInPostKey (fun p => p) linkedInChoose)
              rawPosts empty).
Proof.
  unfold linkedInUniquePosts. f_equal.
  apply fold_left_ext_eq, linkedInDedupStep_upsert.
Qed.

Lemma xUniquePosts_fold posts :
  xUniquePosts posts
  = values (fold_left (upsert xPostKey (fun p => p) xChoose) posts empty).
Proof.
  unfold xUniquePosts. f_equal. apply fold_left_ext_eq, xDedupStep_upsert.
Qed.

(** Two rows with one permalink and 500 and 800 impressions collapse to
    the record with 800. *)
Example xUniquePosts_same_link :
  xUniquePosts
    [ Sample.xPost "hello" "https://x.example/1" None 500;
      Sample.xPost "hello" "https://x.example/1" None 800;
      Sample.xPost "other" "" (Some Sample.jan15) 3 ]
  = [ Sample.xPost "hello" "https://x.example/1" None 800;
      Sample.xPost "other" "" (Some Sample.jan15) 3 ].
Proof. vm_compute. reflexivity. Qed.

(** Tied impressions on platform B: the record with a time of day
    replaces the one without. *)
Example linkedInUniquePosts_tie :
  linkedInUniquePosts
    [ Sample.linkedInPost "Launch" "" Sample.jan15 500 false;
      Sample.linkedInPost "Launch" "" Sample.jan15 500 true ]
  = [ Sample.linkedInPost "Launch" "" Sample.jan15 500 true ].
Proof. vm_compute. reflexivity. Qed.

End PostFacts.

(* ------------------------------------------------------------------ *)
(** ** The table extractor and the record mapper of platform A         *)
(* ------------------------------------------------------------------ *)

Module TableFacts.

Lemma findIndex_None {A : Type} (p : A -> bool) (l : list A) :
  findIndex p l = None <-> forall a, In a l -> p a = false.
Proof.
  induction l as [|a l IH]; cbn.
  - split; [intros _ ? []|reflexivity].
  - destruct (p a) eqn:E.
    + split; [discriminate|]. intros H. rewrite (H a) in E by now left.
      discriminate.
    + destruct (findIndex p l); cbn.
      * split; [discriminate|]. intros H. exfalso.
        assert (N : Some n = None); [|discriminate].
        apply IH. intros x Hx. apply H. now right.
      * split; [|reflexivity]. intros _ x [<-|Hx]; [exact E|].
        now apply (proj1 IH).
Qed.

Section Facts.
Variable parseCsv : string -> option (list (list string)).

(** C8. [parseCsvWithHeader] returns a table for every text and label:
    the one operation of its body that can throw is the parse, and its
    exception is caught.  When the text does not parse, or when no cell of
    any line equals the label after trimming and lowering the case of
    both, the table has an empty column list and an empty record list. *)
Theorem parseCsvWithHeader_empty (csvText headerLabel : string) :
  (exists headers rows,
     parseCsvWithHeader parseCsv csvText headerLabel = (headers, rows))
  /\ (parseCsv csvText = None ->
      parseCsvWithHeader parseCsv csvText headerLabel = ([], []))
  /\ (forall rawRows,
        parseCsv csvText = Some rawRows ->
        (forall row cell, In row rawRows -> In cell row ->
           JsString.toLowerCase (JsString.trim cell)
           <> JsString.toLowerCase (JsString.trim headerLabel)) ->
        parseCsvWithHeader parseCsv csvText headerLabel = ([], [])).
Proof.
  split; [|split].
  - destruct (parseCsvWithHeader parseCsv csvText headerLabel) as [headers rows].
    now exists headers, rows.
  - unfold parseCsvWithHeader, parseCsvWithHeader_try. intros ->. reflexivity.
  - unfold parseCsvWithHeader, parseCsvWithHeader_try.
    intros rawRows -> Hno.
    match goal with
    | |- context [findIndex ?p rawRows] =>
        assert (E : findIndex p rawRows = None)
    end.
    { apply findIndex_None. intros row Hrow.
      apply not_true_iff_false. intros Hex.
      apply existsb_exists in Hex as (cell & Hcell & Heq).
      apply String.eqb_eq in Heq. exact (Hno row cell Hrow Hcell Heq). }
    now rewrite E.
Qed.
End Facts.

Lemma parseCsvWithHeader_empty_witness :
  Sample.threeLines "text" = Some
    [ ["Export of the account"%string];
      [" Date "%string; "Impressions"%string; "Video views"%string];
      ["2024-01-15"%string; "1,200"%string; "0"%string] ]
  /\ parseCsvWithHeader Sample.threeLines "text" "Likes" = ([], []).
Proof.
  split; [reflexivity|].
  apply (proj2 (proj2 (parseCsvWithHeader_empty Sample.threeLines "text" "Likes"))
           _ eq_refl).
  intros row cell Hrow Hcell.
  repeat (destruct Hrow as [<-|Hrow];
          [repeat (destruct Hcell as [<-|Hcell]; [vm_compute; discriminate|]);
           destruct Hcell|]).
  destruct Hrow.
Defined.

(** The header row is found below a title line, whatever the case and
    the blanks around the label; the cells of the lines after it are
    keyed by the trimmed header names. *)
Example parseCsvWithHeader_found :
  parseCsvWithHeader Sample.threeLines "text" "date"
  = ( ["Date"; "Impressions"; "Video views"]%string,
      [ [ ("Date", "2024-01-15"); ("Impressions", "1,200");
          ("Video views", "0") ]%string ] ).
Proof. vm_compute. reflexivity. Qed.

End TableFacts.

Module MapperFacts.

Lemma firstIn_head (row : Row) (key value : string) (rest : list string) :
  JsMap.get key row = Some value -> firstIn row (key :: rest) = Some value.
Proof. intros H. cbn. now rewrite H. Qed.

Lemma firstIn_skip (row : Row) (key : string) (rest : list string) :
  JsMap.get key row = None -> firstIn row (key :: rest) = firstIn row rest.
Proof. intros H. cbn. now rewrite H. Qed.

(** [pickField] returns the cell of the first candidate that is a column
    of the row. *)
Lemma pickField_first (row : Row) (key value : string) (rest : list string) :
  JsMap.get key row = Some value -> pickField row (key :: rest) = value.
Proof. intros H. unfold pickField. now rewrite (firstIn_head _ _ _ _ H). Qed.

Lemma pickField_second (row : Row) (key1 key2 value : string)
  (rest : list string) :
  JsMap.get key1 row = None -> JsMap.get key2 row = Some value ->
  pickField row (key1 :: key2 :: rest) = value.
Proof.
  intros H1 H2. unfold pickField.
  now rewrite (firstIn_skip _ _ _ H1), (firstIn_head _ _ _ _ H2).
Qed.

Section Facts.
Variable Date_parse : string -> JsNumber.t.
Variable LocalTZA : Z -> Z.

Local Abbreviation cell row candidates :=
  (toNumber (U_string (pickField row candidates))).

Lemma xDailyRow_Some videoMap row m :
  xDailyRow Date_parse LocalTZA videoMap row = Some m ->
  DailyMetric.source m = Platform.x
  /\ DailyMetric.videoWatchViews m
     = match JsMap.get (toDayKey (DailyMetric.date m)) videoMap with
       | Some v => VideoStat.views v
       | None => 0%Q
       end
  /\ DailyMetric.videoViews m
     = (if Qeq_bool (cell row ["Video views"%string]) 0
        then DailyMetric.videoWatchViews m
        else cell row ["Video views"%string])
  /\ DailyMetric.reposts m
     = (cell row ["Reposts"%string; "Retweets"%string]
        + cell row ["Shares"%string])%Q
  /\ DailyMetric.shares m = cell row ["Shares"%string].
Proof.
  unfold xDailyRow.
  destruct (parseXDate _ _ _) as [[date|]|]; try discriminate.
  intros [= <-]. cbn. repeat split.
Qed.

(** C9 (as amended). For a row whose date parses, [videoViews] is the
    number in the [Video views] column when that number is not zero;
    when the column is missing, blank, not numeric or zero, it is the
    view count of the video overview for the same calendar day, or 0
    when the overview has no entry for the day. *)
Theorem xDailyRow_videoViews videoMap row m :
  xDailyRow Date_parse LocalTZA videoMap row = Some m ->
  (~ (cell row ["Video views"%string] == 0)%Q ->
   DailyMetric.videoViews m = cell row ["Video views"%string])
  /\ ((cell row ["Video views"%string] == 0)%Q ->
      DailyMetric.videoViews m
      = match JsMap.get (toDayKey (DailyMetric.date m)) videoMap with
        | Some v => VideoStat.views v
        | None => 0%Q
        end).
Proof.
  intros H. apply xDailyRow_Some in H as (_ & Hw & Hv & _).
  rewrite Hv, Hw. split; intros Hz.
  - destruct (Qeq_bool _ 0) eqn:E; [|reflexivity].
    apply Qeq_bool_iff in E. contradiction.
  - apply Qeq_bool_iff in Hz. now rewrite Hz.
Qed.

(** C10. For a mapped row, [reposts] is the number in the first
    available of the [Reposts] and [Retweets] columns plus the number in
    the [Shares] column, and [shares] is that same number of the
    [Shares] column: a nonzero [Shares] cell is counted in both. *)
Theorem xDailyRow_reposts_shares videoMap row m :
  xDailyRow Date_parse LocalTZA videoMap row = Some m ->
  DailyMetric.reposts m
  = (cell row ["Reposts"%string; "Retweets"%string]
     + cell row ["Shares"%string])%Q
  /\ DailyMetric.shares m = cell row ["Shares"%string]
  /\ (forall value, JsMap.get "Reposts" row = Some value ->
        pickField row ["Reposts"%string; "Retweets"%string] = value)
  /\ (forall value, JsMap.get "Reposts" row = None ->
        JsMap.get "Retweets" row = Some value ->
        pickField row ["Reposts"%string; "Retweets"%string] = value)
  /\ (~ (cell row ["Shares"%string] == 0)%Q ->
      ~ (DailyMetric.shares m == 0)%Q
      /\ ~ (DailyMetric.reposts m
            == cell row ["Reposts"%string; "Retweets"%string])%Q).
Proof.
  intros H. apply xDailyRow_Some in H as (_ & _ & _ & Hr & Hs).
  rewrite Hr, Hs. repeat split.
  - intros value. apply pickField_first.
  - intros value. apply pickField_second.
  - assumption.
  - intros E. apply H. 
    setoid_replace (cell row ["Shares"%string])
      with (cell row ["Reposts"%string; "Retweets"%string]
            + cell row ["Shares"%string]
            - cell row ["Reposts"%string; "Retweets"%string])%Q by ring.
    rewrite E. ring.
Qed.
End Facts.

Lemma xDailyRow_zeroVideoRow :
  xDailyRow Sample.parseAsJan15 Sample.utc Sample.videoOverview
    Sample.zeroVideoRow
  = Some Sample.zeroVideoMetric.
Proof. vm_compute. reflexivity. Qed.

(** C9, as stated, fails: the [Video views] column supplies the value 0
    and the record takes the 50 views of the video overview instead. *)
Lemma xDailyRow_videoViews_zero_column :
  xDailyRow Sample.parseAsJan15 Sample.utc Sample.videoOverview
    Sample.zeroVideoRow = Some Sample.zeroVideoMetric
  /\ JsMap.get "Video views" Sample.zeroVideoRow = Some "0"%string
  /\ toNumber (U_string "0") = 0%Q
  /\ DailyMetric.videoViews Sample.zeroVideoMetric = 50%Q
  /\ ~ (DailyMetric.videoViews Sample.zeroVideoMetric == 0)%Q.
Proof.
  split; [exact xDailyRow_zeroVideoRow|].
  repeat split. discriminate.
Qed.

Lemma xDailyRow_videoViews_witness :
  xDailyRow Sample.parseAsJan15 Sample.utc Sample.videoOverview
    Sample.zeroVideoRow = Some Sample.zeroVideoMetric
  /\ ((toNumber (U_string (pickField Sample.zeroVideoRow
                             ["Video views"%string])) == 0)%Q ->
      DailyMetric.videoViews Sample.zeroVideoMetric
      = match JsMap.get (toDayKey (DailyMetric.date Sample.zeroVideoMetric))
                Sample.videoOverview
        with
        | Some v => VideoStat.views v
        | None => 0%Q
        end).
Proof.
  split; [exact xDailyRow_zeroVideoRow|].
  exact (proj2 (xDailyRow_videoViews Sample.parseAsJan15 Sample.utc
                  Sample.videoOverview Sample.zeroVideoRow
                  Sample.zeroVideoMetric xDailyRow_zeroVideoRow)).
Defined.

Lemma xDailyRow_reposts_shares_witness :
  xDailyRow Sample.parseAsJan15 Sample.utc Sample.videoOverview
    Sample.zeroVideoRow = Some Sample.zeroVideoMetric
  /\ DailyMetric.reposts Sample.zeroVideoMetric
     = (toNumber (U_string (pickField Sample.zeroVideoRow
                              ["Reposts"%string; "Retweets"%string]))
        + toNumber (U_string (pickField Sample.zeroVideoRow
                                ["Shares"%string])))%Q.
Proof.
  split; [exact xDailyRow_zeroVideoRow|].
  exact (proj1 (xDailyRow_reposts_shares Sample.parseAsJan15 Sample.utc
                  Sample.videoOverview Sample.zeroVideoRow
                  Sample.zeroVideoMetric xDailyRow_zeroVideoRow)).
Defined.

End MapperFacts.

(* ------------------------------------------------------------------ *)
(** ** Rounding to the nearest double                                  *)
(* ------------------------------------------------------------------ *)

Module Binary64Facts.
Import Binary64.
Local Open Scope Q_scope.

Lemma inject_Z_pos (z : Z) : (0 < z)%Z -> 0 < inject_Z z.
Proof. intros H. unfold Qlt. cbn. lia. Qed.

Lemma two_pos (k : Z) : 0 < 2 ^ k.
Proof. apply Qpower_0_lt. reflexivity. Qed.

Lemma two_nonzero : ~ 2 == 0.
Proof. discriminate. Qed.

Lemma two_succ (k : Z) : 2 ^ (k + 1) == 2 * 2 ^ k.
Proof. rewrite Qpower_plus by exact two_nonzero. cbn. ring. Qed.

Lemma two_pred (k : Z) : 2 ^ (k - 1) == 2 ^ k / 2.
Proof.
  rewrite Qpower_minus by exact two_nonzero. reflexivity.
Qed.

Lemma two_le (a b : Z) : (a <= b)%Z -> 2 ^ a <= 2 ^ b.
Proof. intros H. apply Qpower_le_compat_l; [exact H|discriminate]. Qed.

Lemma two_lt (a b : Z) : (a < b)%Z -> 2 ^ a < 2 ^ b.
Proof. intros H. apply Qpower_lt_compat_l; [exact H|reflexivity]. Qed.

Lemma two_lt_inv (a b : Z) : 2 ^ a < 2 ^ b -> (a < b)%Z.
Proof. intros H. apply (Qpower_lt_compat_l_inv 2); [exact H|reflexivity]. Qed.

Lemma two_of_Z (k : Z) : (0 <= k)%Z -> 2 ^ k == inject_Z (2 ^ k).
Proof. intros H. now rewrite (Zpower_Qpower 2 k H). Qed.

(** [exponentOf q] is the integer part of the binary logarithm of [|q|]. *)
Lemma exponentOf_spec (q : Q) :
  ~ q == 0 -> 2 ^ exponentOf q <= Qabs q /\ Qabs q < 2 ^ (exponentOf q + 1).
Proof.
  intros Hq. destruct q as [n d].
  assert (Hn : (0 < Z.abs n)%Z).
  { unfold Qeq in Hq. cbn in Hq. lia. }
  pose proof (Z.log2_spec (Z.abs n) Hn) as [Ha1 Ha2].
  pose proof (Z.log2_spec (Z.pos d) (Pos2Z.is_pos d)) as [Hb1 Hb2].
  pose proof (Z.log2_nonneg (Z.abs n)) as Hla.
  pose proof (Z.log2_nonneg (Z.pos d)) as Hlb.
  set (la := Z.log2 (Z.abs n)) in *. set (lb := Z.log2 (Z.pos d)) in *.
  assert (Habs : Qabs (n # d) == inject_Z (Z.abs n) / inject_Z (Z.pos d)).
  { cbn [Qabs]. apply Qmake_Qdiv. }
  assert (Hd : 0 < inject_Z (Z.pos d)) by (apply inject_Z_pos; lia).
  assert (Hlow : 2 ^ (la - lb - 1) < Qabs (n # d)).
  { rewrite Habs.
    replace (la - lb - 1)%Z with (la - (lb + 1))%Z by lia.
    rewrite Qpower_minus by exact two_nonzero.
    rewrite !two_of_Z by lia.
    assert (H2 : 0 < inject_Z (2 ^ (lb + 1))).
    { apply inject_Z_pos. apply Z.pow_pos_nonneg; lia. }
    apply Qlt_shift_div_l; [exact Hd|].
    unfold Qdiv. rewrite <- Qmult_assoc, (Qmult_comm (/ _)), Qmult_assoc.
    apply Qlt_shift_div_r; [exact H2|].
    rewrite <- !inject_Z_mult, <- Zlt_Qlt. nia. }
  assert (Hup : Qabs (n # d) < 2 ^ (la - lb + 1)).
  { rewrite Habs.
    replace (la - lb + 1)%Z with ((la + 1) - lb)%Z by lia.
    rewrite Qpower_minus by exact two_nonzero.
    rewrite !two_of_Z by lia.
    assert (H2 : 0 < inject_Z (2 ^ lb)).
    { apply inject_Z_pos. apply Z.pow_pos_nonneg; lia. }
    apply Qlt_shift_div_r; [exact Hd|].
    unfold Qdiv. rewrite <- Qmult_assoc, (Qmult_comm (/ _)), Qmult_assoc.
    apply Qlt_shift_div_l; [exact H2|].
    rewrite <- !inject_Z_mult, <- Zlt_Qlt. nia. }
  unfold exponentOf. cbn [Qnum Qden]. fold la lb.
  destruct (Qle_bool (2 ^ (la - lb)) (Qabs (n # d))) eqn:E.
  - apply Qle_bool_iff in E. split; assumption.
  - split; [now apply Qlt_le_weak|].
    replace (la - lb - 1 + 1)%Z with (la - lb)%Z by lia.
    apply Qnot_le_lt. intros H. apply Qle_bool_iff in H. congruence.
Qed.

Lemma nearestEven_error (q : Q) : Qabs (inject_Z (nearestEven q) - q) <= 1 # 2.
Proof.
  unfold nearestEven.
  pose proof (Qfloor_le q) as Hlo. pose proof (Qlt_floor q) as Hhi.
  set (f := Qfloor q) in *. rewrite inject_Z_plus in Hhi.
  change (inject_Z 1) with 1 in Hhi.
  apply Qabs_Qle_condition.
  destruct (Qcompare_spec (q - inject_Z f) (1 # 2)) as [E|E|E].
  - destruct (Z.even f); [|rewrite inject_Z_plus; change (inject_Z 1) with 1];
      split; lra.
  - split; lra.
  - rewrite inject_Z_plus. change (inject_Z 1) with 1. split; lra.
Qed.

Lemma nearestEven_comp (q q' : Q) : q == q' -> nearestEven q = nearestEven q'.
Proof.
  intros H. unfold nearestEven. rewrite (Qfloor_comp _ _ H).
  assert (E : Qcompare (q - inject_Z (Qfloor q')) (1 # 2)
              = Qcompare (q' - inject_Z (Qfloor q')) (1 # 2)).
  { apply Qcompare_comp; [now rewrite H|reflexivity]. }
  now rewrite E.
Qed.

Lemma nearestEven_whole (z : Z) : nearestEven (inject_Z z) = z.
Proof.
  unfold nearestEven. rewrite Qfloor_Z.
  assert (E : Qcompare (inject_Z z - inject_Z z) (1 # 2) = Lt).
  { apply (proj1 (Qlt_alt _ _)). setoid_replace (inject_Z z - inject_Z z) with 0 by ring.
    reflexivity. }
  now rewrite E.
Qed.

Lemma nearestEven_ge (q : Q) (z : Z) :
  inject_Z z <= q -> (z <= nearestEven q)%Z.
Proof.
  intros H. apply Qfloor_resp_le in H. rewrite Qfloor_Z in H.
  unfold nearestEven. cbv zeta.
  destruct (Qcompare _ _); [destruct (Z.even _)| |]; lia.
Qed.

Lemma nearestEven_le (q : Q) (z : Z) :
  q <= inject_Z z -> (nearestEven q <= z)%Z.
Proof.
  intros H. pose proof (Qfloor_le q) as Hlo.
  assert (Hf : (Qfloor q <= z)%Z).
  { apply Qfloor_resp_le in H. now rewrite Qfloor_Z in H. }
  unfold nearestEven. cbv zeta.
  destruct (Z.eq_dec (Qfloor q) z) as [E|E].
  - assert (Hc : Qcompare (q - inject_Z (Qfloor q)) (1 # 2) = Lt).
    { apply (proj1 (Qlt_alt _ _)). rewrite E in *. lra. }
    rewrite Hc. lia.
  - destruct (Qcompare _ _); [destruct (Z.even _)| |]; lia.
Qed.

Lemma two_half (k : Z) : 2 ^ (k - 1) == (1 # 2) * 2 ^ k.
Proof. rewrite two_pred. field. Qed.

(** The nearest multiple of [2^k] lies within half of [2^k]. *)
Lemma nearest_multiple (q : Q) (k : Z) :
  Qabs (inject_Z (nearestEven (q / 2 ^ k)) * 2 ^ k - q) <= 2 ^ (k - 1).
Proof.
  pose proof (nearestEven_error (q / 2 ^ k)) as H.
  pose proof (two_pos k) as Hk.
  assert (E : inject_Z (nearestEven (q / 2 ^ k)) * 2 ^ k - q
              == (inject_Z (nearestEven (q / 2 ^ k)) - q / 2 ^ k) * 2 ^ k).
  { field. intros H0. rewrite H0 in Hk. now apply Qlt_irrefl in Hk. }
  rewrite E, Qabs_Qmult, (Qabs_pos (2 ^ k)) by now apply Qlt_le_weak.
  rewrite two_half. apply Qmult_le_compat_r; [exact H|now apply Qlt_le_weak].
Qed.

Lemma exponentOf_lt (q : Q) (e : Z) :
  ~ q == 0 -> Qabs q < 2 ^ e -> (exponentOf q < e)%Z.
Proof.
  intros Hq H. destruct (exponentOf_spec q Hq) as [Hlo _].
  apply two_lt_inv. eapply Qle_lt_trans; eassumption.
Qed.

Lemma exponentOf_ge (q : Q) (e : Z) :
  ~ q == 0 -> 2 ^ e <= Qabs q -> (e <= exponentOf q)%Z.
Proof.
  intros Hq H. destruct (exponentOf_spec q Hq) as [_ Hhi].
  assert (H' : (e < exponentOf q + 1)%Z).
  { apply two_lt_inv. eapply Qle_lt_trans; eassumption. }
  lia.
Qed.

Lemma round_nonzero (q : Q) :
  ~ q == 0 ->
  round q
  = let v := Qred (inject_Z (nearestEven (q / 2 ^ ulpExponent q))
                   * 2 ^ ulpExponent q) in
    if Qle_bool (2 ^ 1024) (Qabs v) then None else Some v.
Proof.
  intros Hq. unfold round.
  destruct (Qeq_bool q 0) eqn:E; [|reflexivity].
  apply Qeq_bool_iff in E. contradiction.
Qed.

(** A number below [2^(k+53)] in magnitude is rounded to a number within
    [2^(k-1)] of it: [2^k] is at least the distance between neighbouring
    doubles there. *)
Lemma round_near (q : Q) (k : Z) :
  (-1074 <= k <= 970)%Z -> Qabs q < 2 ^ (k + 53) ->
  exists v, round q = Some v /\ Qabs (v - q) <= 2 ^ (k - 1).
Proof.
  intros Hk Hq. destruct (Qeq_dec q 0) as [E|Hne].
  - exists 0. split.
    + unfold round. apply Qeq_bool_iff in E. now rewrite E.
    + rewrite E. change (Qabs (0 - 0)) with 0.
      apply Qlt_le_weak, two_pos.
  - rewrite (round_nonzero q Hne). cbv zeta.
    set (kq := ulpExponent q).
    assert (Hkq : (kq <= k)%Z).
    { pose proof (exponentOf_lt q (k + 53) Hne Hq). unfold kq, ulpExponent. lia. }
    pose proof (nearest_multiple q kq) as Hv.
    set (v := inject_Z (nearestEven (q / 2 ^ kq)) * 2 ^ kq) in *.
    assert (Hle : 2 ^ (kq - 1) <= 2 ^ (k - 1)) by (apply two_le; lia).
    assert (Hv' : Qabs (Qred v - q) <= 2 ^ (k - 1)).
    { rewrite Qred_correct. eapply Qle_trans; eassumption. }
    assert (Hsmall : Qabs (Qred v) < 2 ^ 1024).
    { apply Qabs_Qle_condition in Hv'.
      assert (H1 : 2 ^ (k - 1) <= 2 ^ (k + 53)) by (apply two_le; lia).
      assert (H2 : 2 ^ (k + 54) <= 2 ^ 1024) by (apply two_le; lia).
      assert (H3 : 2 ^ (k + 54) == 2 * 2 ^ (k + 53)).
      { replace (k + 54)%Z with (k + 53 + 1)%Z by lia. apply two_succ. }
      pose proof (two_pos (k + 53)) as H4.
      apply Qabs_Qlt_condition in Hq.
      apply Qabs_Qlt_condition. split; lra. }
    destruct (Qle_bool (2 ^ 1024) (Qabs (Qred v))) eqn:Eo.
    + apply Qle_bool_iff in Eo. exfalso.
      exact (Qlt_not_le _ _ Hsmall Eo).
    + exists (Qred v). split; [reflexivity|exact Hv'].
Qed.
(** A multiple of the spacing of the doubles around it is a double. *)
Lemma round_multiple (q : Q) (m : Z) :
  ~ q == 0 -> Qabs q < 2 ^ 1024 ->
  q == inject_Z m * 2 ^ ulpExponent q ->
  round q = Some (Qred q).
Proof.
  intros Hq Hsmall Hm. rewrite (round_nonzero q Hq). cbv zeta.
  set (k := ulpExponent q) in *.
  pose proof (two_pos k) as Hk.
  assert (E : q / 2 ^ k == inject_Z m).
  { rewrite Hm. field. intros H0. rewrite H0 in Hk. now apply Qlt_irrefl in Hk. }
  rewrite (nearestEven_comp _ _ E), nearestEven_whole.
  rewrite (Qred_complete _ q) by (symmetry; exact Hm).
  destruct (Qle_bool (2 ^ 1024) (Qabs (Qred q))) eqn:Eo; [|reflexivity].
  apply Qle_bool_iff in Eo. rewrite Qred_correct in Eo.
  exfalso. exact (Qlt_not_le _ _ Hsmall Eo).
Qed.

Lemma Qabs_inject_Z (z : Z) : Qabs (inject_Z z) = inject_Z (Z.abs z).
Proof. reflexivity. Qed.

(** Every whole number below [2^53] in magnitude is a double. *)
Lemma round_whole (z : Z) :
  (Z.abs z < 2 ^ 53)%Z -> round (inject_Z z) = Some (inject_Z z).
Proof.
  intros Hz. destruct (Z.eq_dec z 0) as [->|Hne]; [reflexivity|].
  assert (Hq : ~ inject_Z z == 0).
  { unfold Qeq. cbn. lia. }
  assert (Habs : Qabs (inject_Z z) < 2 ^ 53).
  { rewrite Qabs_inject_Z, (two_of_Z 53) by lia. now rewrite <- Zlt_Qlt. }
  pose proof (exponentOf_lt _ 53 Hq Habs) as He.
  assert (Hk : (ulpExponent (inject_Z z) <= 0)%Z) by (unfold ulpExponent; lia).
  assert (Hred : Qred (inject_Z z) = inject_Z z).
  { apply Qred_identity. cbn. apply Z.gcd_1_r. }
  rewrite <- Hred at 2.
  apply (round_multiple _ (z * 2 ^ (- ulpExponent (inject_Z z)))); [exact Hq| |].
  - eapply Qlt_le_trans; [exact Habs|]. apply two_le. lia.
  - set (k := ulpExponent (inject_Z z)) in *.
    rewrite inject_Z_mult, <- (two_of_Z (- k)) by lia.
    rewrite <- Qmult_assoc, <- Qpower_plus by exact two_nonzero.
    replace (- k + k)%Z with 0%Z by lia. cbn. ring.
Qed.

Lemma Qabs_zero_iff (q : Q) : q == 0 -> Qabs q == 0.
Proof. intros H. now rewrite H. Qed.

(** What has magnitude [2^1024] or more is beyond the doubles. *)
Lemma round_overflow (q : Q) : 2 ^ 1024 <= Qabs q -> round q = None.
Proof.
  intros H.
  assert (Hq : ~ q == 0).
  { intros E. rewrite E in H. pose proof (two_pos 1024) as Hp.
    change (Qabs 0) with 0 in H. exact (Qlt_not_le _ _ Hp H). }
  rewrite (round_nonzero q Hq). cbv zeta.
  pose proof (exponentOf_ge q 1024 Hq H) as He.
  destruct (exponentOf_spec q Hq) as [Hlo _].
  assert (Ek : ulpExponent q = (exponentOf q - 52)%Z) by (unfold ulpExponent; lia).
  set (e := exponentOf q) in *. rewrite Ek.
  set (k := (e - 52)%Z).
  pose proof (two_pos k) as Hk.
  assert (Ee : 2 ^ e == inject_Z (2 ^ 52) * 2 ^ k).
  { rewrite <- (two_of_Z 52) by lia.
    rewrite <- Qpower_plus by exact two_nonzero.
    now replace (52 + k)%Z with e by (unfold k; lia). }
  set (m := nearestEven (q / 2 ^ k)).
  assert (Hm : (2 ^ 52 <= Z.abs m)%Z).
  { destruct (Qlt_le_dec q 0) as [Hneg|Hpos].
    - rewrite (Qabs_neg q) in Hlo by now apply Qlt_le_weak.
      assert (Hb : q / 2 ^ k <= inject_Z (- 2 ^ 52)).
      { apply Qle_shift_div_r; [exact Hk|].
        rewrite inject_Z_opp. lra. }
      apply nearestEven_le in Hb. fold m in Hb. lia.
    - rewrite (Qabs_pos q Hpos) in Hlo.
      assert (Hb : inject_Z (2 ^ 52) <= q / 2 ^ k).
      { apply Qle_shift_div_l; [exact Hk|]. lra. }
      apply nearestEven_ge in Hb. fold m in Hb. lia. }
  assert (Hv : 2 ^ 1024 <= Qabs (Qred (inject_Z m * 2 ^ k))).
  { rewrite Qred_correct, Qabs_Qmult, Qabs_inject_Z.
    rewrite (Qabs_pos (2 ^ k)) by now apply Qlt_le_weak.
    apply Qle_trans with (2 ^ e); [apply two_le; lia|].
    rewrite Ee. apply Qmult_le_compat_r; [|now apply Qlt_le_weak].
    now rewrite <- Zle_Qle. }
  apply Qle_bool_iff in Hv. now rewrite Hv.
Qed.

(** Only a number within [2^970] of [2^1024] is rounded beyond the
    doubles. *)
Lemma round_None (q : Q) :
  round q = None -> 2 ^ 1024 - 2 ^ 970 <= Qabs q.
Proof.
  intros H. destruct (Qeq_dec q 0) as [E|Hq].
  { unfold round in H. apply Qeq_bool_iff in E. rewrite E in H. discriminate. }
  rewrite (round_nonzero q Hq) in H. cbv zeta in H.
  destruct (Qle_bool _ _) eqn:Eo; [|discriminate].
  apply Qle_bool_iff in Eo. rewrite Qred_correct in Eo.
  pose proof (two_pos 970) as Hp.
  destruct (Qlt_le_dec (Qabs q) (2 ^ 1024)) as [Hsmall|Hbig]; [|lra].
  pose proof (exponentOf_lt q 1024 Hq Hsmall) as He.
  pose proof (nearest_multiple q (ulpExponent q)) as Hv.
  set (v := inject_Z (nearestEven (q / 2 ^ ulpExponent q)) * 2 ^ ulpExponent q) in *.
  assert (Hle : 2 ^ (ulpExponent q - 1) <= 2 ^ 970).
  { apply two_le. unfold ulpExponent. lia. }
  pose proof (Qabs_triangle_reverse v q) as Ht.
  lra.
Qed.

(** In the range of the normal doubles the relative error of a rounding
    is at most [2^-53]. *)
Lemma round_relative (q v : Q) :
  2 ^ (-1022) <= Qabs q -> round q = Some v ->
  Qabs (v - q) <= Qabs q * 2 ^ (-53).
Proof.
  intros Hn H.
  assert (Hq : ~ q == 0).
  { intros E. rewrite E in Hn. pose proof (two_pos (-1022)) as Hp.
    change (Qabs 0) with 0 in Hn. exact (Qlt_not_le _ _ Hp Hn). }
  rewrite (round_nonzero q Hq) in H. cbv zeta in H.
  pose proof (nearest_multiple q (ulpExponent q)) as Hv.
  set (v0 := inject_Z (nearestEven (q / 2 ^ ulpExponent q))
             * 2 ^ ulpExponent q) in *.
  destruct (Qle_bool _ _); [discriminate|].
  assert (E : v == v0).
  { assert (E' : v = Qred v0) by congruence. rewrite E'. apply Qred_correct. }
  rewrite E. clear H E.
  pose proof (exponentOf_ge q (-1022) Hq Hn) as He.
  destruct (exponentOf_spec q Hq) as [Hlo _].
  assert (Ek : ulpExponent q = (exponentOf q - 52)%Z) by (unfold ulpExponent; lia).
  rewrite Ek in Hv.
  eapply Qle_trans; [exact Hv|].
  replace (exponentOf q - 52 - 1)%Z with (exponentOf q + (-53))%Z by lia.
  rewrite Qpower_plus by exact two_nonzero.
  apply Qmult_le_compat_r; [exact Hlo|]. apply Qlt_le_weak, two_pos.
Qed.
Lemma exponentOf_comp (q q' : Q) :
  ~ q == 0 -> q == q' -> exponentOf q = exponentOf q'.
Proof.
  intros Hq E.
  assert (Hq' : ~ q' == 0) by now rewrite <- E.
  destruct (exponentOf_spec q Hq) as [H1 H2].
  destruct (exponentOf_spec q' Hq') as [H3 H4].
  assert (Ea : Qabs q' == Qabs q) by (now rewrite E).
  rewrite Ea in H3, H4.
  assert (Ha : (exponentOf q < exponentOf q' + 1)%Z).
  { apply two_lt_inv. eapply Qle_lt_trans; eassumption. }
  assert (Hb : (exponentOf q' < exponentOf q + 1)%Z).
  { apply two_lt_inv. eapply Qle_lt_trans; eassumption. }
  lia.
Qed.

(** The rounding depends on the number, not on the fraction that
    denotes it. *)
Lemma round_comp (q q' : Q) : q == q' -> round q = round q'.
Proof.
  intros E. destruct (Qeq_dec q 0) as [E0|Hq].
  - unfold round.
    assert (E0' : q' == 0) by now rewrite <- E.
    apply Qeq_bool_iff in E0, E0'. now rewrite E0, E0'.
  - assert (Hq' : ~ q' == 0) by now rewrite <- E.
    rewrite (round_nonzero q Hq), (round_nonzero q' Hq'). cbv zeta.
    unfold ulpExponent. rewrite <- (exponentOf_comp q q' Hq E).
    set (k := Z.max (exponentOf q - 52) (-1074)).
    assert (Ek : q / 2 ^ k == q' / 2 ^ k) by now rewrite E.
    now rewrite (nearestEven_comp _ _ Ek).
Qed.

Lemma round_whole_eq (q : Q) (z : Z) :
  q == inject_Z z -> (Z.abs z < 2 ^ 53)%Z -> round q = Some (inject_Z z).
Proof. intros E Hz. rewrite (round_comp _ _ E). now apply round_whole. Qed.
(** Doubles and what lies between them: a tenth, the two neighbours of
    [2^53 + 2] (either tie goes to the even significand), the least
    number that is rounded beyond the doubles and the greatest double
    below it, and half of the least positive double. *)
Example round_samples :
  map round
    [ 1 # 10; inject_Z (2 ^ 53 + 1); inject_Z (2 ^ 53 + 3);
      inject_Z (2 ^ 1024 - 2 ^ 970); inject_Z (2 ^ 1024 - 2 ^ 970 - 1);
      1 # Z.to_pos (2 ^ 1075) ]
  = [ Some (3602879701896397 # 36028797018963968);
      Some (inject_Z (2 ^ 53)); Some (inject_Z (2 ^ 53 + 4));
      None; Some (inject_Z (2 ^ 1024 - 2 ^ 971)); Some 0 ].
Proof. vm_compute. reflexivity. Qed.
End Binary64Facts.

(* ------------------------------------------------------------------ *)
(** ** [parseLinkedInDateTime]                                         *)
(* ------------------------------------------------------------------ *)

Module DateParserFacts.
Import Binary64 Binary64Facts.

Lemma truncate_inject_Z (z : Z) : JsNumber.truncate (inject_Z z) = z.
Proof. unfold JsNumber.truncate. cbn. apply Z.quot_1_r. Qed.

Lemma truncate_comp (q q' : Q) :
  (q == q')%Q -> JsNumber.truncate q = JsNumber.truncate q'.
Proof.
  unfold Qeq, JsNumber.truncate. destruct q as [a b], q' as [c d]. cbn.
  intros H.
  rewrite <- (Z.quot_mul_cancel_r a (Z.pos b) (Z.pos d)) by lia.
  rewrite H, (Z.mul_comm (Z.pos b) (Z.pos d)).
  apply Z.quot_mul_cancel_r; lia.
Qed.

(** Cutting the fraction off moves a number by less than 1. *)
Lemma truncate_error (q : Q) :
  (Qabs (inject_Z (JsNumber.truncate q) - q) < 1)%Q.
Proof.
  destruct q as [a b]. unfold JsNumber.truncate. cbn [Qnum Qden].
  pose proof (Z.quot_rem' a (Z.pos b)) as Hqr.
  assert (Hrem : Z.abs (Z.rem a (Z.pos b)) < Z.pos b).
  { pose proof (Z.rem_bound_abs a (Z.pos b) ltac:(lia)). lia. }
  set (t := Z.quot a (Z.pos b)) in *. set (r := Z.rem a (Z.pos b)) in *.
  apply Qabs_Qlt_condition. unfold Qlt, Qminus, Qplus, Qopp, inject_Z.
  cbn [Qnum Qden]. split; cbn -[Z.mul Z.add Z.opp]; lia.
Qed.

(** A number that is a whole count of milliseconds within the range of
    time values makes the date at that time. *)
Lemma ofNumber_whole (q : Q) (t : Z) :
  (q == inject_Z t)%Q -> Z.abs t <= 8640000000000000 ->
  DateObject.ofNumber (JsNumber.Fin q) = DateObject.at_ t.
Proof.
  intros Hq Ht. unfold DateObject.ofNumber.
  assert (E : Qle_bool (Qabs q) (inject_Z 8640000000000000) = true).
  { apply Qle_bool_iff. rewrite Hq.
    unfold Qabs, inject_Z, Qle. cbn. lia. }
  rewrite E, (truncate_comp _ _ Hq), truncate_inject_Z. reflexivity.
Qed.

Lemma excelEpoch_value :
  DateObject.ofNumber
    (Date_UTC (JsNumber.of_Z 1899) (JsNumber.of_Z 11) (JsNumber.of_Z 30)
       (JsNumber.of_Z 0) (JsNumber.of_Z 0))
  = DateObject.at_ excelEpoch.
Proof. vm_compute. reflexivity. Qed.

Example excelEpoch_iso : toISOString excelEpoch = "1899-12-30T00:00:00.000Z"%string.
Proof. vm_compute. reflexivity. Qed.

(** Products and sums of whole numbers are exact as long as the result
    stays below [2^53]. *)
Lemma mul_whole (a b : Z) :
  Z.abs (a * b) < 2 ^ 53 ->
  JsNumber.mul (JsNumber.of_Z a) (JsNumber.of_Z b) = JsNumber.of_Z (a * b).
Proof.
  intros H. unfold JsNumber.of_Z. cbn [JsNumber.mul]. unfold JsNumber.ofQ.
  rewrite (round_whole_eq _ (a * b)); [reflexivity| |exact H].
  now rewrite inject_Z_mult.
Qed.

Lemma add_whole (a b : Z) :
  Z.abs (a + b) < 2 ^ 53 ->
  JsNumber.add (JsNumber.of_Z a) (JsNumber.of_Z b) = JsNumber.of_Z (a + b).
Proof.
  intros H. unfold JsNumber.of_Z. cbn [JsNumber.add]. unfold JsNumber.ofQ.
  rewrite (round_whole_eq _ (a + b)); [reflexivity| |exact H].
  now rewrite inject_Z_plus.
Qed.

Lemma ofQ_near (q : Q) (k : Z) :
  -1074 <= k <= 970 -> (Qabs q < 2 ^ (k + 53))%Q ->
  exists v, JsNumber.ofQ q = JsNumber.Fin v /\ (Qabs (v - q) <= 2 ^ (k - 1))%Q.
Proof.
  intros Hk Hq. destruct (round_near q k Hk Hq) as (v & E & Hv).
  exists v. unfold JsNumber.ofQ. now rewrite E.
Qed.

(** The time of a whole serial is exact. *)
Lemma serialTime_whole (k : Z) :
  Z.abs (excelEpoch + k * JsDate.msPerDay) <= 8640000000000000 ->
  serialTime (JsNumber.of_Z k)
  = JsNumber.of_Z (excelEpoch + k * JsDate.msPerDay).
Proof.
  unfold serialTime, excelEpoch, JsDate.msPerDay. intros H.
  rewrite !mul_whole, add_whole
    by (change (2 ^ 53) with 9007199254740992; lia).
  f_equal. lia.
Qed.

(** The time of a serial up to the last day of the year 9999 is within
    an eighth of a millisecond of the exact sum. *)
Lemma serialTime_near (n : Q) :
  (Qabs n <= 2958466)%Q ->
  exists v,
    serialTime (JsNumber.Fin n) = JsNumber.Fin v
    /\ (Qabs (v - (inject_Z excelEpoch + n * inject_Z JsDate.msPerDay))
        <= 1 # 8)%Q.
Proof.
  intros Hn. apply Qabs_Qle_condition in Hn.
  unfold serialTime, JsNumber.of_Z. cbn [JsNumber.mul].
  change (inject_Z 24) with 24%Q. change (inject_Z 60) with 60%Q.
  change (inject_Z 1000) with 1000%Q.
  change (inject_Z excelEpoch) with (-2209161600000)%Q.
  change (inject_Z JsDate.msPerDay) with 86400000%Q.
  destruct (ofQ_near (n * 24) (-26)) as (v1 & E1 & H1); [lia| |].
  { apply Qabs_Qlt_condition.
    change (2 ^ (-26 + 53))%Q with 134217728%Q. split; lra. }
  rewrite E1. cbn [JsNumber.mul].
  apply Qabs_Qle_condition in H1.
  change (2 ^ (-26 - 1))%Q with (1 # 134217728)%Q in H1.
  destruct (ofQ_near (v1 * 60) (-20)) as (v2 & E2 & H2); [lia| |].
  { apply Qabs_Qlt_condition.
    change (2 ^ (-20 + 53))%Q with 8589934592%Q. split; lra. }
  rewrite E2. cbn [JsNumber.mul].
  apply Qabs_Qle_condition in H2.
  change (2 ^ (-20 - 1))%Q with (1 # 2097152)%Q in H2.
  destruct (ofQ_near (v2 * 60) (-15)) as (v3 & E3 & H3); [lia| |].
  { apply Qabs_Qlt_condition.
    change (2 ^ (-15 + 53))%Q with 274877906944%Q. split; lra. }
  rewrite E3. cbn [JsNumber.mul].
  apply Qabs_Qle_condition in H3.
  change (2 ^ (-15 - 1))%Q with (1 # 65536)%Q in H3.
  destruct (ofQ_near (v3 * 1000) (-5)) as (v4 & E4 & H4); [lia| |].
  { apply Qabs_Qlt_condition.
    change (2 ^ (-5 + 53))%Q with 281474976710656%Q. split; lra. }
  rewrite E4. cbn [JsNumber.add].
  apply Qabs_Qle_condition in H4.
  change (2 ^ (-5 - 1))%Q with (1 # 64)%Q in H4.
  destruct (ofQ_near (-2209161600000 + v4) (-5)) as (v5 & E5 & H5); [lia| |].
  { apply Qabs_Qlt_condition.
    change (2 ^ (-5 + 53))%Q with 281474976710656%Q. split; lra. }
  rewrite E5. exists v5. split; [reflexivity|].
  apply Qabs_Qle_condition in H5.
  change (2 ^ (-5 - 1))%Q with (1 # 64)%Q in H5.
  apply Qabs_Qle_condition. split; lra.
Qed.

Section Facts.
Variable Date_parse : string -> JsNumber.t.

Local Abbreviation parse := (parseLinkedInDateTime Date_parse).

Lemma parse_serial (n : JsNumber.t) :
  JsNumber.falsy n = false ->
  parse (U_number n) = Some (DateObject.ofNumber (serialTime n)).
Proof.
  intros Hn. unfold parseLinkedInDateTime. cbn [falsy].
  rewrite Hn, excelEpoch_value. reflexivity.
Qed.

Lemma falsy_Fin (n : Q) :
  ~ (n == 0)%Q -> JsNumber.falsy (JsNumber.Fin n) = false.
Proof. intros Hn. cbn. apply not_true_iff_false. now rewrite Qeq_bool_iff. Qed.

Lemma parse_serial_whole (k : Z) :
  k <> 0 -> Z.abs (excelEpoch + k * JsDate.msPerDay) <= 8640000000000000 ->
  parse (U_number (JsNumber.of_Z k))
  = Some (DateObject.at_ (excelEpoch + k * JsDate.msPerDay)).
Proof.
  intros Hk Hrange. rewrite parse_serial.
  - rewrite (serialTime_whole k Hrange). f_equal.
    apply ofNumber_whole; [reflexivity|exact Hrange].
  - apply falsy_Fin. unfold Qeq. cbn. lia.
Qed.

Lemma parse_serial_near (n : Q) :
  ~ (n == 0)%Q -> (Qabs n <= 2958466)%Q ->
  exists t,
    parse (U_number (JsNumber.Fin n)) = Some (DateObject.at_ t)
    /\ (Qabs (inject_Z t
              - (inject_Z excelEpoch + n * inject_Z JsDate.msPerDay))
        < 9 # 8)%Q.
Proof.
  intros Hn Hr. rewrite (parse_serial _ (falsy_Fin n Hn)).
  destruct (serialTime_near n Hr) as (v & E & Hv).
  rewrite E. exists (JsNumber.truncate v).
  pose proof (truncate_error v) as Ht.
  apply Qabs_Qle_condition in Hv. apply Qabs_Qlt_condition in Ht.
  apply Qabs_Qle_condition in Hr.
  change (inject_Z excelEpoch) with (-2209161600000)%Q in *.
  change (inject_Z JsDate.msPerDay) with 86400000%Q in *.
  split.
  - unfold DateObject.ofNumber.
    assert (Er : Qle_bool (Qabs v) (inject_Z 8640000000000000) = true).
    { apply Qle_bool_iff. apply Qabs_Qle_condition.
      change (inject_Z 8640000000000000) with 8640000000000000%Q.
      split; lra. }
    now rewrite Er.
  - apply Qabs_Qlt_condition. split; lra.
Qed.

Lemma parse_clock (s datePart timePart ampmPart : string)
  (rest : list string) (m d y h mi : Q) (more : list JsNumber.t) :
  JsString.splitWhiteSpace (JsString.trim s)
  = datePart :: timePart :: ampmPart :: rest ->
  map Number_ (JsString.split "/" datePart)
  = [JsNumber.Fin m; JsNumber.Fin d; JsNumber.Fin y] ->
  JsString.includes ":" timePart = true ->
  map Number_ (JsString.split ":" timePart)
  = JsNumber.Fin h :: JsNumber.Fin mi :: more ->
  parse (U_string s)
  = Some (DateObject.ofNumber
            (Date_UTC (JsNumber.Fin y)
               (JsNumber.add (JsNumber.Fin m) (JsNumber.of_Z (-1)))
               (JsNumber.Fin d)
               (hourOfDay (JsString.toUpperCase ampmPart) (JsNumber.Fin h))
               (JsNumber.Fin mi))).
Proof.
  intros Hparts Hdate Hcolon Htime. unfold parseLinkedInDateTime.
  assert (E : falsy (U_string s) = false).
  { cbn. destruct (String.eqb_spec s ""); [|reflexivity].
    subst s. discriminate. }
  rewrite E, Hparts. cbn [nth nth_error]. rewrite Hdate.
  cbn [LINKEDIN_DATE_FORMAT JsNumber.isNaN negb andb].
  assert (Et : String.eqb timePart "" = false).
  { destruct timePart; [discriminate|reflexivity]. }
  rewrite Et, Hcolon, Htime.
  cbn [negb andb nth JsNumber.isNaN option_map].
  unfold hourOfDay. reflexivity.
Qed.

(** A time part without a colon is not read, whatever follows it. *)
Lemma parse_no_clock (s datePart timePart : string) (rest : list string)
  (m d y : Q) :
  JsString.splitWhiteSpace (JsString.trim s) = datePart :: timePart :: rest ->
  map Number_ (JsString.split "/" datePart)
  = [JsNumber.Fin m; JsNumber.Fin d; JsNumber.Fin y] ->
  JsString.includes ":" timePart = false ->
  parse (U_string s)
  = Some (DateObject.ofNumber
            (Date_UTC (JsNumber.Fin y)
               (JsNumber.add (JsNumber.Fin m) (JsNumber.of_Z (-1)))
               (JsNumber.Fin d) (JsNumber.of_Z 0) (JsNumber.of_Z 0))).
Proof.
  intros Hparts Hdate Hcolon. unfold parseLinkedInDateTime.
  assert (E : falsy (U_string s) = false).
  { cbn. destruct (String.eqb_spec s ""); [|reflexivity].
    subst s. discriminate. }
  rewrite E, Hparts. cbn [nth nth_error]. rewrite Hdate.
  cbn [LINKEDIN_DATE_FORMAT JsNumber.isNaN negb andb].
  rewrite Hcolon, andb_false_r. reflexivity.
Qed.

Lemma hourOfDay_12AM (h : Q) :
  (h == 12)%Q -> hourOfDay "AM" (JsNumber.Fin h) = JsNumber.of_Z 0.
Proof.
  intros H. unfold hourOfDay. cbn.
  apply Qeq_bool_iff in H. unfold inject_Z. now rewrite H.
Qed.

Lemma hourOfDay_12PM (h : Q) :
  (h == 12)%Q -> hourOfDay "PM" (JsNumber.Fin h) = JsNumber.Fin h.
Proof.
  intros H. unfold hourOfDay. cbn.
  assert (E : Qgtb (inject_Z 12) h = false).
  { unfold Qgtb. apply negb_false_iff, Qle_bool_iff. rewrite H.
    apply Qle_refl. }
  now rewrite E.
Qed.

Lemma hourOfDay_PM (h : Q) :
  (h < 12)%Q ->
  hourOfDay "PM" (JsNumber.Fin h)
  = JsNumber.add (JsNumber.Fin h) (JsNumber.of_Z 12).
Proof.
  intros H. unfold hourOfDay.
  cbn [String.eqb Ascii.eqb Bool.eqb andb JsNumber.ltb JsNumber.of_Z].
  assert (E : Qgtb (inject_Z 12) h = true) by now apply PostFacts.Qgtb_lt.
  now rewrite E.
Qed.

(** C7 (as amended).  A numeric serial other than 0 is read as the date
    at [epoch.getTime() + raw * 24 * 60 * 60 * 1000], the time of
    1899-12-30T00:00:00Z plus the serial times the length of a day, in
    the arithmetic of doubles and clipped to a time value.  For a whole
    serial in the range of time values that is exactly the instant, and
    44927 is 2023-01-01T00:00:00Z; for any serial up to the last day of
    the year 9999 it is an instant less than 9/8 ms from the exact sum.
    The serial 0 is read as no date ([null]).  For a string
    [M/D/Y H:MM AM|PM] the hour 12 AM becomes 0, 12 PM stays 12, and an
    hour below 12 with PM gains 12, the sum, like the month less 1,
    being exact on whole numbers; a time part without a colon is not
    read and the date is at midnight. *)
Theorem parseLinkedInDateTime_spec :
  (forall n : JsNumber.t, JsNumber.falsy n = false ->
     parse (U_number n) = Some (DateObject.ofNumber (serialTime n)))
  /\ (forall k : Z, k <> 0 ->
        Z.abs (excelEpoch + k * JsDate.msPerDay) <= 8640000000000000 ->
        parse (U_number (JsNumber.of_Z k))
        = Some (DateObject.at_ (excelEpoch + k * JsDate.msPerDay)))
  /\ (parse (U_number (JsNumber.of_Z 44927))
      = Some (DateObject.at_ 1672531200000)
      /\ toISOString 1672531200000 = "2023-01-01T00:00:00.000Z"%string)
  /\ (forall n : Q, ~ (n == 0)%Q -> (Qabs n <= 2958466)%Q ->
        exists t,
          parse (U_number (JsNumber.Fin n)) = Some (DateObject.at_ t)
          /\ (Qabs (inject_Z t
                    - (inject_Z excelEpoch + n * inject_Z JsDate.msPerDay))
              < 9 # 8)%Q)
  /\ (forall n : Q, (n == 0)%Q -> parse (U_number (JsNumber.Fin n)) = None)
  /\ (forall (s datePart timePart ampmPart : string) (rest : list string)
             (m d y h mi : Q) (more : list JsNumber.t),
        JsString.splitWhiteSpace (JsString.trim s)
        = datePart :: timePart :: ampmPart :: rest ->
        map Number_ (JsString.split "/" datePart)
        = [JsNumber.Fin m; JsNumber.Fin d; JsNumber.Fin y] ->
        JsString.includes ":" timePart = true ->
        map Number_ (JsString.split ":" timePart)
        = JsNumber.Fin h :: JsNumber.Fin mi :: more ->
        let result hour :=
          Some (DateObject.ofNumber
                  (Date_UTC (JsNumber.Fin y)
                     (JsNumber.add (JsNumber.Fin m) (JsNumber.of_Z (-1)))
                     (JsNumber.Fin d) hour (JsNumber.Fin mi))) in
        (JsString.toUpperCase ampmPart = "AM"%string -> (h == 12)%Q ->
         parse (U_string s) = result (JsNumber.of_Z 0))
        /\ (JsString.toUpperCase ampmPart = "PM"%string -> (h == 12)%Q ->
            parse (U_string s) = result (JsNumber.Fin h))
        /\ (JsString.toUpperCase ampmPart = "PM"%string -> (h < 12)%Q ->
            parse (U_string s)
            = result (JsNumber.add (JsNumber.Fin h) (JsNumber.of_Z 12))))
  /\ (forall a b : Z, Z.abs (a + b) < 2 ^ 53 ->
        JsNumber.add (JsNumber.of_Z a) (JsNumber.of_Z b)
        = JsNumber.of_Z (a + b))
  /\ (forall (s datePart timePart : string) (rest : list string) (m d y : Q),
        JsString.splitWhiteSpace (JsString.trim s)
        = datePart :: timePart :: rest ->
        map Number_ (JsString.split "/" datePart)
        = [JsNumber.Fin m; JsNumber.Fin d; JsNumber.Fin y] ->
        JsString.includes ":" timePart = false ->
        parse (U_string s)
        = Some (DateObject.ofNumber
                  (Date_UTC (JsNumber.Fin y)
                     (JsNumber.add (JsNumber.Fin m) (JsNumber.of_Z (-1)))
                     (JsNumber.Fin d) (JsNumber.of_Z 0) (JsNumber.of_Z 0)))).
Proof.
  split; [|split; [|split; [|split; [|split; [|split; [|split]]]]]].
  - apply parse_serial.
  - apply parse_serial_whole.
  - split; [|vm_compute; reflexivity].
    apply (parse_serial_whole 44927); [discriminate|].
    unfold excelEpoch, JsDate.msPerDay. lia.
  - apply parse_serial_near.
  - intros n Hn. unfold parseLinkedInDateTime. cbn.
    apply Qeq_bool_iff in Hn. now rewrite Hn.
  - intros s datePart timePart ampmPart rest m d y h mi more
           Hparts Hdate Hcolon Htime result.
    pose proof (parse_clock s datePart timePart ampmPart rest m d y h mi more
                  Hparts Hdate Hcolon Htime) as Hp.
    subst result. cbv beta. repeat split; intros Hampm Hh; rewrite Hp, Hampm.
    + now rewrite hourOfDay_12AM.
    + now rewrite hourOfDay_12PM.
    + now rewrite hourOfDay_PM.
  - apply add_whole.
  - apply parse_no_clock.
Qed.
End Facts.

(** C7, as stated, fails on four inputs.  For the serial 0 the claim
    gives the instant 1899-12-30T00:00:00Z, the parser gives no date.
    For the serial 44927.041666666664, the double nearest to 01:00 of
    2023-01-01, the sum of the claim is no whole number of milliseconds
    (it lies between 1672534799999 and 1672534800000), and the parser
    gives 1672534800000, which the products reach by rounding.  For the
    serial 99890771.81624207 the parser gives an instant more than 2 ms
    before the sum of the claim.  For the text [1/15/2024 3 PM], an hour
    with a suffix and no minutes, the claim gives 15:00 and the parser
    gives midnight. *)
Lemma parseLinkedInDateTime_not_as_claimed :
  (parseLinkedInDateTime Sample.parseNothing (U_number (JsNumber.of_Z 0)) = None
   /\ DateObject.ofNumber
        (JsNumber.Fin (inject_Z excelEpoch + 0 * inject_Z JsDate.msPerDay))
      = DateObject.at_ excelEpoch)
  /\ (parseLinkedInDateTime Sample.parseNothing
        (U_number (JsNumber.Fin Sample.serialOneOClock))
      = Some (DateObject.at_ 1672534800000)
      /\ Binary64.round Sample.serialOneOClock = Some Sample.serialOneOClock
      /\ (inject_Z 1672534799999
          < inject_Z excelEpoch
            + Sample.serialOneOClock * inject_Z JsDate.msPerDay
          < inject_Z 1672534800000)%Q)
  /\ (parseLinkedInDateTime Sample.parseNothing
        (U_number (JsNumber.Fin Sample.serialFarFuture))
      = Some (DateObject.at_ 8628353523323312)
      /\ Binary64.round Sample.serialFarFuture = Some Sample.serialFarFuture
      /\ (inject_Z (8628353523323312 + 2)
          < inject_Z excelEpoch
            + Sample.serialFarFuture * inject_Z JsDate.msPerDay)%Q)
  /\ (parseLinkedInDateTime Sample.parseNothing (U_string "1/15/2024 3 PM")
      = Some (DateObject.at_ Sample.jan15)
      /\ Sample.jan15 + 15 * JsDate.msPerHour <> Sample.jan15).
Proof.
  split; [|split; [|split]].
  - split; vm_compute; reflexivity.
  - split; [vm_compute; reflexivity|].
    split; [vm_compute; reflexivity|].
    split; vm_compute; reflexivity.
  - split; [vm_compute; reflexivity|].
    split; vm_compute; reflexivity.
  - split; [vm_compute; reflexivity|discriminate].
Qed.

Lemma parseLinkedInDateTime_spec_witness :
  JsString.toUpperCase "am" = "AM"%string
  /\ (12 == 12)%Q
  /\ parseLinkedInDateTime Sample.parseNothing (U_string " 1/15/2024  12:30 am")
     = Some (DateObject.ofNumber
               (Date_UTC (JsNumber.Fin 2024)
                  (JsNumber.add (JsNumber.Fin 1) (JsNumber.of_Z (-1)))
                  (JsNumber.Fin 15) (JsNumber.of_Z 0) (JsNumber.Fin 30))).
Proof.
  split; [reflexivity|split; [reflexivity|]].
  refine (proj1 (proj1 (proj2 (proj2 (proj2 (proj2 (proj2
            (parseLinkedInDateTime_spec Sample.parseNothing))))))
            " 1/15/2024  12:30 am"%string "1/15/2024"%string "12:30"%string
            "am"%string [] 1%Q 15%Q 2024%Q 12%Q 30%Q []
            eq_refl eq_refl eq_refl eq_refl) eq_refl _).
  reflexivity.
Defined.

(** Clock times of one afternoon and of the night before it. *)
Example parseLinkedInDateTime_clock :
  map (fun s =>
         match parseLinkedInDateTime Sample.parseNothing (U_string s) with
         | Some (DateObject.at_ t) => toISOString t
         | _ => EmptyString
         end)
    [ "1/15/2024 12:30 AM"; "1/15/2024 12:30 PM"; "1/15/2024 1:05 pm";
      "1/15/2024 11:59 PM"; "1/15/2024 9:00 AM"; "1/15/2024" ]%string
  = [ "2024-01-15T00:30:00.000Z"; "2024-01-15T12:30:00.000Z";
      "2024-01-15T13:05:00.000Z"; "2024-01-15T23:59:00.000Z";
      "2024-01-15T09:00:00.000Z"; "2024-01-15T00:00:00.000Z" ]%string.
Proof. vm_compute. reflexivity. Qed.

(** Clock times [h:mm] for every [h] from 1 to 12, with the suffix in
    either case: AM gives the hour [h mod 12], PM gives [h mod 12 + 12]. *)
Example parseLinkedInDateTime_every_clock_time :
  forallb
    (fun hm =>
       let '(h, mi) := hm in
       forallb
         (fun sp =>
            let '(suffix, pm) := sp in
            match parseLinkedInDateTime Sample.parseNothing
                    (U_string (Sample.clockText h mi suffix)) with
            | Some (DateObject.at_ t) => t =? Sample.clockInstant h mi pm
            | _ => false
            end)
         [ ("AM", false); ("am", false); ("PM", true); ("pm", true) ]%string)
    Sample.clockTimes
  = true.
Proof. vm_compute. reflexivity. Qed.

(** Serials with a fraction, each one a double: noon of 2023-01-01, one
    second past its midnight, the double nearest to two minutes past it,
    which falls a millisecond short, the last second of the year 9999, and
    a quarter of a day before 1800-01-01. *)
Example parseLinkedInDateTime_serial_fractions :
  map (fun n =>
         match parseLinkedInDateTime Sample.parseNothing
                 (U_number (JsNumber.Fin n)) with
         | Some (DateObject.at_ t) => toISOString t
         | _ => EmptyString
         end)
    [ (89855 # 2)%Q; (6174719864227273 # 137438953472)%Q;
      (6174720053523979 # 137438953472)%Q;
      (6353257358139113 # 2147483648)%Q; (-146089 # 4)%Q ]
  = [ "2023-01-01T12:00:00.000Z"; "2023-01-01T00:00:01.000Z";
      "2023-01-01T00:01:59.999Z";
      "9999-12-31T23:59:59.000Z"; "1799-12-31T18:00:00.000Z" ]%string.
Proof. vm_compute. reflexivity. Qed.

(** A year beyond the range of time values gives an [Invalid Date], not
    [null]: the row is not dropped by the test [!createdAt]. *)
Example parseLinkedInDateTime_out_of_range :
  parseLinkedInDateTime Sample.parseNothing (U_string "1/1/300000")
  = Some DateObject.Invalid.
Proof. vm_compute. reflexivity. Qed.

End DateParserFacts.


(* ------------------------------------------------------------------ *)
(** ** [summarizeTotals] over [aggregateByMonth]                       *)
(* ------------------------------------------------------------------ *)

Module TotalsFacts.
Import JsMap JsMapFacts SortFacts.

Lemma Qsum_app (l l' : list Q) : (Qsum (l ++ l') == Qsum l + Qsum l')%Q.
Proof.
  induction l as [|q l IH]; cbn [app Qsum fold_right].
  - now rewrite Qplus_0_l.
  - fold (Qsum (l ++ l')). fold (Qsum l). rewrite IH. ring.
Qed.

Lemma Qsum_perm (l l' : list Q) : Permutation l l' -> (Qsum l == Qsum l')%Q.
Proof.
  induction 1 as [|x l l' _ IH|x y l|l l' l'' _ IH1 _ IH2];
    cbn [Qsum fold_right].
  - reflexivity.
  - fold (Qsum l). fold (Qsum l'). now rewrite IH.
  - ring.
  - now rewrite IH1.
Qed.

Section Sums.
Context {V : Type}.
Variable f : V -> Q.
Variable g : V -> Z.

Local Abbreviation total m := (Qsum (map f (values m))).
Local Abbreviation count m := (fold_right Z.add 0 (map g (values m))).

(** Writing a key changes the sum over the values by the value written
    less the value replaced. *)
Lemma total_set (m : JsMap.t V) k v :
  (total (set k v m)
   == total m - match get k m with Some e => f e | None => 0 end + f v)%Q.
Proof.
  induction m as [|[k' v'] m IH]; cbn.
  - ring.
  - destruct (String.eqb_spec k' k) as [->|Hne]; cbn.
    + ring.
    + fold (values (set k v m)). fold (values m).
      fold (Qsum (map f (values (set k v m)))). fold (Qsum (map f (values m))).
      rewrite IH. ring.
Qed.

Lemma count_set (m : JsMap.t V) k v :
  count (set k v m)
  = count m - match get k m with Some e => g e | None => 0 end + g v.
Proof.
  induction m as [|[k' v'] m IH]; cbn.
  - lia.
  - destruct (String.eqb_spec k' k) as [->|Hne]; cbn.
    + lia.
    + fold (values (set k v m)). fold (values m). rewrite IH. lia.
Qed.
End Sums.

Lemma Zsum_perm (l l' : list Z) :
  Permutation l l' -> fold_right Z.add 0 l = fold_right Z.add 0 l'.
Proof.
  induction 1 as [|x l l' _ IH|x y l|l l' l'' _ IH1 _ IH2]; cbn; lia.
Qed.

Lemma get_addMonth field acc month :
  MonthSummary.get field (addMonth acc month)
  = (MonthSummary.get field acc + MonthSummary.get field month)%Q.
Proof. destruct field; reflexivity. Qed.

Lemma get_summarize field monthly : forall acc,
  (MonthSummary.get field (fold_left addMonth monthly acc)
   == MonthSummary.get field acc + Qsum (map (MonthSummary.get field) monthly))%Q.
Proof.
  induction monthly as [|s monthly IH]; intros acc;
    cbn [fold_left map Qsum fold_right].
  - ring.
  - rewrite IH, get_addMonth.
    fold (Qsum (map (MonthSummary.get field) monthly)). ring.
Qed.

Lemma days_summarize monthly : forall acc,
  MonthSummary.days (fold_left addMonth monthly acc)
  = MonthSummary.days acc + fold_right Z.add 0 (map MonthSummary.days monthly).
Proof.
  induction monthly as [|s monthly IH]; intros acc; cbn [fold_left map fold_right].
  - lia.
  - rewrite IH. cbn [addMonth MonthSummary.days]. lia.
Qed.

Section Facts.
Variable formatMonthLabel : string -> string.

Lemma buckets_total field (daily : list DailyMetric.t) : forall buckets,
  (Qsum (map (MonthSummary.get field)
           (values (fold_left (aggregateStep formatMonthLabel) daily buckets)))
   == Qsum (map (MonthSummary.get field) (values buckets))
      + Qsum (map (DailyMetric.get field) daily))%Q.
Proof.
  induction daily as [|m daily IH]; intros buckets;
    cbn [fold_left map Qsum fold_right].
  - ring.
  - rewrite IH. fold (Qsum (map (DailyMetric.get field) daily)).
    unfold aggregateStep.
    destruct (get (toMonthKey (DailyMetric.date m)) buckets) as [e|] eqn:E;
      rewrite total_set, E.
    + rewrite AggregateFacts.get_addToBucket. ring.
    + destruct field; cbn; ring.
Qed.

Lemma buckets_days (daily : list DailyMetric.t) : forall buckets,
  fold_right Z.add 0
    (map MonthSummary.days
       (values (fold_left (aggregateStep formatMonthLabel) daily buckets)))
  = fold_right Z.add 0 (map MonthSummary.days (values buckets))
    + Z.of_nat (List.length daily).
Proof.
  induction daily as [|m daily IH]; intros buckets; cbn [fold_left List.length].
  - lia.
  - rewrite IH. unfold aggregateStep.
    destruct (get (toMonthKey (DailyMetric.date m)) buckets) as [e|] eqn:E;
      rewrite count_set, E; cbn [addToBucket newBucket MonthSummary.days]; lia.
Qed.

(** X1. The totals row computed from the month summaries of a series is
    the total of the series: each of the 16 counters of
    [summarizeTotals (aggregateByMonth daily)] is the sum of the counter
    over all the daily records, and [days] is the number of records. *)
Theorem summarizeTotals_aggregateByMonth (daily : list DailyMetric.t) :
  (forall field,
     (MonthSummary.get field
        (summarizeTotals (aggregateByMonth formatMonthLabel daily))
      == Qsum (map (DailyMetric.get field) daily))%Q)
  /\ MonthSummary.days
       (summarizeTotals (aggregateByMonth formatMonthLabel daily))
     = Z.of_nat (List.length daily).
Proof.
  unfold summarizeTotals, aggregateByMonth. split.
  - intros field. rewrite get_summarize.
    rewrite (Qsum_perm _ _ (Permutation_map _ (sortBy_perm _ _))).
    rewrite buckets_total. destruct field; cbn; ring.
  - rewrite days_summarize.
    rewrite (Zsum_perm _ _ (Permutation_map _ (sortBy_perm _ _))).
    rewrite buckets_days. cbn. lia.
Qed.
End Facts.
End TotalsFacts.

(* ------------------------------------------------------------------ *)
(** ** More on [mergeDailyMetrics]                                     *)
(* ------------------------------------------------------------------ *)

Module MergeMoreFacts.
Import JsMap JsMapFacts GroupFoldFacts SortFacts KeyFacts MergeFacts.

Lemma source_fold_mergeFields xs : forall e,
  DailyMetric.source (fold_left mergeFields xs e) = DailyMetric.source e
  /\ DailyMetric.date (fold_left mergeFields xs e) = DailyMetric.date e.
Proof.
  induction xs as [|x xs IH]; intros e; cbn [fold_left]; [now split|].
  destruct (IH (mergeFields e x)) as [-> ->]. now split.
Qed.

(** The record of the output that stands for the day of an input record:
    it is the fold of the records of that day, in the order of the input. *)
Lemma merged_group (metrics : list DailyMetric.t) (m : DailyMetric.t) :
  In m metrics ->
  exists x xs,
    filter (sameDay m) metrics = x :: xs
    /\ filter (sameDay m) (mergeDailyMetrics metrics)
       = [fold_left mergeFields xs x].
Proof.
  intros Hin.
  destruct (filter_values_groupFold mergeKey (fun x => x) mergeFields mergeKey
              (fun x => eq_refl) (fun e x _ => mergeKey_mergeFields e x)
              metrics m Hin) as (r & Hfold & Hone).
  rewrite groupOf_sameDay in Hfold.
  destruct (filter (sameDay m) metrics) as [|x xs]; cbn in Hfold; [discriminate|].
  injection Hfold as <-. exists x, xs. split; [reflexivity|].
  rewrite <- groupOf_sameDay. unfold mergeDailyMetrics.
  apply filter_sortBy_singleton. rewrite byDay_fold. exact Hone.
Qed.

(** Every record of the output is the fold of the input records of its
    key. *)
Lemma merged_origin (metrics : list DailyMetric.t) (r : DailyMetric.t) :
  In r (mergeDailyMetrics metrics) ->
  exists x xs,
    In x metrics
    /\ filter (sameDay x) metrics = x :: xs
    /\ r = fold_left mergeFields xs x.
Proof.
  intros Hr. unfold mergeDailyMetrics in Hr.
  apply (Permutation_in _ (sortBy_perm _ _)) in Hr.
  rewrite byDay_fold in Hr. apply in_map_iff in Hr as ([k v] & <- & Hin).
  cbn [snd]. apply in_get_Some in Hin.
  2:{ apply NoDup_keys_fold. constructor. }
  rewrite get_groupFold in Hin.
  destruct (groupOf mergeKey k metrics) as [|x xs] eqn:E; cbn in Hin;
    [discriminate|].
  injection Hin as <-.
  assert (Hx : In x (groupOf mergeKey k metrics)) by (rewrite E; now left).
  apply filter_In in Hx as [Hx Hk]. apply String.eqb_eq in Hk. subst k.
  exists x, xs. split; [exact Hx|]. split; [|reflexivity].
  now rewrite <- groupOf_sameDay.
Qed.

Lemma length_set {V : Type} (m : JsMap.t V) k v :
  (List.length (set k v m) <= S (List.length m))%nat.
Proof.
  induction m as [|[k' v'] m IH]; cbn; [lia|].
  destruct (String.eqb k' k); cbn; lia.
Qed.

Lemma length_fold_mergeStep (metrics : list DailyMetric.t) : forall byDay,
  (List.length (fold_left mergeStep metrics byDay)
   <= List.length byDay + List.length metrics)%nat.
Proof.
  induction metrics as [|m metrics IH]; intros byDay; cbn [fold_left List.length];
    [lia|].
  etransitivity; [apply IH|].
  assert (H : (List.length (mergeStep byDay m) <= S (List.length byDay))%nat).
  { unfold mergeStep. destruct (get (mergeKey m) byDay); apply length_set. }
  lia.
Qed.

(** X2. [mergeDailyMetrics] makes up no record and no number: the output
    is not longer than the input, every output record has the platform
    and the date of an input record, and each of its counters is the
    value of that counter in some input record of the same platform and
    UTC day. *)
Theorem mergeDailyMetrics_from_input (metrics : list DailyMetric.t) :
  (List.length (mergeDailyMetrics metrics) <= List.length metrics)%nat
  /\ forall r, In r (mergeDailyMetrics metrics) ->
       (exists m, In m metrics
                  /\ DailyMetric.source r = DailyMetric.source m
                  /\ DailyMetric.date r = DailyMetric.date m)
       /\ forall field,
            exists m, In m metrics /\ sameDay r m = true
                      /\ DailyMetric.get field r = DailyMetric.get field m.
Proof.
  split.
  - unfold mergeDailyMetrics.
    rewrite (Permutation_length (sortBy_perm _ _)). unfold values.
    rewrite length_map. apply (length_fold_mergeStep metrics JsMap.empty).
  - intros r Hr. destruct (merged_origin metrics r Hr) as (x & xs & Hx & Hg & ->).
    destruct (source_fold_mergeFields xs x) as [Hs Hd].
    split; [exists x; now repeat split|].
    intros field.
    destruct (fold_max_is_maximum (map (DailyMetric.get field) xs)
                (DailyMetric.get field x)) as [Hmax _].
    rewrite <- get_fold_mergeFields in Hmax.
    change (DailyMetric.get field x :: map (DailyMetric.get field) xs)
      with (map (DailyMetric.get field) (x :: xs)) in Hmax.
    apply in_map_iff in Hmax as (m & Hm & Hin).
    rewrite <- Hg in Hin. apply filter_In in Hin as [Hin Hsame].
    exists m. split; [exact Hin|]. split; [|now symmetry].
    unfold sameDay in *. now rewrite Hs, Hd.
Qed.

Lemma is_maximum_perm (v v' : Q) (l l' : list Q) :
  Permutation l l' -> is_maximum v l -> is_maximum v' l' -> (v == v')%Q.
Proof.
  intros Hp [Hin Hub] [Hin' Hub']. rewrite Forall_forall in Hub, Hub'.
  apply Qle_antisym.
  - apply Hub'. now apply (Permutation_in _ Hp).
  - apply Hub. apply (Permutation_in _ (Permutation_sym Hp)), Hin'.
Qed.

Lemma merged_group_maximum (metrics : list DailyMetric.t) (m : DailyMetric.t) :
  In m metrics ->
  exists r,
    filter (sameDay m) (mergeDailyMetrics metrics) = [r]
    /\ forall field,
         is_maximum (DailyMetric.get field r)
           (map (DailyMetric.get field) (filter (sameDay m) metrics)).
Proof.
  intros Hin. destruct (merged_group metrics m Hin) as (x & xs & Hg & Hr).
  exists (fold_left mergeFields xs x). split; [exact Hr|].
  intros field. rewrite Hg, get_fold_mergeFields. cbn [map].
  apply fold_max_is_maximum.
Qed.

(** X3. The order of the input (the order in which the export files are
    read) does not change the merged counters: for two inputs with the
    same records in any order, the records that the two outputs hold for
    a platform and day have equal counters. *)
Theorem mergeDailyMetrics_order_independent
  (metrics metrics' : list DailyMetric.t) (m : DailyMetric.t) :
  Permutation metrics metrics' -> In m metrics ->
  exists r r',
    filter (sameDay m) (mergeDailyMetrics metrics) = [r]
    /\ filter (sameDay m) (mergeDailyMetrics metrics') = [r']
    /\ DailyMetric.source r = DailyMetric.source r'
    /\ JsDate.Day (DailyMetric.date r) = JsDate.Day (DailyMetric.date r')
    /\ forall field, (DailyMetric.get field r == DailyMetric.get field r')%Q.
Proof.
  intros Hp Hin.
  assert (Hin' : In m metrics') by now apply (Permutation_in _ Hp).
  destruct (merged_group_maximum metrics m Hin) as (r & Hr & Hmax).
  destruct (merged_group_maximum metrics' m Hin') as (r' & Hr' & Hmax').
  exists r, r'. split; [exact Hr|split; [exact Hr'|]].
  assert (Hsr : sameDay m r = true).
  { assert (H : In r (filter (sameDay m) (mergeDailyMetrics metrics)))
      by (rewrite Hr; now left).
    now apply filter_In in H. }
  assert (Hsr' : sameDay m r' = true).
  { assert (H : In r' (filter (sameDay m) (mergeDailyMetrics metrics')))
      by (rewrite Hr'; now left).
    now apply filter_In in H. }
  unfold sameDay in Hsr, Hsr'.
  apply andb_true_iff in Hsr as [Hs Hd]. apply andb_true_iff in Hsr' as [Hs' Hd'].
  apply Z.eqb_eq in Hd, Hd'.
  repeat split.
  - destruct (DailyMetric.source m), (DailyMetric.source r),
      (DailyMetric.source r'); cbn in *; congruence.
  - congruence.
  - intros field. eapply is_maximum_perm; [|apply Hmax|apply Hmax'].
    apply Permutation_map, filter_perm, Hp.
Qed.

Lemma mergeDailyMetrics_order_independent_witness :
  Permutation
    [ Sample.daily Platform.x Sample.jan15 100;
      Sample.daily Platform.x Sample.jan15 80 ]
    [ Sample.daily Platform.x Sample.jan15 80;
      Sample.daily Platform.x Sample.jan15 100 ]
  /\ exists r r',
       filter (sameDay (Sample.daily Platform.x Sample.jan15 100))
         (mergeDailyMetrics
            [ Sample.daily Platform.x Sample.jan15 100;
              Sample.daily Platform.x Sample.jan15 80 ]) = [r]
       /\ filter (sameDay (Sample.daily Platform.x Sample.jan15 100))
            (mergeDailyMetrics
               [ Sample.daily Platform.x Sample.jan15 80;
                 Sample.daily Platform.x Sample.jan15 100 ]) = [r']
       /\ DailyMetric.source r = DailyMetric.source r'
       /\ JsDate.Day (DailyMetric.date r) = JsDate.Day (DailyMetric.date r')
       /\ forall field, (DailyMetric.get field r == DailyMetric.get field r')%Q.
Proof.
  assert (Hp : Permutation
    [ Sample.daily Platform.x Sample.jan15 100;
      Sample.daily Platform.x Sample.jan15 80 ]
    [ Sample.daily Platform.x Sample.jan15 80;
      Sample.daily Platform.x Sample.jan15 100 ]) by apply perm_swap.
  split; [exact Hp|].
  apply (mergeDailyMetrics_order_independent _ _ _ Hp). now left.
Defined.

End MergeMoreFacts.

(* ------------------------------------------------------------------ *)
(** ** Months of a merged series                                       *)
(* ------------------------------------------------------------------ *)

Module MonthDaysFacts.
Import JsMap JsMapFacts GroupFoldFacts SortFacts KeyFacts MergeFacts.

(** Dropping records keeps their keys distinct. *)
Lemma distinct_keys_filter {K R : Type} (key : R -> K) (keep : R -> bool) :
  forall records : list R,
    NoDup (map key records) -> NoDup (map key (filter keep records)).
Proof.
  intros records Hnd. induction records as [|r records IH]; [exact Hnd|].
  cbn [map] in Hnd. apply NoDup_cons_iff in Hnd as [Hfresh Hnd].
  cbn [filter]. destruct (keep r); [|exact (IH Hnd)].
  cbn [map]. apply NoDup_cons; [|exact (IH Hnd)].
  intros Hin. apply Hfresh. apply in_map_iff in Hin as (r' & Hkey & Hin).
  apply filter_In in Hin as [Hin _]. apply in_map_iff. now exists r'.
Qed.

Lemma NoDup_map_finer {A B C : Type} (f : A -> B) (g : A -> C) (l : list A) :
  (forall a b, In a l -> In b l -> g a = g b -> f a = f b) ->
  NoDup (map f l) -> NoDup (map g l).
Proof.
  induction l as [|a l IH]; cbn; [constructor|].
  intros Hfg H. inversion H as [|? ? Hnotin Hnd]; subst.
  constructor.
  - intros Hin. apply Hnotin. apply in_map_iff in Hin as (b & Hb & Hin).
    rewrite (Hfg a b); [now apply in_map|now left|now right|now symmetry].
  - apply IH; [|exact Hnd]. intros x y Hx Hy. apply Hfg; now right.
Qed.

Local Abbreviation monthDays := (map Z.of_nat (seq 1 31)).

Lemma monthDays_complete (z : Z) : 1 <= z <= 31 -> In z monthDays.
Proof.
  intros H. rewrite <- (Z2Nat.id z) by lia. apply in_map, in_seq. lia.
Qed.

Section Facts.
Variable formatMonthLabel : string -> string.

Local Abbreviation monthOf := (fun m => toMonthKey (DailyMetric.date m)).
Local Abbreviation firstBucket :=
  (fun m => newBucket formatMonthLabel (toMonthKey (DailyMetric.date m)) m).

(** Every bucket counts the records of the month of some record. *)
Lemma bucket_days (daily : list DailyMetric.t) (s : MonthSummary.t) :
  In s (aggregateByMonth formatMonthLabel daily) ->
  exists m, In m daily
    /\ MonthSummary.days s
       = Z.of_nat (List.length (filter (sameMonth m) daily)).
Proof.
  intros Hs. unfold aggregateByMonth in Hs.
  apply (Permutation_in _ (sortBy_perm _ _)) in Hs.
  rewrite AggregateFacts.buckets_fold in Hs.
  apply in_map_iff in Hs as ([k v] & <- & Hin). cbn [snd].
  apply in_get_Some in Hin.
  2:{ apply NoDup_keys_fold. constructor. }
  rewrite get_groupFold in Hin.
  destruct (groupOf monthOf k daily) as [|x xs] eqn:E; cbn in Hin;
    [discriminate|].
  injection Hin as <-.
  assert (Hx : In x (groupOf monthOf k daily)) by (rewrite E; now left).
  apply filter_In in Hx as [Hx Hk]. apply String.eqb_eq in Hk. subst k.
  exists x. split; [exact Hx|].
  rewrite <- AggregateFacts.groupOf_sameMonth, E.
  rewrite AggregateFacts.days_fold_addToBucket.
  cbn [newBucket MonthSummary.days List.length]. lia.
Qed.

(** X4. After [mergeDailyMetrics], a series of one platform has at most
    one record per day, so every month summary of it counts between 1 and
    31 days. *)
Theorem aggregateByMonth_days_of_merged (p : Platform.t)
  (metrics : list DailyMetric.t) (s : MonthSummary.t) :
  Forall (fun m => DailyMetric.source m = p) metrics ->
  In s (aggregateByMonth formatMonthLabel (mergeDailyMetrics metrics)) ->
  1 <= MonthSummary.days s <= 31.
Proof.
  intros Hp Hs. apply bucket_days in Hs as (m & Hm & ->).
  set (merged := mergeDailyMetrics metrics) in *.
  set (G := filter (sameMonth m) merged).
  assert (Hsrc : forall r, In r merged -> DailyMetric.source r = p).
  { intros r Hr.
    destruct (MergeMoreFacts.merged_origin metrics r Hr) as (x & xs & Hx & _ & ->).
    destruct (MergeMoreFacts.source_fold_mergeFields xs x) as [-> _].
    rewrite Forall_forall in Hp. now apply Hp. }
  assert (Hnd : NoDup (map (fun r => JsDate.DateFromTime (DailyMetric.date r)) G)).
  { apply (NoDup_map_finer mergeKey).
    - intros a b Ha Hb Hd. apply filter_In in Ha as [Ha Hma], Hb as [Hb Hmb].
      apply mergeKey_sameDay. unfold sameDay.
      rewrite (Hsrc a Ha), (Hsrc b Hb).
      assert (E : Platform.eqb p p = true) by now destruct p.
      rewrite E. cbn [andb]. apply Z.eqb_eq.
      unfold sameMonth in Hma, Hmb.
      apply andb_true_iff in Hma as [Hya Hmoa], Hmb as [Hyb Hmob].
      apply Z.eqb_eq in Hya, Hmoa, Hyb, Hmob.
      apply JsDateFacts.Day_fields_inj; congruence.
    - apply distinct_keys_filter, mergeDailyMetrics_NoDup. }
  assert (Hincl : incl (map (fun r => JsDate.DateFromTime (DailyMetric.date r)) G)
                    monthDays).
  { intros z Hz. apply in_map_iff in Hz as (r & <- & _).
    apply monthDays_complete, JsDateFacts.DateFromTime_range. }
  pose proof (NoDup_incl_length Hnd Hincl) as Hlen.
  rewrite !length_map, length_seq in Hlen.
  assert (Hne : In m G).
  { apply filter_In. split; [exact Hm|]. unfold sameMonth.
    now rewrite !Z.eqb_refl. }
  destruct G; [destruct Hne|]. cbn [List.length] in *. lia.
Qed.
End Facts.

Lemma aggregateByMonth_days_of_merged_witness :
  Forall (fun m => DailyMetric.source m = Platform.x) Sample.nineOfTen
  /\ In (MonthSummary.mk "2024-01" "2024-01" 9 0 0 0 0 0 0 0 0 0 0 0 0 0 0 0 9)
        (aggregateByMonth (fun k => k) (mergeDailyMetrics Sample.nineOfTen))
  /\ 1 <= 9 <= 31.
Proof.
  assert (Hp : Forall (fun m => DailyMetric.source m = Platform.x)
                 Sample.nineOfTen) by (repeat constructor).
  assert (Hs : In (MonthSummary.mk "2024-01" "2024-01"
                     9 0 0 0 0 0 0 0 0 0 0 0 0 0 0 0 9)
                  (aggregateByMonth (fun k => k)
                     (mergeDailyMetrics Sample.nineOfTen)))
    by (vm_compute; now left).
  split; [exact Hp|split; [exact Hs|]].
  exact (aggregateByMonth_days_of_merged (fun k => k) Platform.x
           Sample.nineOfTen _ Hp Hs).
Defined.

End MonthDaysFacts.

(* ------------------------------------------------------------------ *)
(** ** The validation reporter                                         *)
(* ------------------------------------------------------------------ *)

Module ValidationFacts.

Lemma setHas_lower (headers : list string) (name : string) :
  setHas (map JsString.toLowerCase headers) name = true
  <-> exists header, In header headers /\ JsString.toLowerCase header = name.
Proof.
  unfold setHas. rewrite existsb_exists. split.
  - intros (x & Hx & E). apply String.eqb_eq in E. subst x.
    apply in_map_iff in Hx as (header & E & Hin). now exists header.
  - intros (header & Hin & E). exists name. split; [|apply String.eqb_refl].
    rewrite <- E. now apply in_map.
Qed.

Lemma findMissingGroups_In (headers : list string)
  (groups : list ColumnGroup.t) (name : string) :
  In name (findMissingGroups (map JsString.toLowerCase headers) groups)
  <-> exists group,
        In group groups /\ ColumnGroup.label group = name
        /\ groupUnmet headers group.
Proof.
  unfold findMissingGroups, groupUnmet. rewrite in_map_iff. split.
  - intros (group & E & Hin). apply filter_In in Hin as [Hin Hall].
    exists group. split; [exact Hin|split; [exact E|]].
    rewrite forallb_forall in Hall. intros field header Hf Hh Heq.
    specialize (Hall field Hf). apply negb_true_iff in Hall.
    apply not_true_iff_false in Hall. apply Hall.
    apply setHas_lower. now exists header.
  - intros (group & Hin & E & Hun). exists group. split; [exact E|].
    apply filter_In. split; [exact Hin|]. apply forallb_forall.
    intros field Hf. apply negb_true_iff, not_true_iff_false. intros Hhas.
    apply setHas_lower in Hhas as (header & Hh & Heq).
    exact (Hun field header Hf Hh Heq).
Qed.

Section Facts.
Variable formatFilePathLabel : list string -> string.

(** X5. A label is reported in [missingRequired] exactly when it is the
    label of a required group none of whose accepted names is a header,
    letter case apart, and in [missingOptional] exactly when the same
    holds of an optional group; so a group with a header under one of its
    names is never reported, and a label reported in [missingOptional]
    is the label of an optional group. *)
Theorem buildCsvValidation_missing (id label : string)
  (filePaths : list string) (source : CsvSource.t) (rowCount : Z)
  (headers : list string) (requiredGroups optionalGroups : list ColumnGroup.t)
  (name : string) :
  let validation :=
    buildCsvValidation formatFilePathLabel id label filePaths source rowCount
      headers requiredGroups optionalGroups in
  (In name (CsvValidation.missingRequired validation)
   <-> exists group, In group requiredGroups
                     /\ ColumnGroup.label group = name
                     /\ groupUnmet headers group)
  /\ (In name (CsvValidation.missingOptional validation)
      <-> exists group, In group optionalGroups
                        /\ ColumnGroup.label group = name
                        /\ groupUnmet headers group)
  /\ CsvValidation.rowCount validation = rowCount
  /\ CsvValidation.source validation = source.
Proof.
  cbn. repeat split; try apply findMissingGroups_In; apply findMissingGroups_In.
Qed.
End Facts.

(** The headers of an export in capitals: [Impressions] is met, the group
    of [Reposts] and [Retweets] is met by [RETWEETS], [Likes] is missing. *)
Example buildCsvValidation_capitals :
  let validation :=
    buildCsvValidation (fun _ => "Data/raw"%string) "x-daily"
      "X account analytics" [] CsvSource.raw 3
      ["DATE"; "IMPRESSIONS"; "RETWEETS"]%string
      [ ColumnGroup.mk "Date" ["Date"%string];
        ColumnGroup.mk "Impressions" ["Impressions"%string] ]
      [ ColumnGroup.mk "Likes" ["Likes"%string];
        ColumnGroup.mk "Reposts" ["Reposts"; "Retweets"]%string ] in
  (CsvValidation.missingRequired validation,
   CsvValidation.missingOptional validation)
  = ([], ["Likes"%string]).
Proof. vm_compute. reflexivity. Qed.

End ValidationFacts.

(* ------------------------------------------------------------------ *)
(** ** Month-over-month growth                                         *)
(* ------------------------------------------------------------------ *)

Module MomFacts.

Lemma percentDelta_None (previous current : Q) :
  percentDelta previous current = None <-> (previous == 0)%Q.
Proof.
  unfold percentDelta. destruct (Qeq_bool previous 0) eqn:E.
  - apply Qeq_bool_iff in E. tauto.
  - split; [discriminate|]. intros H. apply Qeq_bool_iff in H. congruence.
Qed.

Lemma percentDelta_Some (previous current : Q) :
  ~ (previous == 0)%Q ->
  percentDelta previous current = Some ((current - previous) / previous)%Q.
Proof.
  intros H. unfold percentDelta. destruct (Qeq_bool previous 0) eqn:E;
    [|reflexivity].
  apply Qeq_bool_iff in E. contradiction.
Qed.

Lemma nth_last_two (rest : list MonthSummary.t) (prev last d : MonthSummary.t) :
  nth (List.length (rest ++ [prev; last]) - 1) (rest ++ [prev; last]) d = last
  /\ nth (List.length (rest ++ [prev; last]) - 2) (rest ++ [prev; last]) d = prev.
Proof.
  rewrite length_app. cbn [List.length].
  replace (List.length rest + 2 - 1)%nat with (List.length rest + 1)%nat by lia.
  replace (List.length rest + 2 - 2)%nat with (List.length rest + 0)%nat by lia.
  rewrite !app_nth2_plus. now split.
Qed.

(** X6. [calculateMomGrowth] compares the last two entries of the list:
    with fewer than two months every delta is [null] and the previous
    label is "n/a"; otherwise each delta is [null] exactly when the
    previous month's value is zero and is
    [(current - previous) / previous] when it is not, and the two labels
    are those of the last two months. *)
Theorem calculateMomGrowth_spec :
  (forall monthly, (List.length monthly < 2)%nat ->
     let g := calculateMomGrowth monthly in
     MomGrowth.views g = None /\ MomGrowth.likes g = None
     /\ MomGrowth.comments g = None /\ MomGrowth.reposts g = None
     /\ MomGrowth.posts g = None
     /\ MomGrowth.previousMonthLabel g = "n/a"%string
     /\ MomGrowth.lastMonthLabel g
        = match monthly with
          | only :: _ => MonthSummary.label only
          | [] => "n/a"%string
          end)
  /\ (forall rest prev last,
        let g := calculateMomGrowth (rest ++ [prev; last]) in
        MomGrowth.lastMonthLabel g = MonthSummary.label last
        /\ MomGrowth.previousMonthLabel g = MonthSummary.label prev
        /\ (MomGrowth.views g = None <-> (MonthSummary.views prev == 0)%Q)
        /\ (~ (MonthSummary.views prev == 0)%Q ->
            MomGrowth.views g
            = Some ((MonthSummary.views last - MonthSummary.views prev)
                    / MonthSummary.views prev)%Q)
        /\ MomGrowth.likes g
           = percentDelta (MonthSummary.likes prev) (MonthSummary.likes last)
        /\ MomGrowth.comments g
           = percentDelta (MonthSummary.comments prev)
               (MonthSummary.comments last)
        /\ MomGrowth.reposts g
           = percentDelta (MonthSummary.reposts prev)
               (MonthSummary.reposts last)
        /\ MomGrowth.posts g
           = percentDelta (MonthSummary.posts prev) (MonthSummary.posts last)).
Proof.
  split.
  - intros monthly Hlen g. subst g. unfold calculateMomGrowth.
    apply Nat.ltb_lt in Hlen. rewrite Hlen. cbn.
    repeat split. now destruct monthly.
  - intros rest prev last g. subst g. unfold calculateMomGrowth.
    assert (E : (List.length (rest ++ [prev; last]) <? 2)%nat = false).
    { apply Nat.ltb_ge. rewrite length_app. cbn. lia. }
    rewrite E. destruct (nth_last_two rest prev last totalsStart) as [-> ->].
    cbn. repeat split; try apply percentDelta_None.
    apply percentDelta_Some.
Qed.

Lemma calculateMomGrowth_spec_witness :
  (List.length (@nil MonthSummary.t) < 2)%nat
  /\ MomGrowth.views (calculateMomGrowth []) = None.
Proof.
  split; [repeat constructor|].
  exact (proj1 (proj1 calculateMomGrowth_spec [] (le_S _ _ (le_n 1)))).
Defined.

End MomFacts.

(* ------------------------------------------------------------------ *)
(** ** [pickField] and the records of the table extractor              *)
(* ------------------------------------------------------------------ *)

Module PickFieldFacts.
Import JsMap JsMapFacts.

Lemma firstIn_Some (row : Row) (candidates : list string) (value : string) :
  firstIn row candidates = Some value ->
  exists key, In key candidates /\ get key row = Some value.
Proof.
  induction candidates as [|key rest IH]; cbn; [discriminate|].
  destruct (get key row) as [v|] eqn:E.
  - intros [= ->]. exists key. split; [now left|exact E].
  - intros H. destruct (IH H) as (k & Hk & Hg). exists k. split; [now right|exact Hg].
Qed.

Lemma firstIn_None (row : Row) (candidates : list string) :
  firstIn row candidates = None
  <-> forall key, In key candidates -> get key row = None.
Proof.
  induction candidates as [|key rest IH]; cbn.
  - split; [intros _ ? []|reflexivity].
  - destruct (get key row) as [v|] eqn:E.
    + split; [discriminate|]. intros H. rewrite (H key) in E by now left.
      discriminate.
    + rewrite IH. split.
      * intros H k [<-|Hk]; [exact E|now apply H].
      * intros H k Hk. apply H. now right.
Qed.

(** The entries of the lower-case map come from the row. *)
Lemma lowerKeys_fold (row : Row) : forall (lower : Row) name value,
  get name
    (fold_left (fun lower entry =>
                  set (JsString.toLowerCase (fst entry)) (snd entry) lower)
       row lower) = Some value ->
  get name lower = Some value
  \/ exists key, In (key, value) row /\ JsString.toLowerCase key = name.
Proof.
  induction row as [|[k v] row IH]; intros lower name value; cbn [fold_left].
  - now left.
  - intros H. apply IH in H as [H|(key & Hin & E)].
    + cbn [fst snd] in H.
      destruct (String.eqb_spec (JsString.toLowerCase k) name) as [E|Hne].
      * subst name. rewrite get_set_same in H. injection H as <-.
        right. exists k. split; [now left|reflexivity].
      * rewrite get_set_other in H by exact Hne. now left.
    + right. exists key. split; [now right|exact E].
Qed.

Lemma lowerKeys_Some (row : Row) (name value : string) :
  get name (lowerKeys row) = Some value ->
  exists key, In (key, value) row /\ JsString.toLowerCase key = name.
Proof.
  intros H. apply lowerKeys_fold in H as [H|H]; [discriminate|exact H].
Qed.

(** The first loop of [pickField] stops at the first candidate that is
    a header of the row or an inherited name. *)
Lemma firstHas_Some (row : Row) (candidates : list string) (picked : Picked) :
  firstHas row candidates = Some picked ->
  exists before candidate after,
    candidates = before ++ candidate :: after
    /\ (forall key, In key before ->
          get key row = None /\ inherited key = false)
    /\ ((exists value, get candidate row = Some value /\ picked = cell value)
        \/ (get candidate row = None /\ inherited candidate = true
            /\ picked = member candidate)).
Proof.
  induction candidates as [|key rest IH]; cbn [firstHas]; [discriminate|].
  destruct (get key row) as [value|] eqn:E.
  - intros [= <-]. exists [], key, rest. split; [reflexivity|].
    split; [intros ? []|]. left. now exists value.
  - destruct (inherited key) eqn:Ei.
    + intros [= <-]. exists [], key, rest. split; [reflexivity|].
      split; [intros ? []|]. now right.
    + intros H. destruct (IH H) as (before & c & after & -> & Hb & Hc).
      exists (key :: before), c, after. split; [reflexivity|].
      split; [|exact Hc]. intros k [<-|Hk]; [now split|now apply Hb].
Qed.

Lemma firstHas_None (row : Row) (candidates : list string) :
  firstHas row candidates = None
  <-> forall key, In key candidates ->
        get key row = None /\ inherited key = false.
Proof.
  induction candidates as [|key rest IH]; cbn [firstHas In].
  - split; [intros _ ? []|reflexivity].
  - destruct (get key row) as [value|] eqn:E.
    + split; [discriminate|]. intros H.
      destruct (H key (or_introl eq_refl)) as [H' _]. rewrite E in H'.
      discriminate.
    + destruct (inherited key) eqn:Ei.
      * split; [discriminate|]. intros H.
        destruct (H key (or_introl eq_refl)) as [_ H']. rewrite Ei in H'.
        discriminate.
      * rewrite IH. split.
        -- intros H k [<-|Hk]; [now split|now apply H].
        -- intros H k Hk. apply H. now right.
Qed.

(** Without an inherited name among the candidates the first loop is the
    search among the headers of the row. *)
Lemma firstHas_own (row : Row) (candidates : list string) :
  (forall candidate, In candidate candidates -> inherited candidate = false) ->
  firstHas row candidates = option_map cell (firstIn row candidates).
Proof.
  induction candidates as [|key rest IH]; intros H; cbn [firstHas firstIn];
    [reflexivity|].
  destruct (get key row) as [value|]; [reflexivity|].
  rewrite (H key) by now left. apply IH. intros c Hc. apply H. now right.
Qed.

(** X7. [pickField] never makes a value up, whatever the candidates are.
    It returns the empty string, or a cell of the row whose header equals
    a candidate, letter case apart, or, since [key in row] also holds of
    what the row inherits from [Object.prototype], the inherited member
    named by a candidate that is no header of the row.  The first
    candidate that is a header or an inherited name decides: its cell if
    it is a header, the inherited member otherwise.  When no header
    equals a candidate even up to case and no candidate is an inherited
    name, the result is the empty string.  On candidates none of which is
    an inherited name the result is the string that [pickField] gives,
    and every list of candidates of the loaders is of that kind. *)
Theorem pickField_spec (row : Row) (candidates : list string) :
  (pickFieldAny row candidates = cell EmptyString
   \/ (exists key value candidate,
         In (key, value) row /\ In candidate candidates
         /\ JsString.toLowerCase key = JsString.toLowerCase candidate
         /\ pickFieldAny row candidates = cell value)
   \/ (exists name,
         In name candidates /\ inherited name = true
         /\ get name row = None
         /\ pickFieldAny row candidates = member name))
  /\ (forall candidate,
        In candidate candidates ->
        get candidate row <> None \/ inherited candidate = true ->
        exists before candidate' after,
          candidates = before ++ candidate' :: after
          /\ (forall key, In key before ->
                get key row = None /\ inherited key = false)
          /\ ((exists value,
                 get candidate' row = Some value
                 /\ pickFieldAny row candidates = cell value)
              \/ (get candidate' row = None /\ inherited candidate' = true
                  /\ pickFieldAny row candidates = member candidate')))
  /\ ((forall key candidate,
         In key (keys row) -> In candidate candidates ->
         JsString.toLowerCase key <> JsString.toLowerCase candidate) ->
      (forall candidate,
         In candidate candidates -> inherited candidate = false) ->
      pickFieldAny row candidates = cell EmptyString)
  /\ ((forall candidate,
         In candidate candidates -> inherited candidate = false) ->
      pickFieldAny row candidates = cell (pickField row candidates))
  /\ forallb (forallb (fun candidate => negb (inherited candidate)))
       loaderCandidates = true.
Proof.
  unfold pickFieldAny. split; [|split; [|split; [|split]]].
  - destruct (firstHas row candidates) as [picked|] eqn:E.
    + right. apply firstHas_Some in E
        as (before & c & after & -> & _ & [(value & Hg & ->)|(Hg & Hi & ->)]).
      * left. exists c, value, c. repeat split.
        -- now apply get_Some_in.
        -- apply in_elt.
      * right. exists c. repeat split; try assumption. apply in_elt.
    + destruct (firstIn (lowerKeys row) (map JsString.toLowerCase candidates))
        as [value|] eqn:E'; [|now left].
      right. left. apply firstIn_Some in E' as (name & Hn & Hg).
      apply in_map_iff in Hn as (candidate & <- & Hc).
      apply lowerKeys_Some in Hg as (key & Hin & Hk).
      now exists key, value, candidate.
  - intros candidate Hc Hhas.
    destruct (firstHas row candidates) as [picked|] eqn:E.
    + apply firstHas_Some in E as (before & c & after & Hl & Hb & Hr).
      exists before, c, after. split; [exact Hl|]. split; [exact Hb|].
      destruct Hr as [(value & Hg & ->)|(Hg & Hi & ->)].
      * left. now exists value.
      * now right.
    + exfalso. rewrite firstHas_None in E.
      destruct (E candidate Hc) as [Hg Hi]. destruct Hhas as [H|H].
      * now apply H.
      * rewrite Hi in H. discriminate.
  - intros Hno Hown. rewrite (firstHas_own row candidates Hown).
    destruct (firstIn row candidates) as [value|] eqn:E; cbn [option_map].
    + exfalso. apply firstIn_Some in E as (key & Hk & Hg).
      apply get_Some_in in Hg. apply (Hno key key); [|exact Hk|reflexivity].
      change key with (fst (key, value)). now apply in_map.
    + destruct (firstIn (lowerKeys row) (map JsString.toLowerCase candidates))
        as [value|] eqn:E'; [|reflexivity].
      exfalso. apply firstIn_Some in E' as (name & Hn & Hg).
      apply in_map_iff in Hn as (candidate & <- & Hc).
      apply lowerKeys_Some in Hg as (key & Hin & Hk).
      apply (Hno key candidate); [|exact Hc|exact Hk].
      change key with (fst (key, value)). now apply in_map.
  - intros Hown. rewrite (firstHas_own row candidates Hown). unfold pickField.
    destruct (firstIn row candidates) as [value|]; cbn [option_map];
      [reflexivity|].
    now destruct (firstIn (lowerKeys row) (map JsString.toLowerCase candidates)).
  - vm_compute. reflexivity.
Qed.

(** A header in capitals is found through the lower-case map. *)
Example pickField_capitals :
  pickField [ ("DATE", "2024-01-15"); ("IMPRESSIONS", "12") ]%string
    ["Impressions (total)"; "Impressions"]%string
  = "12"%string.
Proof. vm_compute. reflexivity. Qed.

(** [constructor] is found in every row that has no such header, before
    any later candidate is looked at; a header of that name hides the
    inherited member. *)
Example pickFieldAny_inherited :
  pickFieldAny [ ("A", "1") ]%string ["constructor"; "A"]%string
  = member "constructor"
  /\ pickFieldAny [ ("A", "1"); ("constructor", "c") ]%string
       ["constructor"; "A"]%string
     = cell "c"
  /\ pickFieldAny [ ("A", "1") ]%string ["a"; "toString"]%string
     = member "toString".
Proof. repeat split; vm_compute; reflexivity. Qed.

End PickFieldFacts.

Module RowObjectFacts.
Import JsMap JsMapFacts.

Lemma keys_set_In {V : Type} (m : JsMap.t V) k k' v :
  In k (keys (set k' v m)) <-> k = k' \/ In k (keys m).
Proof.
  destruct (get k' m) as [e|] eqn:E.
  - rewrite (keys_set_present m k' v e E). split; [now right|].
    intros [->|H]; [|exact H].
    apply get_Some_in in E. change k' with (fst (k', e)). now apply in_map.
  - rewrite keys_set_absent by exact E. rewrite in_app_iff. cbn.
    intuition congruence.
Qed.

Lemma combine_append {A B : Type} (l1 l2 : list A) (r1 r2 : list B) :
  List.length l1 = List.length r1 ->
  combine (l1 ++ l2) (r1 ++ r2) = combine l1 r1 ++ combine l2 r2.
Proof.
  revert r1. induction l1 as [|a l1 IH]; intros [|b r1]; cbn;
    try discriminate; [reflexivity|].
  intros [= H]. now rewrite IH.
Qed.

Lemma combine_seq_snoc (hs : list string) (h : string) :
  combine (hs ++ [h]) (seq 0 (List.length (hs ++ [h])))
  = combine hs (seq 0 (List.length hs)) ++ [(h, List.length hs)].
Proof.
  rewrite length_app. cbn [List.length]. rewrite Nat.add_1_r, seq_S.
  rewrite combine_append by now rewrite length_seq. reflexivity.
Qed.

Lemma rowObject_snoc (hs : list string) (h : string) (cells : list string) :
  rowObject (hs ++ [h]) cells
  = if String.eqb h "__proto__" then rowObject hs cells
    else set h (nth (List.length hs) cells EmptyString) (rowObject hs cells).
Proof.
  unfold rowObject. rewrite combine_seq_snoc, fold_left_app. reflexivity.
Qed.

Lemma rowObject_keys (headers cells : list string) (k : string) :
  In k (keys (rowObject headers cells)) -> In k headers.
Proof.
  induction headers as [|h hs IH] using rev_ind; [intros []|].
  rewrite rowObject_snoc, in_app_iff.
  destruct (String.eqb h "__proto__").
  - intros H. left. now apply IH.
  - rewrite keys_set_In. intros [->|H]; [right; now left|left; now apply IH].
Qed.

(** Every header has a cell in the record: the cell at the last position
    of the header in the header line, or the empty string when the line of
    cells is shorter. *)
Lemma rowObject_get (headers cells : list string) (h : string) :
  In h headers -> h <> "__proto__"%string ->
  exists i,
    nth_error headers i = Some h
    /\ (forall j, nth_error headers j = Some h -> (j <= i)%nat)
    /\ get h (rowObject headers cells) = Some (nth i cells EmptyString).
Proof.
  intros Hin Hproto. induction headers as [|h' hs IH] using rev_ind;
    [destruct Hin|].
  rewrite rowObject_snoc.
  destruct (String.eqb_spec h' h) as [->|Hne].
  - exists (List.length hs).
    destruct (String.eqb_spec h "__proto__"); [contradiction|].
    split; [|split].
    + rewrite nth_error_app2, Nat.sub_diag by lia. reflexivity.
    + intros j Hj.
      assert (Hlt : (j < List.length (hs ++ [h]))%nat)
        by (apply nth_error_Some; congruence).
      rewrite length_app in Hlt. cbn in Hlt. lia.
    + apply get_set_same.
  - apply in_app_iff in Hin as [Hin|[E|[]]]; [|congruence].
    destruct (IH Hin) as (i & Hi & Hlast & Hget).
    assert (Hlt : (i < List.length hs)%nat) by (apply nth_error_Some; congruence).
    exists i. split; [|split].
    + now rewrite nth_error_app1.
    + intros j Hj.
      destruct (Nat.lt_ge_cases j (List.length hs)) as [Hj'|Hj'].
      * rewrite nth_error_app1 in Hj by exact Hj'. now apply Hlast.
      * rewrite nth_error_app2 in Hj by exact Hj'.
        destruct (j - List.length hs)%nat as [|n]; cbn in Hj.
        -- congruence.
        -- destruct n; discriminate.
    + destruct (String.eqb h' "__proto__"); [exact Hget|].
      rewrite get_set_other by exact Hne. exact Hget.
Qed.

Lemma findIndex_Some {A : Type} (p : A -> bool) (l : list A) (i : nat) :
  findIndex p l = Some i ->
  exists a, nth_error l i = Some a /\ p a = true
            /\ forall j b, (j < i)%nat -> nth_error l j = Some b -> p b = false.
Proof.
  revert i. induction l as [|a l IH]; intros i; cbn; [discriminate|].
  destruct (p a) eqn:E.
  - intros [= <-]. exists a. repeat split; [exact E|]. intros j b Hj. lia.
  - destruct (findIndex p l) as [n|]; cbn; [|discriminate].
    intros [= <-]. destruct (IH n eq_refl) as (x & Hx & Hp & Hbefore).
    exists x. cbn. repeat split; try assumption.
    intros [|j] b Hj; cbn.
    + now intros [= <-].
    + apply Hbefore. lia.
Qed.

Section Facts.
Variable parseCsv : string -> option (list (list string)).

(** The test that a line holds the header label. *)
Local Abbreviation holdsLabel headerLabel :=
  (fun row : list string =>
     existsb (fun cell =>
                String.eqb (JsString.toLowerCase (JsString.trim cell))
                  (JsString.toLowerCase (JsString.trim headerLabel))) row).

(** X8. When the text parses and [parseCsvWithHeader] returns a header
    list that is not empty, the headers are the trimmed cells of the first
    line that holds the label (trimmed, letter case apart).  In every
    case each record has keys among the headers only and has a cell for
    every header (other than [__proto__]), and there are fewer records
    than lines when there is a record at all. *)
Theorem parseCsvWithHeader_records (csvText headerLabel : string)
  (rawRows : list (list string)) (headers : list string) (rows : list Row) :
  parseCsv csvText = Some rawRows ->
  parseCsvWithHeader parseCsv csvText headerLabel = (headers, rows) ->
  (headers <> [] ->
   exists i line,
     nth_error rawRows i = Some line
     /\ headers = map JsString.trim line
     /\ holdsLabel headerLabel line = true
     /\ forall j before, (j < i)%nat -> nth_error rawRows j = Some before ->
          holdsLabel headerLabel before = false)
  /\ (forall row, In row rows ->
        (forall key, In key (keys row) -> In key headers)
        /\ forall header, In header headers -> header <> "__proto__"%string ->
             exists cell, get header row = Some cell)
  /\ (rows <> [] -> (List.length rows < List.length rawRows)%nat).
Proof.
  intros Hparse. unfold parseCsvWithHeader, parseCsvWithHeader_try.
  rewrite Hparse.
  destruct (findIndex (holdsLabel headerLabel) rawRows) as [i|] eqn:E.
  - intros [= <- <-].
    destruct (findIndex_Some _ _ _ E) as (line & Hline & Hp & Hbefore).
    assert (Hnth : nth i rawRows [] = line) by now apply nth_error_nth.
    split; [|split].
    + intros _. exists i, line. rewrite Hnth. now repeat split.
    + intros row Hrow. apply in_map_iff in Hrow as (cells & <- & _). split.
      * intros key. apply rowObject_keys.
      * intros header Hh Hproto.
        destruct (rowObject_get _ cells header Hh Hproto) as (n & _ & _ & Hg).
        eauto.
    + intros _. rewrite length_map.
      eapply Nat.le_lt_trans; [apply filter_length_le|].
      rewrite length_skipn.
      assert (Hlt : (i < List.length rawRows)%nat)
        by (apply nth_error_Some; congruence).
      lia.
  - intros [= <- <-]. split; [|split].
    + intros H. now contradiction H.
    + intros row [].
    + intros H. now contradiction H.
Qed.
End Facts.

Lemma parseCsvWithHeader_records_witness :
  Sample.threeLines "text"
  = Some [ ["Export of the account"%string];
           [" Date "%string; "Impressions"%string; "Video views"%string];
           ["2024-01-15"%string; "1,200"%string; "0"%string] ]
  /\ forall row,
       In row [ [ ("Date", "2024-01-15"); ("Impressions", "1,200");
                  ("Video views", "0") ]%string ] ->
       (forall key, In key (keys row) ->
          In key ["Date"; "Impressions"; "Video views"]%string)
       /\ forall header,
            In header ["Date"; "Impressions"; "Video views"]%string ->
            header <> "__proto__"%string ->
            exists cell, get header row = Some cell.
Proof.
  split; [reflexivity|].
  exact (proj1 (proj2 (parseCsvWithHeader_records Sample.threeLines "text" "date"
                         _ _ _ eq_refl TableFacts.parseCsvWithHeader_found))).
Defined.

(** Cells beyond the headers are dropped, missing cells are empty, and
    of two columns with one name the last one is kept. *)
Example rowObject_ragged :
  (rowObject ["a"; "b"; "a"]%string ["1"; "2"; "3"; "4"]%string,
   rowObject ["a"; "b"; "c"]%string ["1"]%string)
  = ([("a", "3"); ("b", "2")]%string,
     [("a", "1"); ("b", ""); ("c", "")]%string).
Proof. vm_compute. reflexivity. Qed.

End RowObjectFacts.

Module VideoOverviewFacts.
Import JsMap JsMapFacts PostFacts.

Lemma in_last {A : Type} (q : A) (xs : list A) (y : A) :
  In q (xs ++ [y]) -> In q xs \/ q = y.
Proof.
  intros H. apply in_app_iff in H as [H|[H|[]]]; [now left|now right].
Qed.

Lemma videoNoBetter_refl (a : VideoStat.t) : videoNoBetter a a.
Proof. right. split; [reflexivity|apply Qle_refl]. Qed.

Lemma videoNoBetter_trans (a b c : VideoStat.t) :
  videoNoBetter a b -> videoNoBetter b c -> videoNoBetter a c.
Proof.
  unfold videoNoBetter. intros [H1|[H1 H1']] [H2|[H2 H2']].
  - left. eapply Qlt_trans; eassumption.
  - left. now rewrite <- H2.
  - left. now rewrite H1.
  - right. split; [now rewrite H1|eapply Qle_trans; eassumption].
Qed.

(** The test of the loop fails exactly when the row does not beat the
    stored figures. *)
Lemma video_test_false (stat existing : VideoStat.t) :
  Qgtb (VideoStat.views stat) (VideoStat.views existing)
  || (Qeq_bool (VideoStat.views stat) (VideoStat.views existing)
      && Qgtb (VideoStat.watchTimeMs stat) (VideoStat.watchTimeMs existing))
  = false ->
  videoNoBetter stat existing.
Proof.
  intros H. apply orb_false_iff in H as [Hv H].
  apply Qgtb_false_le in Hv. apply Qle_lt_or_eq in Hv as [Hlt|Heq];
    [now left|right].
  split; [exact Heq|].
  apply Qeq_bool_iff in Heq. rewrite Heq in H. cbn in H.
  now apply Qgtb_false_le.
Qed.

Lemma video_test_true (stat existing : VideoStat.t) :
  Qgtb (VideoStat.views stat) (VideoStat.views existing)
  || (Qeq_bool (VideoStat.views stat) (VideoStat.views existing)
      && Qgtb (VideoStat.watchTimeMs stat) (VideoStat.watchTimeMs existing))
  = true ->
  videoNoBetter existing stat.
Proof.
  intros H. apply orb_true_iff in H as [Hv|H].
  - left. now apply Qgtb_lt.
  - apply andb_true_iff in H as [Heq Hw]. right.
    apply Qeq_bool_iff in Heq. apply Qgtb_lt in Hw.
    split; [now symmetry|now apply Qlt_le_weak].
Qed.

Section Facts.
Variable Date_parse : string -> JsNumber.t.
Variable LocalTZA : Z -> Z.

Local Abbreviation entry := (videoEntry Date_parse LocalTZA).
Local Abbreviation step := (videoStep Date_parse LocalTZA).
Local Abbreviation overview := (videoOverviewByDate Date_parse LocalTZA).

(** What holds of the map after any number of rows. *)
Lemma videoOverview_invariant (rows : list Row) :
  let videoMap := fold_left step rows empty in
  (forall key stored, get key videoMap = Some stored ->
     (exists row, In row rows /\ entry row = Some (key, stored))
     /\ forall row stat, In row rows -> entry row = Some (key, stat) ->
          videoNoBetter stat stored)
  /\ (forall row key stat, In row rows -> entry row = Some (key, stat) ->
        exists stored, get key videoMap = Some stored).
Proof.
  induction rows as [|row rows IH] using rev_ind; cbn zeta.
  - split; [intros key stored; discriminate|intros row key stat []].
  - rewrite fold_left_app. cbn [fold_left].
    set (m := fold_left step rows empty) in *. cbn zeta in IH.
    destruct IH as [IHstored IHall].
    unfold videoStep. destruct (entry row) as [[k s]|] eqn:Erow.
    2:{ split.
        - intros key stored Hget. destruct (IHstored key stored Hget) as [(r & Hr & Er) Hmax].
          split; [exists r; split; [apply in_or_app; now left|exact Er]|].
          intros r' stat Hin Er'. apply in_last in Hin as [Hin| ->];
            [now apply (Hmax r')|congruence].
        - intros r key stat Hin Er. apply in_last in Hin as [Hin| ->];
            [now apply (IHall r key stat)|congruence]. }
    assert (Hkeep :
      forall m', (forall key, key <> k -> get key m' = get key m) ->
      (exists stored, get k m' = Some stored
         /\ (exists r, In r (rows ++ [row]) /\ entry r = Some (k, stored))
         /\ videoNoBetter s stored
         /\ forall r stat, In r rows -> entry r = Some (k, stat) ->
              videoNoBetter stat stored) ->
      (forall key stored, get key m' = Some stored ->
         (exists r, In r (rows ++ [row]) /\ entry r = Some (key, stored))
         /\ forall r stat, In r (rows ++ [row]) -> entry r = Some (key, stat) ->
              videoNoBetter stat stored)
      /\ (forall r key stat, In r (rows ++ [row]) -> entry r = Some (key, stat) ->
            exists stored, get key m' = Some stored)).
    { intros m' Hother (st & Hst & Horigin & Hnew & Hold). split.
      - intros key stored Hget. destruct (String.eqb_spec key k) as [->|Hne].
        + rewrite Hst in Hget. injection Hget as <-. split; [exact Horigin|].
          intros r stat Hin Er. apply in_last in Hin as [Hin| ->].
          * now apply (Hold r).
          * rewrite Erow in Er. now injection Er as <-.
        + rewrite (Hother key Hne) in Hget.
          destruct (IHstored key stored Hget) as [(r & Hr & Er) Hmax].
          split; [exists r; split; [apply in_or_app; now left|exact Er]|].
          intros r' stat Hin Er'. apply in_last in Hin as [Hin| ->];
            [now apply (Hmax r')|].
          rewrite Erow in Er'. injection Er' as -> _. contradiction.
      - intros r key stat Hin Er. destruct (String.eqb_spec key k) as [->|Hne];
          [now exists st|].
        rewrite (Hother key Hne). apply in_last in Hin as [Hin| ->];
          [now apply (IHall r key stat)|].
        rewrite Erow in Er. injection Er as -> _. contradiction. }
    destruct (get k m) as [existing|] eqn:Ek.
    + destruct (IHstored k existing Ek) as [(r0 & Hr0 & Er0) Hmax].
      destruct (_ || _) eqn:Etest.
      * apply Hkeep.
        -- intros key Hne. apply get_set_other. congruence.
        -- exists s. split; [apply get_set_same|]. split; [|split].
           ++ exists row. split; [apply in_or_app; right; now left|exact Erow].
           ++ apply videoNoBetter_refl.
           ++ intros r stat Hin Er.
              eapply videoNoBetter_trans; [now apply (Hmax r)|].
              now apply video_test_true.
      * apply Hkeep; [reflexivity|].
        exists existing. split; [exact Ek|]. split; [|split].
        -- exists r0. split; [apply in_or_app; now left|exact Er0].
        -- now apply video_test_false.
        -- exact Hmax.
    + apply Hkeep.
      * intros key Hne. apply get_set_other. congruence.
      * exists s. split; [apply get_set_same|]. split; [|split].
        -- exists row. split; [apply in_or_app; right; now left|exact Erow].
        -- apply videoNoBetter_refl.
        -- intros r stat Hin Er.
           destruct (IHall r k stat Hin Er) as [st Hst]. congruence.
Qed.

(** X9. The video overview holds, for every day that a row with a
    readable date names, the figures of one of the rows of that day, and
    no row of the day beats them: none has more views, and none with as
    many views has more watch time.  The overview has no other day. *)
Theorem videoOverviewByDate_best (rows : list Row) :
  (forall row key stat, In row rows -> entry row = Some (key, stat) ->
     exists stored, get key (overview rows) = Some stored
                    /\ videoNoBetter stat stored)
  /\ (forall key stored, get key (overview rows) = Some stored ->
        exists row, In row rows /\ entry row = Some (key, stored)).
Proof.
  destruct (videoOverview_invariant rows) as [Hstored Hall]. split.
  - intros row key stat Hin Er.
    destruct (Hall row key stat Hin Er) as [stored Hget].
    exists stored. split; [exact Hget|].
    now apply (proj2 (Hstored key stored Hget) row).
  - intros key stored Hget. exact (proj1 (Hstored key stored Hget)).
Qed.
End Facts.

(** Of two rows of one day with as many views the one with the longer
    watch time is kept, whatever the order; the completion rate is a
    fraction of one. *)
Example videoOverviewByDate_tie :
  let a := [ ("Date", "2024-01-15"); ("Views", "50");
             ("Watch Time (ms)", "90,000"); ("Completion Rate", "50") ]%string in
  let b := [ ("Date", "Jan 15, 2024"); ("Views", "50");
             ("Watch Time (ms)", "70000") ]%string in
  videoOverviewByDate Sample.parseAsJan15 Sample.utc [a; b]
  = [ ("2024-01-15"%string, VideoStat.mk 50 90000 (50 / 100)) ]
  /\ videoOverviewByDate Sample.parseAsJan15 Sample.utc [b; a]
     = [ ("2024-01-15"%string, VideoStat.mk 50 90000 (50 / 100)) ].
Proof. vm_compute. split; reflexivity. Qed.

End VideoOverviewFacts.

Module VideoJoinFacts.
Import JsMap JsMapFacts.

Section Facts.
Variable Date_parse : string -> JsNumber.t.
Variable LocalTZA : Z -> Z.

Local Abbreviation entry := (videoEntry Date_parse LocalTZA).
Local Abbreviation overview := (videoOverviewByDate Date_parse LocalTZA).

(** The three video figures of a daily record come from the entry of
    the overview for the day of the record. *)
Lemma xDailyRow_video videoMap row m :
  xDailyRow Date_parse LocalTZA videoMap row = Some m ->
  match get (toDayKey (DailyMetric.date m)) videoMap with
  | Some v =>
      DailyMetric.videoWatchViews m = VideoStat.views v
      /\ DailyMetric.videoWatchTimeMs m = VideoStat.watchTimeMs v
      /\ DailyMetric.videoCompletionRateSum m
         = (VideoStat.completionRate v * VideoStat.views v)%Q
  | None =>
      DailyMetric.videoWatchViews m = 0%Q
      /\ DailyMetric.videoWatchTimeMs m = 0%Q
      /\ DailyMetric.videoCompletionRateSum m = 0%Q
  end.
Proof.
  unfold xDailyRow.
  destruct (parseXDate _ _ _) as [[date|]|]; try discriminate.
  intros [= <-]. cbn.
  destruct (get (toDayKey date) videoMap); repeat split.
Qed.

(** X10. The daily loader of platform A joins each row with the video
    overview by calendar day.  When the overview rows name the day of
    the record, its watch views, watch time and weighted completion rate
    are those of one overview row of that day that no other row of the
    day beats; when no overview row names the day, the three figures
    are zero. *)
Theorem xDailyRow_joins_overview (videoRows : list Row) (row : Row)
  (m : DailyMetric.t) :
  xDailyRow Date_parse LocalTZA (overview videoRows) row = Some m ->
  let key := toDayKey (DailyMetric.date m) in
  ((forall videoRow stat, In videoRow videoRows ->
      entry videoRow <> Some (key, stat)) ->
   DailyMetric.videoWatchViews m = 0%Q
   /\ DailyMetric.videoWatchTimeMs m = 0%Q
   /\ DailyMetric.videoCompletionRateSum m = 0%Q)
  /\ (forall videoRow stat, In videoRow videoRows ->
        entry videoRow = Some (key, stat) ->
        exists bestRow best,
          In bestRow videoRows /\ entry bestRow = Some (key, best)
          /\ videoNoBetter stat best
          /\ DailyMetric.videoWatchViews m = VideoStat.views best
          /\ DailyMetric.videoWatchTimeMs m = VideoStat.watchTimeMs best
          /\ DailyMetric.videoCompletionRateSum m
             = (VideoStat.completionRate best * VideoStat.views best)%Q).
Proof.
  intros Hrow key. apply xDailyRow_video in Hrow. fold key in Hrow.
  destruct (VideoOverviewFacts.videoOverview_invariant Date_parse LocalTZA
              videoRows) as [Hstored Hall].
  cbn zeta in Hstored, Hall.
  change (fold_left (videoStep Date_parse LocalTZA) videoRows empty)
    with (overview videoRows) in Hstored, Hall.
  split.
  - intros Hnone. destruct (get key (overview videoRows)) as [v|] eqn:E;
      [|exact Hrow].
    destruct (Hstored key v E) as [(r & Hr & Er) _].
    now destruct (Hnone r v Hr).
  - intros videoRow stat Hin Er.
    destruct (Hall videoRow key stat Hin Er) as [best Hbest].
    rewrite Hbest in Hrow.
    destruct (Hstored key best Hbest) as [(r & Hr & Er') Hmax].
    exists r, best. repeat split; try tauto.
    now apply (Hmax videoRow).
Qed.
End Facts.

Lemma xDailyRow_overviewRow :
  xDailyRow Sample.parseAsJan15 Sample.utc
    (videoOverviewByDate Sample.parseAsJan15 Sample.utc
       [MoreSamples.overviewRow])
    Sample.zeroVideoRow
  = Some MoreSamples.joinedMetric.
Proof. vm_compute. reflexivity. Qed.

Lemma videoEntry_overviewRow :
  videoEntry Sample.parseAsJan15 Sample.utc MoreSamples.overviewRow
  = Some (toDayKey (DailyMetric.date MoreSamples.joinedMetric),
          MoreSamples.overviewStat).
Proof. vm_compute. reflexivity. Qed.

Lemma xDailyRow_joins_overview_witness :
  xDailyRow Sample.parseAsJan15 Sample.utc
    (videoOverviewByDate Sample.parseAsJan15 Sample.utc
       [MoreSamples.overviewRow])
    Sample.zeroVideoRow
  = Some MoreSamples.joinedMetric
  /\ exists bestRow best,
       In bestRow [MoreSamples.overviewRow]
       /\ videoEntry Sample.parseAsJan15 Sample.utc bestRow
          = Some (toDayKey (DailyMetric.date MoreSamples.joinedMetric), best)
       /\ videoNoBetter MoreSamples.overviewStat best
       /\ DailyMetric.videoWatchViews MoreSamples.joinedMetric
          = VideoStat.views best
       /\ DailyMetric.videoWatchTimeMs MoreSamples.joinedMetric
          = VideoStat.watchTimeMs best
       /\ DailyMetric.videoCompletionRateSum MoreSamples.joinedMetric
          = (VideoStat.completionRate best * VideoStat.views best)%Q.
Proof.
  split; [exact xDailyRow_overviewRow|].
  exact (proj2 (xDailyRow_joins_overview Sample.parseAsJan15 Sample.utc _ _ _
                  xDailyRow_overviewRow)
           MoreSamples.overviewRow MoreSamples.overviewStat
           (or_introl eq_refl) videoEntry_overviewRow).
Defined.

End VideoJoinFacts.

(* ------------------------------------------------------------------ *)
(** ** The calendar day of a record                                    *)
(* ------------------------------------------------------------------ *)

Module CalendarDayFacts.
Import JsDate JsDateFacts DateParserFacts.

(** [Date.UTC(y, m, d)] of whole numbers, as a date: a midnight, if it
    is a date at all. *)
Lemma Date_UTC_midnight (y m d time : Z) :
  DateObject.ofNumber
    (Date_UTC (JsNumber.of_Z y) (JsNumber.of_Z m) (JsNumber.of_Z d)
       (JsNumber.of_Z 0) (JsNumber.of_Z 0))
  = DateObject.at_ time ->
  time = MakeDay (if (0 <=? y) && (y <=? 99) then 1900 + y else y) m d
         * msPerDay.
Proof.
  unfold Date_UTC, JsNumber.of_Z. rewrite !truncate_inject_Z.
  change (MakeTime 0 0 0 0) with 0. unfold MakeDate. rewrite Z.add_0_r.
  set (day := MakeDay _ m d). unfold TimeClip.
  destruct (Z.leb_spec (Z.abs (day * msPerDay)) 8640000000000000) as [Hr|Hr];
    [|discriminate].
  rewrite (ofNumber_whole _ (day * msPerDay)) by (try reflexivity; exact Hr).
  now intros [= <-].
Qed.

(** [Date.UTC] of the calendar fields of an instant outside the years
    0 to 99 is the midnight that starts the day of the instant. *)
Lemma Date_UTC_fields (t time : Z) :
  ~ (0 <= YearFromTime t <= 99) ->
  DateObject.ofNumber
    (Date_UTC (JsNumber.of_Z (YearFromTime t)) (JsNumber.of_Z (MonthFromTime t))
       (JsNumber.of_Z (DateFromTime t)) (JsNumber.of_Z 0) (JsNumber.of_Z 0))
  = DateObject.at_ time ->
  time = Day t * msPerDay.
Proof.
  intros Hy H. apply Date_UTC_midnight in H.
  destruct (Z.leb_spec 0 (YearFromTime t)), (Z.leb_spec (YearFromTime t) 99);
    cbn [andb] in H; try lia; now rewrite MakeDay_fields in H.
Qed.

Lemma Some_inj {A : Type} (a b : A) : Some a = Some b -> a = b.
Proof. now intros [= ->]. Qed.

Lemma midnight_mod (day : Z) : (day * msPerDay) mod msPerDay = 0.
Proof. apply Z.mod_mul. discriminate. Qed.

Lemma midnight_Day (day : Z) : Day (day * msPerDay) = day.
Proof. unfold Day. apply Z.div_mul. discriminate. Qed.

Section Facts.
Variable Date_parse : string -> JsNumber.t.
Variable LocalTZA : Z -> Z.

(** X11. A date that [parseXDate] returns is a UTC midnight, and the
    text was read by the engine as some instant.  When the local year of
    that instant is not one of the years 0 to 99, the date is the UTC
    midnight of the local calendar day of the instant: it has the same
    day key. *)
Theorem parseXDate_midnight (raw : string) (date : Z) :
  parseXDate Date_parse LocalTZA raw = Some (DateObject.at_ date) ->
  date mod msPerDay = 0
  /\ exists time,
       DateObject.ofNumber (Date_parse raw) = DateObject.at_ time
       /\ (~ (0 <= YearFromTime (time + LocalTZA time) <= 99) ->
           date = Day (time + LocalTZA time) * msPerDay
           /\ toDayKey date = toDayKey (time + LocalTZA time)).
Proof.
  unfold parseXDate. destruct (String.eqb raw ""); [discriminate|].
  destruct (DateObject.ofNumber (Date_parse raw)) as [time|]; [|discriminate].
  intros H. apply Some_inj in H. split.
  - apply Date_UTC_midnight in H. rewrite H. apply midnight_mod.
  - exists time. split; [reflexivity|]. intros Hy.
    apply Date_UTC_fields in H; [|exact Hy]. split; [exact H|].
    apply KeyFacts.toDayKey_Day. rewrite H. apply midnight_Day.
Qed.

(** X12. A date that [parseLinkedInDate] returns is a UTC midnight, and
    [parseLinkedInDateTime] reads an instant from the same value.  When
    the UTC year of that instant is not one of the years 0 to 99, the
    date is the midnight that starts the UTC day of the instant. *)
Theorem parseLinkedInDate_midnight (raw : unknown) (date : Z) :
  parseLinkedInDate Date_parse raw = Some (DateObject.at_ date) ->
  date mod msPerDay = 0
  /\ exists dateTime,
       parseLinkedInDateTime Date_parse raw = Some (DateObject.at_ dateTime)
       /\ (~ (0 <= YearFromTime dateTime <= 99) ->
           date = Day dateTime * msPerDay
           /\ toDayKey date = toDayKey dateTime).
Proof.
  unfold parseLinkedInDate.
  destruct (parseLinkedInDateTime Date_parse raw) as [[dateTime|]|];
    try discriminate.
  cbn [utcField]. intros H. apply Some_inj in H. split.
  - apply Date_UTC_midnight in H. rewrite H. apply midnight_mod.
  - exists dateTime. split; [reflexivity|]. intros Hy.
    apply Date_UTC_fields in H; [|exact Hy]. split; [exact H|].
    apply KeyFacts.toDayKey_Day. rewrite H. apply midnight_Day.
Qed.
End Facts.

Lemma parseXDate_afternoon :
  parseXDate (fun _ => JsNumber.of_Z (Sample.jan15 + 55800000)) Sample.utc
    "2024-01-15T15:30:00Z"
  = Some (DateObject.at_ Sample.jan15).
Proof. vm_compute. reflexivity. Qed.

Lemma parseXDate_midnight_witness :
  parseXDate (fun _ => JsNumber.of_Z (Sample.jan15 + 55800000)) Sample.utc
    "2024-01-15T15:30:00Z"
  = Some (DateObject.at_ Sample.jan15)
  /\ Sample.jan15 mod msPerDay = 0.
Proof.
  split; [exact parseXDate_afternoon|].
  exact (proj1 (parseXDate_midnight _ _ _ _ parseXDate_afternoon)).
Defined.

Lemma parseLinkedInDate_afternoon :
  parseLinkedInDate Sample.parseNothing (U_string "1/15/2024 3:30 PM")
  = Some (DateObject.at_ Sample.jan15).
Proof. vm_compute. reflexivity. Qed.

Lemma parseLinkedInDate_midnight_witness :
  parseLinkedInDate Sample.parseNothing (U_string "1/15/2024 3:30 PM")
  = Some (DateObject.at_ Sample.jan15)
  /\ Sample.jan15 mod msPerDay = 0.
Proof.
  split; [exact parseLinkedInDate_afternoon|].
  exact (proj1 (parseLinkedInDate_midnight _ _ _ parseLinkedInDate_afternoon)).
Defined.

(** A date in one of the years 0 to 99 is moved by 1900 years: the
    29th of February of the year 4 becomes the 29th of February 1904,
    and an [Invalid Date] stays one. *)
Example parseLinkedInDate_early_year :
  (parseLinkedInDate Sample.parseNothing (U_Date (DateObject.at_ (-62035891200000))),
   toISOString (-62035891200000),
   parseLinkedInDate Sample.parseNothing (U_Date DateObject.Invalid))
  = (Some (DateObject.at_ (-2077747200000)),
     "0004-02-29T00:00:00.000Z"%string,
     Some DateObject.Invalid)
  /\ toISOString (-2077747200000) = "1904-02-29T00:00:00.000Z"%string.
Proof. vm_compute. split; reflexivity. Qed.

End CalendarDayFacts.

(* ------------------------------------------------------------------ *)
(** ** The missing days of a merged series                             *)
(* ------------------------------------------------------------------ *)

Module MissingDaysFacts.
Import JsDate JsDateFacts SortFacts KeyFacts MergeFacts MergeMoreFacts
  DataQualityFacts.

Lemma daysFrom_app (n m : nat) : forall a,
  daysFrom a (n + m) = daysFrom a n ++ daysFrom (a + Z.of_nat n) m.
Proof.
  induction n as [|n IH]; intros a.
  - cbn. now rewrite Z.add_0_r.
  - cbn [Nat.add daysFrom app]. rewrite IH. do 3 f_equal. lia.
Qed.

Lemma daysFrom_length (n : nat) : forall a, List.length (daysFrom a n) = n.
Proof. induction n as [|n IH]; intros a; cbn; [reflexivity|now rewrite IH]. Qed.

Lemma daysFrom_In (n : nat) : forall a d,
  In d (daysFrom a n) <-> a <= d < a + Z.of_nat n.
Proof.
  induction n as [|n IH]; intros a d; cbn [daysFrom In].
  - cbn. lia.
  - rewrite IH. lia.
Qed.

Lemma daysFromTo_split (a c b : Z) :
  a <= c <= b + 1 ->
  daysFromTo a b = daysFromTo a (c - 1) ++ daysFromTo c b.
Proof.
  intros H. unfold daysFromTo.
  replace (Z.to_nat (b - a + 1))
    with (Z.to_nat (c - 1 - a + 1) + Z.to_nat (b - c + 1))%nat by lia.
  rewrite daysFrom_app. do 2 f_equal. lia.
Qed.

Lemma notCovered_cons (x : Z) (days : list Z) (d : Z) :
  d <> x -> notCovered (x :: days) d = notCovered days d.
Proof.
  intros H. unfold notCovered. cbn.
  destruct (Z.eqb_spec d x); [contradiction|reflexivity].
Qed.

Lemma notCovered_above (days : list Z) (d : Z) :
  Forall (fun x => d < x) days -> notCovered days d = true.
Proof.
  induction 1 as [|x days Hx _ IH]; [reflexivity|].
  rewrite notCovered_cons by lia. exact IH.
Qed.

Lemma filter_all {A : Type} (p : A -> bool) (l : list A) :
  (forall x, In x l -> p x = true) -> filter p l = l.
Proof.
  induction l as [|x l IH]; intros H; cbn; [reflexivity|].
  rewrite (H x) by now left. f_equal. apply IH. intros; apply H; now right.
Qed.

Lemma last_default {A : Type} (l : list A) (x d d' : A) :
  last (x :: l) d = last (x :: l) d'.
Proof.
  revert x. induction l as [|y l IH]; intros x; [reflexivity|].
  change (last (y :: l) d = last (y :: l) d'). apply IH.
Qed.

Lemma last_ge (l : list Z) : forall a,
  StronglySorted Z.lt (a :: l) -> a <= last (a :: l) a.
Proof.
  induction l as [|x l IH]; intros a Hs; [cbn; lia|].
  inversion Hs as [|? ? Hs' Hall]; subst.
  change (a <= last (x :: l) a). rewrite (last_default l x a x).
  specialize (IH x Hs'). inversion Hall; subst. lia.
Qed.

(** Between the first and the last of a strictly increasing list of day
    numbers, the days that are not in the list make up the rest of the
    span. *)
Lemma uncovered_count (l : list Z) : forall a,
  StronglySorted Z.lt (a :: l) ->
  Z.of_nat (List.length (filter (notCovered (a :: l))
                           (daysFromTo a (last (a :: l) a))))
  = last (a :: l) a - a + 1 - Z.of_nat (List.length (a :: l)).
Proof.
  induction l as [|x l IH]; intros a Hs.
  - cbn [last]. unfold daysFromTo.
    replace (Z.to_nat (a - a + 1)) with 1%nat by lia.
    cbn. unfold notCovered. cbn. rewrite Z.eqb_refl. cbn. lia.
  - inversion Hs as [|? ? Hs' Hall]; subst.
    assert (Hax : a < x) by now inversion Hall.
    pose proof (last_ge l x Hs') as Hlast.
    change (last (a :: x :: l) a) with (last (x :: l) a).
    rewrite (last_default l x a x).
    pose proof (IH x Hs') as IHx.
    set (b := last (x :: l) x) in *.
    rewrite (daysFromTo_split a x b) by lia.
    rewrite filter_app, length_app, Nat2Z.inj_add.
    assert (E2 : filter (notCovered (a :: x :: l)) (daysFromTo x b)
                 = filter (notCovered (x :: l)) (daysFromTo x b)).
    { apply filter_ext_in. intros d Hd. apply daysFrom_In in Hd.
      apply notCovered_cons. lia. }
    rewrite E2, IHx.
    assert (E1 : filter (notCovered (a :: x :: l)) (daysFromTo a (x - 1))
                 = daysFrom (a + 1) (Z.to_nat (x - 1 - a))).
    { unfold daysFromTo.
      replace (Z.to_nat (x - 1 - a + 1)) with (S (Z.to_nat (x - 1 - a))) by lia.
      cbn [daysFrom filter]. unfold notCovered at 1. cbn [existsb].
      rewrite Z.eqb_refl. cbn [orb negb].
      apply filter_all. intros d Hd. apply daysFrom_In in Hd.
      rewrite notCovered_cons by lia. apply notCovered_above.
      constructor; [lia|].
      inversion Hs' as [|? ? _ Hall']; subst.
      eapply Forall_impl; [|exact Hall']. cbn. intros; lia. }
    rewrite E1, daysFrom_length. cbn [List.length]. lia.
Qed.

Lemma StronglySorted_weaken {A : Type} (R R' : A -> A -> Prop) (l : list A) :
  (forall a b, In a l -> In b l -> R a b -> R' a b) ->
  StronglySorted R l -> StronglySorted R' l.
Proof.
  intros H Hs. induction Hs as [|a l Hs IH Hall]; constructor.
  - apply IH. intros x y Hx Hy. apply H; now right.
  - rewrite Forall_forall in *. intros b Hb.
    apply H; [now left|now right|now apply Hall].
Qed.

Lemma StronglySorted_map {A B : Type} (f : A -> B) (R : B -> B -> Prop)
  (l : list A) :
  StronglySorted (fun a b => R (f a) (f b)) l -> StronglySorted R (map f l).
Proof.
  induction 1 as [|a l Hs IH Hall]; cbn; constructor; [exact IH|].
  rewrite Forall_forall in *. intros b Hb.
  apply in_map_iff in Hb as (x & <- & Hx). now apply Hall.
Qed.

Lemma StronglySorted_last {A : Type} (R : A -> A -> Prop) (l : list A) :
  forall a, StronglySorted R (a :: l) ->
  forall x, In x (a :: l) -> x = last (a :: l) a \/ R x (last (a :: l) a).
Proof.
  induction l as [|y l IH]; intros a Hs x Hx.
  - destruct Hx as [<-|[]]. now left.
  - inversion Hs as [|? ? Hs' Hall]; subst.
    change (last (a :: y :: l) a) with (last (y :: l) a).
    rewrite (last_default l y a y).
    assert (Hlast : In (last (y :: l) y) (y :: l)).
    { clear. revert y. induction l as [|z l IH]; intros y; [now left|].
      change (last (y :: z :: l) y) with (last (z :: l) y).
      rewrite (last_default l z y z). right. apply IH. }
    destruct Hx as [<-|Hx].
    + right. rewrite Forall_forall in Hall. now apply Hall.
    + now apply IH.
Qed.

Lemma last_map {A B : Type} (f : A -> B) (l : list A) (a : A) :
  last (map f (a :: l)) (f a) = f (last (a :: l) a).
Proof.
  revert a. induction l as [|y l IH]; intros a; [reflexivity|].
  change (last (map f (y :: l)) (f a) = f (last (y :: l) a)).
  rewrite (last_default l y a y).
  change (map f (y :: l)) with (f y :: map f l).
  rewrite (last_default (map f l) (f y) (f a) (f y)). apply IH.
Qed.

(** The records of a merged series of one platform are in the order of
    their days, one day apart at least. *)
Lemma merged_days_increasing (platform : Platform.t)
  (metrics : list DailyMetric.t) :
  Forall (fun m => DailyMetric.source m = platform) metrics ->
  StronglySorted
    (fun a b => Day (DailyMetric.date a) < Day (DailyMetric.date b))
    (mergeDailyMetrics metrics)
  /\ Forall (fun m => DailyMetric.source m = platform)
       (mergeDailyMetrics metrics).
Proof.
  intros Hsrc.
  assert (Hsrc' : Forall (fun m => DailyMetric.source m = platform)
                    (mergeDailyMetrics metrics)).
  { apply Forall_forall. intros r Hr.
    destruct (merged_origin metrics r Hr) as (x & xs & Hx & _ & ->).
    rewrite (proj1 (source_fold_mergeFields xs x)).
    rewrite Forall_forall in Hsrc. now apply Hsrc. }
  split; [|exact Hsrc'].
  pose proof (mergeDailyMetrics_NoDup metrics) as Hnd.
  assert (Hs : StronglySorted (cmp_le byDate) (mergeDailyMetrics metrics)).
  { apply Sorted_StronglySorted; [|apply mergeDailyMetrics_sorted].
    intros a b c. unfold cmp_le, byDate. lia. }
  induction Hs as [|a l Hs IH Hall]; constructor.
  - apply IH.
    + now inversion Hsrc'.
    + now inversion Hnd.
  - inversion Hnd as [|? ? Hnotin _]; subst.
    inversion Hsrc' as [|? ? Ha Hl]; subst.
    rewrite Forall_forall in *. intros b Hb.
    specialize (Hall b Hb). unfold cmp_le, byDate in Hall.
    assert (Hle : Day (DailyMetric.date a) <= Day (DailyMetric.date b))
      by (apply Day_mono; lia).
    destruct (Z.eq_dec (Day (DailyMetric.date a)) (Day (DailyMetric.date b)))
      as [E|]; [|lia].
    exfalso. apply Hnotin.
    replace (mergeKey a) with (mergeKey b).
    + now apply in_map.
    + symmetry. apply mergeKey_sameDay. unfold sameDay.
      rewrite (Hl b Hb). rewrite E, Z.eqb_refl.
      now destruct (DailyMetric.source a).
Qed.

Lemma merged_wholeDay (metrics : list DailyMetric.t) :
  Forall wholeDay metrics -> Forall wholeDay (mergeDailyMetrics metrics).
Proof.
  intros Hall. apply Forall_forall. intros r Hr.
  destruct (merged_origin metrics r Hr) as (x & xs & Hx & _ & ->).
  unfold wholeDay. rewrite (proj2 (source_fold_mergeFields xs x)).
  rewrite Forall_forall in Hall. now apply Hall.
Qed.

Lemma merged_nonempty (metrics : list DailyMetric.t) :
  metrics <> [] -> mergeDailyMetrics metrics <> [].
Proof.
  destruct metrics as [|m rest]; [contradiction|]. intros _ Hnil.
  destruct (merged_group (m :: rest) m (or_introl eq_refl))
    as (x & xs & _ & H).
  rewrite Hnil in H. discriminate.
Qed.

(** The missing day count of a series of calendar days. *)
Lemma missingDays_wholeDay (label : string) (daily : list DailyMetric.t) :
  daily <> [] -> Forall wholeDay daily ->
  exists start end_,
    earliest start daily /\ latest end_ daily
    /\ DataQualitySummary.missingDays (buildDataQuality label daily)
       = Some (Z.max (Day end_ - Day start + 1 - Z.of_nat (List.length daily)) 0).
Proof.
  intros Hne Hall.
  destruct (buildCoverage_nonempty daily Hne) as (s & e & Hs & He & Hcov).
  exists s, e. split; [exact Hs|split; [exact He|]].
  pose proof (wholeDay_span s e daily Hall Hs He) as Hspan.
  unfold buildDataQuality. rewrite Hcov.
  cbn [Coverage.start Coverage.end_ Coverage.days
       DataQualitySummary.missingDays].
  change (24 * 60 * 60 * 1000) with msPerDay.
  rewrite Hspan at 1.
  rewrite Math_round_exact by (unfold msPerDay; lia).
  do 3 f_equal.
  assert (H : forall t, In t (map DailyMetric.date daily) -> t mod msPerDay = 0).
  { intros t Ht. apply in_map_iff in Ht as (m & <- & Hm).
    rewrite Forall_forall in Hall. now apply Hall. }
  destruct Hs as [Hs _], He as [He _]. apply H in Hs, He.
  unfold Day, msPerDay in *. Z.div_mod_to_equations. lia.
Qed.

(** X13. For the merged series of one platform whose records are dated
    at UTC midnights (the series of each daily loader), the records are
    in the order of their days and at least one day apart, and the
    missing day count of [buildDataQuality] is exactly the number of UTC
    days from the first to the last day of the series that have no
    record. *)
Theorem buildDataQuality_merged_missing (label : string)
  (platform : Platform.t) (metrics : list DailyMetric.t) :
  metrics <> [] ->
  Forall wholeDay metrics ->
  Forall (fun m => DailyMetric.source m = platform) metrics ->
  let daily := mergeDailyMetrics metrics in
  StronglySorted
    (fun a b => DailyMetric.date a + msPerDay <= DailyMetric.date b) daily
  /\ exists start end_,
       earliest start daily /\ latest end_ daily
       /\ DataQualitySummary.missingDays (buildDataQuality label daily)
          = Some (Z.of_nat (List.length (uncoveredDays start end_ daily))).
Proof.
  intros Hne Hwhole Hsrc daily.
  destruct (merged_days_increasing platform metrics Hsrc) as [Hdays _].
  pose proof (merged_wholeDay metrics Hwhole) as Hwhole'.
  pose proof (merged_nonempty metrics Hne) as Hne'.
  fold daily in Hdays, Hwhole', Hne'. split.
  - eapply StronglySorted_weaken; [|exact Hdays]. cbn beta.
    intros a b Ha Hb Hlt. rewrite Forall_forall in Hwhole'.
    pose proof (Hwhole' a Ha) as Wa. pose proof (Hwhole' b Hb) as Wb.
    unfold wholeDay, Day, msPerDay in *. Z.div_mod_to_equations. lia.
  - destruct (missingDays_wholeDay label daily Hne' Hwhole')
      as (s & e & Hs & He & Hmiss).
    exists s, e. split; [exact Hs|split; [exact He|]].
    rewrite Hmiss. f_equal.
    destruct daily as [|m0 rest] eqn:Ed; [contradiction|].
    assert (Hsd : Day s = Day (DailyMetric.date m0)).
    { destruct Hs as [Hin Hmin].
      apply in_map_iff in Hin as (m & <- & Hm).
      inversion Hmin as [|? ? H0 _]; subst.
      inversion Hdays as [|? ? _ Hall]; subst.
      destruct Hm as [<-|Hm]; [reflexivity|].
      rewrite Forall_forall in Hall. specialize (Hall m Hm).
      pose proof (Day_mono _ _ H0). lia. }
    assert (Hed : Day e = Day (DailyMetric.date (last (m0 :: rest) m0))).
    { destruct He as [Hin Hmax].
      apply in_map_iff in Hin as (m & <- & Hm).
      destruct (StronglySorted_last _ rest m0 Hdays m Hm) as [->|Hlt];
        [reflexivity|].
      assert (Hlast : In (last (m0 :: rest) m0) (m0 :: rest)).
      { destruct (StronglySorted_last _ rest m0 Hdays m0 (or_introl eq_refl))
          as [E|_]; [rewrite <- E; now left|].
        clear. revert m0. induction rest as [|z l IH]; intros y; [now left|].
        change (last (y :: z :: l) y) with (last (z :: l) y).
        rewrite (last_default l z y z). right. apply IH. }
      rewrite Forall_forall in Hmax. specialize (Hmax _ Hlast).
      pose proof (Day_mono _ _ Hmax). lia. }
    unfold uncoveredDays. rewrite Hsd, Hed.
    change (recordDays (m0 :: rest))
      with (Day (DailyMetric.date m0) :: recordDays rest).
    pose proof (StronglySorted_map
                  (fun m => Day (DailyMetric.date m)) Z.lt _ Hdays) as Hds.
    change (map (fun m => Day (DailyMetric.date m)) (m0 :: rest))
      with (Day (DailyMetric.date m0) :: recordDays rest) in Hds.
    pose proof (uncovered_count _ _ Hds) as Hcount.
    pose proof (last_map (fun m => Day (DailyMetric.date m)) rest m0) as Hlm.
    change (map (fun m => Day (DailyMetric.date m)) (m0 :: rest))
      with (Day (DailyMetric.date m0) :: recordDays rest) in Hlm.
    rewrite Hlm in Hcount. rewrite Hcount.
    cbn [List.length]. unfold recordDays. rewrite length_map.
    pose proof (Nat2Z.is_nonneg
                  (List.length (filter
                     (notCovered (Day (DailyMetric.date m0)
                                  :: map (fun m => Day (DailyMetric.date m)) rest))
                     (daysFromTo (Day (DailyMetric.date m0))
                        (Day (DailyMetric.date (last (m0 :: rest) m0))))))).
    unfold recordDays in Hcount. rewrite Hcount in H.
    cbn [List.length] in H. rewrite length_map in H. lia.
Qed.

Lemma buildDataQuality_merged_missing_witness :
  let daily := mergeDailyMetrics Sample.nineOfTen in
  (Sample.nineOfTen <> []
   /\ Forall wholeDay Sample.nineOfTen
   /\ Forall (fun m => DailyMetric.source m = Platform.x) Sample.nineOfTen)
  /\ exists start end_,
       earliest start daily /\ latest end_ daily
       /\ DataQualitySummary.missingDays (buildDataQuality "X" daily)
          = Some (Z.of_nat (List.length (uncoveredDays start end_ daily))).
Proof.
  assert (H1 : Sample.nineOfTen <> []) by discriminate.
  assert (H2 : Forall wholeDay Sample.nineOfTen)
    by (repeat constructor).
  assert (H3 : Forall (fun m => DailyMetric.source m = Platform.x)
                 Sample.nineOfTen) by (repeat constructor).
  split; [now repeat split|].
  exact (proj2 (buildDataQuality_merged_missing "X" Platform.x
                  Sample.nineOfTen H1 H2 H3)).
Defined.

End MissingDaysFacts.

(* ------------------------------------------------------------------ *)
(** ** Rankings                                                        *)
(* ------------------------------------------------------------------ *)

Module RankingFacts.
Import SortFacts.

Lemma Qsign_minus_nonpos (a b : Q) : Qsign (b - a) <= 0 <-> (b <= a)%Q.
Proof.
  unfold Qsign, Qle, Qminus, Qplus, Qopp. cbn [Qnum Qden].
  destruct (Qnum b * QDen a + - Qnum a * QDen b) eqn:E; cbn [Z.sgn]; lia.
Qed.

Lemma Qsign_minus_pos (a b : Q) : 0 < Qsign (b - a) <-> (a < b)%Q.
Proof.
  unfold Qsign, Qlt, Qminus, Qplus, Qopp. cbn [Qnum Qden].
  destruct (Qnum b * QDen a + - Qnum a * QDen b) eqn:E; cbn [Z.sgn]; lia.
Qed.

Section Top.
Context {A : Type} (cmp : A -> A -> Z).
Hypothesis cmp_anti : forall a b, 0 < cmp a b -> cmp b a <= 0.
Hypothesis cmp_trans : forall a b c, cmp a b <= 0 -> cmp b c <= 0 -> cmp a c <= 0.

(** The first [n] of a sorted array and the rest of it: together they
    are the array, the first [n] are in order, and each of them may stand
    before each of the rest. *)
Lemma top_of_sorted (n : nat) (l : list A) :
  let top := firstn n (sortBy cmp l) in
  let rest := skipn n (sortBy cmp l) in
  Permutation (top ++ rest) l
  /\ List.length top = Nat.min n (List.length l)
  /\ StronglySorted (cmp_le cmp) top
  /\ forall a b, In a top -> In b rest -> cmp a b <= 0.
Proof.
  cbn zeta. split; [|split; [|split]].
  - rewrite firstn_skipn. apply sortBy_perm.
  - rewrite length_firstn. f_equal. apply Permutation_length, sortBy_perm.
  - assert (Hs : StronglySorted (cmp_le cmp) (sortBy cmp l)).
    { apply Sorted_StronglySorted; [|now apply sortBy_sorted].
      intros a b c. apply cmp_trans. }
    rewrite <- (firstn_skipn n (sortBy cmp l)) in Hs.
    revert Hs. generalize (firstn n (sortBy cmp l)) as top.
    induction top as [|a top IH]; cbn; intros Hs; [constructor|].
    inversion Hs as [|? ? Hs' Hall]; subst. constructor; [now apply IH|].
    apply Forall_app in Hall. tauto.
  - assert (Hs : StronglySorted (cmp_le cmp) (sortBy cmp l)).
    { apply Sorted_StronglySorted; [|now apply sortBy_sorted].
      intros a b c. apply cmp_trans. }
    rewrite <- (firstn_skipn n (sortBy cmp l)) in Hs.
    revert Hs. generalize (skipn n (sortBy cmp l)) as rest.
    generalize (firstn n (sortBy cmp l)) as top.
    induction top as [|x top IH]; cbn; intros rest Hs a b Ha Hb; [destruct Ha|].
    inversion Hs as [|? ? Hs' Hall]; subst.
    destruct Ha as [<-|Ha].
    + rewrite Forall_forall in Hall. apply Hall. apply in_or_app. now right.
    + now apply (IH rest Hs').
Qed.
End Top.

Lemma NoDup_map_app_l {A B : Type} (f : A -> B) (l l' : list A) :
  NoDup (map f (l ++ l')) -> NoDup (map f l).
Proof. rewrite map_app. apply NoDup_app_remove_r. Qed.

(** The deduplicated posts have distinct identity keys. *)
Lemma xUniquePosts_NoDup (posts : list XPostSummary.t) :
  NoDup (map xPostKey (xUniquePosts posts)).
Proof.
  rewrite PostFacts.xUniquePosts_fold, (MergeFacts.values_keys xPostKey).
  - apply GroupFoldFacts.NoDup_keys_fold. constructor.
  - intros k v.
    apply (GroupFoldFacts.key_of_entry xPostKey (fun p => p) xChoose xPostKey
             (fun x => eq_refl) (fun e x => PostFacts.xChoose_key e x)).
Qed.

Lemma linkedInUniquePosts_NoDup (rawPosts : list LinkedInPostRecord.t) :
  NoDup (map linkedInPostKey (linkedInUniquePosts rawPosts)).
Proof.
  rewrite PostFacts.linkedInUniquePosts_fold,
    (MergeFacts.values_keys linkedInPostKey).
  - apply GroupFoldFacts.NoDup_keys_fold. constructor.
  - intros k v.
    apply (GroupFoldFacts.key_of_entry linkedInPostKey (fun p => p)
             linkedInChoose linkedInPostKey (fun x => eq_refl)
             (fun e x => PostFacts.linkedInChoose_key e x)).
Qed.

Lemma byImpressions_le (a b : XPostSummary.t) :
  byImpressions a b <= 0
  <-> (XPostSummary.impressions b <= XPostSummary.impressions a)%Q.
Proof. apply Qsign_minus_nonpos. Qed.

Lemma byImpressions_anti (a b : XPostSummary.t) :
  0 < byImpressions a b -> byImpressions b a <= 0.
Proof.
  unfold byImpressions. rewrite Qsign_minus_pos, Qsign_minus_nonpos.
  apply Qlt_le_weak.
Qed.

Lemma byImpressions_trans (a b c : XPostSummary.t) :
  byImpressions a b <= 0 -> byImpressions b c <= 0 -> byImpressions a c <= 0.
Proof.
  rewrite !byImpressions_le. intros H1 H2. eapply Qle_trans; eassumption.
Qed.

Lemma byImpressionsThenViews_le (a b : LinkedInPostRecord.t) :
  byImpressionsThenViews a b <= 0 <-> ranksNoLower a b.
Proof.
  unfold byImpressionsThenViews, ranksNoLower.
  destruct (Qeq_bool _ _) eqn:E; cbn [negb].
  - apply Qeq_bool_iff in E. rewrite Qsign_minus_nonpos. split.
    + intros H. right. now split.
    + intros [H|[_ H]]; [|exact H]. rewrite E in H.
      now apply Qlt_irrefl in H.
  - apply Qeq_bool_neq in E. rewrite Qsign_minus_nonpos. split.
    + intros H. left. apply Qle_lt_or_eq in H as [H|H]; [exact H|contradiction].
    + intros [H|[H _]]; [now apply Qlt_le_weak|contradiction].
Qed.

Lemma ranksNoLower_trans (a b c : LinkedInPostRecord.t) :
  ranksNoLower a b -> ranksNoLower b c -> ranksNoLower a c.
Proof.
  unfold ranksNoLower. intros [H1|[H1 H1']] [H2|[H2 H2']].
  - left. eapply Qlt_trans; eassumption.
  - left. now rewrite H2.
  - left. now rewrite <- H1.
  - right. split; [now rewrite H2|eapply Qle_trans; eassumption].
Qed.

Lemma ranksNoLower_total (a b : LinkedInPostRecord.t) :
  ranksNoLower a b \/ ranksNoLower b a.
Proof.
  unfold ranksNoLower.
  destruct (Q_dec (LinkedInPostRecord.impressions a)
              (LinkedInPostRecord.impressions b)) as [[H|H]|H].
  - right. now left.
  - left. now left.
  - destruct (Qlt_le_dec (LinkedInPostRecord.views a)
                (LinkedInPostRecord.views b)) as [Hv|Hv].
    + right. right. split; [exact H|now apply Qlt_le_weak].
    + left. right. split; [now symmetry|exact Hv].
Qed.

Lemma byImpressionsThenViews_anti (a b : LinkedInPostRecord.t) :
  0 < byImpressionsThenViews a b -> byImpressionsThenViews b a <= 0.
Proof.
  intros H. apply byImpressionsThenViews_le.
  destruct (ranksNoLower_total a b) as [Hab|Hba]; [|exact Hba].
  apply byImpressionsThenViews_le in Hab. lia.
Qed.

Lemma byImpressionsThenViews_trans (a b c : LinkedInPostRecord.t) :
  byImpressionsThenViews a b <= 0 -> byImpressionsThenViews b c <= 0 ->
  byImpressionsThenViews a c <= 0.
Proof. rewrite !byImpressionsThenViews_le. apply ranksNoLower_trans. Qed.

Lemma byEngagementRate_le (a b : LinkedInPostRecord.t) :
  byEngagementRate a b <= 0 <-> (rateOrZero b <= rateOrZero a)%Q.
Proof. apply Qsign_minus_nonpos. Qed.

Lemma byEngagementRate_anti (a b : LinkedInPostRecord.t) :
  0 < byEngagementRate a b -> byEngagementRate b a <= 0.
Proof.
  unfold byEngagementRate. rewrite Qsign_minus_pos, Qsign_minus_nonpos.
  apply Qlt_le_weak.
Qed.

Lemma byEngagementRate_trans (a b c : LinkedInPostRecord.t) :
  byEngagementRate a b <= 0 -> byEngagementRate b c <= 0 ->
  byEngagementRate a c <= 0.
Proof.
  rewrite !byEngagementRate_le. intros H1 H2. eapply Qle_trans; eassumption.
Qed.

(** X14. The top posts of platform A are the first five of the
    deduplicated posts in descending order of impressions: there are five
    of them, or all posts when there are fewer, they are in descending
    order, no two of them have the same identity key (the same link), and
    together with the posts left out they are the deduplicated posts,
    none of the posts left out having more impressions than a top
    post. *)
Theorem xTopPosts_spec (posts : list XPostSummary.t) :
  let top := xTopPosts posts in
  List.length top = Nat.min 5 (List.length (xUniquePosts posts))
  /\ StronglySorted
       (fun a b => (XPostSummary.impressions b <= XPostSummary.impressions a)%Q)
       top
  /\ NoDup (map xPostKey top)
  /\ exists rest,
       Permutation (top ++ rest) (xUniquePosts posts)
       /\ forall a b, In a top -> In b rest ->
            (XPostSummary.impressions b <= XPostSummary.impressions a)%Q.
Proof.
  destruct (top_of_sorted byImpressions byImpressions_anti byImpressions_trans
              5 (xUniquePosts posts)) as (Hperm & Hlen & Hs & Hrest).
  cbn zeta. fold (xTopPosts posts) in *. split; [exact Hlen|split; [|split]].
  - eapply MissingDaysFacts.StronglySorted_weaken; [|exact Hs].
    intros a b _ _. apply byImpressions_le.
  - eapply NoDup_map_app_l, Permutation_NoDup;
      [|apply (xUniquePosts_NoDup posts)].
    apply Permutation_map. symmetry. exact Hperm.
  - eexists. split; [exact Hperm|].
    intros a b Ha Hb. apply byImpressions_le. now apply Hrest.
Qed.

(** X15. The two rankings of the posts of platform B.  The top posts
    are the first five, by impressions and then by views, of the
    deduplicated posts that have a title or a link; the top posts by rate
    are the first five, by engagement rate, of the deduplicated posts
    that have a rate.  Each ranking is in descending order, holds no two
    posts with the same identity key, and no post left out of it ranks
    above a post in it. *)
Theorem linkedInTopPosts_spec (rawPosts : list LinkedInPostRecord.t) :
  (let top := linkedInTopPosts rawPosts in
   let candidates := filter titleOrLink (linkedInUniquePosts rawPosts) in
   List.length top = Nat.min 5 (List.length candidates)
   /\ StronglySorted ranksNoLower top
   /\ NoDup (map linkedInPostKey top)
   /\ exists rest,
        Permutation (top ++ rest) candidates
        /\ forall a b, In a top -> In b rest -> ranksNoLower a b)
  /\ (let top := linkedInTopPostsByRate rawPosts in
      let candidates := filter hasRate (linkedInUniquePosts rawPosts) in
      List.length top = Nat.min 5 (List.length candidates)
      /\ StronglySorted
           (fun a b =>
              exists ra rb,
                LinkedInPostRecord.engagementRate a = Some ra
                /\ LinkedInPostRecord.engagementRate b = Some rb
                /\ (rb <= ra)%Q) top
      /\ NoDup (map linkedInPostKey top)
      /\ exists rest,
           Permutation (top ++ rest) candidates
           /\ forall a b, In a top -> In b rest ->
                exists ra rb,
                  LinkedInPostRecord.engagementRate a = Some ra
                  /\ LinkedInPostRecord.engagementRate b = Some rb
                  /\ (rb <= ra)%Q).
Proof.
  assert (Hdistinct : forall keep top rest,
            Permutation (top ++ rest)
              (filter keep (linkedInUniquePosts rawPosts)) ->
            NoDup (map linkedInPostKey top)).
  { intros keep top rest Hperm.
    eapply NoDup_map_app_l, Permutation_NoDup.
    - apply Permutation_map. symmetry. exact Hperm.
    - apply MonthDaysFacts.distinct_keys_filter, linkedInUniquePosts_NoDup. }
  split; cbn zeta.
  - destruct (top_of_sorted byImpressionsThenViews byImpressionsThenViews_anti
                byImpressionsThenViews_trans 5
                (filter titleOrLink (linkedInUniquePosts rawPosts)))
      as (Hperm & Hlen & Hs & Hrest).
    fold (linkedInTopPosts rawPosts) in *. split; [exact Hlen|split; [|split]].
    + eapply MissingDaysFacts.StronglySorted_weaken; [|exact Hs].
      intros a b _ _. apply byImpressionsThenViews_le.
    + exact (Hdistinct _ _ _ Hperm).
    + eexists. split; [exact Hperm|].
      intros a b Ha Hb. apply byImpressionsThenViews_le. now apply Hrest.
  - destruct (top_of_sorted byEngagementRate byEngagementRate_anti
                byEngagementRate_trans 5
                (filter hasRate (linkedInUniquePosts rawPosts)))
      as (Hperm & Hlen & Hs & Hrest).
    fold (linkedInTopPostsByRate rawPosts) in *.
    assert (Hrate : forall a b,
              In a (filter hasRate (linkedInUniquePosts rawPosts)) ->
              In b (filter hasRate (linkedInUniquePosts rawPosts)) ->
              byEngagementRate a b <= 0 ->
              exists ra rb,
                LinkedInPostRecord.engagementRate a = Some ra
                /\ LinkedInPostRecord.engagementRate b = Some rb
                /\ (rb <= ra)%Q).
    { intros a b Ha Hb Hle. apply byEngagementRate_le in Hle.
      apply filter_In in Ha as [_ Ha], Hb as [_ Hb].
      unfold hasRate in Ha, Hb. unfold rateOrZero in Hle.
      destruct (LinkedInPostRecord.engagementRate a) as [ra|]; [|discriminate].
      destruct (LinkedInPostRecord.engagementRate b) as [rb|]; [|discriminate].
      now exists ra, rb. }
    assert (Htop : forall a, In a (linkedInTopPostsByRate rawPosts) ->
              In a (filter hasRate (linkedInUniquePosts rawPosts))).
    { intros a Ha. eapply Permutation_in; [exact Hperm|].
      apply in_or_app. now left. }
    split; [exact Hlen|split; [|split]].
    + eapply MissingDaysFacts.StronglySorted_weaken; [|exact Hs].
      intros a b Ha Hb. apply Hrate; now apply Htop.
    + exact (Hdistinct _ _ _ Hperm).
    + eexists. split; [exact Hperm|].
      intros a b Ha Hb. apply Hrate.
      * now apply Htop.
      * eapply Permutation_in; [exact Hperm|]. apply in_or_app. now right.
      * now apply Hrest.
Qed.

(** Six posts: the five with the most impressions are kept, in order,
    and of two posts with as many impressions the one that came first
    stays first. *)
Example xTopPosts_six :
  map XPostSummary.text
    (xTopPosts
       [ Sample.xPost "a" "https://x.example/a" None 10;
         Sample.xPost "b" "https://x.example/b" None 30;
         Sample.xPost "c" "https://x.example/c" None 20;
         Sample.xPost "d" "https://x.example/d" None 30;
         Sample.xPost "e" "https://x.example/e" None 5;
         Sample.xPost "f" "https://x.example/f" None 40 ])
  = ["f"; "b"; "d"; "c"; "a"]%string.
Proof. vm_compute. reflexivity. Qed.

End RankingFacts.

(* ------------------------------------------------------------------ *)
(** ** The daily series of platform B                                  *)
(* ------------------------------------------------------------------ *)

Module LinkedInDailyFacts.
Import JsDate JsMap JsMapFacts GroupFoldFacts KeyFacts MergeFacts MergeMoreFacts.

Local Abbreviation dayOf :=
  (fun post => toDayKey (LinkedInPostRecord.createdAt post)).

Lemma postsByDateStep_upsert m post :
  postsByDateStep m post
  = upsert dayOf (fun _ => 0 + 1) (fun n _ => n + 1) m post.
Proof.
  unfold postsByDateStep, upsert.
  now destruct (get (toDayKey (LinkedInPostRecord.createdAt post)) m).
Qed.

Lemma fold_count {A : Type} (xs : list A) : forall n : Z,
  fold_left (fun n _ => n + 1) xs n = n + Z.of_nat (List.length xs).
Proof.
  induction xs as [|x xs IH]; intros n; cbn [fold_left List.length]; [lia|].
  rewrite IH. lia.
Qed.

(** The count stored for a day is the number of posts of that day. *)
Lemma postsByDate_count (posts : list LinkedInPostRecord.t) (date : Z) :
  match get (toDayKey date) (fold_left postsByDateStep posts empty) with
  | Some n => n
  | None => 0
  end
  = Z.of_nat (List.length
      (filter (fun post => Day (LinkedInPostRecord.createdAt post) =? Day date)
         posts)).
Proof.
  rewrite (PostFacts.fold_left_ext_eq _ _ posts postsByDateStep_upsert).
  rewrite get_groupFold.
  assert (E : groupOf dayOf (toDayKey date) posts
              = filter (fun post =>
                          Day (LinkedInPostRecord.createdAt post) =? Day date)
                  posts).
  { apply filter_ext. intros post.
    destruct (String.eqb_spec (toDayKey (LinkedInPostRecord.createdAt post))
                (toDayKey date)) as [H|H].
    - apply toDayKey_Day in H. symmetry. now apply Z.eqb_eq.
    - symmetry. apply Z.eqb_neq. intros H'. apply H. now apply toDayKey_Day. }
  rewrite E.
  destruct (filter _ posts) as [|x xs]; cbn [foldGroup List.length];
    [reflexivity|].
  rewrite fold_count. lia.
Qed.

(** Each counter of a merged record is the value of that counter in an
    input record of the same platform and day. *)
Lemma merged_counter_origin (metrics : list DailyMetric.t) (r : DailyMetric.t)
  (field : MetricKey.t) :
  In r (mergeDailyMetrics metrics) ->
  exists m, In m metrics /\ sameDay r m = true
            /\ DailyMetric.get field r = DailyMetric.get field m.
Proof.
  intros Hr. destruct (merged_origin metrics r Hr) as (x & xs & Hx & Hg & ->).
  destruct (source_fold_mergeFields xs x) as [Hs Hd].
  destruct (fold_max_is_maximum (map (DailyMetric.get field) xs)
              (DailyMetric.get field x)) as [Hmax _].
  rewrite <- get_fold_mergeFields in Hmax.
  change (DailyMetric.get field x :: map (DailyMetric.get field) xs)
    with (map (DailyMetric.get field) (x :: xs)) in Hmax.
  apply in_map_iff in Hmax as (m & Hm & Hin).
  rewrite <- Hg in Hin. apply filter_In in Hin as [Hin Hsame].
  exists m. split; [exact Hin|]. split; [|now symmetry].
  unfold sameDay in *. now rewrite Hs, Hd.
Qed.

Section Facts.
Variable Date_parse : string -> JsNumber.t.

Local Abbreviation cell row candidates :=
  (toNumber (U_string (pickField row candidates))).

Lemma linkedInDailyRow_Some postsByDate row m :
  linkedInDailyRow Date_parse postsByDate row = Some m ->
  DailyMetric.source m = Platform.linkedin
  /\ wholeDay m
  /\ DailyMetric.posts m
     = inject_Z (match get (toDayKey (DailyMetric.date m)) postsByDate with
                 | Some n => n
                 | None => 0
                 end)
  /\ DailyMetric.reposts m
     = cell row ["Reposts (total)"; "Reposts"; "Reposts (organic)";
                 "Shares"]%string
  /\ forall field,
       In field [MetricKey.shares; MetricKey.bookmarks;
                 MetricKey.profileVisits; MetricKey.engagements;
                 MetricKey.videoViews; MetricKey.videoWatchViews;
                 MetricKey.videoWatchTimeMs; MetricKey.videoCompletionRateSum;
                 MetricKey.newFollows; MetricKey.unfollows] ->
       DailyMetric.get field m = 0%Q.
Proof.
  unfold linkedInDailyRow.
  destruct (parseLinkedInDate _ _) as [[date|]|] eqn:E; try discriminate.
  intros H. apply CalendarDayFacts.Some_inj in H. subst m.
  cbn [DailyMetric.source DailyMetric.date DailyMetric.posts
       DailyMetric.reposts].
  repeat split.
  - unfold wholeDay. cbn [DailyMetric.date].
    unfold parseLinkedInDate in E.
    destruct (parseLinkedInDateTime _ _) as [dateTime|]; [|discriminate].
    apply CalendarDayFacts.Some_inj in E.
    destruct dateTime as [dt|]; cbn [utcField] in E.
    + apply CalendarDayFacts.Date_UTC_midnight in E. rewrite E.
      apply CalendarDayFacts.midnight_mod.
    + discriminate.
  - intros field Hf. cbn in Hf.
    repeat (destruct Hf as [<-|Hf]; [reflexivity|]). destruct Hf.
Qed.

(** X16. In the daily series of platform B, built with the post counts
    of the post loader, every record is a record of platform B dated at
    a UTC midnight, its [posts] counter is the number of deduplicated
    posts created on the UTC day of the record, and the ten counters
    that the export does not have are zero. *)
Theorem linkedInDailyMetrics_posts (rawPosts : list LinkedInPostRecord.t)
  (rows : list Row) (r : DailyMetric.t) :
  In r (linkedInDailyMetrics Date_parse (linkedInPostsByDate rawPosts) rows) ->
  DailyMetric.source r = Platform.linkedin
  /\ wholeDay r
  /\ DailyMetric.posts r
     = inject_Z (Z.of_nat (List.length
                             (postsOfDay (DailyMetric.date r) rawPosts)))
  /\ forall field,
       In field [MetricKey.shares; MetricKey.bookmarks;
                 MetricKey.profileVisits; MetricKey.engagements;
                 MetricKey.videoViews; MetricKey.videoWatchViews;
                 MetricKey.videoWatchTimeMs; MetricKey.videoCompletionRateSum;
                 MetricKey.newFollows; MetricKey.unfollows] ->
       DailyMetric.get field r = 0%Q.
Proof.
  intros Hr. unfold linkedInDailyMetrics in Hr.
  set (metrics := flat_map _ rows) in Hr.
  assert (Hrow : forall m, In m metrics ->
            exists row,
              linkedInDailyRow Date_parse (linkedInPostsByDate rawPosts) row
              = Some m).
  { intros m Hm. apply in_flat_map in Hm as (row & _ & Hm).
    exists row. destruct (linkedInDailyRow _ _ row) as [m'|]; [|destruct Hm].
    destruct Hm as [<-|[]]. reflexivity. }
  assert (Hfield : forall field,
            exists m, In m metrics /\ sameDay r m = true
                      /\ DailyMetric.get field r = DailyMetric.get field m)
    by (intros field; now apply merged_counter_origin).
  destruct (merged_origin metrics r Hr) as (x & xs & Hx & _ & Er).
  destruct (source_fold_mergeFields xs x) as [Hs Hd]. rewrite <- Er in Hs, Hd.
  destruct (Hrow x Hx) as (rowx & Hrowx).
  apply linkedInDailyRow_Some in Hrowx as (Hsx & Hwx & _).
  split; [congruence|]. split; [unfold wholeDay in *; congruence|]. split.
  - destruct (Hfield MetricKey.posts) as (m & Hm & Hsame & Hget).
    cbn [DailyMetric.get] in Hget. rewrite Hget.
    destruct (Hrow m Hm) as (row & Hrowm).
    apply linkedInDailyRow_Some in Hrowm as (_ & _ & Hposts & _).
    rewrite Hposts. unfold linkedInPostsByDate.
    rewrite postsByDate_count. unfold postsOfDay.
    unfold sameDay in Hsame. apply andb_true_iff in Hsame as [_ Hday].
    apply Z.eqb_eq in Hday. now rewrite Hday.
  - intros field Hf. destruct (Hfield field) as (m & Hm & _ & Hget).
    rewrite Hget. destruct (Hrow m Hm) as (row & Hrowm).
    apply linkedInDailyRow_Some in Hrowm as (_ & _ & _ & _ & Hzero).
    now apply Hzero.
Qed.
End Facts.

Lemma linkedInDailyMetrics_sample :
  linkedInDailyMetrics Sample.parseNothing
    (linkedInPostsByDate
       [ Sample.linkedInPost "Launch" "" (Sample.jan15 + 55800000) 500 true;
         Sample.linkedInPost "Hiring" "" (Sample.jan15 + 60000) 20 true ])
    [ [ ("Date", "1/15/2024"); ("Impressions", "1,200") ]%string ]
  = [ DailyMetric.mk Platform.linkedin Sample.jan15 1200 0 0 0 0 0 0 0 0 0 0 0
        0 (inject_Z 2) 0 0 ].
Proof. vm_compute. reflexivity. Qed.

Lemma linkedInDailyMetrics_posts_witness :
  In (DailyMetric.mk Platform.linkedin Sample.jan15 1200 0 0 0 0 0 0 0 0 0 0 0
        0 (inject_Z 2) 0 0)
    (linkedInDailyMetrics Sample.parseNothing
       (linkedInPostsByDate
          [ Sample.linkedInPost "Launch" "" (Sample.jan15 + 55800000) 500 true;
            Sample.linkedInPost "Hiring" "" (Sample.jan15 + 60000) 20 true ])
       [ [ ("Date", "1/15/2024"); ("Impressions", "1,200") ]%string ])
  /\ inject_Z 2
     = inject_Z (Z.of_nat (List.length
         (postsOfDay Sample.jan15
            [ Sample.linkedInPost "Launch" "" (Sample.jan15 + 55800000) 500 true;
              Sample.linkedInPost "Hiring" "" (Sample.jan15 + 60000) 20 true ]))).
Proof.
  assert (H : In (DailyMetric.mk Platform.linkedin Sample.jan15 1200 0 0 0 0 0
                    0 0 0 0 0 0 0 (inject_Z 2) 0 0)
                (linkedInDailyMetrics Sample.parseNothing
                   (linkedInPostsByDate
                      [ Sample.linkedInPost "Launch" "" (Sample.jan15 + 55800000)
                          500 true;
                        Sample.linkedInPost "Hiring" "" (Sample.jan15 + 60000)
                          20 true ])
                   [ [ ("Date", "1/15/2024"); ("Impressions", "1,200") ]%string ]))
    by (rewrite linkedInDailyMetrics_sample; now left).
  split; [exact H|].
  exact (proj1 (proj2 (proj2 (linkedInDailyMetrics_posts Sample.parseNothing
                                _ _ _ H)))).
Defined.

End LinkedInDailyFacts.

(* ------------------------------------------------------------------ *)
(** ** The content types of platform B                                 *)
(* ------------------------------------------------------------------ *)

Module ContentTypeFacts.
Import JsMap JsMapFacts GroupFoldFacts SortFacts RankingFacts.

Local Abbreviation addPost :=
  (fun (current : ContentTypeSummary.t) (post : LinkedInPostRecord.t) =>
     ContentTypeSummary.mk (ContentTypeSummary.type current)
       (ContentTypeSummary.posts current + 1)
       (ContentTypeSummary.impressions current
        + LinkedInPostRecord.impressions post)
       (ContentTypeSummary.views current + LinkedInPostRecord.views post)
       (ContentTypeSummary.engagements current + postEngagements post)).
Local Abbreviation firstPost :=
  (fun post => addPost (ContentTypeSummary.mk (contentTypeOf post) 0 0 0 0) post).
Local Abbreviation rollup_of :=
  (fold_left (upsert contentTypeOf firstPost addPost)).

Lemma contentTypeStep_upsert m post :
  contentTypeStep m post = upsert contentTypeOf firstPost addPost m post.
Proof.
  unfold contentTypeStep, upsert. now destruct (get (contentTypeOf post) m).
Qed.

Lemma contentTypeRollup_fold rawPosts :
  contentTypeRollup rawPosts
  = values (rollup_of (linkedInUniquePosts rawPosts) empty).
Proof.
  unfold contentTypeRollup. f_equal.
  apply PostFacts.fold_left_ext_eq, contentTypeStep_upsert.
Qed.

Lemma fold_addPost xs : forall e,
  let s := fold_left addPost xs e in
  ContentTypeSummary.type s = ContentTypeSummary.type e
  /\ ContentTypeSummary.posts s
     = ContentTypeSummary.posts e + Z.of_nat (List.length xs)
  /\ (ContentTypeSummary.impressions s
      == ContentTypeSummary.impressions e
         + Qsum (map LinkedInPostRecord.impressions xs))%Q
  /\ (ContentTypeSummary.views s
      == ContentTypeSummary.views e
         + Qsum (map LinkedInPostRecord.views xs))%Q
  /\ (ContentTypeSummary.engagements s
      == ContentTypeSummary.engagements e + Qsum (map postEngagements xs))%Q.
Proof.
  induction xs as [|x xs IH]; intros e; cbn zeta;
    cbn [fold_left List.length map Qsum fold_right].
  - rewrite !Qplus_0_r. repeat split; try reflexivity. lia.
  - destruct (IH (addPost e x)) as (Ht & Hp & Hi & Hv & He).
    cbn zeta in *. rewrite Ht, Hp, Hi, Hv, He.
    cbn [ContentTypeSummary.type ContentTypeSummary.posts
         ContentTypeSummary.impressions ContentTypeSummary.views
         ContentTypeSummary.engagements].
    fold (Qsum (map LinkedInPostRecord.impressions xs)).
    fold (Qsum (map LinkedInPostRecord.views xs)).
    fold (Qsum (map postEngagements xs)).
    rewrite !Qplus_assoc. repeat split; try reflexivity. lia.
Qed.

Lemma foldGroup_summarizes (group : list LinkedInPostRecord.t)
  (s : ContentTypeSummary.t) :
  foldGroup firstPost addPost group = Some s ->
  group <> [] /\ summarizes s group.
Proof.
  destruct group as [|x xs]; cbn [foldGroup]; [discriminate|].
  intros H. apply CalendarDayFacts.Some_inj in H. subst s.
  split; [discriminate|].
  destruct (fold_addPost xs (firstPost x)) as (_ & Hp & Hi & Hv & He).
  cbn zeta in *. unfold summarizes.
  rewrite Hp, Hi, Hv, He.
  cbn [ContentTypeSummary.posts ContentTypeSummary.impressions
       ContentTypeSummary.views ContentTypeSummary.engagements
       List.length map Qsum fold_right].
  fold (Qsum (map LinkedInPostRecord.impressions xs)).
  fold (Qsum (map LinkedInPostRecord.views xs)).
  fold (Qsum (map postEngagements xs)).
  rewrite !Qplus_0_l. repeat split; try reflexivity. lia.
Qed.

Lemma type_firstPost x :
  ContentTypeSummary.type (firstPost x) = contentTypeOf x.
Proof. reflexivity. Qed.

Lemma type_addPost (e : ContentTypeSummary.t) (x : LinkedInPostRecord.t) :
  contentTypeOf x = ContentTypeSummary.type e ->
  ContentTypeSummary.type (addPost e x) = ContentTypeSummary.type e.
Proof. reflexivity. Qed.

(** Every summary of the rollup stands for the posts of its type. *)
Lemma rollup_summarizes rawPosts s :
  In s (contentTypeRollup rawPosts) ->
  postsOfType (ContentTypeSummary.type s) rawPosts <> []
  /\ summarizes s (postsOfType (ContentTypeSummary.type s) rawPosts).
Proof.
  rewrite contentTypeRollup_fold. intros Hs.
  apply in_map_iff in Hs as ([k v] & <- & Hin). cbn [snd].
  pose proof (key_of_entry contentTypeOf firstPost addPost
                ContentTypeSummary.type type_firstPost type_addPost
                _ k v Hin) as Hk.
  apply in_get_Some in Hin.
  2:{ apply NoDup_keys_fold. constructor. }
  rewrite get_groupFold in Hin. rewrite Hk.
  apply foldGroup_summarizes in Hin as (Hne & Hsum).
  now split.
Qed.

Lemma rollup_NoDup rawPosts :
  NoDup (map ContentTypeSummary.type (contentTypeRollup rawPosts)).
Proof.
  rewrite contentTypeRollup_fold, (MergeFacts.values_keys ContentTypeSummary.type).
  - apply NoDup_keys_fold. constructor.
  - intros k v. now apply key_of_entry.
Qed.

Lemma byTypeImpressions_le (a b : ContentTypeSummary.t) :
  byTypeImpressions a b <= 0
  <-> (ContentTypeSummary.impressions b <= ContentTypeSummary.impressions a)%Q.
Proof. apply Qsign_minus_nonpos. Qed.

Lemma byTypeImpressions_anti (a b : ContentTypeSummary.t) :
  0 < byTypeImpressions a b -> byTypeImpressions b a <= 0.
Proof.
  unfold byTypeImpressions. rewrite Qsign_minus_pos, Qsign_minus_nonpos.
  apply Qlt_le_weak.
Qed.

Lemma byTypeImpressions_trans (a b c : ContentTypeSummary.t) :
  byTypeImpressions a b <= 0 -> byTypeImpressions b c <= 0 ->
  byTypeImpressions a c <= 0.
Proof.
  rewrite !byTypeImpressions_le. intros H1 H2. eapply Qle_trans; eassumption.
Qed.

(** X17. The content types of platform B.  Every summary returned
    stands for the deduplicated posts of its type, a blank type counting
    as [Unknown]: there is such a post, [posts] is their number, and
    [impressions], [views] and [engagements] are the sums over them.  The
    summaries have distinct types, are at most six, and are in descending
    order of impressions.  The type of a post is among them, unless six
    types with at least as many impressions are. *)
Theorem linkedInContentTypes_spec (rawPosts : list LinkedInPostRecord.t) :
  let contentTypes := linkedInContentTypes rawPosts in
  (forall s, In s contentTypes ->
     postsOfType (ContentTypeSummary.type s) rawPosts <> []
     /\ summarizes s (postsOfType (ContentTypeSummary.type s) rawPosts))
  /\ NoDup (map ContentTypeSummary.type contentTypes)
  /\ (List.length contentTypes <= 6)%nat
  /\ StronglySorted
       (fun a b => (ContentTypeSummary.impressions b
                    <= ContentTypeSummary.impressions a)%Q) contentTypes
  /\ forall post, In post (linkedInUniquePosts rawPosts) ->
       (exists s, In s contentTypes
                  /\ ContentTypeSummary.type s = contentTypeOf post)
       \/ (List.length contentTypes = 6%nat
           /\ forall s, In s contentTypes ->
                (Qsum (map LinkedInPostRecord.impressions
                         (postsOfType (contentTypeOf post) rawPosts))
                 <= ContentTypeSummary.impressions s)%Q).
Proof.
  destruct (top_of_sorted byTypeImpressions byTypeImpressions_anti
              byTypeImpressions_trans 6 (contentTypeRollup rawPosts))
    as (Hperm & Hlen & Hs & Hrest).
  cbn zeta. fold (linkedInContentTypes rawPosts) in *.
  set (rest := skipn 6 (sortBy byTypeImpressions (contentTypeRollup rawPosts)))
    in *.
  assert (Htop : forall s, In s (linkedInContentTypes rawPosts) ->
                           In s (contentTypeRollup rawPosts)).
  { intros s Hin. eapply Permutation_in; [exact Hperm|].
    apply in_or_app. now left. }
  split; [|split; [|split; [|split]]].
  - intros s Hin. apply rollup_summarizes. now apply Htop.
  - apply (NoDup_map_app_l _ _ rest).
    eapply Permutation_NoDup; [|apply (rollup_NoDup rawPosts)].
    apply Permutation_map. now symmetry.
  - rewrite Hlen. apply Nat.le_min_l.
  - eapply MissingDaysFacts.StronglySorted_weaken; [|exact Hs].
    intros a b _ _. apply byTypeImpressions_le.
  - intros post Hpost.
    destruct (filter_values_groupFold contentTypeOf firstPost addPost
                ContentTypeSummary.type type_firstPost type_addPost
                _ post Hpost) as (v & Hfold & Hone).
    rewrite <- contentTypeRollup_fold in Hone.
    assert (Hv : In v (contentTypeRollup rawPosts)
                 /\ ContentTypeSummary.type v = contentTypeOf post).
    { assert (H : In v (filter (fun o => String.eqb (ContentTypeSummary.type o)
                                           (contentTypeOf post))
                          (contentTypeRollup rawPosts)))
        by (rewrite Hone; now left).
      apply filter_In in H as [H1 H2]. split; [exact H1|].
      now apply String.eqb_eq. }
    destruct Hv as [Hv Htype].
    apply (Permutation_in _ (Permutation_sym Hperm)) in Hv.
    apply in_app_or in Hv as [Hv|Hv]; [left; now exists v|right].
    split.
    + apply Permutation_length in Hperm. rewrite length_app in Hperm.
      assert (0 < List.length rest)%nat
        by (destruct rest; [destruct Hv|cbn; lia]).
      lia.
    + intros s Hin.
      apply foldGroup_summarizes in Hfold as (_ & (_ & Himp & _)).
      unfold postsOfType. fold (groupOf contentTypeOf (contentTypeOf post)
                                  (linkedInUniquePosts rawPosts)).
      rewrite <- Himp. apply byTypeImpressions_le. now apply Hrest.
Qed.

(** Three posts, one of them without a type. *)
Example linkedInContentTypes_sample :
  map (fun s => (ContentTypeSummary.type s, ContentTypeSummary.posts s))
    (linkedInContentTypes
       [ LinkedInPostRecord.mk "a" "l/a" Sample.jan15 10 0 0 1 1 1 None
           "Video" false;
         LinkedInPostRecord.mk "b" "l/b" Sample.jan15 50 0 0 0 0 0 None
           "" false;
         LinkedInPostRecord.mk "c" "l/c" Sample.jan16 30 0 0 2 0 0 None
           "Video" false ])
  = [ ("Unknown"%string, 1); ("Video"%string, 2) ].
Proof. vm_compute. reflexivity. Qed.

End ContentTypeFacts.

(* ------------------------------------------------------------------ *)
(** ** Titles                                                          *)
(* ------------------------------------------------------------------ *)

Module TitleFacts.
Import JsString.

Lemma substring_length_le (n : nat) : forall s,
  (String.length (String.substring 0 n s) <= n)%nat.
Proof.
  induction n as [|n IH]; intros [|c s]; cbn; try lia.
  specialize (IH s). lia.
Qed.

Lemma substring_all (n : nat) : forall s,
  (String.length s <= n)%nat -> String.substring 0 n s = s.
Proof.
  induction n as [|n IH]; intros [|c s]; cbn; intros H;
    try reflexivity; try lia.
  f_equal. apply IH. lia.
Qed.

Lemma spacedFrom_collapse (s : string) : forall inRun,
  spacedFrom inRun (collapseRuns inRun s).
Proof.
  induction s as [|c s IH]; intros inRun; cbn [collapseRuns]; [exact I|].
  destruct (isWhiteSpace c) eqn:E.
  - destruct inRun; [apply IH|].
    cbn [spacedFrom]. change (isWhiteSpace " ") with true. cbn iota.
    repeat split. apply IH.
  - cbn [spacedFrom]. rewrite E. apply IH.
Qed.

Lemma spacedFrom_substring (n : nat) : forall s afterSpace,
  spacedFrom afterSpace s -> spacedFrom afterSpace (String.substring 0 n s).
Proof.
  induction n as [|n IH]; intros [|c s] afterSpace; cbn [String.substring];
    try (intros; exact I).
  cbn [spacedFrom]. destruct (isWhiteSpace c).
  - intros (Hc & Hb & Hs). repeat split; try assumption. now apply IH.
  - apply IH.
Qed.

Lemma collapse_spaced (s : string) : forall afterSpace,
  spacedFrom afterSpace s -> collapseRuns afterSpace s = s.
Proof.
  induction s as [|c s IH]; intros afterSpace; cbn [spacedFrom collapseRuns];
    [reflexivity|].
  destruct (isWhiteSpace c).
  - intros (-> & -> & Hs). f_equal. now apply IH.
  - intros Hs. f_equal. now apply IH.
Qed.

Lemma inkOf_collapse (s : string) : forall inRun,
  inkOf (collapseRuns inRun s) = inkOf s.
Proof.
  induction s as [|c s IH]; intros inRun; cbn [collapseRuns inkOf];
    [reflexivity|].
  destruct (isWhiteSpace c) eqn:E.
  - destruct inRun; [apply IH|].
    cbn [inkOf]. change (isWhiteSpace " ") with true. cbn iota. apply IH.
  - cbn [inkOf]. rewrite E. f_equal. apply IH.
Qed.

Lemma prefix_refl (s : string) : String.prefix s s = true.
Proof.
  induction s as [|c s IH]; cbn; [reflexivity|].
  destruct (ascii_dec c c); [exact IH|contradiction].
Qed.

Lemma inkOf_substring (n : nat) : forall s,
  String.prefix (inkOf (String.substring 0 n s)) (inkOf s) = true.
Proof.
  induction n as [|n IH]; intros [|c s]; cbn [String.substring inkOf];
    try reflexivity.
  - now destruct (if isWhiteSpace c then inkOf s else String c (inkOf s)).
  - destruct (isWhiteSpace c); [apply IH|].
    cbn [String.prefix]. destruct (ascii_dec c c); [apply IH|contradiction].
Qed.

(** X18. A sanitized title has at most 140 characters and its white
    space is single spaces; its other characters are the first ones of
    the title, in order; and sanitizing leaves unchanged a title of at
    most 140 characters whose white space is single spaces, so
    sanitizing twice is sanitizing once. *)
Theorem sanitizeTitle_spec (title : string) :
  (String.length (sanitizeTitle title) <= 140)%nat
  /\ singleSpaced (sanitizeTitle title)
  /\ String.prefix (inkOf (sanitizeTitle title)) (inkOf title) = true
  /\ (singleSpaced title -> (String.length title <= 140)%nat ->
      sanitizeTitle title = title)
  /\ sanitizeTitle (sanitizeTitle title) = sanitizeTitle title.
Proof.
  assert (Hlen : (String.length (sanitizeTitle title) <= 140)%nat)
    by apply substring_length_le.
  assert (Hsp : singleSpaced (sanitizeTitle title))
    by apply spacedFrom_substring, spacedFrom_collapse.
  assert (Hfix : forall t, singleSpaced t -> (String.length t <= 140)%nat ->
                           sanitizeTitle t = t).
  { intros t Ht Hl. unfold sanitizeTitle.
    rewrite (collapse_spaced t false Ht). now apply substring_all. }
  repeat split; try assumption.
  - unfold sanitizeTitle. rewrite <- (inkOf_collapse title false).
    apply inkOf_substring.
  - apply Hfix.
  - now apply Hfix.
Qed.

(** Line breaks and runs of blanks become single spaces. *)
Example sanitizeTitle_runs :
  sanitizeTitle (String "010" "We   are" ++ String "009" (String "010" "hiring "))
  = " We are hiring "%string.
Proof. vm_compute. reflexivity. Qed.

End TitleFacts.

(* ------------------------------------------------------------------ *)
(** ** Days of the week                                                *)
(* ------------------------------------------------------------------ *)

Module DayOfWeekFacts.
Import JsDate JsMap JsMapFacts GroupFoldFacts KeyFacts TotalsFacts.

Lemma in_set {V : Type} (m : JsMap.t V) k0 v k e :
  In (k, e) (set k0 v m) -> (k = k0 /\ e = v) \/ In (k, e) m.
Proof.
  induction m as [|[k' v'] m IH]; cbn.
  - intros [[= <- <-]|[]]. now left.
  - destruct (String.eqb_spec k' k0) as [->|Hne]; cbn.
    + intros [[= <- <-]|H]; [now left|right; now right].
    + intros [H|H]; [right; now left|].
      destruct (IH H) as [?|?]; [now left|right; now right].
Qed.

Lemma WeekDay_range (t : Z) : 0 <= WeekDay t < 7.
Proof. unfold WeekDay. apply Z.mod_pos_bound. lia. Qed.

Lemma WeekDay_of_key (t u : Z) : toDayKey t = toDayKey u -> WeekDay t = WeekDay u.
Proof. intros H. apply toDayKey_Day in H. unfold WeekDay. now rewrite H. Qed.

Lemma Qsum_indicator {A : Type} (p : A -> bool) (f : A -> Q) (l : list A) :
  (Qsum (map (fun x => if p x then f x else 0) l) == Qsum (map f (filter p l)))%Q.
Proof.
  induction l as [|x l IH]; cbn [map filter Qsum fold_right]; [reflexivity|].
  fold (Qsum (map (fun x => if p x then f x else 0%Q) l)).
  destruct (p x); cbn [map Qsum fold_right].
  - fold (Qsum (map f (filter p l))). now rewrite IH.
  - fold (Qsum (map f (filter p l))). rewrite IH. apply Qplus_0_l.
Qed.

Lemma Zsum_indicator {A : Type} (p : A -> bool) (l : list A) :
  fold_right Z.add 0 (map (fun x => if p x then 1 else 0) l)
  = Z.of_nat (List.length (filter p l)).
Proof.
  induction l as [|x l IH]; cbn [map filter fold_right]; [reflexivity|].
  rewrite IH. destruct (p x); cbn [List.length]; lia.
Qed.

Local Abbreviation dayOf := (fun m => toDayKey (DailyMetric.date m)).
Local Abbreviation firstViews :=
  (fun m => DayViews.mk (DailyMetric.date m) (0 + DailyMetric.views m)).
Local Abbreviation addViews :=
  (fun (e : DayViews.t) (m : DailyMetric.t) =>
     DayViews.mk (DayViews.date e) (DayViews.views e + DailyMetric.views m)).
Local Abbreviation keyOfEntry := (fun e => toDayKey (DayViews.date e)).

Lemma dayViewsStep_upsert m metric :
  dayViewsStep m metric = upsert dayOf firstViews addViews m metric.
Proof.
  unfold dayViewsStep, upsert.
  now destruct (get (toDayKey (DailyMetric.date metric)) m).
Qed.

Lemma byDate_fold daily :
  fold_left dayViewsStep daily empty
  = fold_left (upsert dayOf firstViews addViews) daily empty.
Proof. apply PostFacts.fold_left_ext_eq, dayViewsStep_upsert. Qed.

Section Index.
Variable index : Z.

Local Abbreviation onDay t := (WeekDay t =? index).
Local Abbreviation entryViews :=
  (fun e => if onDay (DayViews.date e) then DayViews.views e else 0%Q).
Local Abbreviation metricViews :=
  (fun m => if onDay (DailyMetric.date m) then DailyMetric.views m else 0%Q).

(** The views stored for the days of one day of the week add up to the
    views of the records of that day of the week. *)
Lemma byDate_total (daily : list DailyMetric.t) : forall byDate,
  (forall k e, In (k, e) byDate -> keyOfEntry e = k) ->
  (Qsum (map entryViews (values (fold_left dayViewsStep daily byDate)))
   == Qsum (map entryViews (values byDate)) + Qsum (map metricViews daily))%Q.
Proof.
  induction daily as [|m daily IH]; intros byDate Hkey;
    cbn [fold_left map Qsum fold_right].
  - ring.
  - fold (Qsum (map metricViews daily)).
    rewrite IH.
    + unfold dayViewsStep. rewrite total_set.
      destruct (get (toDayKey (DailyMetric.date m)) byDate) as [e|] eqn:E;
        cbn [DayViews.date DayViews.views].
      * apply get_Some_in, Hkey, WeekDay_of_key in E. rewrite E.
        destruct (onDay (DailyMetric.date m)); ring.
      * destruct (onDay (DailyMetric.date m)); ring.
    + intros k e Hin. unfold dayViewsStep in Hin.
      apply in_set in Hin as [[-> ->]|Hin]; [|now apply Hkey].
      destruct (get (toDayKey (DailyMetric.date m)) byDate) as [e'|] eqn:E;
        cbn [DayViews.date]; [|reflexivity].
      now apply get_Some_in, Hkey in E.
Qed.
End Index.

Lemma nth_error_updateAt {A : Type} (f : A -> A) (l : list A) :
  forall index i,
    nth_error (updateAt index f l) i
    = if Nat.eqb i index then option_map f (nth_error l i) else nth_error l i.
Proof.
  induction l as [|x l IH]; intros [|index] [|i]; cbn; try reflexivity.
  - now destruct (Nat.eqb i index).
  - apply IH.
Qed.

(** The bucket of a day of the week after the loop over the entries. *)
Lemma nth_fold_addDay (entries : list DayViews.t) :
  forall summary (i : nat) bucket,
    nth_error summary i = Some bucket ->
    exists bucket',
      nth_error (fold_left addDay entries summary) i = Some bucket'
      /\ DayOfWeekSummary.day bucket' = DayOfWeekSummary.day bucket
      /\ (DayOfWeekSummary.totalViews bucket'
          == DayOfWeekSummary.totalViews bucket
             + Qsum (map (fun e => if WeekDay (DayViews.date e) =? Z.of_nat i
                                   then DayViews.views e else 0%Q) entries))%Q
      /\ DayOfWeekSummary.days bucket'
         = DayOfWeekSummary.days bucket
           + fold_right Z.add 0
               (map (fun e => if WeekDay (DayViews.date e) =? Z.of_nat i
                              then 1 else 0) entries).
Proof.
  induction entries as [|e entries IH]; intros summary i bucket Hb;
    cbn [fold_left map Qsum fold_right].
  - exists bucket. repeat split; [exact Hb|ring|lia].
  - fold (Qsum (map (fun e => if WeekDay (DayViews.date e) =? Z.of_nat i
                              then DayViews.views e else 0%Q) entries)).
    pose proof (WeekDay_range (DayViews.date e)) as Hr.
    destruct (Nat.eqb_spec i (Z.to_nat (WeekDay (DayViews.date e)))) as [E|E].
    + destruct (IH (addDay summary e) i
                  (DayOfWeekSummary.mk (DayOfWeekSummary.day bucket)
                     (DayOfWeekSummary.averageViews bucket)
                     (DayOfWeekSummary.totalViews bucket + DayViews.views e)
                     (DayOfWeekSummary.days bucket + 1)))
        as (b' & Hn & Hd & Ht & Hc).
      { unfold addDay. rewrite nth_error_updateAt, Hb.
        replace (Nat.eqb i (Z.to_nat (WeekDay (DayViews.date e)))) with true
          by (symmetry; now apply Nat.eqb_eq).
        reflexivity. }
      exists b'. split; [exact Hn|]. split; [exact Hd|].
      replace (WeekDay (DayViews.date e) =? Z.of_nat i) with true
        by (symmetry; apply Z.eqb_eq; lia).
      cbn [DayOfWeekSummary.totalViews DayOfWeekSummary.days] in Ht, Hc.
      split; [rewrite Ht; ring|lia].
    + destruct (IH (addDay summary e) i bucket) as (b' & Hn & Hd & Ht & Hc).
      { unfold addDay. rewrite nth_error_updateAt, Hb.
        replace (Nat.eqb i (Z.to_nat (WeekDay (DayViews.date e)))) with false
          by (symmetry; now apply Nat.eqb_neq).
        reflexivity. }
      exists b'. split; [exact Hn|]. split; [exact Hd|].
      replace (WeekDay (DayViews.date e) =? Z.of_nat i) with false
        by (symmetry; apply Z.eqb_neq; lia).
      split; [rewrite Ht; ring|lia].
Qed.

Lemma length_updateAt {A : Type} (f : A -> A) (l : list A) :
  forall index, List.length (updateAt index f l) = List.length l.
Proof.
  induction l as [|x l IH]; intros [|index]; cbn; try reflexivity.
  now rewrite IH.
Qed.

Lemma day_updateAt (f : DayOfWeekSummary.t -> DayOfWeekSummary.t)
  (l : list DayOfWeekSummary.t) :
  (forall b, DayOfWeekSummary.day (f b) = DayOfWeekSummary.day b) ->
  forall index,
    map DayOfWeekSummary.day (updateAt index f l) = map DayOfWeekSummary.day l.
Proof.
  intros Hf. induction l as [|x l IH]; intros [|index]; cbn; try reflexivity.
  - now rewrite Hf.
  - now rewrite IH.
Qed.

Lemma day_fold_addDay (entries : list DayViews.t) : forall summary,
  map DayOfWeekSummary.day (fold_left addDay entries summary)
  = map DayOfWeekSummary.day summary.
Proof.
  induction entries as [|e entries IH]; intros summary; cbn [fold_left];
    [reflexivity|].
  rewrite IH. unfold addDay. now apply day_updateAt.
Qed.

(** The entries of one day of the week are as many as the distinct UTC
    days of the records of that day of the week. *)
Lemma entries_distinctDays (daily : list DailyMetric.t) (i : nat) :
  List.length
    (filter (fun e => WeekDay (DayViews.date e) =? Z.of_nat i)
       (values (fold_left dayViewsStep daily empty)))
  = List.length (distinctDays (recordsOfWeekDay i daily)).
Proof.
  rewrite byDate_fold.
  set (byDate := fold_left (upsert dayOf firstViews addViews) daily empty).
  assert (Hnd : NoDup (keys byDate)) by (apply NoDup_keys_fold; constructor).
  assert (Hkey : forall k e, In (k, e) byDate -> keyOfEntry e = k).
  { intros k e. apply (key_of_entry dayOf firstViews addViews keyOfEntry);
      [reflexivity|reflexivity]. }
  rewrite <- (length_map (fun e => Day (DayViews.date e))).
  apply Permutation_length, NoDup_Permutation.
  - assert (Hall : NoDup (map (fun e => Day (DayViews.date e)) (values byDate))).
    { rewrite <- (MergeFacts.values_keys keyOfEntry byDate Hkey) in Hnd.
      clear Hkey. revert Hnd. generalize (values byDate) as es.
      induction es as [|e es IH]; cbn; intros Hnd; [constructor|].
      inversion Hnd as [|? ? Hnotin Hnd']; subst. constructor; [|now apply IH].
      intros Hin. apply Hnotin. apply in_map_iff in Hin as (e' & He' & Hin).
      apply in_map_iff. exists e'. split; [|exact Hin].
      now apply toDayKey_Day. }
    revert Hall. generalize (values byDate) as es.
    induction es as [|e es IH]; cbn [map filter]; intros Hall; [constructor|].
    inversion Hall as [|? ? Hnotin Hall']; subst.
    destruct (WeekDay (DayViews.date e) =? Z.of_nat i); [|now apply IH].
    cbn [map]. constructor; [|now apply IH].
    intros Hin. apply Hnotin. apply in_map_iff in Hin as (e' & He' & Hin).
    apply filter_In in Hin as [Hin _]. apply in_map_iff. now exists e'.
  - apply NoDup_nodup.
  - intros d. unfold distinctDays. rewrite nodup_In. unfold recordDays.
    rewrite !in_map_iff. split.
    + intros (e & <- & He). apply filter_In in He as [He Hw].
      apply in_map_iff in He as ([k e'] & He' & Hin). cbn [snd] in He'. subst e'.
      pose proof (Hkey k e Hin) as Hk.
      apply entry_origin in Hin as (x & Hx & Hkx).
      assert (Hd : toDayKey (DailyMetric.date x) = toDayKey (DayViews.date e))
        by congruence.
      exists x. split; [now apply toDayKey_Day|].
      apply filter_In. split; [exact Hx|].
      now rewrite (WeekDay_of_key _ _ Hd).
    + intros (x & <- & Hx). apply filter_In in Hx as [Hx Hw].
      destruct (get (dayOf x) byDate) as [e|] eqn:E.
      * apply get_Some_in in E. pose proof (Hkey _ _ E) as Hk.
        exists e. split; [now apply toDayKey_Day|].
        apply filter_In. split.
        -- apply in_map_iff. now exists (dayOf x, e).
        -- now rewrite (WeekDay_of_key _ _ Hk).
      * unfold byDate in E. rewrite get_groupFold in E.
        pose proof (groupOf_nonempty dayOf daily x Hx) as Hne.
        destruct (groupOf dayOf (dayOf x) daily); [contradiction|discriminate].
Qed.

(** X19. The summary by day of the week has the seven days from Sunday
    to Saturday.  The total views of a day of the week are the sum of the
    views of all the records that fall on it, its [days] is the number of
    distinct UTC days of those records, and its average is the total
    divided by [days], or zero when there is no such day. *)
Theorem buildDayOfWeekSummary_spec (daily : list DailyMetric.t) :
  map DayOfWeekSummary.day (buildDayOfWeekSummary daily) = dayNames
  /\ forall (index : nat) (name : string),
       nth_error dayNames index = Some name ->
       exists bucket,
         nth_error (buildDayOfWeekSummary daily) index = Some bucket
         /\ DayOfWeekSummary.day bucket = name
         /\ (DayOfWeekSummary.totalViews bucket
             == Qsum (map DailyMetric.views (recordsOfWeekDay index daily)))%Q
         /\ DayOfWeekSummary.days bucket
            = Z.of_nat (List.length
                          (distinctDays (recordsOfWeekDay index daily)))
         /\ DayOfWeekSummary.averageViews bucket
            = (if DayOfWeekSummary.days bucket =? 0 then 0
               else DayOfWeekSummary.totalViews bucket
                    / inject_Z (DayOfWeekSummary.days bucket))%Q.
Proof.
  unfold buildDayOfWeekSummary. cbn zeta. split.
  - rewrite map_map.
    change (fun x => DayOfWeekSummary.day (setAverage x))
      with DayOfWeekSummary.day.
    rewrite day_fold_addDay, map_map. cbn [DayOfWeekSummary.day].
    apply map_id.
  - intros index name Hname.
    set (summary := map (fun day => DayOfWeekSummary.mk day 0 0 0) dayNames).
    assert (Hb : nth_error summary index
                 = Some (DayOfWeekSummary.mk name 0 0 0)).
    { unfold summary. rewrite nth_error_map, Hname. reflexivity. }
    destruct (nth_fold_addDay (values (fold_left dayViewsStep daily empty))
                summary index _ Hb) as (b' & Hn & Hd & Ht & Hc).
    exists (setAverage b'). split; [|split; [|split; [|split]]].
    + rewrite nth_error_map, Hn. reflexivity.
    + exact Hd.
    + cbn [setAverage DayOfWeekSummary.totalViews]. rewrite Ht.
      rewrite (byDate_total (Z.of_nat index) daily empty)
        by (intros k e []).
      cbn [DayOfWeekSummary.totalViews values empty map Qsum fold_right].
      rewrite (Qsum_indicator
                 (fun m => WeekDay (DailyMetric.date m) =? Z.of_nat index)
                 DailyMetric.views daily).
      unfold recordsOfWeekDay. ring.
    + cbn [setAverage DayOfWeekSummary.days]. rewrite Hc.
      rewrite (Zsum_indicator
                 (fun e => WeekDay (DayViews.date e) =? Z.of_nat index)).
      rewrite entries_distinctDays. cbn [DayOfWeekSummary.days]. lia.
    + reflexivity.
Qed.

(** 2024-01-15 was a Monday: two records of that day and one of the
    Monday after give one bucket with two days. *)
Example buildDayOfWeekSummary_mondays :
  nth_error
    (buildDayOfWeekSummary
       [ Sample.daily Platform.x Sample.jan15 100;
         Sample.daily Platform.linkedin Sample.jan15 20;
         Sample.daily Platform.x (Sample.jan15 + 7 * msPerDay) 30;
         Sample.daily Platform.x Sample.jan16 5 ]) 1
  = Some (DayOfWeekSummary.mk "Mon" ((0 + (0 + 100 + 20) + (0 + 30)) / inject_Z 2)
            (0 + (0 + 100 + 20) + (0 + 30)) 2).
Proof. vm_compute. reflexivity. Qed.

End DayOfWeekFacts.

(* ------------------------------------------------------------------ *)
(** ** The best times to post                                          *)
(* ------------------------------------------------------------------ *)

Module BestTimeFacts.
Import JsDate JsMap JsMapFacts GroupFoldFacts SortFacts RankingFacts.

Lemma dayNameOf_In (time : Z) : In (dayNameOf time) dayNames.
Proof.
  unfold dayNameOf. apply nth_In.
  pose proof (DayOfWeekFacts.WeekDay_range time). cbn. lia.
Qed.

(** The key of a slot tells its day and its hour. *)
Lemma slotKeyOf_inj (d d' : string) (h h' : option Z) :
  In d dayNames -> In d' dayNames ->
  slotKeyOf d h = slotKeyOf d' h' -> d = d' /\ h = h'.
Proof.
  intros Hd Hd'. cbn in Hd, Hd'.
  repeat (destruct Hd as [<-|Hd]; [|]); try destruct Hd;
    repeat (destruct Hd' as [<-|Hd']; [|]); try destruct Hd';
    destruct h as [h|], h' as [h'|]; cbn; intros H;
    try discriminate H;
    try (injection H as H; apply JsStringFacts.string_of_Z_inj in H;
         subst; now split);
    now split.
Qed.

Local Abbreviation keyOfPost :=
  (fun post => slotKeyOf (dayNameOf (LinkedInPostRecord.createdAt post))
                 (slotHour post)).
Local Abbreviation addToSlot :=
  (fun (slot : BestTimeSlot.t) (post : LinkedInPostRecord.t) =>
     BestTimeSlot.mk (BestTimeSlot.label slot) (BestTimeSlot.day slot)
       (BestTimeSlot.hour slot) (BestTimeSlot.posts slot + 1)
       (BestTimeSlot.impressions slot + LinkedInPostRecord.impressions post)
       (BestTimeSlot.engagements slot + postEngagements post)
       (if Qeq_bool (BestTimeSlot.impressions slot
                     + LinkedInPostRecord.impressions post) 0
        then None
        else Some ((BestTimeSlot.engagements slot + postEngagements post)
                   / (BestTimeSlot.impressions slot
                      + LinkedInPostRecord.impressions post))%Q)).
Local Abbreviation firstOfSlot :=
  (fun post =>
     addToSlot
       (BestTimeSlot.mk
          (slotLabelOf (dayNameOf (LinkedInPostRecord.createdAt post))
             (slotHour post))
          (dayNameOf (LinkedInPostRecord.createdAt post)) (slotHour post)
          0 0 0 None) post).
Local Abbreviation keyOfSlot :=
  (fun slot => slotKeyOf (BestTimeSlot.day slot) (BestTimeSlot.hour slot)).

Lemma timeSlotStep_upsert m post :
  timeSlotStep m post = upsert keyOfPost firstOfSlot addToSlot m post.
Proof.
  unfold timeSlotStep, upsert. cbn zeta.
  now destruct (get (slotKeyOf (dayNameOf (LinkedInPostRecord.createdAt post))
                       (slotHour post)) m).
Qed.

Lemma timeSlots_fold rawPosts :
  timeSlots rawPosts
  = values (fold_left (upsert keyOfPost firstOfSlot addToSlot)
              (linkedInUniquePosts rawPosts) empty).
Proof.
  unfold timeSlots. f_equal.
  apply PostFacts.fold_left_ext_eq, timeSlotStep_upsert.
Qed.

Lemma fold_addToSlot xs : forall e,
  let s := fold_left addToSlot xs e in
  BestTimeSlot.label s = BestTimeSlot.label e
  /\ BestTimeSlot.day s = BestTimeSlot.day e
  /\ BestTimeSlot.hour s = BestTimeSlot.hour e
  /\ BestTimeSlot.posts s = BestTimeSlot.posts e + Z.of_nat (List.length xs)
  /\ (BestTimeSlot.impressions s
      == BestTimeSlot.impressions e
         + Qsum (map LinkedInPostRecord.impressions xs))%Q
  /\ (BestTimeSlot.engagements s
      == BestTimeSlot.engagements e + Qsum (map postEngagements xs))%Q
  /\ (rateOfSums e -> rateOfSums s).
Proof.
  induction xs as [|x xs IH]; intros e; cbn zeta;
    cbn [fold_left List.length map Qsum fold_right].
  - rewrite !Qplus_0_r. repeat split; try reflexivity; try lia. auto.
  - destruct (IH (addToSlot e x)) as (Hl & Hd & Hh & Hp & Hi & He & Hr).
    cbn zeta in *. rewrite Hl, Hd, Hh, Hp, Hi, He.
    cbn [BestTimeSlot.label BestTimeSlot.day BestTimeSlot.hour
         BestTimeSlot.posts BestTimeSlot.impressions BestTimeSlot.engagements].
    fold (Qsum (map LinkedInPostRecord.impressions xs)).
    fold (Qsum (map postEngagements xs)).
    rewrite !Qplus_assoc. repeat split; try reflexivity; try lia.
    intros _. apply Hr. reflexivity.
Qed.

Lemma foldGroup_slot (group : list LinkedInPostRecord.t) (s : BestTimeSlot.t) :
  foldGroup firstOfSlot addToSlot group = Some s ->
  exists x xs,
    group = x :: xs
    /\ BestTimeSlot.day s = dayNameOf (LinkedInPostRecord.createdAt x)
    /\ BestTimeSlot.hour s = slotHour x
    /\ slotSummarizes s group.
Proof.
  destruct group as [|x xs]; cbn [foldGroup]; [discriminate|].
  intros H. apply CalendarDayFacts.Some_inj in H. subst s.
  exists x, xs. split; [reflexivity|].
  destruct (fold_addToSlot xs (firstOfSlot x))
    as (Hl & Hd & Hh & Hp & Hi & He & Hr).
  cbn zeta in *.
  set (s := fold_left addToSlot xs (firstOfSlot x)) in *.
  cbn [BestTimeSlot.label BestTimeSlot.day BestTimeSlot.hour
       BestTimeSlot.posts BestTimeSlot.impressions BestTimeSlot.engagements]
    in Hl, Hd, Hh, Hp, Hi, He.
  assert (HI : (BestTimeSlot.impressions s
                == Qsum (map LinkedInPostRecord.impressions (x :: xs)))%Q).
  { rewrite Hi. cbn [map Qsum fold_right].
    fold (Qsum (map LinkedInPostRecord.impressions xs)). ring. }
  assert (HE : (BestTimeSlot.engagements s
                == Qsum (map postEngagements (x :: xs)))%Q).
  { rewrite He. cbn [map Qsum fold_right].
    fold (Qsum (map postEngagements xs)). ring. }
  split; [exact Hd|]. split; [exact Hh|].
  unfold slotSummarizes. split; [cbn [List.length]; lia|].
  split; [exact HI|]. split; [exact HE|]. split.
  - rewrite (Hr eq_refl).
    destruct (Qeq_bool (BestTimeSlot.impressions s) 0) eqn:E.
    + apply Qeq_bool_iff in E. now rewrite <- HI.
    + apply Qeq_bool_neq in E. split.
      * now rewrite <- HI.
      * now rewrite HE, HI.
  - now rewrite Hl, Hd, Hh.
Qed.

Lemma key_firstOfSlot x : keyOfSlot (firstOfSlot x) = keyOfPost x.
Proof. reflexivity. Qed.

Lemma key_addToSlot (e : BestTimeSlot.t) (x : LinkedInPostRecord.t) :
  keyOfPost x = keyOfSlot e -> keyOfSlot (addToSlot e x) = keyOfSlot e.
Proof. reflexivity. Qed.

Lemma sameHour_eq (a b : option Z) : sameHour a b = true <-> a = b.
Proof.
  destruct a as [x|], b as [y|]; cbn; try (split; congruence).
  rewrite Z.eqb_eq. split; congruence.
Qed.

(** Every slot stands for the posts of its day and hour. *)
Lemma slot_summarizes rawPosts s :
  In s (timeSlots rawPosts) ->
  postsOfSlot s rawPosts <> [] /\ slotSummarizes s (postsOfSlot s rawPosts).
Proof.
  rewrite timeSlots_fold. intros Hs.
  apply in_map_iff in Hs as ([k v] & <- & Hin). cbn [snd].
  pose proof (key_of_entry keyOfPost firstOfSlot addToSlot keyOfSlot
                key_firstOfSlot key_addToSlot _ k v Hin) as Hk.
  apply in_get_Some in Hin.
  2:{ apply NoDup_keys_fold. constructor. }
  rewrite get_groupFold in Hin.
  destruct (foldGroup_slot _ _ Hin) as (x & xs & Hg & Hd & Hh & Hsum).
  assert (E : postsOfSlot v rawPosts
              = groupOf keyOfPost k (linkedInUniquePosts rawPosts)).
  { unfold postsOfSlot, groupOf. apply filter_ext. intros post.
    rewrite <- Hk, Hd, Hh. cbn beta.
    destruct (String.eqb_spec
                (slotKeyOf (dayNameOf (LinkedInPostRecord.createdAt post))
                   (slotHour post))
                (slotKeyOf (dayNameOf (LinkedInPostRecord.createdAt x))
                   (slotHour x))) as [H|H].
    - apply slotKeyOf_inj in H as [-> ->]; try apply dayNameOf_In.
      rewrite String.eqb_refl. cbn. now apply sameHour_eq.
    - apply not_true_iff_false. rewrite andb_true_iff, sameHour_eq.
      intros [H1 H2]. apply String.eqb_eq in H1. apply H. now rewrite H1, H2. }
  rewrite E. split; [|exact Hsum]. rewrite Hg. discriminate.
Qed.

Lemma slots_NoDup rawPosts :
  NoDup (map (fun s => (BestTimeSlot.day s, BestTimeSlot.hour s))
           (timeSlots rawPosts)).
Proof.
  assert (H : NoDup (map keyOfSlot (timeSlots rawPosts))).
  { rewrite timeSlots_fold, (MergeFacts.values_keys keyOfSlot).
    - apply NoDup_keys_fold. constructor.
    - intros k v.
      apply (key_of_entry keyOfPost firstOfSlot addToSlot keyOfSlot
               key_firstOfSlot key_addToSlot). }
  revert H. generalize (timeSlots rawPosts) as l.
  induction l as [|s l IH]; cbn [map]; intros Hnd; [constructor|].
  inversion Hnd as [|? ? Hnotin Hnd']; subst. constructor; [|now apply IH].
  intros Hin. apply Hnotin. apply in_map_iff in Hin as (s' & E & Hs').
  apply in_map_iff. exists s'. split; [|exact Hs'].
  injection E as -> ->. reflexivity.
Qed.

Lemma bySlotRate_le (a b : BestTimeSlot.t) :
  bySlotRate a b <= 0 <-> (slotRate b <= slotRate a)%Q.
Proof. apply Qsign_minus_nonpos. Qed.

Lemma bySlotRate_anti (a b : BestTimeSlot.t) :
  0 < bySlotRate a b -> bySlotRate b a <= 0.
Proof.
  unfold bySlotRate. rewrite Qsign_minus_pos, Qsign_minus_nonpos.
  apply Qlt_le_weak.
Qed.

Lemma bySlotRate_trans (a b c : BestTimeSlot.t) :
  bySlotRate a b <= 0 -> bySlotRate b c <= 0 -> bySlotRate a c <= 0.
Proof.
  rewrite !bySlotRate_le. intros H1 H2. eapply Qle_trans; eassumption.
Qed.

(** X20. The best times of platform B.  Every slot returned stands for
    the deduplicated posts of its day of the week and hour (or, without
    an hour, for the posts of that day whose time is not known): there is
    such a post, [posts] is their number, [impressions] and
    [engagements] are the sums over them, and the rate is the
    engagements over the impressions, or [null] when the impressions
    are zero.  No slot is dropped for having no post; the slots returned
    are the first five in descending order of rate, a [null] rate
    counting as zero, and they differ in day or hour. *)
Theorem linkedInBestTimes_spec (rawPosts : list LinkedInPostRecord.t) :
  let bestTimes := linkedInBestTimes rawPosts in
  (forall slot, In slot bestTimes ->
     postsOfSlot slot rawPosts <> []
     /\ slotSummarizes slot (postsOfSlot slot rawPosts))
  /\ NoDup (map (fun s => (BestTimeSlot.day s, BestTimeSlot.hour s)) bestTimes)
  /\ List.length bestTimes = Nat.min 5 (List.length (timeSlots rawPosts))
  /\ StronglySorted (fun a b => (slotRate b <= slotRate a)%Q) bestTimes
  /\ exists rest,
       Permutation (bestTimes ++ rest) (timeSlots rawPosts)
       /\ forall a b, In a bestTimes -> In b rest ->
            (slotRate b <= slotRate a)%Q.
Proof.
  assert (Hall : filter (fun slot => 0 <? BestTimeSlot.posts slot)
                   (timeSlots rawPosts) = timeSlots rawPosts).
  { apply MissingDaysFacts.filter_all. intros s Hs.
    destruct (slot_summarizes rawPosts s Hs) as (Hne & Hp & _).
    apply Z.ltb_lt. rewrite Hp.
    destruct (postsOfSlot s rawPosts); [contradiction|cbn; lia]. }
  destruct (top_of_sorted bySlotRate bySlotRate_anti bySlotRate_trans 5
              (timeSlots rawPosts)) as (Hperm & Hlen & Hs & Hrest).
  cbn zeta. unfold linkedInBestTimes. rewrite Hall.
  set (bestTimes := firstn 5 (sortBy bySlotRate (timeSlots rawPosts))) in *.
  set (rest := skipn 5 (sortBy bySlotRate (timeSlots rawPosts))) in *.
  split; [|split; [|split; [|split]]].
  - intros slot Hin. apply slot_summarizes.
    eapply Permutation_in; [exact Hperm|]. apply in_or_app. now left.
  - apply (NoDup_map_app_l _ _ rest).
    eapply Permutation_NoDup; [|apply (slots_NoDup rawPosts)].
    apply Permutation_map. now symmetry.
  - exact Hlen.
  - eapply MissingDaysFacts.StronglySorted_weaken; [|exact Hs].
    intros a b _ _. apply bySlotRate_le.
  - exists rest. split; [exact Hperm|].
    intros a b Ha Hb. apply bySlotRate_le. now apply Hrest.
Qed.

(** Two posts of a Monday at 15 h and one of that Monday without a time
    of day: two slots, the one with the higher rate first. *)
Example linkedInBestTimes_sample :
  map (fun s => (BestTimeSlot.label s, BestTimeSlot.posts s,
                 BestTimeSlot.engagementRate s))
    (linkedInBestTimes
       [ LinkedInPostRecord.mk "a" "l/a" (Sample.jan15 + 55800000) 100 0 0 4 1 0
           None "" true;
         LinkedInPostRecord.mk "b" "l/b" Sample.jan15 50 0 0 10 0 0 None ""
           false;
         LinkedInPostRecord.mk "c" "l/c" (Sample.jan15 + 54000000) 100 0 0 5 0 0
           None "" true ])
  = [ ("Mon"%string, 1, Some ((0 + (10 + 0 + 0)) / (0 + 50))%Q);
      ("Mon 15:00"%string, 2,
       Some ((0 + (4 + 1 + 0) + (5 + 0 + 0)) / (0 + 100 + 100))%Q) ].
Proof. vm_compute. reflexivity. Qed.

End BestTimeFacts.

(* ------------------------------------------------------------------ *)
(** ** The data of a platform                                          *)
(* ------------------------------------------------------------------ *)

Module PlatformDataFacts.
Import JsMap SortFacts TotalsFacts.

Section Facts.
Variable formatMonthLabel : string -> string.

Local Abbreviation build := (buildPlatformData formatMonthLabel).

Lemma totals_of_series (daily : list DailyMetric.t) (field : MetricKey.t) :
  (MonthSummary.get field (PlatformData.totals (build daily))
   == Qsum (map (DailyMetric.get field) daily))%Q.
Proof.
  unfold buildPlatformData, summarizeTotals, aggregateByMonth.
  cbn [PlatformData.totals]. rewrite get_summarize.
  rewrite (Qsum_perm _ _ (Permutation_map _ (sortBy_perm _ _))).
  rewrite buckets_total. destruct field; cbn; ring.
Qed.

Lemma days_of_series (daily : list DailyMetric.t) :
  MonthSummary.days (PlatformData.totals (build daily))
  = Z.of_nat (List.length daily).
Proof.
  unfold buildPlatformData, summarizeTotals, aggregateByMonth.
  cbn [PlatformData.totals]. rewrite days_summarize.
  rewrite (Zsum_perm _ _ (Permutation_map _ (sortBy_perm _ _))).
  rewrite buckets_days. cbn. lia.
Qed.

(** X21. The combined totals of the dashboard are the totals of the two
    platforms added up, counter by counter, and so is the number of days;
    the number of days of the combined coverage is the number of records
    of both series, so that a calendar day that both platforms report
    counts twice. *)
Theorem combinedData_totals (xMetrics linkedInMetrics : list DailyMetric.t) :
  let combined := combinedData formatMonthLabel xMetrics linkedInMetrics in
  (forall field,
     (MonthSummary.get field (PlatformData.totals combined)
      == MonthSummary.get field (PlatformData.totals (build xMetrics))
         + MonthSummary.get field (PlatformData.totals (build linkedInMetrics)))%Q)
  /\ MonthSummary.days (PlatformData.totals combined)
     = MonthSummary.days (PlatformData.totals (build xMetrics))
       + MonthSummary.days (PlatformData.totals (build linkedInMetrics))
  /\ Coverage.days (PlatformData.coverage combined)
     = Coverage.days (PlatformData.coverage (build xMetrics))
       + Coverage.days (PlatformData.coverage (build linkedInMetrics)).
Proof.
  cbn zeta. unfold combinedData. split; [|split].
  - intros field. rewrite !totals_of_series, map_app. apply Qsum_app.
  - rewrite !days_of_series, length_app. lia.
  - assert (H : forall daily,
              Coverage.days (PlatformData.coverage (build daily))
              = Z.of_nat (List.length daily)).
    { intros [|d daily]; [reflexivity|].
      unfold buildPlatformData, buildCoverage.
      cbn [PlatformData.coverage Coverage.days].
      now rewrite (Permutation_length (sortBy_perm _ _)). }
    rewrite !H, length_app. lia.
Qed.
End Facts.

End PlatformDataFacts.

(* ------------------------------------------------------------------ *)
(** ** Numbers with thousands separators                               *)
(* ------------------------------------------------------------------ *)

Module ToNumberFacts.
Import JsString NumberParser.

Lemma decimalDigit_cases (c : ascii) (d : Z) :
  decimalDigit c = Some d ->
  In c ["0"; "1"; "2"; "3"; "4"; "5"; "6"; "7"; "8"; "9"]%char.
Proof.
  destruct c as [[] [] [] [] [] [] [] []]; vm_compute; intros H;
    try discriminate H; auto 11.
Qed.

(** What the parser needs to know of a decimal digit. *)
Lemma decimalDigit_facts (c : ascii) (d : Z) :
  decimalDigit c = Some d ->
  digitValue 10 c = Some d
  /\ isWhiteSpace c = false
  /\ Ascii.eqb c "," = false
  /\ forall rest, splitSign (String c rest) = (false, String c rest)
                  /\ String.eqb (String c rest) "Infinity" = false.
Proof.
  intros H. pose proof (decimalDigit_cases c d H) as Hc. cbn in Hc.
  repeat (destruct Hc as [<-|Hc];
          [split; [exact H|]; repeat split|]).
  destruct Hc.
Qed.

Lemma NonDecimal_digits (t : string) :
  digitsOnly t = true -> NonDecimalIntegerLiteral t = None.
Proof.
  destruct t as [|c t]; [reflexivity|]. cbn [digitsOnly].
  destruct (decimalDigit c) as [d|] eqn:E; [|discriminate].
  pose proof (decimalDigit_cases c d E) as Hc. cbn in Hc.
  destruct Hc as [<-|Hc].
  - destruct t as [|p t]; [reflexivity|]. cbn [digitsOnly].
    destruct (decimalDigit p) as [d'|] eqn:E'; [|discriminate].
    intros _. pose proof (decimalDigit_cases p d' E') as Hp. cbn in Hp.
    repeat (destruct Hp as [<-|Hp]; [reflexivity|]). destruct Hp.
  - intros _. repeat (destruct Hc as [<-|Hc]; [reflexivity|]). destruct Hc.
Qed.

Lemma trimStart_digits (t : string) : digitsOnly t = true -> trimStart t = t.
Proof.
  destruct t as [|c t]; [reflexivity|]. cbn [digitsOnly trimStart].
  destruct (decimalDigit c) as [d|] eqn:E; [|discriminate].
  destruct (decimalDigit_facts c d E) as (_ & -> & _). reflexivity.
Qed.

Lemma trimEnd_digits (t : string) : digitsOnly t = true -> trimEnd t = t.
Proof.
  induction t as [|c t IH]; [reflexivity|]. cbn [digitsOnly trimEnd].
  destruct (decimalDigit c) as [d|] eqn:E; [|discriminate].
  destruct (decimalDigit_facts c d E) as (_ & Hws & _).
  intros H. rewrite (IH H), Hws. now destruct t.
Qed.

Lemma trim_digits (t : string) : digitsOnly t = true -> trim t = t.
Proof.
  intros H. unfold trim. rewrite (trimStart_digits t H). now apply trimEnd_digits.
Qed.

Lemma grouped_digits (s : string) : forall acc n,
  groupedValue acc s = Some n -> digitsOnly (removeAll "," s) = true.
Proof.
  induction s as [|c s IH]; intros acc n; cbn [groupedValue removeAll];
    [reflexivity|].
  destruct (Ascii.eqb c ",") eqn:Ec; [apply IH|].
  destruct (decimalDigit c) as [d|] eqn:E; [|discriminate].
  cbn [digitsOnly]. rewrite E. apply IH.
Qed.

Lemma grouped_takeDigits (s : string) : forall acc len n,
  groupedValue acc s = Some n ->
  takeDigits acc len (removeAll "," s)
  = (n, len + Z.of_nat (String.length (removeAll "," s)), EmptyString).
Proof.
  induction s as [|c s IH]; intros acc len n; cbn [groupedValue removeAll].
  - intros [= ->]. cbn. now rewrite Z.add_0_r.
  - destruct (Ascii.eqb c ",") eqn:Ec; [apply IH|].
    destruct (decimalDigit c) as [d|] eqn:E; [|discriminate].
    destruct (decimalDigit_facts c d E) as (Hd & _).
    intros H. cbn [takeDigits String.length]. rewrite Hd, (IH _ _ _ H).
    do 2 f_equal. lia.
Qed.

Lemma scale10_whole (n : Z) : (scale10 n 0 == inject_Z n)%Q.
Proof.
  unfold scale10. cbn [Z.leb Z.compare]. rewrite Qred_correct.
  change (10 ^ 0) with 1. now rewrite Z.mul_1_r.
Qed.

(** [Number] of a string of digits, at least one. *)
Lemma Number_digits (t : string) (n len : Z) :
  digitsOnly t = true -> t <> EmptyString ->
  takeDigits 0 0 t = (n, len, EmptyString) -> 0 < len ->
  Number_ t = JsNumber.ofQ (scale10 n 0).
Proof.
  intros Hd Hne Htake Hlen. unfold Number_.
  rewrite (trim_digits t Hd), (NonDecimal_digits t Hd).
  destruct t as [|c t]; [contradiction|].
  cbn [String.eqb]. unfold StrDecimalLiteral.
  cbn [digitsOnly] in Hd.
  destruct (decimalDigit c) as [d|] eqn:E; [|discriminate].
  destruct (decimalDigit_facts c d E) as (_ & _ & _ & Hc).
  destruct (Hc t) as [-> ->]. rewrite Htake.
  replace (len + 0 =? 0) with false by (symmetry; apply Z.eqb_neq; lia).
  cbn [exponentPart]. destruct n; reflexivity.
Qed.

Lemma groupedValue_nonneg (s : string) : forall acc n,
  0 <= acc -> groupedValue acc s = Some n -> 0 <= n.
Proof.
  induction s as [|c s IH]; intros acc n Hacc; cbn [groupedValue].
  - now intros [= <-].
  - destruct (Ascii.eqb c ","); [now apply IH|].
    destruct (decimalDigit c) as [d|] eqn:E; [|discriminate].
    apply IH. pose proof (decimalDigit_cases c d E) as Hc. cbn in Hc.
    repeat (destruct Hc as [<-|Hc]; [injection E as <-; lia|]). destruct Hc.
Qed.

(** The number read from a cell of digits and separators is the double
    nearest to the number the digits denote, and zero when there is
    none. *)
Lemma toNumber_digits (cell : string) (n : Z) :
  groupedValue 0 cell = Some n ->
  toNumber (U_string cell)
  = match Binary64.round (inject_Z n) with Some v => v | None => 0%Q end.
Proof.
  intros H. unfold toNumber.
  destruct (String.eqb_spec cell "") as [->|Hcell].
  - cbn in H. injection H as <-. reflexivity.
  - pose proof (grouped_digits cell 0 n H) as Hd.
    pose proof (grouped_takeDigits cell 0 0 n H) as Htake.
    rewrite (trim_digits _ Hd).
    destruct (removeAll "," cell) as [|c t] eqn:E.
    + cbn in Htake. injection Htake as <-. reflexivity.
    + rewrite (Number_digits (String c t) n _ Hd ltac:(discriminate) Htake)
        by (cbn [String.length]; lia).
      unfold JsNumber.ofQ.
      rewrite (Binary64Facts.round_comp _ _ (scale10_whole n)).
      now destruct (Binary64.round (inject_Z n)).
Qed.

(** X22. A cell made of decimal digits and thousands separators is read
    as the double nearest to the whole number that its digits denote, the
    separators being dropped wherever they stand: as that very number
    when it is below [2^53], and otherwise with a relative error of at
    most [2^-53].  From [2^1024] on the nearest double is an infinity,
    which [toNumber] turns into zero, and no number below
    [2^1024 - 2^970] is turned into zero that way.  A cell without any
    digit is zero. *)
Theorem toNumber_grouped (cell : string) (n : Z) :
  groupedValue 0 cell = Some n ->
  0 <= n
  /\ (n < 2 ^ 53 -> (toNumber (U_string cell) == inject_Z n)%Q)
  /\ (2 ^ 1024 <= n -> toNumber (U_string cell) = 0%Q)
  /\ ((toNumber (U_string cell) = 0%Q /\ 2 ^ 1024 - 2 ^ 970 <= n)
      \/ (Qabs (toNumber (U_string cell) - inject_Z n)
          <= inject_Z n * (1 # 9007199254740992))%Q).
Proof.
  intros H. pose proof (groupedValue_nonneg cell 0 n (Z.le_refl 0) H) as Hn.
  rewrite (toNumber_digits cell n H).
  assert (Habs : Qabs (inject_Z n) = inject_Z n).
  { rewrite Binary64Facts.Qabs_inject_Z. f_equal. lia. }
  split; [exact Hn|split; [|split]].
  - intros Hs. rewrite Binary64Facts.round_whole by lia. reflexivity.
  - intros Hb. rewrite Binary64Facts.round_overflow; [reflexivity|].
    rewrite Habs, (Binary64Facts.two_of_Z 1024) by lia.
    now rewrite <- Zle_Qle.
  - destruct (Binary64.round (inject_Z n)) as [v|] eqn:E.
    + right. destruct (Z.eq_dec n 0) as [->|Hne].
      * vm_compute in E. injection E as <-. discriminate.
      * pose proof (Binary64Facts.round_relative (inject_Z n) v) as Hr.
        rewrite Habs in Hr. change (2 ^ (-53))%Q with (1 # 9007199254740992)%Q in Hr.
        apply Hr; [|exact E].
        apply Qle_trans with 1%Q; [discriminate|].
        change 1%Q with (inject_Z 1). rewrite <- Zle_Qle. lia.
    + left. split; [reflexivity|].
      apply Binary64Facts.round_None in E. rewrite Habs in E.
      rewrite (Binary64Facts.two_of_Z 1024), (Binary64Facts.two_of_Z 970) in E
        by lia.
      unfold Qminus in E. rewrite <- inject_Z_opp, <- inject_Z_plus in E.
      now rewrite <- Zle_Qle in E.
Qed.

Lemma toNumber_grouped_witness :
  groupedValue 0 "1,234,567" = Some 1234567
  /\ 1234567 < 2 ^ 53
  /\ (toNumber (U_string "1,234,567") == inject_Z 1234567)%Q.
Proof.
  split; [reflexivity|]. split; [reflexivity|].
  exact (proj1 (proj2 (toNumber_grouped "1,234,567" 1234567 eq_refl))
           eq_refl).
Defined.

(** What is no number is zero: a percentage, a dash, a word; a
    fraction and a negative number are read as they are. *)
Example toNumber_samples :
  map (fun s => toNumber (U_string s))
    ["12%"; "-"; "n/a"; " 4.5 "; "-3"; "1e3"]%string
  = [0; 0; 0; 9 # 2; -3 # 1; 1000 # 1]%Q.
Proof. vm_compute. reflexivity. Qed.

(** Beyond [2^53] not every whole number is a double, and a number of
    310 digits is beyond all of them: 9007199254740993 is read as
    9007199254740992, a tenth as the double nearest to it, and the long
    number as zero. *)
Example toNumber_rounded :
  map (fun s => toNumber (U_string s))
    [ "9,007,199,254,740,993"; "0.1";
      String "1" (repeat_char "0" 309); "1e400"; "1e-400" ]%string
  = [ 9007199254740992 # 1; 3602879701896397 # 36028797018963968; 0; 0; 0 ]%Q.
Proof. vm_compute. reflexivity. Qed.

End ToNumberFacts.

(* ------------------------------------------------------------------ *)
(** ** The page                                                        *)
(* ------------------------------------------------------------------ *)

Module PageFacts.
Import JsMap JsMapFacts GroupFoldFacts SortFacts AggregateFacts ValidationFacts.

Section Months.
Variable formatMonthLabel : string -> string.

Local Abbreviation monthOf := (fun m => toMonthKey (DailyMetric.date m)).
Local Abbreviation firstBucket :=
  (fun m => newBucket formatMonthLabel (toMonthKey (DailyMetric.date m)) m).

Lemma countDaysForMonth_group (daily : list DailyMetric.t) (monthKey : string) :
  countDaysForMonth daily monthKey
  = Z.of_nat (List.length (groupOf monthOf monthKey daily)).
Proof. reflexivity. Qed.

Lemma countDaysForMonth_app (a b : list DailyMetric.t) (monthKey : string) :
  countDaysForMonth (a ++ b) monthKey
  = countDaysForMonth a monthKey + countDaysForMonth b monthKey.
Proof.
  unfold countDaysForMonth. rewrite filter_app, length_app. lia.
Qed.

(** The [days] of a month summary is the number of records of the
    month. *)
Lemma summary_days (daily : list DailyMetric.t) (s : MonthSummary.t) :
  In s (aggregateByMonth formatMonthLabel daily) ->
  MonthSummary.days s = countDaysForMonth daily (MonthSummary.monthKey s).
Proof.
  intros Hs. unfold aggregateByMonth in Hs.
  apply (Permutation_in _ (sortBy_perm _ _)) in Hs.
  rewrite buckets_fold in Hs. apply in_map_iff in Hs as ([k v] & <- & Hin).
  cbn [snd].
  pose proof (key_of_entry monthOf firstBucket addToBucket
                MonthSummary.monthKey (fun x => eq_refl) (fun e x _ => eq_refl)
                daily k v Hin) as Hk.
  apply in_get_Some in Hin.
  2:{ apply NoDup_keys_fold. constructor. }
  rewrite get_groupFold in Hin. rewrite Hk, countDaysForMonth_group.
  destruct (groupOf monthOf k daily) as [|x xs]; cbn [foldGroup] in Hin;
    [discriminate|].
  apply CalendarDayFacts.Some_inj in Hin. subst v.
  rewrite days_fold_addToBucket.
  cbn [newBucket MonthSummary.days List.length]. lia.
Qed.

(** X23. The day counts that the page shows for a month agree with the
    month summaries: for every month summary of a series,
    [countDaysForMonth] of the series and the month key of the summary is
    the [days] of the summary; it is zero for a month without summary;
    and for a month summary of the combined data, the counts of the two
    platforms add up to its [days]. *)
Theorem countDaysForMonth_days :
  (forall daily s,
     In s (aggregateByMonth formatMonthLabel daily) ->
     countDaysForMonth daily (MonthSummary.monthKey s) = MonthSummary.days s)
  /\ (forall daily monthKey,
        (forall s, In s (aggregateByMonth formatMonthLabel daily) ->
                   MonthSummary.monthKey s <> monthKey) ->
        countDaysForMonth daily monthKey = 0)
  /\ (forall xMetrics linkedInMetrics s,
        In s (PlatformData.monthly
                (combinedData formatMonthLabel xMetrics linkedInMetrics)) ->
        countDaysForMonth xMetrics (MonthSummary.monthKey s)
        + countDaysForMonth linkedInMetrics (MonthSummary.monthKey s)
        = MonthSummary.days s).
Proof.
  split; [|split].
  - intros daily s Hs. symmetry. now apply summary_days.
  - intros daily monthKey Hnone. rewrite countDaysForMonth_group.
    destruct (groupOf monthOf monthKey daily) as [|x xs] eqn:E; [reflexivity|].
    exfalso.
    assert (Hx : In x daily /\ monthOf x = monthKey).
    { assert (H : In x (groupOf monthOf monthKey daily)) by (rewrite E; now left).
      apply filter_In in H as [H1 H2]. split; [exact H1|].
      now apply String.eqb_eq. }
    destruct Hx as [Hx Hkx].
    destruct (filter_values_groupFold monthOf firstBucket addToBucket
                MonthSummary.monthKey (fun x => eq_refl) (fun e x _ => eq_refl)
                daily x Hx) as (s & _ & Hone).
    assert (Hs : In s (filter (fun o => String.eqb (MonthSummary.monthKey o)
                                          (monthOf x))
                         (values (fold_left
                                    (upsert monthOf firstBucket addToBucket)
                                    daily empty))))
      by (rewrite Hone; now left).
    apply filter_In in Hs as [Hs Hks]. apply String.eqb_eq in Hks.
    apply (Hnone s).
    + unfold aggregateByMonth.
      apply (Permutation_in _ (Permutation_sym (sortBy_perm _ _))).
      rewrite buckets_fold. exact Hs.
    + congruence.
  - intros xMetrics linkedInMetrics s Hs.
    unfold combinedData, buildPlatformData in Hs. cbn [PlatformData.monthly] in Hs.
    rewrite (summary_days _ _ Hs). symmetry. apply countDaysForMonth_app.
Qed.
End Months.

Section Status.
Variable formatFilePathLabel : list string -> string.

Lemma missing_none (headers : list string) (groups : list ColumnGroup.t) :
  (0 <? List.length
          (findMissingGroups (map JsString.toLowerCase headers) groups))%nat
  = false
  <-> forall group, In group groups -> ~ groupUnmet headers group.
Proof.
  rewrite Nat.ltb_ge. split.
  - intros Hlen group Hin Hun.
    assert (H : In (ColumnGroup.label group)
                  (findMissingGroups (map JsString.toLowerCase headers) groups))
      by (apply findMissingGroups_In; now exists group).
    destruct (findMissingGroups _ groups); [destruct H|cbn in Hlen; lia].
  - intros Hall.
    destruct (findMissingGroups (map JsString.toLowerCase headers) groups)
      as [|name rest] eqn:E; [cbn; lia|].
    assert (H : In name
                  (findMissingGroups (map JsString.toLowerCase headers) groups))
      by (rewrite E; now left).
    apply findMissingGroups_In in H as (group & Hin & _ & Hun).
    now destruct (Hall group Hin).
Qed.

(** X24. The status that the page shows for a data file.  It is
    [Missing file] exactly when the file is missing; otherwise
    [Needs attention] exactly when a required column group has no
    header, [Partial] exactly when every required group has a header and
    an optional one has none, and [OK] exactly when every required and
    every optional group has a header under one of its names, letter
    case apart. *)
Theorem getValidationStatus_spec (id label : string)
  (filePaths : list string) (source : CsvSource.t) (rowCount : Z)
  (headers : list string) (requiredGroups optionalGroups : list ColumnGroup.t) :
  let status :=
    ValidationStatus.label
      (getValidationStatus
         (buildCsvValidation formatFilePathLabel id label filePaths source
            rowCount headers requiredGroups optionalGroups)) in
  let met groups :=
    forall group, In group groups -> ~ groupUnmet headers group in
  (status = "Missing file"%string <-> source = CsvSource.missing)
  /\ (status = "Needs attention"%string
      <-> source <> CsvSource.missing /\ ~ met requiredGroups)
  /\ (status = "Partial"%string
      <-> source <> CsvSource.missing /\ met requiredGroups
          /\ ~ met optionalGroups)
  /\ (status = "OK"%string
      <-> source <> CsvSource.missing /\ met requiredGroups
          /\ met optionalGroups).
Proof.
  cbn zeta. unfold getValidationStatus, buildCsvValidation.
  cbn [CsvValidation.source CsvValidation.missingRequired
       CsvValidation.missingOptional].
  pose proof (missing_none headers requiredGroups) as Hreq.
  pose proof (missing_none headers optionalGroups) as Hopt.
  set (required := (0 <? List.length
                           (findMissingGroups
                              (map JsString.toLowerCase headers)
                              requiredGroups))%nat) in *.
  set (optional := (0 <? List.length
                           (findMissingGroups
                              (map JsString.toLowerCase headers)
                              optionalGroups))%nat) in *.
  clearbody required optional.
  destruct source, required, optional; cbn [ValidationStatus.label];
    intuition (try discriminate; try congruence).
Qed.
End Status.

End PageFacts.

(* ------------------------------------------------------------------ *)
(** ** HTML entities                                                   *)
(* ------------------------------------------------------------------ *)

Module EntityFacts.
Import JsString.

Lemma prefix_head_ne (a b : ascii) (n s : string) :
  a <> b -> String.prefix (String a n) (String b s) = false.
Proof. intros H. cbn. destruct (ascii_dec a b); [contradiction|reflexivity]. Qed.

Lemma prefix_head_eq (a : ascii) (n s : string) :
  String.prefix (String a n) (String a s) = String.prefix n s.
Proof. cbn. destruct (ascii_dec a a); [reflexivity|contradiction]. Qed.

Lemma prefix_append (n rest : string) : String.prefix n (n ++ rest) = true.
Proof.
  induction n as [|a n IH]; cbn [append]; [now destruct rest|].
  now rewrite prefix_head_eq.
Qed.

Lemma replaceFrom_skip (needle replacement : string) (passed rest : string) :
  replaceFrom needle replacement (String.length passed) (passed ++ rest)
  = replaceFrom needle replacement 0 rest.
Proof.
  induction passed as [|c passed IH]; cbn [String.length append].
  - now destruct rest.
  - exact IH.
Qed.

(** A match is replaced, and the search goes on after it. *)
Lemma replaceFrom_match (a : ascii) (n replacement rest : string) :
  replaceFrom (String a n) replacement 0 (String a n ++ rest)
  = (replacement ++ replaceFrom (String a n) replacement 0 rest)%string.
Proof.
  cbn [append replaceFrom].
  change (String a (n ++ rest)) with (String a n ++ rest)%string.
  rewrite prefix_append.
  replace (String.length (String a n) - 1)%nat with (String.length n)
    by (cbn [String.length]; lia).
  now rewrite replaceFrom_skip.
Qed.

(** A character that does not start a match is kept. *)
Lemma replaceFrom_keep (needle replacement : string) (c : ascii) (s : string) :
  String.prefix needle (String c s) = false ->
  replaceFrom needle replacement 0 (String c s)
  = String c (replaceFrom needle replacement 0 s).
Proof. intros H. cbn [replaceFrom]. now rewrite H. Qed.

(** A text without the first character of the needle has no match. *)
Lemma replaceFrom_absent (a : ascii) (n replacement s : string) :
  includes a s = false -> replaceAll (String a n) replacement s = s.
Proof.
  unfold replaceAll. induction s as [|c s IH]; cbn [includes]; [reflexivity|].
  intros H. apply orb_false_iff in H as [Hc Hs].
  rewrite replaceFrom_keep.
  - now rewrite IH.
  - apply prefix_head_ne. intros ->. now rewrite Ascii.eqb_refl in Hc.
Qed.

Lemma existsb_without (c x : ascii) (special : list ascii) :
  existsb (Ascii.eqb c) (filter (fun y => negb (Ascii.eqb y x)) special)
  = existsb (Ascii.eqb c) special && negb (Ascii.eqb c x).
Proof.
  induction special as [|y special IH]; cbn [filter existsb]; [reflexivity|].
  destruct (Ascii.eqb_spec y x) as [->|Hyx]; cbn [negb existsb].
  - rewrite IH. destruct (Ascii.eqb c x); cbn;
      [now rewrite !andb_false_r|now rewrite !andb_true_r].
  - rewrite IH. destruct (Ascii.eqb_spec c y) as [->|Hcy]; cbn; [|reflexivity].
    destruct (Ascii.eqb_spec y x); [contradiction|reflexivity].
Qed.

Lemma entityOf_plain (c : ascii) :
  c <> "<"%char -> c <> ">"%char -> c <> "&"%char -> c <> doubleQuote ->
  c <> "'"%char -> entityOf c = String c EmptyString.
Proof.
  intros H1 H2 H3 H4 H5. unfold entityOf.
  apply Ascii.eqb_neq in H1, H2, H3, H4, H5.
  now rewrite H1, H2, H3, H4, H5.
Qed.

Local Ltac keep_all :=
  repeat (rewrite replaceFrom_keep
            by first [ apply prefix_head_ne; discriminate
                     | rewrite prefix_head_eq; apply prefix_head_ne;
                       discriminate ]).

(** An entity other than the needle is kept as it is. *)
Lemma replaceFrom_other (x c : ascii) (rest : string) :
  In x ["<"; ">"; "&"; doubleQuote; "'"]%char ->
  c <> x -> c <> "&"%char ->
  replaceFrom (entityOf x) (String x EmptyString) 0 (entityOf c ++ rest)
  = (entityOf c ++ replaceFrom (entityOf x) (String x EmptyString) 0 rest)%string.
Proof.
  intros Hx Hcx Hc.
  destruct (Ascii.eqb_spec c "<") as [->|H1];
    [|destruct (Ascii.eqb_spec c ">") as [->|H2];
      [|destruct (Ascii.eqb_spec c doubleQuote) as [->|H4];
        [|destruct (Ascii.eqb_spec c "'") as [->|H5]]]].
  5:{ rewrite (entityOf_plain c H1 H2 Hc H4 H5). cbn [append].
      apply replaceFrom_keep.
      cbn in Hx. repeat (destruct Hx as [<-|Hx];
                         [apply prefix_head_ne; congruence|]).
      destruct Hx. }
  all: cbn in Hx;
    repeat (destruct Hx as [<-|Hx];
            [first [ now contradiction Hcx
                   | cbn [entityOf Ascii.eqb Bool.eqb append doubleQuote];
                     cbn; keep_all; reflexivity ]|]);
    destruct Hx.
Qed.

(** One pass of the decoder turns the entity of one character back into
    the character, in a text that has no ampersand of its own. *)
Lemma decode_pass (x : ascii) (special : list ascii) (text : string) :
  In x ["<"; ">"; "&"; doubleQuote; "'"]%char ->
  includes "&" text = false ->
  replaceAll (entityOf x) (String x EmptyString) (escapeWith special text)
  = escapeWith (filter (fun y => negb (Ascii.eqb y x)) special) text.
Proof.
  intros Hx. unfold replaceAll.
  induction text as [|c text IH]; cbn [includes escapeWith]; [reflexivity|].
  intros H. apply orb_false_iff in H as [Hc Htext].
  apply Ascii.eqb_neq in Hc. specialize (IH Htext).
  rewrite existsb_without.
  destruct (existsb (Ascii.eqb c) special) eqn:E; cbn [andb].
  - destruct (Ascii.eqb_spec c x) as [->|Hcx]; cbn [negb].
    + assert (Hentity : exists a n, entityOf x = String a n).
      { cbn in Hx. repeat (destruct Hx as [<-|Hx]; [now eexists _, _|]).
        destruct Hx. }
      destruct Hentity as (a & n & Hentity).
      rewrite Hentity in *. rewrite replaceFrom_match, IH. reflexivity.
    + rewrite (replaceFrom_other x c _ Hx Hcx Hc), IH. reflexivity.
  - cbn [append]. rewrite replaceFrom_keep, IH; [reflexivity|].
    cbn in Hx. repeat (destruct Hx as [<-|Hx];
                       [apply prefix_head_ne; congruence|]).
    destruct Hx.
Qed.

Lemma escapeWith_nil (text : string) : escapeWith [] text = text.
Proof.
  induction text as [|c text IH]; cbn [escapeWith existsb append];
    [reflexivity|now rewrite IH].
Qed.

(** X25. [decodeHtmlEntities] leaves unchanged a value without an
    ampersand, and it undoes the escaping of a text that has no
    ampersand of its own: when the five characters that HTML writes as
    entities are written so, decoding gives the text back. *)
Theorem decodeHtmlEntities_spec (text : string) :
  includes "&" text = false ->
  decodeHtmlEntities text = text
  /\ decodeHtmlEntities (escapeHtml text) = text.
Proof.
  intros H. split; unfold decodeHtmlEntities.
  - rewrite (replaceFrom_absent "&" "gt;" ">" text H).
    rewrite (replaceFrom_absent "&" "lt;" "<" text H).
    rewrite (replaceFrom_absent "&" "amp;" "&" text H).
    rewrite (replaceFrom_absent "&" "quot;" _ text H).
    exact (replaceFrom_absent "&" "#39;" "'" text H).
  - unfold escapeHtml.
    rewrite (decode_pass ">" _ text) by (cbn; tauto || exact H).
    cbn [filter Ascii.eqb Bool.eqb negb doubleQuote].
    rewrite (decode_pass "<" _ text) by (cbn; tauto || exact H).
    cbn [filter Ascii.eqb Bool.eqb negb doubleQuote].
    rewrite (decode_pass "&" _ text) by (cbn; tauto || exact H).
    cbn [filter Ascii.eqb Bool.eqb negb doubleQuote].
    change (String doubleQuote EmptyString)
      with (String "034"%char EmptyString).
    rewrite (decode_pass "034"%char _ text) by (cbn; tauto || exact H).
    cbn [filter Ascii.eqb Bool.eqb negb doubleQuote].
    rewrite (decode_pass "'" _ text) by (cbn; tauto || exact H).
    cbn [filter Ascii.eqb Bool.eqb negb]. apply escapeWith_nil.
Qed.

Lemma decodeHtmlEntities_spec_witness :
  includes "&" "a < b" = false
  /\ decodeHtmlEntities (escapeHtml "a < b") = "a < b"%string.
Proof.
  split; [reflexivity|].
  exact (proj2 (decodeHtmlEntities_spec "a < b" eq_refl)).
Defined.

(** The entities are decoded one kind after the other, the ampersand
    before the quotes: the escaped form of the text [&quot;] is decoded
    twice. *)
Example decodeHtmlEntities_twice :
  (escapeHtml "&quot;", decodeHtmlEntities "&amp;quot;",
   decodeHtmlEntities "&lt;b&gt; &amp;lt;")
  = ("&amp;quot;"%string, String doubleQuote EmptyString,
     "<b> &lt;"%string).
Proof. vm_compute. reflexivity. Qed.

End EntityFacts.

(* ------------------------------------------------------------------ *)
(** ** The engagement rate chart                                       *)
(* ------------------------------------------------------------------ *)

Module RateChartFacts.
Import JsMap JsMapFacts SortFacts.

Local Abbreviation keyIs key :=
  (fun m => String.eqb (MonthSummary.monthKey m) key).

Lemma find_append {A : Type} (p : A -> bool) (l l' : list A) :
  find p (l ++ l')
  = match find p l with Some a => Some a | None => find p l' end.
Proof.
  induction l as [|a l IH]; cbn; [reflexivity|]. now destruct (p a).
Qed.

Lemma find_rev_None {A : Type} (p : A -> bool) (l : list A) :
  find p l = None -> find p (rev l) = None.
Proof.
  intros H. destruct (find p (rev l)) as [a|] eqn:E; [|reflexivity].
  apply find_some in E as [Hin Hp]. apply in_rev in Hin.
  now rewrite (find_none _ _ H a Hin) in Hp.
Qed.

Local Abbreviation xPoint :=
  (fun month =>
     RatePoint.mk (MonthSummary.monthKey month) (MonthSummary.label month)
       (calculateRate month) None).

(** The map after the months of platform A. *)
Lemma get_fold_xRateStep (xMonthly : list MonthSummary.t) (key : string) :
  forall map,
    get key (fold_left xRateStep xMonthly map)
    = match lastWith key xMonthly with
      | Some m => Some (xPoint m)
      | None => get key map
      end.
Proof.
  unfold lastWith, firstWith.
  induction xMonthly as [|m xMonthly IH]; intros map; [reflexivity|].
  cbn [fold_left rev]. rewrite IH, find_append.
  destruct (find (keyIs key) (rev xMonthly)); [reflexivity|].
  cbn [find]. unfold xRateStep.
  destruct (String.eqb_spec (MonthSummary.monthKey m) key) as [<-|Hne].
  - apply get_set_same.
  - now apply get_set_other.
Qed.

(** The map after the months of platform B. *)
Lemma get_fold_linkedinRateStep (linkedinMonthly : list MonthSummary.t)
  (key : string) :
  forall map,
    get key (fold_left linkedinRateStep linkedinMonthly map)
    = match firstWith key linkedinMonthly, lastWith key linkedinMonthly with
      | Some first, Some last =>
          Some match get key map with
               | Some existing =>
                   RatePoint.mk (RatePoint.monthKey existing)
                     (RatePoint.label existing) (RatePoint.xRate existing)
                     (calculateRate last)
               | None =>
                   RatePoint.mk (MonthSummary.monthKey first)
                     (MonthSummary.label first) None (calculateRate last)
               end
      | _, _ => get key map
      end.
Proof.
  unfold lastWith, firstWith.
  induction linkedinMonthly as [|m months IH]; intros map; [reflexivity|].
  cbn [fold_left rev find]. rewrite IH, find_append. cbn [find].
  destruct (String.eqb_spec (MonthSummary.monthKey m) key) as [<-|Hne].
  - assert (Hget : get (MonthSummary.monthKey m) (linkedinRateStep map m)
                   = Some match get (MonthSummary.monthKey m) map with
                          | Some existing =>
                              RatePoint.mk (RatePoint.monthKey existing)
                                (RatePoint.label existing)
                                (RatePoint.xRate existing) (calculateRate m)
                          | None =>
                              RatePoint.mk (MonthSummary.monthKey m)
                                (MonthSummary.label m) None (calculateRate m)
                          end).
    { unfold linkedinRateStep.
      destruct (get (MonthSummary.monthKey m) map); apply get_set_same. }
    rewrite Hget.
    destruct (find (keyIs (MonthSummary.monthKey m)) months) as [first|] eqn:Ef.
    + destruct (find (keyIs (MonthSummary.monthKey m)) (rev months))
        as [last|] eqn:El.
      * now destruct (get (MonthSummary.monthKey m) map).
      * destruct (find (keyIs (MonthSummary.monthKey m)) months) eqn:Ef';
          [|discriminate].
        apply find_some in Ef' as [Hin Hp]. apply in_rev in Hin.
        now rewrite (find_none _ _ El _ Hin) in Hp.
    + rewrite (find_rev_None _ _ Ef). reflexivity.
  - assert (Hget : get key (linkedinRateStep map m) = get key map).
    { unfold linkedinRateStep.
      destruct (get (MonthSummary.monthKey m) map); now apply get_set_other. }
    rewrite Hget.
    destruct (find (keyIs key) months) as [first|]; [|reflexivity].
    now destruct (find (keyIs key) (rev months)).
Qed.

Lemma NoDup_keys_steps (xMonthly linkedinMonthly : list MonthSummary.t) :
  NoDup (keys (fold_left linkedinRateStep linkedinMonthly
                 (fold_left xRateStep xMonthly empty))).
Proof.
  assert (Hx : forall l map, NoDup (keys map) ->
                 NoDup (keys (fold_left xRateStep l map))).
  { induction l as [|m l IH]; intros map Hnd; [exact Hnd|].
    apply IH. now apply NoDup_keys_set. }
  assert (Hl : forall l map, NoDup (keys map) ->
                 NoDup (keys (fold_left linkedinRateStep l map))).
  { induction l as [|m l IH]; intros map Hnd; [exact Hnd|].
    apply IH. unfold linkedinRateStep.
    destruct (get (MonthSummary.monthKey m) map); now apply NoDup_keys_set. }
  apply Hl, Hx. constructor.
Qed.

Lemma firstWith_key (key : string) (months : list MonthSummary.t)
  (m : MonthSummary.t) :
  firstWith key months = Some m -> MonthSummary.monthKey m = key /\ In m months.
Proof.
  intros H. apply find_some in H as [Hin Hp]. split; [|exact Hin].
  now apply String.eqb_eq.
Qed.

Lemma lastWith_key (key : string) (months : list MonthSummary.t)
  (m : MonthSummary.t) :
  lastWith key months = Some m -> MonthSummary.monthKey m = key /\ In m months.
Proof.
  intros H. apply firstWith_key in H as [Hk Hin]. split; [exact Hk|].
  now apply in_rev.
Qed.

Lemma lastWith_In (months : list MonthSummary.t) (m : MonthSummary.t) :
  In m months ->
  exists last, lastWith (MonthSummary.monthKey m) months = Some last.
Proof.
  intros Hin. unfold lastWith, firstWith.
  destruct (find (keyIs (MonthSummary.monthKey m)) (rev months)) as [last|] eqn:E;
    [now exists last|].
  apply in_rev in Hin. pose proof (find_none _ _ E m Hin) as H.
  cbn in H. now rewrite String.eqb_refl in H.
Qed.

(** What the map holds under a key, in terms of the two series. *)
Lemma get_points (xMonthly linkedinMonthly : list MonthSummary.t)
  (key : string) (point : RatePoint.t) :
  get key (fold_left linkedinRateStep linkedinMonthly
             (fold_left xRateStep xMonthly empty)) = Some point ->
  RatePoint.monthKey point = key
  /\ RatePoint.xRate point = rateOf (lastWith key xMonthly)
  /\ RatePoint.linkedinRate point = rateOf (lastWith key linkedinMonthly)
  /\ RatePoint.label point
     = match lastWith key xMonthly, firstWith key linkedinMonthly with
       | Some m, _ => MonthSummary.label m
       | None, Some m => MonthSummary.label m
       | None, None => EmptyString
       end
  /\ (lastWith key xMonthly <> None \/ lastWith key linkedinMonthly <> None).
Proof.
  rewrite get_fold_linkedinRateStep, get_fold_xRateStep. cbn [get empty].
  destruct (firstWith key linkedinMonthly) as [first|] eqn:Ef.
  - destruct (lastWith key linkedinMonthly) as [last|] eqn:El.
    + destruct (lastWith key xMonthly) as [m|] eqn:Ex; intros [= <-];
        cbn [RatePoint.monthKey RatePoint.xRate RatePoint.linkedinRate
             RatePoint.label rateOf].
      * apply lastWith_key in Ex as [Hk _].
        repeat split; try assumption; left; discriminate.
      * apply firstWith_key in Ef as [Hk _].
        repeat split; try assumption; right; discriminate.
    + unfold lastWith in El. apply find_rev_None in El.
      rewrite rev_involutive in El. unfold firstWith in Ef. congruence.
  - assert (El : lastWith key linkedinMonthly = None)
      by (apply find_rev_None; exact Ef).
    rewrite El.
    destruct (lastWith key xMonthly) as [m|] eqn:Ex; intros [= <-].
    cbn [RatePoint.monthKey RatePoint.xRate RatePoint.linkedinRate
         RatePoint.label rateOf].
    apply lastWith_key in Ex as [Hk _].
    repeat split; try assumption; left; discriminate.
Qed.

Lemma byPointKey_antisym (a b : RatePoint.t) :
  0 < byPointKey a b -> byPointKey b a <= 0.
Proof.
  unfold byPointKey, JsString.localeCompare.
  rewrite (String.compare_antisym (RatePoint.monthKey a)).
  destruct (String.compare (RatePoint.monthKey b) (RatePoint.monthKey a));
    cbn; lia.
Qed.

(** X26. The engagement rate chart joins the months of the two
    platforms.  Its points are in strictly ascending order of the month
    key; every point is the point of a month that one of the two series
    has; its rate for a platform is the rate of the month summary of that
    platform with its key (the last one, if several have the key), or
    [null] when the platform has none; and every month of either series
    has a point. *)
Theorem buildEngagementRateData_spec
  (xMonthly linkedinMonthly : list MonthSummary.t) :
  let data := buildEngagementRateData xMonthly linkedinMonthly in
  StronglySorted
    (fun a b => String.compare (RatePoint.monthKey a) (RatePoint.monthKey b) = Lt)
    data
  /\ (forall point, In point data ->
        let key := RatePoint.monthKey point in
        RatePoint.xRate point = rateOf (lastWith key xMonthly)
        /\ RatePoint.linkedinRate point = rateOf (lastWith key linkedinMonthly)
        /\ RatePoint.label point
           = match lastWith key xMonthly, firstWith key linkedinMonthly with
             | Some m, _ => MonthSummary.label m
             | None, Some m => MonthSummary.label m
             | None, None => EmptyString
             end
        /\ (lastWith key xMonthly <> None
            \/ lastWith key linkedinMonthly <> None))
  /\ (forall month, In month (xMonthly ++ linkedinMonthly) ->
        exists point, In point data
                      /\ RatePoint.monthKey point = MonthSummary.monthKey month).
Proof.
  cbn zeta. unfold buildEngagementRateData.
  set (points := fold_left linkedinRateStep linkedinMonthly
                (fold_left xRateStep xMonthly empty)).
  pose proof (NoDup_keys_steps xMonthly linkedinMonthly) as Hnd. fold points in Hnd.
  assert (Hentry : forall k p, In (k, p) points ->
            RatePoint.monthKey p = k
            /\ RatePoint.xRate p = rateOf (lastWith k xMonthly)
            /\ RatePoint.linkedinRate p = rateOf (lastWith k linkedinMonthly)
            /\ RatePoint.label p
               = match lastWith k xMonthly, firstWith k linkedinMonthly with
                 | Some m, _ => MonthSummary.label m
                 | None, Some m => MonthSummary.label m
                 | None, None => EmptyString
                 end
            /\ (lastWith k xMonthly <> None
                \/ lastWith k linkedinMonthly <> None)).
  { intros k p Hin. apply get_points. now apply in_get_Some. }
  assert (Hin_data : forall p, In p (sortBy byPointKey (values points)) ->
                               exists k, In (k, p) points).
  { intros p Hp. apply (Permutation_in _ (sortBy_perm _ _)) in Hp.
    apply in_map_iff in Hp as ([k v] & <- & Hin). now exists k. }
  split; [|split].
  - assert (Hkeys : NoDup (map RatePoint.monthKey
                             (sortBy byPointKey (values points)))).
    { eapply Permutation_NoDup.
      - apply Permutation_map. symmetry. apply sortBy_perm.
      - rewrite (MergeFacts.values_keys RatePoint.monthKey); [exact Hnd|].
        intros k v Hin. now apply Hentry. }
    pose proof (sortBy_sorted byPointKey (values points) byPointKey_antisym) as Hs.
    revert Hs Hkeys. generalize (sortBy byPointKey (values points)) as l.
    intros l Hs Hkeys. apply Sorted_StronglySorted.
    { intros a b c. apply AggregateFacts.string_compare_lt_trans. }
    induction Hs as [|a l Hs IH Hhd]; [constructor|].
    inversion Hkeys as [|? ? Hnotin Hkeys']; subst.
    constructor; [now apply IH|].
    destruct Hhd as [|b l Hab]; constructor.
    unfold cmp_le, byPointKey, JsString.localeCompare in Hab.
    destruct (String.compare (RatePoint.monthKey a) (RatePoint.monthKey b))
      eqn:E; [|reflexivity|lia].
    apply String.compare_eq_iff in E. exfalso. apply Hnotin. left. now symmetry.
  - intros point Hp. destruct (Hin_data point Hp) as (k & Hin).
    destruct (Hentry k point Hin) as (Hk & Hx & Hl & Hlabel & Hsome).
    rewrite Hk. now repeat split.
  - intros month Hm.
    assert (Hsome : exists p,
              get (MonthSummary.monthKey month) points = Some p).
    { unfold points. rewrite get_fold_linkedinRateStep, get_fold_xRateStep.
      cbn [get empty]. apply in_app_or in Hm as [Hm|Hm].
      - destruct (lastWith_In _ _ Hm) as (last & ->).
        destruct (firstWith (MonthSummary.monthKey month) linkedinMonthly);
          [|now eexists].
        destruct (lastWith (MonthSummary.monthKey month) linkedinMonthly);
          now eexists.
      - destruct (lastWith_In _ _ Hm) as (last & Hlast). rewrite Hlast.
        destruct (firstWith (MonthSummary.monthKey month) linkedinMonthly)
          eqn:Ef; [now eexists|].
        apply find_rev_None in Ef. unfold lastWith, firstWith in Hlast.
        congruence. }
    destruct Hsome as (p & Hget). exists p.
    pose proof (get_Some_in _ _ _ Hget) as Hin. split.
    + apply (Permutation_in _ (Permutation_sym (sortBy_perm _ _))).
      apply in_map_iff. now exists (MonthSummary.monthKey month, p).
    + now apply Hentry.
Qed.

End RateChartFacts.

(* ------------------------------------------------------------------ *)
(** ** The video figures of platform A                                 *)
(* ------------------------------------------------------------------ *)

Module VideoTotalsFacts.
Import JsMap JsMapFacts KeyFacts MergeMoreFacts TotalsFacts.

Section Facts.
Variable Date_parse : string -> JsNumber.t.
Variable LocalTZA : Z -> Z.
Variable formatMonthLabel : string -> string.

Local Abbreviation build := (buildPlatformData formatMonthLabel).

(** A record built from a row carries the overview figures of its day,
    is a record of platform A and is dated at a UTC midnight. *)
Lemma xDailyRow_overviewOf videoMap row m :
  xDailyRow Date_parse LocalTZA videoMap row = Some m ->
  DailyMetric.source m = Platform.x
  /\ wholeDay m
  /\ DailyMetric.videoWatchViews m = VideoStat.views (overviewOf videoMap m)
  /\ DailyMetric.videoWatchTimeMs m
     = VideoStat.watchTimeMs (overviewOf videoMap m)
  /\ DailyMetric.videoCompletionRateSum m
     = (VideoStat.completionRate (overviewOf videoMap m)
        * VideoStat.views (overviewOf videoMap m))%Q.
Proof.
  intros H. pose proof (VideoJoinFacts.xDailyRow_video _ _ _ _ _ H) as Hv.
  unfold overviewOf.
  assert (Hs : DailyMetric.source m = Platform.x /\ wholeDay m).
  { unfold xDailyRow in H.
    destruct (parseXDate Date_parse LocalTZA _) as [[date|]|] eqn:E;
      try discriminate.
    apply CalendarDayFacts.Some_inj in H. subst m. split; [reflexivity|].
    unfold wholeDay. cbn [DailyMetric.date].
    unfold parseXDate in E. destruct (String.eqb _ ""); [discriminate|].
    destruct (DateObject.ofNumber (Date_parse _)) as [time|]; [|discriminate].
    apply CalendarDayFacts.Some_inj, CalendarDayFacts.Date_UTC_midnight in E.
    rewrite E. apply CalendarDayFacts.midnight_mod. }
  destruct Hs as [Hs Hw]. split; [exact Hs|]. split; [exact Hw|].
  destruct (get (toDayKey (DailyMetric.date m)) videoMap) as [v|].
  - exact Hv.
  - destruct Hv as (-> & -> & ->). now repeat split.
Qed.

Lemma overviewOf_sameDay videoMap (r m : DailyMetric.t) :
  sameDay r m = true -> overviewOf videoMap r = overviewOf videoMap m.
Proof.
  intros H. unfold sameDay in H. apply andb_true_iff in H as [_ H].
  apply Z.eqb_eq, toDayKey_Day in H. unfold overviewOf. now rewrite H.
Qed.

(** The same holds of the records of the merged series. *)
Lemma xDailyMetrics_overviewOf videoMap rows r :
  In r (xDailyMetrics Date_parse LocalTZA videoMap rows) ->
  DailyMetric.source r = Platform.x
  /\ wholeDay r
  /\ DailyMetric.videoWatchViews r = VideoStat.views (overviewOf videoMap r)
  /\ DailyMetric.videoWatchTimeMs r
     = VideoStat.watchTimeMs (overviewOf videoMap r)
  /\ DailyMetric.videoCompletionRateSum r
     = (VideoStat.completionRate (overviewOf videoMap r)
        * VideoStat.views (overviewOf videoMap r))%Q.
Proof.
  intros Hr. unfold xDailyMetrics in Hr. set (metrics := flat_map _ rows) in Hr.
  assert (Hrow : forall m, In m metrics ->
            exists row, xDailyRow Date_parse LocalTZA videoMap row = Some m).
  { intros m Hm. apply in_flat_map in Hm as (row & _ & Hm). exists row.
    destruct (xDailyRow _ _ _ row) as [m'|]; [|destruct Hm].
    destruct Hm as [<-|[]]. reflexivity. }
  assert (Hfield : forall field,
            exists m, In m metrics /\ sameDay r m = true
                      /\ DailyMetric.get field r = DailyMetric.get field m)
    by (intros field; now apply LinkedInDailyFacts.merged_counter_origin).
  destruct (merged_origin metrics r Hr) as (x & xs & Hx & _ & Er).
  destruct (source_fold_mergeFields xs x) as [Hs Hd]. rewrite <- Er in Hs, Hd.
  destruct (Hrow x Hx) as (rowx & Hrowx).
  apply xDailyRow_overviewOf in Hrowx as (Hsx & Hwx & _).
  split; [congruence|]. split; [unfold wholeDay in *; congruence|].
  split; [|split].
  - destruct (Hfield MetricKey.videoWatchViews) as (m & Hm & Hsame & Hget).
    cbn [DailyMetric.get] in Hget. rewrite Hget, (overviewOf_sameDay _ _ _ Hsame).
    destruct (Hrow m Hm) as (row & Hrowm).
    now apply xDailyRow_overviewOf in Hrowm as (_ & _ & H & _).
  - destruct (Hfield MetricKey.videoWatchTimeMs) as (m & Hm & Hsame & Hget).
    cbn [DailyMetric.get] in Hget. rewrite Hget, (overviewOf_sameDay _ _ _ Hsame).
    destruct (Hrow m Hm) as (row & Hrowm).
    now apply xDailyRow_overviewOf in Hrowm as (_ & _ & _ & H & _).
  - destruct (Hfield MetricKey.videoCompletionRateSum)
      as (m & Hm & Hsame & Hget).
    cbn [DailyMetric.get] in Hget. rewrite Hget, (overviewOf_sameDay _ _ _ Hsame).
    destruct (Hrow m Hm) as (row & Hrowm).
    now apply xDailyRow_overviewOf in Hrowm as (_ & _ & _ & _ & H).
Qed.

(** X27. The video figures of platform A, from the overview to the
    page.  Every record of the daily series is a record of platform A
    dated at a UTC midnight and carries the overview figures of its day
    (zero without an entry): the merge changes none of them.  Hence the
    average completion rate that the page shows is the mean of the
    completion rates of the days weighted by their views, and the
    average watch time is the total watch time over the total views, in
    seconds. *)
Theorem xDailyMetrics_video (videoMap : JsMap.t VideoStat.t) (rows : list Row) :
  let daily := xDailyMetrics Date_parse LocalTZA videoMap rows in
  let views r := VideoStat.views (overviewOf videoMap r) in
  let watchTimeMs r := VideoStat.watchTimeMs (overviewOf videoMap r) in
  let completionRate r := VideoStat.completionRate (overviewOf videoMap r) in
  (forall r, In r daily ->
     DailyMetric.source r = Platform.x
     /\ wholeDay r
     /\ DailyMetric.videoWatchViews r = views r
     /\ DailyMetric.videoWatchTimeMs r = watchTimeMs r
     /\ DailyMetric.videoCompletionRateSum r = (completionRate r * views r)%Q)
  /\ (forall average,
        averageCompletionRate (build daily) = Some average ->
        (0 < Qsum (map views daily))%Q
        /\ (average
            == Qsum (map (fun r => completionRate r * views r) daily)
               / Qsum (map views daily))%Q)
  /\ (forall average,
        averageWatchTimeSeconds (build daily) = Some average ->
        (0 < Qsum (map views daily))%Q
        /\ (average
            == Qsum (map watchTimeMs daily) / Qsum (map views daily) / 1000)%Q).
Proof.
  cbn zeta.
  set (daily := xDailyMetrics Date_parse LocalTZA videoMap rows).
  assert (Hrec : forall r, In r daily ->
            DailyMetric.source r = Platform.x
            /\ wholeDay r
            /\ DailyMetric.videoWatchViews r
               = VideoStat.views (overviewOf videoMap r)
            /\ DailyMetric.videoWatchTimeMs r
               = VideoStat.watchTimeMs (overviewOf videoMap r)
            /\ DailyMetric.videoCompletionRateSum r
               = (VideoStat.completionRate (overviewOf videoMap r)
                  * VideoStat.views (overviewOf videoMap r))%Q)
    by (intros r; apply xDailyMetrics_overviewOf).
  assert (Hviews : (MonthSummary.videoWatchViews (PlatformData.totals (build daily))
                    == Qsum (map (fun r => VideoStat.views (overviewOf videoMap r))
                               daily))%Q).
  { rewrite (PlatformDataFacts.totals_of_series formatMonthLabel daily
               MetricKey.videoWatchViews : (MonthSummary.videoWatchViews _ == _)%Q).
    erewrite map_ext_in; [reflexivity|].
    intros r Hr. cbn [DailyMetric.get]. now apply Hrec. }
  assert (Htime : (MonthSummary.videoWatchTimeMs (PlatformData.totals (build daily))
                   == Qsum (map (fun r => VideoStat.watchTimeMs
                                            (overviewOf videoMap r)) daily))%Q).
  { rewrite (PlatformDataFacts.totals_of_series formatMonthLabel daily
               MetricKey.videoWatchTimeMs : (MonthSummary.videoWatchTimeMs _ == _)%Q).
    erewrite map_ext_in; [reflexivity|].
    intros r Hr. cbn [DailyMetric.get]. now apply Hrec. }
  assert (Hrate : (MonthSummary.videoCompletionRateSum
                     (PlatformData.totals (build daily))
                   == Qsum (map (fun r => VideoStat.completionRate
                                            (overviewOf videoMap r)
                                          * VideoStat.views (overviewOf videoMap r))
                              daily))%Q).
  { rewrite (PlatformDataFacts.totals_of_series formatMonthLabel daily
               MetricKey.videoCompletionRateSum
             : (MonthSummary.videoCompletionRateSum _ == _)%Q).
    erewrite map_ext_in; [reflexivity|].
    intros r Hr. cbn [DailyMetric.get]. now apply Hrec. }
  split; [exact Hrec|split].
  - intros average. unfold averageCompletionRate. cbn zeta.
    destruct (Qgtb _ 0) eqn:E; [|discriminate].
    intros H. apply CalendarDayFacts.Some_inj in H. subst average.
    apply PostFacts.Qgtb_lt in E. rewrite Hviews in E.
    split; [exact E|]. now rewrite Hrate, Hviews.
  - intros average. unfold averageWatchTimeSeconds. cbn zeta.
    destruct (Qgtb _ 0) eqn:E; [|discriminate].
    intros H. apply CalendarDayFacts.Some_inj in H. subst average.
    apply PostFacts.Qgtb_lt in E. rewrite Hviews in E.
    split; [exact E|]. now rewrite Htime, Hviews.
Qed.
End Facts.

End VideoTotalsFacts.

(* ------------------------------------------------------------------ *)
(** ** The deduplication of the posts                                  *)
(* ------------------------------------------------------------------ *)

Module RawPostFacts.
Import JsMap JsMapFacts GroupFoldFacts PostFacts.

Local Abbreviation stepOrStop :=
  (fun dedupedPosts post =>
     match dedupedPosts with
     | Some m => rawDedupStep m post
     | None => None
     end).

Lemma rawPostKey_None (post : RawPost.t) :
  rawPostKey post = None <-> unkeyed post.
Proof.
  unfold rawPostKey, unkeyed.
  destruct (String.eqb_spec (RawPost.link post) "") as [E|E].
  - destruct (RawPost.createdAt post); split; try discriminate; try tauto.
    intros [_ H]. discriminate.
  - split; [discriminate|]. intros [H _]. contradiction.
Qed.

Lemma rawKeyOr_Some (post : RawPost.t) (key : string) :
  rawPostKey post = Some key -> rawKeyOr post = key.
Proof. unfold rawKeyOr. now intros ->. Qed.

Lemma rawDedupStep_upsert (m : JsMap.t RawPost.t) (post : RawPost.t) :
  rawPostKey post <> None ->
  rawDedupStep m post = Some (upsert rawKeyOr (fun p => p) rawChoose m post).
Proof.
  intros Hk. unfold rawDedupStep, upsert, rawKeyOr, rawChoose.
  destruct (rawPostKey post) as [key|]; [|contradiction]. f_equal.
  destruct (get key m) as [existing|] eqn:E; [|reflexivity].
  destruct (_ || _); [reflexivity|]. symmetry. now apply set_same_value.
Qed.

Lemma rawDedup_stopped (l : list RawPost.t) : fold_left stepOrStop l None = None.
Proof. induction l as [|x l IH]; [reflexivity|exact IH]. Qed.

(** While every post has a key the loop is the grouping loop. *)
Lemma rawDedup_keyed (l : list RawPost.t) : forall m,
  Forall (fun p => rawPostKey p <> None) l ->
  fold_left stepOrStop l (Some m)
  = Some (fold_left (upsert rawKeyOr (fun p => p) rawChoose) l m).
Proof.
  induction l as [|x l IH]; intros m H; [reflexivity|].
  inversion H as [|? ? Hx Hl]; subst. cbn [fold_left].
  rewrite (rawDedupStep_upsert m x Hx). now apply IH.
Qed.

(** A post without a key stops the loop, wherever it stands. *)
Lemma rawDedup_throws (l : list RawPost.t) : forall acc,
  Exists unkeyed l -> fold_left stepOrStop l acc = None.
Proof.
  induction l as [|x l IH]; intros acc H; [inversion H|].
  cbn [fold_left]. inversion H as [? ? Hx|? ? Hl]; subst.
  - apply rawPostKey_None in Hx. destruct acc as [m|].
    + unfold rawDedupStep. rewrite Hx. apply rawDedup_stopped.
    + apply rawDedup_stopped.
  - now apply IH.
Qed.

Lemma keyed_or_not (l : list RawPost.t) :
  Forall (fun p => rawPostKey p <> None) l \/ Exists unkeyed l.
Proof.
  induction l as [|x l [IH|IH]].
  - left. constructor.
  - destruct (rawPostKey x) as [key|] eqn:E.
    + left. constructor; [congruence|exact IH].
    + right. left. now apply rawPostKey_None.
  - right. now right.
Qed.

Lemma raw_fold_best (xs : list RawPost.t) : forall x,
  rawBest (fold_left rawChoose xs x) (x :: xs).
Proof.
  induction xs as [|y xs IH] using rev_ind; intros x.
  - split; [now left|]. intros q [<-|[]]. split; [apply Qle_refl|auto].
  - rewrite fold_left_app. cbn [fold_left].
    destruct (IH x) as [Hin Hbest]. set (r := fold_left rawChoose xs x) in *.
    unfold rawChoose.
    destruct (Qgtb _ _) eqn:Egt; cbn [orb].
    { apply Qgtb_lt in Egt. split; [apply in_snoc; now right|].
      intros q Hq. apply in_snoc in Hq as [Hq| ->].
      - destruct (Hbest q Hq) as [Hle _]. split.
        + eapply Qle_trans; [exact Hle|now apply Qlt_le_weak].
        + intros Heq. exfalso. rewrite Heq in Hle.
          exact (Qlt_not_le _ _ Egt Hle).
      - split; [apply Qle_refl|auto]. }
    apply Qgtb_false_le in Egt.
    destruct (Qeq_bool _ _ && _ && _) eqn:Etie.
    { apply andb_true_iff in Etie as [Etie Hr].
      apply andb_true_iff in Etie as [Heq Hy].
      apply Qeq_bool_iff in Heq. split; [apply in_snoc; now right|].
      intros q Hq. apply in_snoc in Hq as [Hq| ->].
      - destruct (Hbest q Hq) as [Hle _]. split; [now rewrite Heq|auto].
      - split; [apply Qle_refl|auto]. }
    split; [apply in_snoc; now left|].
    intros q Hq. apply in_snoc in Hq as [Hq| ->]; [now apply Hbest|].
    split; [exact Egt|]. intros Heq Hy.
    apply Qeq_bool_iff in Heq. rewrite Heq, Hy in Etie. cbn in Etie.
    now apply negb_false_iff in Etie.
Qed.

Lemma rawChoose_key (e p : RawPost.t) :
  rawKeyOr p = rawKeyOr e -> rawKeyOr (rawChoose e p) = rawKeyOr e.
Proof. unfold rawChoose. destruct (_ || _); congruence. Qed.

(** Among posts that all have a key, [sameRawKey] is the equality of
    the keys. *)
Lemma filter_sameRawKey (p : RawPost.t) (l : list RawPost.t) :
  rawPostKey p <> None ->
  Forall (fun o => rawPostKey o <> None) l ->
  filter (sameRawKey p) l
  = filter (fun o => String.eqb (rawKeyOr o) (rawKeyOr p)) l.
Proof.
  intros Hp Hl. apply filter_ext_in. intros o Ho.
  rewrite Forall_forall in Hl. specialize (Hl o Ho).
  unfold sameRawKey, rawKeyOr.
  destruct (rawPostKey p) as [x|]; [|contradiction].
  destruct (rawPostKey o) as [y|]; [|contradiction].
  apply String.eqb_sym.
Qed.

(** The posts kept are posts of the input. *)
Lemma fold_values_origin (l : list RawPost.t) (r : RawPost.t) :
  In r (values (fold_left (upsert rawKeyOr (fun p => p) rawChoose) l empty)) ->
  In r l.
Proof.
  intros Hr. unfold values in Hr. apply in_map_iff in Hr as ([k v] & <- & Hin).
  cbn [snd]. apply in_get_Some in Hin.
  2:{ apply NoDup_keys_fold. constructor. }
  rewrite get_groupFold in Hin.
  destruct (groupOf rawKeyOr k l) as [|x xs] eqn:E; cbn in Hin; [discriminate|].
  injection Hin as <-.
  destruct (raw_fold_best xs x) as [Hb _]. rewrite <- E in Hb.
  now apply filter_In in Hb.
Qed.

(** The loop on posts with valid dates, entry by entry. *)
Lemma rawDedup_valid (posts : list LinkedInPostRecord.t) : forall m,
  fold_left stepOrStop (map RawPost.ofRecord posts)
    (Some (map (fun e => (fst e, RawPost.ofRecord (snd e))) m))
  = Some (map (fun e => (fst e, RawPost.ofRecord (snd e)))
            (fold_left linkedInDedupStep posts m)).
Proof.
  assert (Hget : forall k (m : JsMap.t LinkedInPostRecord.t),
            get k (map (fun e => (fst e, RawPost.ofRecord (snd e))) m)
            = option_map RawPost.ofRecord (get k m)).
  { intros k m. induction m as [|[k' v'] m IH]; [reflexivity|].
    cbn. now destruct (String.eqb k' k). }
  assert (Hset : forall k v (m : JsMap.t LinkedInPostRecord.t),
            set k (RawPost.ofRecord v)
              (map (fun e => (fst e, RawPost.ofRecord (snd e))) m)
            = map (fun e => (fst e, RawPost.ofRecord (snd e))) (set k v m)).
  { intros k v m. induction m as [|[k' v'] m IH]; [reflexivity|].
    cbn. destruct (String.eqb k' k); [reflexivity|]. cbn. now rewrite IH. }
  induction posts as [|x posts IH]; intros m; [reflexivity|].
  cbn [map fold_left]. rewrite <- IH. f_equal.
  unfold rawDedupStep, linkedInDedupStep.
  assert (Ek : rawPostKey (RawPost.ofRecord x) = Some (linkedInPostKey x)).
  { unfold rawPostKey, linkedInPostKey. cbn.
    now destruct (String.eqb (LinkedInPostRecord.link x) ""). }
  rewrite Ek, Hget. f_equal.
  destruct (get (linkedInPostKey x) m) as [existing|]; cbn [option_map].
  - cbn [RawPost.impressions RawPost.hasTime RawPost.ofRecord].
    destruct (_ || _); [apply Hset|reflexivity].
  - apply Hset.
Qed.

(** X28. The deduplication of the posts.  On platform B the loop over
    the posts throws exactly when a post has no link and its date is the
    [Invalid Date]: no key can be made of it.  Otherwise every post has
    its key, the link when that is not empty and else the title joined
    to the ISO timestamp, the posts kept hold exactly one record for
    each key, that record is a post of the key, none of the key has more
    impressions, and it has a known time of day when some post of the key
    with as many impressions has one.  On posts with valid dates the
    loop never throws and is [linkedInUniquePosts].  On platform A the
    key is the link or else the text joined to the timestamp, if any,
    one record is kept for each key, and none of the key has more
    impressions. *)
Theorem dedup_groups_by_key :
  (forall rawPosts : list RawPost.t,
     (rawUniquePosts rawPosts = None
      <-> exists p, In p rawPosts /\ unkeyed p)
     /\ forall uniquePosts,
          rawUniquePosts rawPosts = Some uniquePosts ->
          forall p, In p rawPosts ->
            exists key r,
              rawPostKey p = Some key
              /\ (RawPost.link p <> EmptyString -> key = RawPost.link p)
              /\ (RawPost.link p = EmptyString ->
                  exists time,
                    RawPost.createdAt p = DateObject.at_ time
                    /\ key = (RawPost.title p ++ "-" ++ toISOString time)%string)
              /\ filter (sameRawKey p) uniquePosts = [r]
              /\ rawBest r (filter (sameRawKey p) rawPosts))
  /\ (forall posts : list LinkedInPostRecord.t,
        rawUniquePosts (map RawPost.ofRecord posts)
        = Some (map RawPost.ofRecord (linkedInUniquePosts posts)))
  /\ (forall (posts : list XPostSummary.t) p, In p posts ->
        (XPostSummary.link p <> EmptyString -> xPostKey p = XPostSummary.link p)
        /\ (XPostSummary.link p = EmptyString ->
            xPostKey p
            = (XPostSummary.text p ++ "-"
               ++ match XPostSummary.createdAt p with
                  | Some time => toISOString time
                  | None => EmptyString
                  end)%string)
        /\ exists r,
             filter (fun o => String.eqb (xPostKey o) (xPostKey p))
               (xUniquePosts posts) = [r]
             /\ xBest r (groupOf xPostKey (xPostKey p) posts)).
Proof.
  split; [|split].
  - intros rawPosts. unfold rawUniquePosts, rawDedup. split.
    + split.
      * intros H. destruct (keyed_or_not rawPosts) as [Hk|Hu].
        -- rewrite (rawDedup_keyed rawPosts empty Hk) in H. discriminate.
        -- apply Exists_exists in Hu. exact Hu.
      * intros H. apply Exists_exists in H.
        now rewrite (rawDedup_throws rawPosts _ H).
    + intros uniquePosts Hu p Hin.
      destruct (keyed_or_not rawPosts) as [Hk|Hx].
      2:{ rewrite (rawDedup_throws rawPosts _ Hx) in Hu. discriminate. }
      rewrite (rawDedup_keyed rawPosts empty Hk) in Hu.
      cbn [option_map] in Hu. injection Hu as <-.
      assert (Hp : rawPostKey p <> None).
      { rewrite Forall_forall in Hk. now apply Hk. }
      destruct (rawPostKey p) as [key|] eqn:Ekey; [|contradiction].
      destruct (filter_values_groupFold rawKeyOr (fun p => p) rawChoose
                  rawKeyOr (fun x => eq_refl) (fun e x => rawChoose_key e x)
                  rawPosts p Hin) as (r & Hfold & Hone).
      exists key, r. split; [reflexivity|]. split; [|split; [|split]].
      * intros Hl. unfold rawPostKey in Ekey.
        destruct (String.eqb_spec (RawPost.link p) ""); [contradiction|].
        congruence.
      * intros Hl. unfold rawPostKey in Ekey. rewrite Hl in Ekey.
        cbn [String.eqb] in Ekey.
        destruct (RawPost.createdAt p) as [time|]; [|discriminate].
        exists time. split; [reflexivity|congruence].
      * rewrite filter_sameRawKey; [exact Hone|congruence|].
        apply Forall_forall. intros o Ho.
        apply fold_values_origin in Ho. rewrite Forall_forall in Hk.
        now apply Hk.
      * rewrite (filter_sameRawKey p rawPosts) by (congruence || exact Hk).
        change (filter (fun o => String.eqb (rawKeyOr o) (rawKeyOr p)) rawPosts)
          with (groupOf rawKeyOr (rawKeyOr p) rawPosts).
        destruct (groupOf rawKeyOr (rawKeyOr p) rawPosts) as [|x xs];
          cbn in Hfold; [discriminate|].
        injection Hfold as <-. apply raw_fold_best.
  - intros posts. unfold rawUniquePosts, rawDedup, linkedInUniquePosts.
    pose proof (rawDedup_valid posts empty) as H.
    refine (eq_trans (f_equal (option_map values) H) _).
    cbn [option_map]. f_equal.
    unfold values. rewrite !map_map. reflexivity.
  - intros posts p Hin. split; [|split].
    + intros Hl. unfold xPostKey.
      now destruct (String.eqb_spec (XPostSummary.link p) "").
    + intros Hl. unfold xPostKey. now rewrite Hl.
    + destruct (filter_values_groupFold xPostKey (fun p => p) xChoose xPostKey
                  (fun x => eq_refl) (fun e x => xChoose_key e x) posts p Hin)
        as (r & Hfold & Hone).
      exists r. split; [now rewrite xUniquePosts_fold|].
      destruct (groupOf xPostKey (xPostKey p) posts) as [|x xs];
        cbn in Hfold; [discriminate|].
      injection Hfold as <-. apply x_fold_best.
Qed.

(** C3 fails on a post export of platform B with a row that has a
    title, no link, and the creation date 1/1/300000.  The year is beyond
    the range of time values, so [parseLinkedInDateTime] returns an
    [Invalid Date]; the row mapper, which only drops a row without a
    date, pushes the post; and the loop that deduplicates throws when it
    makes the key of the post, so that no post is grouped, whatever the
    other rows are.  With a link the same row is kept. *)
Lemma dedup_throws_on_far_future :
  parseLinkedInDateTime Sample.parseNothing (U_string "1/1/300000")
  = Some DateObject.Invalid
  /\ linkedInRawPosts Sample.parseNothing [MoreSamples.farFutureRow]
     = [MoreSamples.farFuturePost]
  /\ rawPostKey MoreSamples.farFuturePost = None
  /\ rawUniquePosts
       (linkedInRawPosts Sample.parseNothing [MoreSamples.farFutureRow])
     = None
  /\ (forall before after : list RawPost.t,
        rawUniquePosts (before ++ MoreSamples.farFuturePost :: after) = None)
  /\ option_map (@List.length RawPost.t)
       (rawUniquePosts
          (linkedInRawPosts Sample.parseNothing
             [MoreSamples.farFutureLinkedRow]))
     = Some 1%nat.
Proof.
  split; [vm_compute; reflexivity|].
  split; [vm_compute; reflexivity|].
  split; [reflexivity|].
  split; [vm_compute; reflexivity|].
  split; [|vm_compute; reflexivity].
  intros before after. unfold rawUniquePosts, rawDedup.
  rewrite rawDedup_throws; [reflexivity|].
  apply Exists_exists. exists MoreSamples.farFuturePost.
  split; [apply in_elt|]. now split.
Qed.

End RawPostFacts.
